(** * Yutani compositor (userspace/gui/compositor/compositor.c)

    A shallow embedding of the window registry, the z-order manager, the
    hit test, the input dispatcher and the protocol loop of the compositor,
    followed by the properties the specification states about them.

    Conventions of the embedding:
    - [yutani_globals_t] is threaded explicitly; the window records that the
      C code reaches through pointers live in [heap], and a pointer is the
      index of its record.  Windows are never freed by the source, so an
      index is never reused.
    - a computation that dereferences NULL or a dangling mapping has no
      result: such functions return [option], [None] standing for the crash;
    - [pex_send] appends to [outbox]; shared memory is the finite map [shm];
    - integers are [Z]; the unsigned 16-bit quantities of the z-order code,
      the pointer arithmetic of [handle_mouse_event], the divisions of
      [window_tile] and the sizes of the shared-memory regions wrap
      explicitly, as 32-bit [int], [unsigned int] and [size_t] do on the
      compositor's target (it casts ids to pointers throughout);
    - reading a pixel outside the region that backs a buffer has no result
      either. *)

From Stdlib Require Import ZArith Bool Lia.
From stdpp Require Import base tactics option list gmap.

Local Open Scope Z_scope.

(** ** Enumerations *)

(* a pointer to a window record: its index in [heap] *)
Abbreviation ptr := nat (only parsing).

(* anim_mode: 0 is "no animation"; the code tests it with [if (w->anim_mode)] *)
Inductive yutani_effect := YUTANI_EFFECT_NONE | YUTANI_EFFECT_FADE_IN | YUTANI_EFFECT_FADE_OUT.

Inductive yutani_mouse_state :=
  YUTANI_MOUSE_STATE_NORMAL | YUTANI_MOUSE_STATE_MOVING
| YUTANI_MOUSE_STATE_DRAGGING | YUTANI_MOUSE_STATE_RESIZING.

Inductive yutani_mouse_event_type :=
  YUTANI_MOUSE_EVENT_TYPE_RELATIVE | YUTANI_MOUSE_EVENT_TYPE_ABSOLUTE
| YUTANI_MOUSE_EVENT_TYPE_OTHER.

Inductive yutani_mouse_event_kind :=
  YUTANI_MOUSE_EVENT_CLICK | YUTANI_MOUSE_EVENT_DRAG | YUTANI_MOUSE_EVENT_RAISE
| YUTANI_MOUSE_EVENT_DOWN | YUTANI_MOUSE_EVENT_MOVE | YUTANI_MOUSE_EVENT_LEAVE
| YUTANI_MOUSE_EVENT_ENTER.

#[global] Instance yutani_effect_eq_dec : EqDecision yutani_effect.
Proof. solve_decision. Defined.
#[global] Instance yutani_mouse_state_eq_dec : EqDecision yutani_mouse_state.
Proof. solve_decision. Defined.

(** ** Constants and external functions

    The headers that define the wire constants (lib/yutani.h, yutani_int.h,
    lib/kbd.h, lib/mouse.h) are not part of the source tree under study, and
    the rotation of a point goes through the C library's [sin] and [cos].
    They are collected in one interface; nothing below depends on their
    values beyond the stated facts. *)

Class YutaniConsts := {
  YUTANI_ZORDER_TOP : Z;
  YUTANI_ZORDER_BOTTOM : Z;
  MOUSE_SCALE : Z;
  YUTANI_MOUSE_BUTTON_LEFT : Z;
  YUTANI_MOUSE_BUTTON_MIDDLE : Z;
  KEY_ACTION_DOWN : Z;
  KEY_MOD_LEFT_CTRL : Z;
  KEY_MOD_LEFT_SHIFT : Z;
  KEY_MOD_LEFT_ALT : Z;
  KEY_MOD_LEFT_SUPER : Z;
  KEY_F10 : Z;
  KEY_ARROW_LEFT : Z;
  KEY_ARROW_RIGHT : Z;
  KEY_ARROW_UP : Z;
  KEY_ARROW_DOWN : Z;
  YUTANI_BIND_STEAL : Z;
  YUTANI_MSG__MAGIC : Z;
  yutani_animation_lengths : yutani_effect -> Z;
  (* [(int32_t)n_x, (int32_t)n_y] for [n = R(pi * deg / 180) (t_x, t_y)],
     computed in double precision *)
  fp_rotate : Z -> Z -> Z -> Z * Z;
  (* what a region holds when [syscall_shm_obtain] creates it *)
  shm_fresh_pixels : Z -> Z -> Z;
  zorder_top_u16 : 0 <= YUTANI_ZORDER_TOP < 65536;
  zorder_bottom_u16 : 0 <= YUTANI_ZORDER_BOTTOM < 65536;
  zorder_top_bottom : YUTANI_ZORDER_TOP <> YUTANI_ZORDER_BOTTOM;
  zorder_top_1 : YUTANI_ZORDER_TOP <> 1;
  zorder_bottom_1 : YUTANI_ZORDER_BOTTOM <> 1;
  mouse_scale_pos : 0 < MOUSE_SCALE
}.

(** ** Data model *)

Record key_event_t := { action : Z; modifiers : Z; keycode : Z }.
Record key_event_state_t := { k_alt : Z }.
Record mouse_device_packet_t := { x_difference : Z; y_difference : Z; buttons : Z }.
Record key_bind := { bind_owner : Z; bind_response : Z }.
Record shm_region := { region_size : Z; region_pixels : Z -> Z }.

Module rect.
Record t := mk { x : Z; y : Z; width : Z; height : Z }.
End rect.

(** The messages of the protocol, incoming and outgoing alike. *)
Inductive yutani_msg :=
| YUTANI_MSG_HELLO
| YUTANI_MSG_WELCOME (width height : Z)
| YUTANI_MSG_WINDOW_NEW (width height : Z)
| YUTANI_MSG_WINDOW_INIT (wid width height bufid : Z)
| YUTANI_MSG_FLIP (wid : Z)
| YUTANI_MSG_FLIP_REGION (wid x y width height : Z)
| YUTANI_MSG_KEY_EVENT (wid : Z) (event : key_event_t) (state : key_event_state_t)
| YUTANI_MSG_MOUSE_EVENT (wid : Z) (event : mouse_device_packet_t)
    (type : yutani_mouse_event_type)
| YUTANI_MSG_WINDOW_MOUSE_EVENT (wid new_x new_y old_x old_y buttons : Z)
    (command : yutani_mouse_event_kind)
| YUTANI_MSG_WINDOW_MOVE (wid x y : Z)
| YUTANI_MSG_WINDOW_CLOSE (wid : Z)
| YUTANI_MSG_WINDOW_STACK (wid z : Z)
| YUTANI_MSG_RESIZE_REQUEST (wid width height bufid : Z)
| YUTANI_MSG_RESIZE_OFFER (wid width height bufid : Z)
| YUTANI_MSG_RESIZE_ACCEPT (wid width height bufid : Z)
| YUTANI_MSG_RESIZE_BUFID (wid width height bufid : Z)
| YUTANI_MSG_RESIZE_DONE (wid width height bufid : Z)
| YUTANI_MSG_QUERY_WINDOWS
| YUTANI_MSG_WINDOW_ADVERTISE (wid flags : Z) (offsets : list Z) (size : Z)
    (strings : option (list Z))
| YUTANI_MSG_SUBSCRIBE
| YUTANI_MSG_UNSUBSCRIBE
| YUTANI_MSG_NOTIFY
| YUTANI_MSG_SESSION_END
| YUTANI_MSG_WINDOW_FOCUS (wid : Z)
| YUTANI_MSG_WINDOW_FOCUS_CHANGE (wid focused : Z)
| YUTANI_MSG_KEY_BIND (key modifiers response : Z)
| YUTANI_MSG_WINDOW_DRAG_START (wid : Z)
| YUTANI_MSG_WINDOW_UPDATE_SHAPE (wid set_shape : Z)
| YUTANI_MSG_UNKNOWN (type : Z).

Record pex_packet_t := { source : Z; size : Z; magic : Z; data : yutani_msg }.

Inductive pex_output :=
| Pex_send (dest : Z) (m : yutani_msg)
| Pex_broadcast (m : yutani_msg).

Module window.
Record t := {
  wid : Z;  (* yutani_wid_t *)
  owner : Z;  (* client address on the transport *)
  x : Z;
  y : Z;
  z : Z;  (* unsigned short *)
  width : Z;
  height : Z;
  bufid : Z;
  buffer : option Z;  (* mapping of a shared-memory region, named by its key; None is NULL *)
  newbufid : Z;
  newbuffer : option Z;
  rotation : Z;  (* degrees *)
  client_flags : Z;
  client_offsets : list Z;
  client_length : Z;
  client_strings : option (list Z);
  anim_mode : yutani_effect;
  anim_start : Z;
  alpha_threshold : Z
}.
Definition set_x (v : Z) (w : t) : t :=
  {| wid := wid w; owner := owner w; x := v; y := y w; z := z w; width := width w;
     height := height w; bufid := bufid w; buffer := buffer w; newbufid := newbufid w;
     newbuffer := newbuffer w; rotation := rotation w; client_flags := client_flags w;
     client_offsets := client_offsets w; client_length := client_length w;
     client_strings := client_strings w; anim_mode := anim_mode w; anim_start := anim_start w;
     alpha_threshold := alpha_threshold w |}.
Definition set_y (v : Z) (w : t) : t :=
  {| wid := wid w; owner := owner w; x := x w; y := v; z := z w; width := width w;
     height := height w; bufid := bufid w; buffer := buffer w; newbufid := newbufid w;
     newbuffer := newbuffer w; rotation := rotation w; client_flags := client_flags w;
     client_offsets := client_offsets w; client_length := client_length w;
     client_strings := client_strings w; anim_mode := anim_mode w; anim_start := anim_start w;
     alpha_threshold := alpha_threshold w |}.
Definition set_z (v : Z) (w : t) : t :=
  {| wid := wid w; owner := owner w; x := x w; y := y w; z := v; width := width w;
     height := height w; bufid := bufid w; buffer := buffer w; newbufid := newbufid w;
     newbuffer := newbuffer w; rotation := rotation w; client_flags := client_flags w;
     client_offsets := client_offsets w; client_length := client_length w;
     client_strings := client_strings w; anim_mode := anim_mode w; anim_start := anim_start w;
     alpha_threshold := alpha_threshold w |}.
Definition set_width (v : Z) (w : t) : t :=
  {| wid := wid w; owner := owner w; x := x w; y := y w; z := z w; width := v;
     height := height w; bufid := bufid w; buffer := buffer w; newbufid := newbufid w;
     newbuffer := newbuffer w; rotation := rotation w; client_flags := client_flags w;
     client_offsets := client_offsets w; client_length := client_length w;
     client_strings := client_strings w; anim_mode := anim_mode w; anim_start := anim_start w;
     alpha_threshold := alpha_threshold w |}.
Definition set_height (v : Z) (w : t) : t :=
  {| wid := wid w; owner := owner w; x := x w; y := y w; z := z w; width := width w;
     height := v; bufid := bufid w; buffer := buffer w; newbufid := newbufid w;
     newbuffer := newbuffer w; rotation := rotation w; client_flags := client_flags w;
     client_offsets := client_offsets w; client_length := client_length w;
     client_strings := client_strings w; anim_mode := anim_mode w; anim_start := anim_start w;
     alpha_threshold := alpha_threshold w |}.
Definition set_bufid (v : Z) (w : t) : t :=
  {| wid := wid w; owner := owner w; x := x w; y := y w; z := z w; width := width w;
     height := height w; bufid := v; buffer := buffer w; newbufid := newbufid w;
     newbuffer := newbuffer w; rotation := rotation w; client_flags := client_flags w;
     client_offsets := client_offsets w; client_length := client_length w;
     client_strings := client_strings w; anim_mode := anim_mode w; anim_start := anim_start w;
     alpha_threshold := alpha_threshold w |}.
Definition set_buffer (v : option Z) (w : t) : t :=
  {| wid := wid w; owner := owner w; x := x w; y := y w; z := z w; width := width w;
     height := height w; bufid := bufid w; buffer := v; newbufid := newbufid w;
     newbuffer := newbuffer w; rotation := rotation w; client_flags := client_flags w;
     client_offsets := client_offsets w; client_length := client_length w;
     client_strings := client_strings w; anim_mode := anim_mode w; anim_start := anim_start w;
     alpha_threshold := alpha_threshold w |}.
Definition set_newbufid (v : Z) (w : t) : t :=
  {| wid := wid w; owner := owner w; x := x w; y := y w; z := z w; width := width w;
     height := height w; bufid := bufid w; buffer := buffer w; newbufid := v;
     newbuffer := newbuffer w; rotation := rotation w; client_flags := client_flags w;
     client_offsets := client_offsets w; client_length := client_length w;
     client_strings := client_strings w; anim_mode := anim_mode w; anim_start := anim_start w;
     alpha_threshold := alpha_threshold w |}.
Definition set_newbuffer (v : option Z) (w : t) : t :=
  {| wid := wid w; owner := owner w; x := x w; y := y w; z := z w; width := width w;
     height := height w; bufid := bufid w; buffer := buffer w; newbufid := newbufid w;
     newbuffer := v; rotation := rotation w; client_flags := client_flags w;
     client_offsets := client_offsets w; client_length := client_length w;
     client_strings := client_strings w; anim_mode := anim_mode w; anim_start := anim_start w;
     alpha_threshold := alpha_threshold w |}.
Definition set_rotation (v : Z) (w : t) : t :=
  {| wid := wid w; owner := owner w; x := x w; y := y w; z := z w; width := width w;
     height := height w; bufid := bufid w; buffer := buffer w; newbufid := newbufid w;
     newbuffer := newbuffer w; rotation := v; client_flags := client_flags w;
     client_offsets := client_offsets w; client_length := client_length w;
     client_strings := client_strings w; anim_mode := anim_mode w; anim_start := anim_start w;
     alpha_threshold := alpha_threshold w |}.
Definition set_client_flags (v : Z) (w : t) : t :=
  {| wid := wid w; owner := owner w; x := x w; y := y w; z := z w; width := width w;
     height := height w; bufid := bufid w; buffer := buffer w; newbufid := newbufid w;
     newbuffer := newbuffer w; rotation := rotation w; client_flags := v;
     client_offsets := client_offsets w; client_length := client_length w;
     client_strings := client_strings w; anim_mode := anim_mode w; anim_start := anim_start w;
     alpha_threshold := alpha_threshold w |}.
Definition set_client_offsets (v : list Z) (w : t) : t :=
  {| wid := wid w; owner := owner w; x := x w; y := y w; z := z w; width := width w;
     height := height w; bufid := bufid w; buffer := buffer w; newbufid := newbufid w;
     newbuffer := newbuffer w; rotation := rotation w; client_flags := client_flags w;
     client_offsets := v; client_length := client_length w; client_strings := client_strings w;
     anim_mode := anim_mode w; anim_start := anim_start w;
     alpha_threshold := alpha_threshold w |}.
Definition set_client_length (v : Z) (w : t) : t :=
  {| wid := wid w; owner := owner w; x := x w; y := y w; z := z w; width := width w;
     height := height w; bufid := bufid w; buffer := buffer w; newbufid := newbufid w;
     newbuffer := newbuffer w; rotation := rotation w; client_flags := client_flags w;
     client_offsets := client_offsets w; client_length := v;
     client_strings := client_strings w; anim_mode := anim_mode w; anim_start := anim_start w;
     alpha_threshold := alpha_threshold w |}.
Definition set_client_strings (v : option (list Z)) (w : t) : t :=
  {| wid := wid w; owner := owner w; x := x w; y := y w; z := z w; width := width w;
     height := height w; bufid := bufid w; buffer := buffer w; newbufid := newbufid w;
     newbuffer := newbuffer w; rotation := rotation w; client_flags := client_flags w;
     client_offsets := client_offsets w; client_length := client_length w; client_strings := v;
     anim_mode := anim_mode w; anim_start := anim_start w;
     alpha_threshold := alpha_threshold w |}.
Definition set_anim_mode (v : yutani_effect) (w : t) : t :=
  {| wid := wid w; owner := owner w; x := x w; y := y w; z := z w; width := width w;
     height := height w; bufid := bufid w; buffer := buffer w; newbufid := newbufid w;
     newbuffer := newbuffer w; rotation := rotation w; client_flags := client_flags w;
     client_offsets := client_offsets w; client_length := client_length w;
     client_strings := client_strings w; anim_mode := v; anim_start := anim_start w;
     alpha_threshold := alpha_threshold w |}.
Definition set_anim_start (v : Z) (w : t) : t :=
  {| wid := wid w; owner := owner w; x := x w; y := y w; z := z w; width := width w;
     height := height w; bufid := bufid w; buffer := buffer w; newbufid := newbufid w;
     newbuffer := newbuffer w; rotation := rotation w; client_flags := client_flags w;
     client_offsets := client_offsets w; client_length := client_length w;
     client_strings := client_strings w; anim_mode := anim_mode w; anim_start := v;
     alpha_threshold := alpha_threshold w |}.
Definition set_alpha_threshold (v : Z) (w : t) : t :=
  {| wid := wid w; owner := owner w; x := x w; y := y w; z := z w; width := width w;
     height := height w; bufid := bufid w; buffer := buffer w; newbufid := newbufid w;
     newbuffer := newbuffer w; rotation := rotation w; client_flags := client_flags w;
     client_offsets := client_offsets w; client_length := client_length w;
     client_strings := client_strings w; anim_mode := anim_mode w; anim_start := anim_start w;
     alpha_threshold := v |}.
End window.

Record yutani_globals_t := {
  heap : list window.t;  (* the malloc'ed window records; a pointer is an index *)
  width : Z;  (* display width *)
  height : Z;  (* display height *)
  windows : list ptr;
  wids_to_windows : gmap Z ptr;
  clients_to_windows : gmap Z (list ptr);
  key_binds : gmap Z key_bind;
  mid_zs : list ptr;  (* back to front *)
  bottom_z : option ptr;
  top_z : option ptr;
  update_list : list rect.t;  (* queued damage *)
  window_subscribers : list Z;
  mouse_x : Z;
  mouse_y : Z;
  last_mouse_x : Z;
  last_mouse_y : Z;
  mouse_state : yutani_mouse_state;
  mouse_window : option ptr;
  mouse_init_x : Z;
  mouse_init_y : Z;
  mouse_win_x : Z;
  mouse_win_y : Z;
  mouse_click_x : Z;
  mouse_click_y : Z;
  mouse_drag_button : Z;
  mouse_moved : Z;
  resizing_window : option ptr;
  resizing_w : Z;
  resizing_h : Z;
  focused_window : option ptr;
  old_hover_window : option ptr;
  tick_count : Z;
  kbd_state : key_event_state_t;
  debug_shapes : Z;
  debug_bounds : Z;
  next_buf_id_static : Z;  (* static int _next of next_buf_id *)
  next_wid_static : Z;  (* static int _next of next_wid *)
  shm : gmap Z shm_region;  (* regions this process holds, by key *)
  outbox : list pex_output  (* what pex_send and pex_broadcast put on the transport, oldest first *)
}.
Definition set_heap (v : list window.t) (yg : yutani_globals_t) : yutani_globals_t :=
  {| heap := v; width := width yg; height := height yg; windows := windows yg;
     wids_to_windows := wids_to_windows yg; clients_to_windows := clients_to_windows yg;
     key_binds := key_binds yg; mid_zs := mid_zs yg; bottom_z := bottom_z yg;
     top_z := top_z yg; update_list := update_list yg;
     window_subscribers := window_subscribers yg; mouse_x := mouse_x yg; mouse_y := mouse_y yg;
     last_mouse_x := last_mouse_x yg; last_mouse_y := last_mouse_y yg;
     mouse_state := mouse_state yg; mouse_window := mouse_window yg;
     mouse_init_x := mouse_init_x yg; mouse_init_y := mouse_init_y yg;
     mouse_win_x := mouse_win_x yg; mouse_win_y := mouse_win_y yg;
     mouse_click_x := mouse_click_x yg; mouse_click_y := mouse_click_y yg;
     mouse_drag_button := mouse_drag_button yg; mouse_moved := mouse_moved yg;
     resizing_window := resizing_window yg; resizing_w := resizing_w yg;
     resizing_h := resizing_h yg; focused_window := focused_window yg;
     old_hover_window := old_hover_window yg; tick_count := tick_count yg;
     kbd_state := kbd_state yg; debug_shapes := debug_shapes yg;
     debug_bounds := debug_bounds yg; next_buf_id_static := next_buf_id_static yg;
     next_wid_static := next_wid_static yg; shm := shm yg; outbox := outbox yg |}.
Definition set_windows (v : list ptr) (yg : yutani_globals_t) : yutani_globals_t :=
  {| heap := heap yg; width := width yg; height := height yg; windows := v;
     wids_to_windows := wids_to_windows yg; clients_to_windows := clients_to_windows yg;
     key_binds := key_binds yg; mid_zs := mid_zs yg; bottom_z := bottom_z yg;
     top_z := top_z yg; update_list := update_list yg;
     window_subscribers := window_subscribers yg; mouse_x := mouse_x yg; mouse_y := mouse_y yg;
     last_mouse_x := last_mouse_x yg; last_mouse_y := last_mouse_y yg;
     mouse_state := mouse_state yg; mouse_window := mouse_window yg;
     mouse_init_x := mouse_init_x yg; mouse_init_y := mouse_init_y yg;
     mouse_win_x := mouse_win_x yg; mouse_win_y := mouse_win_y yg;
     mouse_click_x := mouse_click_x yg; mouse_click_y := mouse_click_y yg;
     mouse_drag_button := mouse_drag_button yg; mouse_moved := mouse_moved yg;
     resizing_window := resizing_window yg; resizing_w := resizing_w yg;
     resizing_h := resizing_h yg; focused_window := focused_window yg;
     old_hover_window := old_hover_window yg; tick_count := tick_count yg;
     kbd_state := kbd_state yg; debug_shapes := debug_shapes yg;
     debug_bounds := debug_bounds yg; next_buf_id_static := next_buf_id_static yg;
     next_wid_static := next_wid_static yg; shm := shm yg; outbox := outbox yg |}.
Definition set_wids_to_windows (v : gmap Z ptr) (yg : yutani_globals_t) : yutani_globals_t :=
  {| heap := heap yg; width := width yg; height := height yg; windows := windows yg;
     wids_to_windows := v; clients_to_windows := clients_to_windows yg;
     key_binds := key_binds yg; mid_zs := mid_zs yg; bottom_z := bottom_z yg;
     top_z := top_z yg; update_list := update_list yg;
     window_subscribers := window_subscribers yg; mouse_x := mouse_x yg; mouse_y := mouse_y yg;
     last_mouse_x := last_mouse_x yg; last_mouse_y := last_mouse_y yg;
     mouse_state := mouse_state yg; mouse_window := mouse_window yg;
     mouse_init_x := mouse_init_x yg; mouse_init_y := mouse_init_y yg;
     mouse_win_x := mouse_win_x yg; mouse_win_y := mouse_win_y yg;
     mouse_click_x := mouse_click_x yg; mouse_click_y := mouse_click_y yg;
     mouse_drag_button := mouse_drag_button yg; mouse_moved := mouse_moved yg;
     resizing_window := resizing_window yg; resizing_w := resizing_w yg;
     resizing_h := resizing_h yg; focused_window := focused_window yg;
     old_hover_window := old_hover_window yg; tick_count := tick_count yg;
     kbd_state := kbd_state yg; debug_shapes := debug_shapes yg;
     debug_bounds := debug_bounds yg; next_buf_id_static := next_buf_id_static yg;
     next_wid_static := next_wid_static yg; shm := shm yg; outbox := outbox yg |}.
Definition set_clients_to_windows (v : gmap Z (list ptr)) (yg : yutani_globals_t) : yutani_globals_t :=
  {| heap := heap yg; width := width yg; height := height yg; windows := windows yg;
     wids_to_windows := wids_to_windows yg; clients_to_windows := v; key_binds := key_binds yg;
     mid_zs := mid_zs yg; bottom_z := bottom_z yg; top_z := top_z yg;
     update_list := update_list yg; window_subscribers := window_subscribers yg;
     mouse_x := mouse_x yg; mouse_y := mouse_y yg; last_mouse_x := last_mouse_x yg;
     last_mouse_y := last_mouse_y yg; mouse_state := mouse_state yg;
     mouse_window := mouse_window yg; mouse_init_x := mouse_init_x yg;
     mouse_init_y := mouse_init_y yg; mouse_win_x := mouse_win_x yg;
     mouse_win_y := mouse_win_y yg; mouse_click_x := mouse_click_x yg;
     mouse_click_y := mouse_click_y yg; mouse_drag_button := mouse_drag_button yg;
     mouse_moved := mouse_moved yg; resizing_window := resizing_window yg;
     resizing_w := resizing_w yg; resizing_h := resizing_h yg;
     focused_window := focused_window yg; old_hover_window := old_hover_window yg;
     tick_count := tick_count yg; kbd_state := kbd_state yg; debug_shapes := debug_shapes yg;
     debug_bounds := debug_bounds yg; next_buf_id_static := next_buf_id_static yg;
     next_wid_static := next_wid_static yg; shm := shm yg; outbox := outbox yg |}.
Definition set_key_binds (v : gmap Z key_bind) (yg : yutani_globals_t) : yutani_globals_t :=
  {| heap := heap yg; width := width yg; height := height yg; windows := windows yg;
     wids_to_windows := wids_to_windows yg; clients_to_windows := clients_to_windows yg;
     key_binds := v; mid_zs := mid_zs yg; bottom_z := bottom_z yg; top_z := top_z yg;
     update_list := update_list yg; window_subscribers := window_subscribers yg;
     mouse_x := mouse_x yg; mouse_y := mouse_y yg; last_mouse_x := last_mouse_x yg;
     last_mouse_y := last_mouse_y yg; mouse_state := mouse_state yg;
     mouse_window := mouse_window yg; mouse_init_x := mouse_init_x yg;
     mouse_init_y := mouse_init_y yg; mouse_win_x := mouse_win_x yg;
     mouse_win_y := mouse_win_y yg; mouse_click_x := mouse_click_x yg;
     mouse_click_y := mouse_click_y yg; mouse_drag_button := mouse_drag_button yg;
     mouse_moved := mouse_moved yg; resizing_window := resizing_window yg;
     resizing_w := resizing_w yg; resizing_h := resizing_h yg;
     focused_window := focused_window yg; old_hover_window := old_hover_window yg;
     tick_count := tick_count yg; kbd_state := kbd_state yg; debug_shapes := debug_shapes yg;
     debug_bounds := debug_bounds yg; next_buf_id_static := next_buf_id_static yg;
     next_wid_static := next_wid_static yg; shm := shm yg; outbox := outbox yg |}.
Definition set_mid_zs (v : list ptr) (yg : yutani_globals_t) : yutani_globals_t :=
  {| heap := heap yg; width := width yg; height := height yg; windows := windows yg;
     wids_to_windows := wids_to_windows yg; clients_to_windows := clients_to_windows yg;
     key_binds := key_binds yg; mid_zs := v; bottom_z := bottom_z yg; top_z := top_z yg;
     update_list := update_list yg; window_subscribers := window_subscribers yg;
     mouse_x := mouse_x yg; mouse_y := mouse_y yg; last_mouse_x := last_mouse_x yg;
     last_mouse_y := last_mouse_y yg; mouse_state := mouse_state yg;
     mouse_window := mouse_window yg; mouse_init_x := mouse_init_x yg;
     mouse_init_y := mouse_init_y yg; mouse_win_x := mouse_win_x yg;
     mouse_win_y := mouse_win_y yg; mouse_click_x := mouse_click_x yg;
     mouse_click_y := mouse_click_y yg; mouse_drag_button := mouse_drag_button yg;
     mouse_moved := mouse_moved yg; resizing_window := resizing_window yg;
     resizing_w := resizing_w yg; resizing_h := resizing_h yg;
     focused_window := focused_window yg; old_hover_window := old_hover_window yg;
     tick_count := tick_count yg; kbd_state := kbd_state yg; debug_shapes := debug_shapes yg;
     debug_bounds := debug_bounds yg; next_buf_id_static := next_buf_id_static yg;
     next_wid_static := next_wid_static yg; shm := shm yg; outbox := outbox yg |}.
Definition set_bottom_z (v : option ptr) (yg : yutani_globals_t) : yutani_globals_t :=
  {| heap := heap yg; width := width yg; height := height yg; windows := windows yg;
     wids_to_windows := wids_to_windows yg; clients_to_windows := clients_to_windows yg;
     key_binds := key_binds yg; mid_zs := mid_zs yg; bottom_z := v; top_z := top_z yg;
     update_list := update_list yg; window_subscribers := window_subscribers yg;
     mouse_x := mouse_x yg; mouse_y := mouse_y yg; last_mouse_x := last_mouse_x yg;
     last_mouse_y := last_mouse_y yg; mouse_state := mouse_state yg;
     mouse_window := mouse_window yg; mouse_init_x := mouse_init_x yg;
     mouse_init_y := mouse_init_y yg; mouse_win_x := mouse_win_x yg;
     mouse_win_y := mouse_win_y yg; mouse_click_x := mouse_click_x yg;
     mouse_click_y := mouse_click_y yg; mouse_drag_button := mouse_drag_button yg;
     mouse_moved := mouse_moved yg; resizing_window := resizing_window yg;
     resizing_w := resizing_w yg; resizing_h := resizing_h yg;
     focused_window := focused_window yg; old_hover_window := old_hover_window yg;
     tick_count := tick_count yg; kbd_state := kbd_state yg; debug_shapes := debug_shapes yg;
     debug_bounds := debug_bounds yg; next_buf_id_static := next_buf_id_static yg;
     next_wid_static := next_wid_static yg; shm := shm yg; outbox := outbox yg |}.
Definition set_top_z (v : option ptr) (yg : yutani_globals_t) : yutani_globals_t :=
  {| heap := heap yg; width := width yg; height := height yg; windows := windows yg;
     wids_to_windows := wids_to_windows yg; clients_to_windows := clients_to_windows yg;
     key_binds := key_binds yg; mid_zs := mid_zs yg; bottom_z := bottom_z yg; top_z := v;
     update_list := update_list yg; window_subscribers := window_subscribers yg;
     mouse_x := mouse_x yg; mouse_y := mouse_y yg; last_mouse_x := last_mouse_x yg;
     last_mouse_y := last_mouse_y yg; mouse_state := mouse_state yg;
     mouse_window := mouse_window yg; mouse_init_x := mouse_init_x yg;
     mouse_init_y := mouse_init_y yg; mouse_win_x := mouse_win_x yg;
     mouse_win_y := mouse_win_y yg; mouse_click_x := mouse_click_x yg;
     mouse_click_y := mouse_click_y yg; mouse_drag_button := mouse_drag_button yg;
     mouse_moved := mouse_moved yg; resizing_window := resizing_window yg;
     resizing_w := resizing_w yg; resizing_h := resizing_h yg;
     focused_window := focused_window yg; old_hover_window := old_hover_window yg;
     tick_count := tick_count yg; kbd_state := kbd_state yg; debug_shapes := debug_shapes yg;
     debug_bounds := debug_bounds yg; next_buf_id_static := next_buf_id_static yg;
     next_wid_static := next_wid_static yg; shm := shm yg; outbox := outbox yg |}.
Definition set_update_list (v : list rect.t) (yg : yutani_globals_t) : yutani_globals_t :=
  {| heap := heap yg; width := width yg; height := height yg; windows := windows yg;
     wids_to_windows := wids_to_windows yg; clients_to_windows := clients_to_windows yg;
     key_binds := key_binds yg; mid_zs := mid_zs yg; bottom_z := bottom_z yg;
     top_z := top_z yg; update_list := v; window_subscribers := window_subscribers yg;
     mouse_x := mouse_x yg; mouse_y := mouse_y yg; last_mouse_x := last_mouse_x yg;
     last_mouse_y := last_mouse_y yg; mouse_state := mouse_state yg;
     mouse_window := mouse_window yg; mouse_init_x := mouse_init_x yg;
     mouse_init_y := mouse_init_y yg; mouse_win_x := mouse_win_x yg;
     mouse_win_y := mouse_win_y yg; mouse_click_x := mouse_click_x yg;
     mouse_click_y := mouse_click_y yg; mouse_drag_button := mouse_drag_button yg;
     mouse_moved := mouse_moved yg; resizing_window := resizing_window yg;
     resizing_w := resizing_w yg; resizing_h := resizing_h yg;
     focused_window := focused_window yg; old_hover_window := old_hover_window yg;
     tick_count := tick_count yg; kbd_state := kbd_state yg; debug_shapes := debug_shapes yg;
     debug_bounds := debug_bounds yg; next_buf_id_static := next_buf_id_static yg;
     next_wid_static := next_wid_static yg; shm := shm yg; outbox := outbox yg |}.
Definition set_window_subscribers (v : list Z) (yg : yutani_globals_t) : yutani_globals_t :=
  {| heap := heap yg; width := width yg; height := height yg; windows := windows yg;
     wids_to_windows := wids_to_windows yg; clients_to_windows := clients_to_windows yg;
     key_binds := key_binds yg; mid_zs := mid_zs yg; bottom_z := bottom_z yg;
     top_z := top_z yg; update_list := update_list yg; window_subscribers := v;
     mouse_x := mouse_x yg; mouse_y := mouse_y yg; last_mouse_x := last_mouse_x yg;
     last_mouse_y := last_mouse_y yg; mouse_state := mouse_state yg;
     mouse_window := mouse_window yg; mouse_init_x := mouse_init_x yg;
     mouse_init_y := mouse_init_y yg; mouse_win_x := mouse_win_x yg;
     mouse_win_y := mouse_win_y yg; mouse_click_x := mouse_click_x yg;
     mouse_click_y := mouse_click_y yg; mouse_drag_button := mouse_drag_button yg;
     mouse_moved := mouse_moved yg; resizing_window := resizing_window yg;
     resizing_w := resizing_w yg; resizing_h := resizing_h yg;
     focused_window := focused_window yg; old_hover_window := old_hover_window yg;
     tick_count := tick_count yg; kbd_state := kbd_state yg; debug_shapes := debug_shapes yg;
     debug_bounds := debug_bounds yg; next_buf_id_static := next_buf_id_static yg;
     next_wid_static := next_wid_static yg; shm := shm yg; outbox := outbox yg |}.
Definition set_mouse_x (v : Z) (yg : yutani_globals_t) : yutani_globals_t :=
  {| heap := heap yg; width := width yg; height := height yg; windows := windows yg;
     wids_to_windows := wids_to_windows yg; clients_to_windows := clients_to_windows yg;
     key_binds := key_binds yg; mid_zs := mid_zs yg; bottom_z := bottom_z yg;
     top_z := top_z yg; update_list := update_list yg;
     window_subscribers := window_subscribers yg; mouse_x := v; mouse_y := mouse_y yg;
     last_mouse_x := last_mouse_x yg; last_mouse_y := last_mouse_y yg;
     mouse_state := mouse_state yg; mouse_window := mouse_window yg;
     mouse_init_x := mouse_init_x yg; mouse_init_y := mouse_init_y yg;
     mouse_win_x := mouse_win_x yg; mouse_win_y := mouse_win_y yg;
     mouse_click_x := mouse_click_x yg; mouse_click_y := mouse_click_y yg;
     mouse_drag_button := mouse_drag_button yg; mouse_moved := mouse_moved yg;
     resizing_window := resizing_window yg; resizing_w := resizing_w yg;
     resizing_h := resizing_h yg; focused_window := focused_window yg;
     old_hover_window := old_hover_window yg; tick_count := tick_count yg;
     kbd_state := kbd_state yg; debug_shapes := debug_shapes yg;
     debug_bounds := debug_bounds yg; next_buf_id_static := next_buf_id_static yg;
     next_wid_static := next_wid_static yg; shm := shm yg; outbox := outbox yg |}.
Definition set_mouse_y (v : Z) (yg : yutani_globals_t) : yutani_globals_t :=
  {| heap := heap yg; width := width yg; height := height yg; windows := windows yg;
     wids_to_windows := wids_to_windows yg; clients_to_windows := clients_to_windows yg;
     key_binds := key_binds yg; mid_zs := mid_zs yg; bottom_z := bottom_z yg;
     top_z := top_z yg; update_list := update_list yg;
     window_subscribers := window_subscribers yg; mouse_x := mouse_x yg; mouse_y := v;
     last_mouse_x := last_mouse_x yg; last_mouse_y := last_mouse_y yg;
     mouse_state := mouse_state yg; mouse_window := mouse_window yg;
     mouse_init_x := mouse_init_x yg; mouse_init_y := mouse_init_y yg;
     mouse_win_x := mouse_win_x yg; mouse_win_y := mouse_win_y yg;
     mouse_click_x := mouse_click_x yg; mouse_click_y := mouse_click_y yg;
     mouse_drag_button := mouse_drag_button yg; mouse_moved := mouse_moved yg;
     resizing_window := resizing_window yg; resizing_w := resizing_w yg;
     resizing_h := resizing_h yg; focused_window := focused_window yg;
     old_hover_window := old_hover_window yg; tick_count := tick_count yg;
     kbd_state := kbd_state yg; debug_shapes := debug_shapes yg;
     debug_bounds := debug_bounds yg; next_buf_id_static := next_buf_id_static yg;
     next_wid_static := next_wid_static yg; shm := shm yg; outbox := outbox yg |}.
Definition set_last_mouse_x (v : Z) (yg : yutani_globals_t) : yutani_globals_t :=
  {| heap := heap yg; width := width yg; height := height yg; windows := windows yg;
     wids_to_windows := wids_to_windows yg; clients_to_windows := clients_to_windows yg;
     key_binds := key_binds yg; mid_zs := mid_zs yg; bottom_z := bottom_z yg;
     top_z := top_z yg; update_list := update_list yg;
     window_subscribers := window_subscribers yg; mouse_x := mouse_x yg; mouse_y := mouse_y yg;
     last_mouse_x := v; last_mouse_y := last_mouse_y yg; mouse_state := mouse_state yg;
     mouse_window := mouse_window yg; mouse_init_x := mouse_init_x yg;
     mouse_init_y := mouse_init_y yg; mouse_win_x := mouse_win_x yg;
     mouse_win_y := mouse_win_y yg; mouse_click_x := mouse_click_x yg;
     mouse_click_y := mouse_click_y yg; mouse_drag_button := mouse_drag_button yg;
     mouse_moved := mouse_moved yg; resizing_window := resizing_window yg;
     resizing_w := resizing_w yg; resizing_h := resizing_h yg;
     focused_window := focused_window yg; old_hover_window := old_hover_window yg;
     tick_count := tick_count yg; kbd_state := kbd_state yg; debug_shapes := debug_shapes yg;
     debug_bounds := debug_bounds yg; next_buf_id_static := next_buf_id_static yg;
     next_wid_static := next_wid_static yg; shm := shm yg; outbox := outbox yg |}.
Definition set_last_mouse_y (v : Z) (yg : yutani_globals_t) : yutani_globals_t :=
  {| heap := heap yg; width := width yg; height := height yg; windows := windows yg;
     wids_to_windows := wids_to_windows yg; clients_to_windows := clients_to_windows yg;
     key_binds := key_binds yg; mid_zs := mid_zs yg; bottom_z := bottom_z yg;
     top_z := top_z yg; update_list := update_list yg;
     window_subscribers := window_subscribers yg; mouse_x := mouse_x yg; mouse_y := mouse_y yg;
     last_mouse_x := last_mouse_x yg; last_mouse_y := v; mouse_state := mouse_state yg;
     mouse_window := mouse_window yg; mouse_init_x := mouse_init_x yg;
     mouse_init_y := mouse_init_y yg; mouse_win_x := mouse_win_x yg;
     mouse_win_y := mouse_win_y yg; mouse_click_x := mouse_click_x yg;
     mouse_click_y := mouse_click_y yg; mouse_drag_button := mouse_drag_button yg;
     mouse_moved := mouse_moved yg; resizing_window := resizing_window yg;
     resizing_w := resizing_w yg; resizing_h := resizing_h yg;
     focused_window := focused_window yg; old_hover_window := old_hover_window yg;
     tick_count := tick_count yg; kbd_state := kbd_state yg; debug_shapes := debug_shapes yg;
     debug_bounds := debug_bounds yg; next_buf_id_static := next_buf_id_static yg;
     next_wid_static := next_wid_static yg; shm := shm yg; outbox := outbox yg |}.
Definition set_mouse_state (v : yutani_mouse_state) (yg : yutani_globals_t) : yutani_globals_t :=
  {| heap := heap yg; width := width yg; height := height yg; windows := windows yg;
     wids_to_windows := wids_to_windows yg; clients_to_windows := clients_to_windows yg;
     key_binds := key_binds yg; mid_zs := mid_zs yg; bottom_z := bottom_z yg;
     top_z := top_z yg; update_list := update_list yg;
     window_subscribers := window_subscribers yg; mouse_x := mouse_x yg; mouse_y := mouse_y yg;
     last_mouse_x := last_mouse_x yg; last_mouse_y := last_mouse_y yg; mouse_state := v;
     mouse_window := mouse_window yg; mouse_init_x := mouse_init_x yg;
     mouse_init_y := mouse_init_y yg; mouse_win_x := mouse_win_x yg;
     mouse_win_y := mouse_win_y yg; mouse_click_x := mouse_click_x yg;
     mouse_click_y := mouse_click_y yg; mouse_drag_button := mouse_drag_button yg;
     mouse_moved := mouse_moved yg; resizing_window := resizing_window yg;
     resizing_w := resizing_w yg; resizing_h := resizing_h yg;
     focused_window := focused_window yg; old_hover_window := old_hover_window yg;
     tick_count := tick_count yg; kbd_state := kbd_state yg; debug_shapes := debug_shapes yg;
     debug_bounds := debug_bounds yg; next_buf_id_static := next_buf_id_static yg;
     next_wid_static := next_wid_static yg; shm := shm yg; outbox := outbox yg |}.
Definition set_mouse_window (v : option ptr) (yg : yutani_globals_t) : yutani_globals_t :=
  {| heap := heap yg; width := width yg; height := height yg; windows := windows yg;
     wids_to_windows := wids_to_windows yg; clients_to_windows := clients_to_windows yg;
     key_binds := key_binds yg; mid_zs := mid_zs yg; bottom_z := bottom_z yg;
     top_z := top_z yg; update_list := update_list yg;
     window_subscribers := window_subscribers yg; mouse_x := mouse_x yg; mouse_y := mouse_y yg;
     last_mouse_x := last_mouse_x yg; last_mouse_y := last_mouse_y yg;
     mouse_state := mouse_state yg; mouse_window := v; mouse_init_x := mouse_init_x yg;
     mouse_init_y := mouse_init_y yg; mouse_win_x := mouse_win_x yg;
     mouse_win_y := mouse_win_y yg; mouse_click_x := mouse_click_x yg;
     mouse_click_y := mouse_click_y yg; mouse_drag_button := mouse_drag_button yg;
     mouse_moved := mouse_moved yg; resizing_window := resizing_window yg;
     resizing_w := resizing_w yg; resizing_h := resizing_h yg;
     focused_window := focused_window yg; old_hover_window := old_hover_window yg;
     tick_count := tick_count yg; kbd_state := kbd_state yg; debug_shapes := debug_shapes yg;
     debug_bounds := debug_bounds yg; next_buf_id_static := next_buf_id_static yg;
     next_wid_static := next_wid_static yg; shm := shm yg; outbox := outbox yg |}.
Definition set_mouse_init_x (v : Z) (yg : yutani_globals_t) : yutani_globals_t :=
  {| heap := heap yg; width := width yg; height := height yg; windows := windows yg;
     wids_to_windows := wids_to_windows yg; clients_to_windows := clients_to_windows yg;
     key_binds := key_binds yg; mid_zs := mid_zs yg; bottom_z := bottom_z yg;
     top_z := top_z yg; update_list := update_list yg;
     window_subscribers := window_subscribers yg; mouse_x := mouse_x yg; mouse_y := mouse_y yg;
     last_mouse_x := last_mouse_x yg; last_mouse_y := last_mouse_y yg;
     mouse_state := mouse_state yg; mouse_window := mouse_window yg; mouse_init_x := v;
     mouse_init_y := mouse_init_y yg; mouse_win_x := mouse_win_x yg;
     mouse_win_y := mouse_win_y yg; mouse_click_x := mouse_click_x yg;
     mouse_click_y := mouse_click_y yg; mouse_drag_button := mouse_drag_button yg;
     mouse_moved := mouse_moved yg; resizing_window := resizing_window yg;
     resizing_w := resizing_w yg; resizing_h := resizing_h yg;
     focused_window := focused_window yg; old_hover_window := old_hover_window yg;
     tick_count := tick_count yg; kbd_state := kbd_state yg; debug_shapes := debug_shapes yg;
     debug_bounds := debug_bounds yg; next_buf_id_static := next_buf_id_static yg;
     next_wid_static := next_wid_static yg; shm := shm yg; outbox := outbox yg |}.
Definition set_mouse_init_y (v : Z) (yg : yutani_globals_t) : yutani_globals_t :=
  {| heap := heap yg; width := width yg; height := height yg; windows := windows yg;
     wids_to_windows := wids_to_windows yg; clients_to_windows := clients_to_windows yg;
     key_binds := key_binds yg; mid_zs := mid_zs yg; bottom_z := bottom_z yg;
     top_z := top_z yg; update_list := update_list yg;
     window_subscribers := window_subscribers yg; mouse_x := mouse_x yg; mouse_y := mouse_y yg;
     last_mouse_x := last_mouse_x yg; last_mouse_y := last_mouse_y yg;
     mouse_state := mouse_state yg; mouse_window := mouse_window yg;
     mouse_init_x := mouse_init_x yg; mouse_init_y := v; mouse_win_x := mouse_win_x yg;
     mouse_win_y := mouse_win_y yg; mouse_click_x := mouse_click_x yg;
     mouse_click_y := mouse_click_y yg; mouse_drag_button := mouse_drag_button yg;
     mouse_moved := mouse_moved yg; resizing_window := resizing_window yg;
     resizing_w := resizing_w yg; resizing_h := resizing_h yg;
     focused_window := focused_window yg; old_hover_window := old_hover_window yg;
     tick_count := tick_count yg; kbd_state := kbd_state yg; debug_shapes := debug_shapes yg;
     debug_bounds := debug_bounds yg; next_buf_id_static := next_buf_id_static yg;
     next_wid_static := next_wid_static yg; shm := shm yg; outbox := outbox yg |}.
Definition set_mouse_win_x (v : Z) (yg : yutani_globals_t) : yutani_globals_t :=
  {| heap := heap yg; width := width yg; height := height yg; windows := windows yg;
     wids_to_windows := wids_to_windows yg; clients_to_windows := clients_to_windows yg;
     key_binds := key_binds yg; mid_zs := mid_zs yg; bottom_z := bottom_z yg;
     top_z := top_z yg; update_list := update_list yg;
     window_subscribers := window_subscribers yg; mouse_x := mouse_x yg; mouse_y := mouse_y yg;
     last_mouse_x := last_mouse_x yg; last_mouse_y := last_mouse_y yg;
     mouse_state := mouse_state yg; mouse_window := mouse_window yg;
     mouse_init_x := mouse_init_x yg; mouse_init_y := mouse_init_y yg; mouse_win_x := v;
     mouse_win_y := mouse_win_y yg; mouse_click_x := mouse_click_x yg;
     mouse_click_y := mouse_click_y yg; mouse_drag_button := mouse_drag_button yg;
     mouse_moved := mouse_moved yg; resizing_window := resizing_window yg;
     resizing_w := resizing_w yg; resizing_h := resizing_h yg;
     focused_window := focused_window yg; old_hover_window := old_hover_window yg;
     tick_count := tick_count yg; kbd_state := kbd_state yg; debug_shapes := debug_shapes yg;
     debug_bounds := debug_bounds yg; next_buf_id_static := next_buf_id_static yg;
     next_wid_static := next_wid_static yg; shm := shm yg; outbox := outbox yg |}.
Definition set_mouse_win_y (v : Z) (yg : yutani_globals_t) : yutani_globals_t :=
  {| heap := heap yg; width := width yg; height := height yg; windows := windows yg;
     wids_to_windows := wids_to_windows yg; clients_to_windows := clients_to_windows yg;
     key_binds := key_binds yg; mid_zs := mid_zs yg; bottom_z := bottom_z yg;
     top_z := top_z yg; update_list := update_list yg;
     window_subscribers := window_subscribers yg; mouse_x := mouse_x yg; mouse_y := mouse_y yg;
     last_mouse_x := last_mouse_x yg; last_mouse_y := last_mouse_y yg;
     mouse_state := mouse_state yg; mouse_window := mouse_window yg;
     mouse_init_x := mouse_init_x yg; mouse_init_y := mouse_init_y yg;
     mouse_win_x := mouse_win_x yg; mouse_win_y := v; mouse_click_x := mouse_click_x yg;
     mouse_click_y := mouse_click_y yg; mouse_drag_button := mouse_drag_button yg;
     mouse_moved := mouse_moved yg; resizing_window := resizing_window yg;
     resizing_w := resizing_w yg; resizing_h := resizing_h yg;
     focused_window := focused_window yg; old_hover_window := old_hover_window yg;
     tick_count := tick_count yg; kbd_state := kbd_state yg; debug_shapes := debug_shapes yg;
     debug_bounds := debug_bounds yg; next_buf_id_static := next_buf_id_static yg;
     next_wid_static := next_wid_static yg; shm := shm yg; outbox := outbox yg |}.
Definition set_mouse_click_x (v : Z) (yg : yutani_globals_t) : yutani_globals_t :=
  {| heap := heap yg; width := width yg; height := height yg; windows := windows yg;
     wids_to_windows := wids_to_windows yg; clients_to_windows := clients_to_windows yg;
     key_binds := key_binds yg; mid_zs := mid_zs yg; bottom_z := bottom_z yg;
     top_z := top_z yg; update_list := update_list yg;
     window_subscribers := window_subscribers yg; mouse_x := mouse_x yg; mouse_y := mouse_y yg;
     last_mouse_x := last_mouse_x yg; last_mouse_y := last_mouse_y yg;
     mouse_state := mouse_state yg; mouse_window := mouse_window yg;
     mouse_init_x := mouse_init_x yg; mouse_init_y := mouse_init_y yg;
     mouse_win_x := mouse_win_x yg; mouse_win_y := mouse_win_y yg; mouse_click_x := v;
     mouse_click_y := mouse_click_y yg; mouse_drag_button := mouse_drag_button yg;
     mouse_moved := mouse_moved yg; resizing_window := resizing_window yg;
     resizing_w := resizing_w yg; resizing_h := resizing_h yg;
     focused_window := focused_window yg; old_hover_window := old_hover_window yg;
     tick_count := tick_count yg; kbd_state := kbd_state yg; debug_shapes := debug_shapes yg;
     debug_bounds := debug_bounds yg; next_buf_id_static := next_buf_id_static yg;
     next_wid_static := next_wid_static yg; shm := shm yg; outbox := outbox yg |}.
Definition set_mouse_click_y (v : Z) (yg : yutani_globals_t) : yutani_globals_t :=
  {| heap := heap yg; width := width yg; height := height yg; windows := windows yg;
     wids_to_windows := wids_to_windows yg; clients_to_windows := clients_to_windows yg;
     key_binds := key_binds yg; mid_zs := mid_zs yg; bottom_z := bottom_z yg;
     top_z := top_z yg; update_list := update_list yg;
     window_subscribers := window_subscribers yg; mouse_x := mouse_x yg; mouse_y := mouse_y yg;
     last_mouse_x := last_mouse_x yg; last_mouse_y := last_mouse_y yg;
     mouse_state := mouse_state yg; mouse_window := mouse_window yg;
     mouse_init_x := mouse_init_x yg; mouse_init_y := mouse_init_y yg;
     mouse_win_x := mouse_win_x yg; mouse_win_y := mouse_win_y yg;
     mouse_click_x := mouse_click_x yg; mouse_click_y := v;
     mouse_drag_button := mouse_drag_button yg; mouse_moved := mouse_moved yg;
     resizing_window := resizing_window yg; resizing_w := resizing_w yg;
     resizing_h := resizing_h yg; focused_window := focused_window yg;
     old_hover_window := old_hover_window yg; tick_count := tick_count yg;
     kbd_state := kbd_state yg; debug_shapes := debug_shapes yg;
     debug_bounds := debug_bounds yg; next_buf_id_static := next_buf_id_static yg;
     next_wid_static := next_wid_static yg; shm := shm yg; outbox := outbox yg |}.
Definition set_mouse_drag_button (v : Z) (yg : yutani_globals_t) : yutani_globals_t :=
  {| heap := heap yg; width := width yg; height := height yg; windows := windows yg;
     wids_to_windows := wids_to_windows yg; clients_to_windows := clients_to_windows yg;
     key_binds := key_binds yg; mid_zs := mid_zs yg; bottom_z := bottom_z yg;
     top_z := top_z yg; update_list := update_list yg;
     window_subscribers := window_subscribers yg; mouse_x := mouse_x yg; mouse_y := mouse_y yg;
     last_mouse_x := last_mouse_x yg; last_mouse_y := last_mouse_y yg;
     mouse_state := mouse_state yg; mouse_window := mouse_window yg;
     mouse_init_x := mouse_init_x yg; mouse_init_y := mouse_init_y yg;
     mouse_win_x := mouse_win_x yg; mouse_win_y := mouse_win_y yg;
     mouse_click_x := mouse_click_x yg; mouse_click_y := mouse_click_y yg;
     mouse_drag_button := v; mouse_moved := mouse_moved yg;
     resizing_window := resizing_window yg; resizing_w := resizing_w yg;
     resizing_h := resizing_h yg; focused_window := focused_window yg;
     old_hover_window := old_hover_window yg; tick_count := tick_count yg;
     kbd_state := kbd_state yg; debug_shapes := debug_shapes yg;
     debug_bounds := debug_bounds yg; next_buf_id_static := next_buf_id_static yg;
     next_wid_static := next_wid_static yg; shm := shm yg; outbox := outbox yg |}.
Definition set_mouse_moved (v : Z) (yg : yutani_globals_t) : yutani_globals_t :=
  {| heap := heap yg; width := width yg; height := height yg; windows := windows yg;
     wids_to_windows := wids_to_windows yg; clients_to_windows := clients_to_windows yg;
     key_binds := key_binds yg; mid_zs := mid_zs yg; bottom_z := bottom_z yg;
     top_z := top_z yg; update_list := update_list yg;
     window_subscribers := window_subscribers yg; mouse_x := mouse_x yg; mouse_y := mouse_y yg;
     last_mouse_x := last_mouse_x yg; last_mouse_y := last_mouse_y yg;
     mouse_state := mouse_state yg; mouse_window := mouse_window yg;
     mouse_init_x := mouse_init_x yg; mouse_init_y := mouse_init_y yg;
     mouse_win_x := mouse_win_x yg; mouse_win_y := mouse_win_y yg;
     mouse_click_x := mouse_click_x yg; mouse_click_y := mouse_click_y yg;
     mouse_drag_button := mouse_drag_button yg; mouse_moved := v;
     resizing_window := resizing_window yg; resizing_w := resizing_w yg;
     resizing_h := resizing_h yg; focused_window := focused_window yg;
     old_hover_window := old_hover_window yg; tick_count := tick_count yg;
     kbd_state := kbd_state yg; debug_shapes := debug_shapes yg;
     debug_bounds := debug_bounds yg; next_buf_id_static := next_buf_id_static yg;
     next_wid_static := next_wid_static yg; shm := shm yg; outbox := outbox yg |}.
Definition set_resizing_window (v : option ptr) (yg : yutani_globals_t) : yutani_globals_t :=
  {| heap := heap yg; width := width yg; height := height yg; windows := windows yg;
     wids_to_windows := wids_to_windows yg; clients_to_windows := clients_to_windows yg;
     key_binds := key_binds yg; mid_zs := mid_zs yg; bottom_z := bottom_z yg;
     top_z := top_z yg; update_list := update_list yg;
     window_subscribers := window_subscribers yg; mouse_x := mouse_x yg; mouse_y := mouse_y yg;
     last_mouse_x := last_mouse_x yg; last_mouse_y := last_mouse_y yg;
     mouse_state := mouse_state yg; mouse_window := mouse_window yg;
     mouse_init_x := mouse_init_x yg; mouse_init_y := mouse_init_y yg;
     mouse_win_x := mouse_win_x yg; mouse_win_y := mouse_win_y yg;
     mouse_click_x := mouse_click_x yg; mouse_click_y := mouse_click_y yg;
     mouse_drag_button := mouse_drag_button yg; mouse_moved := mouse_moved yg;
     resizing_window := v; resizing_w := resizing_w yg; resizing_h := resizing_h yg;
     focused_window := focused_window yg; old_hover_window := old_hover_window yg;
     tick_count := tick_count yg; kbd_state := kbd_state yg; debug_shapes := debug_shapes yg;
     debug_bounds := debug_bounds yg; next_buf_id_static := next_buf_id_static yg;
     next_wid_static := next_wid_static yg; shm := shm yg; outbox := outbox yg |}.
Definition set_resizing_w (v : Z) (yg : yutani_globals_t) : yutani_globals_t :=
  {| heap := heap yg; width := width yg; height := height yg; windows := windows yg;
     wids_to_windows := wids_to_windows yg; clients_to_windows := clients_to_windows yg;
     key_binds := key_binds yg; mid_zs := mid_zs yg; bottom_z := bottom_z yg;
     top_z := top_z yg; update_list := update_list yg;
     window_subscribers := window_subscribers yg; mouse_x := mouse_x yg; mouse_y := mouse_y yg;
     last_mouse_x := last_mouse_x yg; last_mouse_y := last_mouse_y yg;
     mouse_state := mouse_state yg; mouse_window := mouse_window yg;
     mouse_init_x := mouse_init_x yg; mouse_init_y := mouse_init_y yg;
     mouse_win_x := mouse_win_x yg; mouse_win_y := mouse_win_y yg;
     mouse_click_x := mouse_click_x yg; mouse_click_y := mouse_click_y yg;
     mouse_drag_button := mouse_drag_button yg; mouse_moved := mouse_moved yg;
     resizing_window := resizing_window yg; resizing_w := v; resizing_h := resizing_h yg;
     focused_window := focused_window yg; old_hover_window := old_hover_window yg;
     tick_count := tick_count yg; kbd_state := kbd_state yg; debug_shapes := debug_shapes yg;
     debug_bounds := debug_bounds yg; next_buf_id_static := next_buf_id_static yg;
     next_wid_static := next_wid_static yg; shm := shm yg; outbox := outbox yg |}.
Definition set_resizing_h (v : Z) (yg : yutani_globals_t) : yutani_globals_t :=
  {| heap := heap yg; width := width yg; height := height yg; windows := windows yg;
     wids_to_windows := wids_to_windows yg; clients_to_windows := clients_to_windows yg;
     key_binds := key_binds yg; mid_zs := mid_zs yg; bottom_z := bottom_z yg;
     top_z := top_z yg; update_list := update_list yg;
     window_subscribers := window_subscribers yg; mouse_x := mouse_x yg; mouse_y := mouse_y yg;
     last_mouse_x := last_mouse_x yg; last_mouse_y := last_mouse_y yg;
     mouse_state := mouse_state yg; mouse_window := mouse_window yg;
     mouse_init_x := mouse_init_x yg; mouse_init_y := mouse_init_y yg;
     mouse_win_x := mouse_win_x yg; mouse_win_y := mouse_win_y yg;
     mouse_click_x := mouse_click_x yg; mouse_click_y := mouse_click_y yg;
     mouse_drag_button := mouse_drag_button yg; mouse_moved := mouse_moved yg;
     resizing_window := resizing_window yg; resizing_w := resizing_w yg; resizing_h := v;
     focused_window := focused_window yg; old_hover_window := old_hover_window yg;
     tick_count := tick_count yg; kbd_state := kbd_state yg; debug_shapes := debug_shapes yg;
     debug_bounds := debug_bounds yg; next_buf_id_static := next_buf_id_static yg;
     next_wid_static := next_wid_static yg; shm := shm yg; outbox := outbox yg |}.
Definition set_focused_window_field (v : option ptr) (yg : yutani_globals_t) : yutani_globals_t :=
  {| heap := heap yg; width := width yg; height := height yg; windows := windows yg;
     wids_to_windows := wids_to_windows yg; clients_to_windows := clients_to_windows yg;
     key_binds := key_binds yg; mid_zs := mid_zs yg; bottom_z := bottom_z yg;
     top_z := top_z yg; update_list := update_list yg;
     window_subscribers := window_subscribers yg; mouse_x := mouse_x yg; mouse_y := mouse_y yg;
     last_mouse_x := last_mouse_x yg; last_mouse_y := last_mouse_y yg;
     mouse_state := mouse_state yg; mouse_window := mouse_window yg;
     mouse_init_x := mouse_init_x yg; mouse_init_y := mouse_init_y yg;
     mouse_win_x := mouse_win_x yg; mouse_win_y := mouse_win_y yg;
     mouse_click_x := mouse_click_x yg; mouse_click_y := mouse_click_y yg;
     mouse_drag_button := mouse_drag_button yg; mouse_moved := mouse_moved yg;
     resizing_window := resizing_window yg; resizing_w := resizing_w yg;
     resizing_h := resizing_h yg; focused_window := v; old_hover_window := old_hover_window yg;
     tick_count := tick_count yg; kbd_state := kbd_state yg; debug_shapes := debug_shapes yg;
     debug_bounds := debug_bounds yg; next_buf_id_static := next_buf_id_static yg;
     next_wid_static := next_wid_static yg; shm := shm yg; outbox := outbox yg |}.
Definition set_old_hover_window (v : option ptr) (yg : yutani_globals_t) : yutani_globals_t :=
  {| heap := heap yg; width := width yg; height := height yg; windows := windows yg;
     wids_to_windows := wids_to_windows yg; clients_to_windows := clients_to_windows yg;
     key_binds := key_binds yg; mid_zs := mid_zs yg; bottom_z := bottom_z yg;
     top_z := top_z yg; update_list := update_list yg;
     window_subscribers := window_subscribers yg; mouse_x := mouse_x yg; mouse_y := mouse_y yg;
     last_mouse_x := last_mouse_x yg; last_mouse_y := last_mouse_y yg;
     mouse_state := mouse_state yg; mouse_window := mouse_window yg;
     mouse_init_x := mouse_init_x yg; mouse_init_y := mouse_init_y yg;
     mouse_win_x := mouse_win_x yg; mouse_win_y := mouse_win_y yg;
     mouse_click_x := mouse_click_x yg; mouse_click_y := mouse_click_y yg;
     mouse_drag_button := mouse_drag_button yg; mouse_moved := mouse_moved yg;
     resizing_window := resizing_window yg; resizing_w := resizing_w yg;
     resizing_h := resizing_h yg; focused_window := focused_window yg; old_hover_window := v;
     tick_count := tick_count yg; kbd_state := kbd_state yg; debug_shapes := debug_shapes yg;
     debug_bounds := debug_bounds yg; next_buf_id_static := next_buf_id_static yg;
     next_wid_static := next_wid_static yg; shm := shm yg; outbox := outbox yg |}.
Definition set_tick_count (v : Z) (yg : yutani_globals_t) : yutani_globals_t :=
  {| heap := heap yg; width := width yg; height := height yg; windows := windows yg;
     wids_to_windows := wids_to_windows yg; clients_to_windows := clients_to_windows yg;
     key_binds := key_binds yg; mid_zs := mid_zs yg; bottom_z := bottom_z yg;
     top_z := top_z yg; update_list := update_list yg;
     window_subscribers := window_subscribers yg; mouse_x := mouse_x yg; mouse_y := mouse_y yg;
     last_mouse_x := last_mouse_x yg; last_mouse_y := last_mouse_y yg;
     mouse_state := mouse_state yg; mouse_window := mouse_window yg;
     mouse_init_x := mouse_init_x yg; mouse_init_y := mouse_init_y yg;
     mouse_win_x := mouse_win_x yg; mouse_win_y := mouse_win_y yg;
     mouse_click_x := mouse_click_x yg; mouse_click_y := mouse_click_y yg;
     mouse_drag_button := mouse_drag_button yg; mouse_moved := mouse_moved yg;
     resizing_window := resizing_window yg; resizing_w := resizing_w yg;
     resizing_h := resizing_h yg; focused_window := focused_window yg;
     old_hover_window := old_hover_window yg; tick_count := v; kbd_state := kbd_state yg;
     debug_shapes := debug_shapes yg; debug_bounds := debug_bounds yg;
     next_buf_id_static := next_buf_id_static yg; next_wid_static := next_wid_static yg;
     shm := shm yg; outbox := outbox yg |}.
Definition set_kbd_state (v : key_event_state_t) (yg : yutani_globals_t) : yutani_globals_t :=
  {| heap := heap yg; width := width yg; height := height yg; windows := windows yg;
     wids_to_windows := wids_to_windows yg; clients_to_windows := clients_to_windows yg;
     key_binds := key_binds yg; mid_zs := mid_zs yg; bottom_z := bottom_z yg;
     top_z := top_z yg; update_list := update_list yg;
     window_subscribers := window_subscribers yg; mouse_x := mouse_x yg; mouse_y := mouse_y yg;
     last_mouse_x := last_mouse_x yg; last_mouse_y := last_mouse_y yg;
     mouse_state := mouse_state yg; mouse_window := mouse_window yg;
     mouse_init_x := mouse_init_x yg; mouse_init_y := mouse_init_y yg;
     mouse_win_x := mouse_win_x yg; mouse_win_y := mouse_win_y yg;
     mouse_click_x := mouse_click_x yg; mouse_click_y := mouse_click_y yg;
     mouse_drag_button := mouse_drag_button yg; mouse_moved := mouse_moved yg;
     resizing_window := resizing_window yg; resizing_w := resizing_w yg;
     resizing_h := resizing_h yg; focused_window := focused_window yg;
     old_hover_window := old_hover_window yg; tick_count := tick_count yg; kbd_state := v;
     debug_shapes := debug_shapes yg; debug_bounds := debug_bounds yg;
     next_buf_id_static := next_buf_id_static yg; next_wid_static := next_wid_static yg;
     shm := shm yg; outbox := outbox yg |}.
Definition set_debug_shapes (v : Z) (yg : yutani_globals_t) : yutani_globals_t :=
  {| heap := heap yg; width := width yg; height := height yg; windows := windows yg;
     wids_to_windows := wids_to_windows yg; clients_to_windows := clients_to_windows yg;
     key_binds := key_binds yg; mid_zs := mid_zs yg; bottom_z := bottom_z yg;
     top_z := top_z yg; update_list := update_list yg;
     window_subscribers := window_subscribers yg; mouse_x := mouse_x yg; mouse_y := mouse_y yg;
     last_mouse_x := last_mouse_x yg; last_mouse_y := last_mouse_y yg;
     mouse_state := mouse_state yg; mouse_window := mouse_window yg;
     mouse_init_x := mouse_init_x yg; mouse_init_y := mouse_init_y yg;
     mouse_win_x := mouse_win_x yg; mouse_win_y := mouse_win_y yg;
     mouse_click_x := mouse_click_x yg; mouse_click_y := mouse_click_y yg;
     mouse_drag_button := mouse_drag_button yg; mouse_moved := mouse_moved yg;
     resizing_window := resizing_window yg; resizing_w := resizing_w yg;
     resizing_h := resizing_h yg; focused_window := focused_window yg;
     old_hover_window := old_hover_window yg; tick_count := tick_count yg;
     kbd_state := kbd_state yg; debug_shapes := v; debug_bounds := debug_bounds yg;
     next_buf_id_static := next_buf_id_static yg; next_wid_static := next_wid_static yg;
     shm := shm yg; outbox := outbox yg |}.
Definition set_debug_bounds (v : Z) (yg : yutani_globals_t) : yutani_globals_t :=
  {| heap := heap yg; width := width yg; height := height yg; windows := windows yg;
     wids_to_windows := wids_to_windows yg; clients_to_windows := clients_to_windows yg;
     key_binds := key_binds yg; mid_zs := mid_zs yg; bottom_z := bottom_z yg;
     top_z := top_z yg; update_list := update_list yg;
     window_subscribers := window_subscribers yg; mouse_x := mouse_x yg; mouse_y := mouse_y yg;
     last_mouse_x := last_mouse_x yg; last_mouse_y := last_mouse_y yg;
     mouse_state := mouse_state yg; mouse_window := mouse_window yg;
     mouse_init_x := mouse_init_x yg; mouse_init_y := mouse_init_y yg;
     mouse_win_x := mouse_win_x yg; mouse_win_y := mouse_win_y yg;
     mouse_click_x := mouse_click_x yg; mouse_click_y := mouse_click_y yg;
     mouse_drag_button := mouse_drag_button yg; mouse_moved := mouse_moved yg;
     resizing_window := resizing_window yg; resizing_w := resizing_w yg;
     resizing_h := resizing_h yg; focused_window := focused_window yg;
     old_hover_window := old_hover_window yg; tick_count := tick_count yg;
     kbd_state := kbd_state yg; debug_shapes := debug_shapes yg; debug_bounds := v;
     next_buf_id_static := next_buf_id_static yg; next_wid_static := next_wid_static yg;
     shm := shm yg; outbox := outbox yg |}.
Definition set_next_buf_id_static (v : Z) (yg : yutani_globals_t) : yutani_globals_t :=
  {| heap := heap yg; width := width yg; height := height yg; windows := windows yg;
     wids_to_windows := wids_to_windows yg; clients_to_windows := clients_to_windows yg;
     key_binds := key_binds yg; mid_zs := mid_zs yg; bottom_z := bottom_z yg;
     top_z := top_z yg; update_list := update_list yg;
     window_subscribers := window_subscribers yg; mouse_x := mouse_x yg; mouse_y := mouse_y yg;
     last_mouse_x := last_mouse_x yg; last_mouse_y := last_mouse_y yg;
     mouse_state := mouse_state yg; mouse_window := mouse_window yg;
     mouse_init_x := mouse_init_x yg; mouse_init_y := mouse_init_y yg;
     mouse_win_x := mouse_win_x yg; mouse_win_y := mouse_win_y yg;
     mouse_click_x := mouse_click_x yg; mouse_click_y := mouse_click_y yg;
     mouse_drag_button := mouse_drag_button yg; mouse_moved := mouse_moved yg;
     resizing_window := resizing_window yg; resizing_w := resizing_w yg;
     resizing_h := resizing_h yg; focused_window := focused_window yg;
     old_hover_window := old_hover_window yg; tick_count := tick_count yg;
     kbd_state := kbd_state yg; debug_shapes := debug_shapes yg;
     debug_bounds := debug_bounds yg; next_buf_id_static := v;
     next_wid_static := next_wid_static yg; shm := shm yg; outbox := outbox yg |}.
Definition set_next_wid_static (v : Z) (yg : yutani_globals_t) : yutani_globals_t :=
  {| heap := heap yg; width := width yg; height := height yg; windows := windows yg;
     wids_to_windows := wids_to_windows yg; clients_to_windows := clients_to_windows yg;
     key_binds := key_binds yg; mid_zs := mid_zs yg; bottom_z := bottom_z yg;
     top_z := top_z yg; update_list := update_list yg;
     window_subscribers := window_subscribers yg; mouse_x := mouse_x yg; mouse_y := mouse_y yg;
     last_mouse_x := last_mouse_x yg; last_mouse_y := last_mouse_y yg;
     mouse_state := mouse_state yg; mouse_window := mouse_window yg;
     mouse_init_x := mouse_init_x yg; mouse_init_y := mouse_init_y yg;
     mouse_win_x := mouse_win_x yg; mouse_win_y := mouse_win_y yg;
     mouse_click_x := mouse_click_x yg; mouse_click_y := mouse_click_y yg;
     mouse_drag_button := mouse_drag_button yg; mouse_moved := mouse_moved yg;
     resizing_window := resizing_window yg; resizing_w := resizing_w yg;
     resizing_h := resizing_h yg; focused_window := focused_window yg;
     old_hover_window := old_hover_window yg; tick_count := tick_count yg;
     kbd_state := kbd_state yg; debug_shapes := debug_shapes yg;
     debug_bounds := debug_bounds yg; next_buf_id_static := next_buf_id_static yg;
     next_wid_static := v; shm := shm yg; outbox := outbox yg |}.
Definition set_shm (v : gmap Z shm_region) (yg : yutani_globals_t) : yutani_globals_t :=
  {| heap := heap yg; width := width yg; height := height yg; windows := windows yg;
     wids_to_windows := wids_to_windows yg; clients_to_windows := clients_to_windows yg;
     key_binds := key_binds yg; mid_zs := mid_zs yg; bottom_z := bottom_z yg;
     top_z := top_z yg; update_list := update_list yg;
     window_subscribers := window_subscribers yg; mouse_x := mouse_x yg; mouse_y := mouse_y yg;
     last_mouse_x := last_mouse_x yg; last_mouse_y := last_mouse_y yg;
     mouse_state := mouse_state yg; mouse_window := mouse_window yg;
     mouse_init_x := mouse_init_x yg; mouse_init_y := mouse_init_y yg;
     mouse_win_x := mouse_win_x yg; mouse_win_y := mouse_win_y yg;
     mouse_click_x := mouse_click_x yg; mouse_click_y := mouse_click_y yg;
     mouse_drag_button := mouse_drag_button yg; mouse_moved := mouse_moved yg;
     resizing_window := resizing_window yg; resizing_w := resizing_w yg;
     resizing_h := resizing_h yg; focused_window := focused_window yg;
     old_hover_window := old_hover_window yg; tick_count := tick_count yg;
     kbd_state := kbd_state yg; debug_shapes := debug_shapes yg;
     debug_bounds := debug_bounds yg; next_buf_id_static := next_buf_id_static yg;
     next_wid_static := next_wid_static yg; shm := v; outbox := outbox yg |}.
Definition set_outbox (v : list pex_output) (yg : yutani_globals_t) : yutani_globals_t :=
  {| heap := heap yg; width := width yg; height := height yg; windows := windows yg;
     wids_to_windows := wids_to_windows yg; clients_to_windows := clients_to_windows yg;
     key_binds := key_binds yg; mid_zs := mid_zs yg; bottom_z := bottom_z yg;
     top_z := top_z yg; update_list := update_list yg;
     window_subscribers := window_subscribers yg; mouse_x := mouse_x yg; mouse_y := mouse_y yg;
     last_mouse_x := last_mouse_x yg; last_mouse_y := last_mouse_y yg;
     mouse_state := mouse_state yg; mouse_window := mouse_window yg;
     mouse_init_x := mouse_init_x yg; mouse_init_y := mouse_init_y yg;
     mouse_win_x := mouse_win_x yg; mouse_win_y := mouse_win_y yg;
     mouse_click_x := mouse_click_x yg; mouse_click_y := mouse_click_y yg;
     mouse_drag_button := mouse_drag_button yg; mouse_moved := mouse_moved yg;
     resizing_window := resizing_window yg; resizing_w := resizing_w yg;
     resizing_h := resizing_h yg; focused_window := focused_window yg;
     old_hover_window := old_hover_window yg; tick_count := tick_count yg;
     kbd_state := kbd_state yg; debug_shapes := debug_shapes yg;
     debug_bounds := debug_bounds yg; next_buf_id_static := next_buf_id_static yg;
     next_wid_static := next_wid_static yg; shm := shm yg; outbox := v |}.

(** ** Library code the compositor calls *)

(** Modelled from the spec: lib/list.h is not under the source tree.  The
    specification describes [mid_zs] as an ordered sequence, back to front,
    with append at the front-most end and remove-by-value; a [list_t] is a
    Rocq list from head to tail, [list_insert] and [list_append] add at the
    tail, [list_find] returns the first node holding the value (here: its
    position), [foreach] runs from the head and [foreachr] from the tail. *)
Module list_h.
Definition list_insert {A} (l : list A) (item : A) : list A := l ++ [item].
Definition list_append {A} (l : list A) (item : A) : list A := l ++ [item].
Fixpoint list_find {A} `{EqDecision A} (l : list A) (value : A) : option nat :=
  match l with
  | [] => None
  | v :: l' => if decide (v = value) then Some 0%nat else S <$> list_find l' value
  end.
Definition list_delete {A} (l : list A) (node : nat) : list A := delete node l.
Definition list_index_of {A} `{EqDecision A} (l : list A) (value : A) : Z :=
  match list_find l value with Some i => Z.of_nat i | None => -1 end.
Definition list_remove {A} (l : list A) (index : Z) : list A :=
  if decide (0 <= index < Z.of_nat (length l)) then delete (Z.to_nat index) l else l.
(* list_pop takes the tail node, list_dequeue the head node *)
Definition list_pop {A} (l : list A) : option (A * list A) :=
  match reverse l with [] => None | v :: r => Some (v, reverse r) end.
Definition list_dequeue {A} (l : list A) : option (A * list A) :=
  match l with [] => None | v :: r => Some (v, r) end.
End list_h.

(** Modelled from the spec: lib/graphics.h is not under the source tree; a
    pixel is ARGB32, so [_ALP] is the top byte of the 32-bit value. *)
Definition _ALP (c : Z) : Z := Z.land (Z.shiftr c 24) 255.

Definition uint16 (v : Z) : Z := v mod 65536.
Definition uint32 (v : Z) : Z := v mod 4294967296.
(* the value a 32-bit [int] holds after an operation whose exact result is [v] *)
Definition int32 (v : Z) : Z := (v + 2147483648) mod 4294967296 - 2147483648.

Section Model.
Context `{YutaniConsts}.

Definition min (a b : Z) : Z := if decide (a < b) then a else b.
Definition max (a b : Z) : Z := if decide (a > b) then a else b.

(* [w->field = v] through a pointer *)
Definition store (yg : yutani_globals_t) (w : ptr) (v : window.t) : yutani_globals_t :=
  set_heap (<[w := v]> (heap yg)) yg.

Definition pex_send (yg : yutani_globals_t) (dest : Z) (m : yutani_msg) : yutani_globals_t :=
  set_outbox (outbox yg ++ [Pex_send dest m]) yg.

Definition pex_broadcast (yg : yutani_globals_t) (m : yutani_msg) : yutani_globals_t :=
  set_outbox (outbox yg ++ [Pex_broadcast m]) yg.

(** The key of a window buffer depends on the buffer id alone (both
    YUTANI_SHMKEY and YUTANI_SHMKEY_EXP are used with one id and must agree
    for [syscall_shm_release] to undo [syscall_shm_obtain]); the id stands
    for the key.  Obtaining a key that is already mapped returns the
    existing region. *)
Definition syscall_shm_obtain (yg : yutani_globals_t) (key size : Z) : yutani_globals_t :=
  set_shm
    match shm yg !! key with
    | Some _ => shm yg
    | None =>
        <[key := {| region_size := size; region_pixels := shm_fresh_pixels key |}]> (shm yg)
    end yg.

Definition syscall_shm_release (yg : yutani_globals_t) (key : Z) : yutani_globals_t :=
  set_shm (delete key (shm yg)) yg.

Definition memset_zero (yg : yutani_globals_t) (key size : Z) : yutani_globals_t :=
  set_shm (<[key := {| region_size := size; region_pixels := fun _ => 0 |}]> (shm yg)) yg.

Definition next_buf_id (yg : yutani_globals_t) : Z * yutani_globals_t :=
  (next_buf_id_static yg, set_next_buf_id_static (next_buf_id_static yg + 1) yg).

Definition next_wid (yg : yutani_globals_t) : Z * yutani_globals_t :=
  (next_wid_static yg, set_next_wid_static (next_wid_static yg + 1) yg).

(** *** Geometry *)

Definition device_to_window (yg : yutani_globals_t) (window : option ptr) (x y : Z)
    (out : Z * Z) : option (Z * Z) :=
  match window with
  | None => Some out
  | Some p =>
      w ← heap yg !! p;
      let out_x := x - window.x w in
      let out_y := y - window.y w in
      if decide (window.rotation w = 0) then Some (out_x, out_y) else
      let t_x := out_x - window.width w `quot` 2 in
      let t_y := out_y - window.height w `quot` 2 in
      let n := fp_rotate (- window.rotation w) t_x t_y in
      Some (n.1 + window.width w `quot` 2, n.2 + window.height w `quot` 2)
  end.

Definition window_to_device (w : window.t) (x y : Z) : Z * Z :=
  if decide (window.rotation w = 0) then (window.x w + x, window.y w + y) else
  let t_x := x - window.width w `quot` 2 in
  let t_y := y - window.height w `quot` 2 in
  let n := fp_rotate (window.rotation w) t_x t_y in
  (n.1 + window.width w `quot` 2 + window.x w, n.2 + window.height w `quot` 2 + window.y w).

(** *** Damage *)

Definition mark_region (yg : yutani_globals_t) (x y width height : Z) : yutani_globals_t :=
  set_update_list (list_h.list_insert (update_list yg) (rect.mk x y width height)) yg.

Definition mark_window_relative (yg : yutani_globals_t) (window : ptr)
    (x y width height : Z) : option yutani_globals_t :=
  w ← heap yg !! window;
  let r :=
    if decide (window.rotation w = 0) then
      rect.mk (window.x w + x) (window.y w + y) width height
    else
      let ul := window_to_device w x y in
      let ll := window_to_device w x (y + height) in
      let ur := window_to_device w (x + width) y in
      let lr := window_to_device w (x + width) (y + height) in
      let left_bound := min (min ul.1 ll.1) (min ur.1 lr.1) in
      let top_bound := min (min ul.2 ll.2) (min ur.2 lr.2) in
      let right_bound := max (max ul.1 ll.1) (max ur.1 lr.1) in
      let bottom_bound := max (max ul.2 ll.2) (max ur.2 lr.2) in
      rect.mk left_bound top_bound (right_bound - left_bound) (bottom_bound - top_bound) in
  Some (set_update_list (list_h.list_insert (update_list yg) r) yg).

Definition mark_window (yg : yutani_globals_t) (window : ptr) : option yutani_globals_t :=
  w ← heap yg !! window;
  let r :=
    if decide (window.rotation w = 0) then
      rect.mk (window.x w) (window.y w) (window.width w) (window.height w)
    else
      let ul := window_to_device w 0 0 in
      let ll := window_to_device w 0 (window.height w) in
      let ur := window_to_device w (window.width w) 0 in
      let lr := window_to_device w (window.width w) (window.height w) in
      let left_bound := min (min ul.1 ll.1) (min ur.1 lr.1) in
      let top_bound := min (min ul.2 ll.2) (min ur.2 lr.2) in
      let right_bound := max (max ul.1 ll.1) (max ur.1 lr.1) in
      let bottom_bound := max (max ul.2 ll.2) (max ur.2 lr.2) in
      rect.mk left_bound top_bound (right_bound - left_bound) (bottom_bound - top_bound) in
  Some (set_update_list (list_h.list_insert (update_list yg) r) yg).

(** *** Z-order *)

Definition unorder_window (yg : yutani_globals_t) (w : ptr) : option yutani_globals_t :=
  win ← heap yg !! w;
  let index := uint16 (window.z win) in
  let yg := store yg w (window.set_z (uint16 (-1)) win) in
  if decide (index = YUTANI_ZORDER_BOTTOM) then Some (set_bottom_z None yg)
  else if decide (index = YUTANI_ZORDER_TOP) then Some (set_top_z None yg)
  else
    match list_h.list_find (mid_zs yg) w with
    | None => Some yg
    | Some n => Some (set_mid_zs (list_h.list_delete (mid_zs yg) n) yg)
    end.

Definition reorder_window (yg : yutani_globals_t) (window : option ptr) (new_zed : Z)
    : option yutani_globals_t :=
  match window with
  | None => Some yg
  | Some w =>
      let new_zed := uint16 new_zed in
      yg ← unorder_window yg w;
      win ← heap yg !! w;
      let yg := store yg w (window.set_z new_zed win) in
      if decide (new_zed ≠ YUTANI_ZORDER_TOP ∧ new_zed ≠ YUTANI_ZORDER_BOTTOM) then
        Some (set_mid_zs (list_h.list_insert (mid_zs yg) w) yg)
      else if decide (new_zed = YUTANI_ZORDER_TOP) then
        yg ← match top_z yg with
              | Some t => unorder_window yg t
              | None => Some yg
              end;
        Some (set_top_z (Some w) yg)
      else if decide (new_zed = YUTANI_ZORDER_BOTTOM) then
        yg ← match bottom_z yg with
              | Some b => unorder_window yg b
              | None => Some yg
              end;
        Some (set_bottom_z (Some w) yg)
      else Some yg
  end.

Definition make_top (yg : yutani_globals_t) (w : ptr) : option yutani_globals_t :=
  win ← heap yg !! w;
  let index := uint16 (window.z win) in
  if decide (index = YUTANI_ZORDER_BOTTOM) then Some yg
  else if decide (index = YUTANI_ZORDER_TOP) then Some yg
  else
    match list_h.list_find (mid_zs yg) w with
    | None => Some yg
    | Some n =>
        Some (set_mid_zs (list_h.list_append (list_h.list_delete (mid_zs yg) n) w) yg)
    end.

Definition notify_subscribers (yg : yutani_globals_t) : yutani_globals_t :=
  foldl (fun yg subscriber => pex_send yg subscriber YUTANI_MSG_NOTIFY)
        yg (window_subscribers yg).

Definition set_focused_window (yg : yutani_globals_t) (w : option ptr)
    : option yutani_globals_t :=
  if decide (w = focused_window yg) then Some yg else
  yg ← match focused_window yg with
        | Some f =>
            fw ← heap yg !! f;
            Some (pex_send yg (window.owner fw)
                    (YUTANI_MSG_WINDOW_FOCUS_CHANGE (window.wid fw) 0))
        | None => Some yg
        end;
  let yg := set_focused_window_field w yg in
  yg ← match w with
        | Some p =>
            pw ← heap yg !! p;
            make_top (pex_send yg (window.owner pw)
                        (YUTANI_MSG_WINDOW_FOCUS_CHANGE (window.wid pw) 1)) p
        | None => Some (set_focused_window_field (bottom_z yg) yg)
        end;
  Some (notify_subscribers yg).

Definition get_focused (yg : yutani_globals_t) : option ptr :=
  match focused_window yg with
  | Some f => Some f
  | None => bottom_z yg
  end.

(** *** Hit test *)

(* the 32-bit word at [index] of [w->buffer]: the pixel is there when its
   four bytes lie inside the region that backs the buffer *)
Definition read_pixel (yg : yutani_globals_t) (w : window.t) (index : Z) : option Z :=
  key ← window.buffer w;
  region ← shm yg !! key;
  if decide (0 <= index ∧ 4 * index + 4 <= region_size region)
  then Some (region_pixels region index) else None.

Definition check_top_at (yg : yutani_globals_t) (w : option ptr) (x y : Z)
    : option (option ptr) :=
  match w with
  | None => Some None
  | Some p =>
      win ← heap yg !! p;
      c ← device_to_window yg (Some p) x y (-1, -1);
      let _x := c.1 in
      let _y := c.2 in
      if decide (_x < 0 ∨ _x >= window.width win ∨ _y < 0 ∨ _y >= window.height win)
      then Some None else
      c ← read_pixel yg win (window.width win * _y + _x);
      let a := _ALP c in
      if decide (a >= window.alpha_threshold win) then Some (Some p) else Some None
  end.

(* the [foreachr] loop of [top_at]; [nodes] are the values in visiting order *)
Fixpoint top_at_mid (yg : yutani_globals_t) (nodes : list ptr) (x y : Z)
    : option (option ptr) :=
  match nodes with
  | [] => Some None
  | w :: rest =>
      r ← check_top_at yg (Some w) x y;
      if r is Some _ then Some (Some w) else top_at_mid yg rest x y
  end.

Definition top_at (yg : yutani_globals_t) (x y : Z) : option (option ptr) :=
  let x := uint16 x in
  let y := uint16 y in
  r ← check_top_at yg (top_z yg) x y;
  if r is Some _ then Some (top_z yg) else
  r ← top_at_mid yg (reverse (mid_zs yg)) x y;
  if r is Some w then Some (Some w) else
  r ← check_top_at yg (bottom_z yg) x y;
  if r is Some _ then Some (bottom_z yg) else Some None.

Definition set_focused_at (yg : yutani_globals_t) (x y : Z) : option yutani_globals_t :=
  n_focused ← top_at yg x y;
  set_focused_window yg n_focused.

(* "For now, just use simple z-order" *)
Definition window_is_top (window : window.t) : bool :=
  bool_decide (window.z window = YUTANI_ZORDER_TOP).

Definition window_is_bottom (window : window.t) : bool :=
  bool_decide (window.z window = YUTANI_ZORDER_BOTTOM).

(** *** Debug colours *)

Definition colors : list Z :=
  [0xFF19aeff; 0xFFff4141; 0xFFffff3e; 0xFFff6600; 0xFF9ade00; 0xFFd76cff; 0xFF364e59;
   0xFF0084c8; 0xFFdc0000; 0xFFff9900; 0xFF009100; 0xFFba00ff; 0xFFb88100; 0xFF9eabb0].

(* [wid % (sizeof(colors) / sizeof(uint32_t))] is computed in [size_t]: a
   negative wid is converted to unsigned first (a wid that is not negative
   is its own value), so the index is always inside the table *)
Definition color_for_wid (wid : Z) : option Z :=
  let i := (if decide (wid < 0) then uint32 wid else wid) `mod` 14 in
  colors !! Z.to_nat i.

(** *** Window registry *)

Definition server_window_create (yg : yutani_globals_t) (width height owner : Z)
    : ptr * yutani_globals_t :=
  let win := length (heap yg) in
  let '(wid, yg) := next_wid yg in
  let yg := set_windows (list_h.list_insert (windows yg) win) yg in
  let yg := set_wids_to_windows (<[wid := win]> (wids_to_windows yg)) yg in
  let client_list := default [] (clients_to_windows yg !! owner) in
  let yg := set_clients_to_windows
              (<[owner := list_h.list_insert client_list win]> (clients_to_windows yg)) yg in
  let '(bufid, yg) := next_buf_id yg in
  (* [size_t size = (width * height * 4)] *)
  let size := uint32 (width * height * 4) in
  let yg := memset_zero (syscall_shm_obtain yg bufid size) bufid size in
  let w :=
    {| window.wid := wid; window.owner := owner;
       window.x := 0; window.y := 0; window.z := 1;
       window.width := width; window.height := height;
       window.bufid := bufid; window.buffer := Some bufid;
       window.newbufid := 0; window.newbuffer := None;
       window.rotation := 0;
       window.client_flags := 0; window.client_offsets := [0; 0; 0; 0; 0];
       window.client_length := 0; window.client_strings := None;
       window.anim_mode := YUTANI_EFFECT_FADE_IN; window.anim_start := tick_count yg;
       window.alpha_threshold := 0 |} in
  let yg := set_heap (heap yg ++ [w]) yg in
  (win, set_mid_zs (list_h.list_insert (mid_zs yg) win) yg).

Definition server_window_update_shape (yg : yutani_globals_t) (window : ptr) (set : Z)
    : option yutani_globals_t :=
  w ← heap yg !! window;
  Some (store yg window (window.set_alpha_threshold set w)).

Definition server_window_resize (yg : yutani_globals_t) (win : ptr) (width height : Z)
    : option (Z * yutani_globals_t) :=
  w ← heap yg !! win;
  if decide (window.newbufid w ≠ 0) then Some (window.newbufid w, yg) else
  let '(id, yg) := next_buf_id yg in
  let w := window.set_newbufid id w in
  let yg := syscall_shm_obtain yg id (uint32 (width * height * 4)) in
  let w := window.set_newbuffer (Some id) w in
  Some (id, store yg win w).

Definition server_window_resize_finish (yg : yutani_globals_t) (win : ptr)
    (width height : Z) : option yutani_globals_t :=
  w ← heap yg !! win;
  if decide (window.newbufid w = 0) then Some yg else
  let oldbufid := window.bufid w in
  yg ← mark_window yg win;
  let w := window.set_height height (window.set_width width w) in
  let w := window.set_newbufid 0 (window.set_bufid (window.newbufid w) w) in
  let yg := syscall_shm_release (store yg win w) oldbufid in
  let w := window.set_newbuffer None (window.set_buffer (window.newbuffer w) w) in
  mark_window (store yg win w) win.

Definition window_mark_for_close (yg : yutani_globals_t) (w : ptr)
    : option yutani_globals_t :=
  win ← heap yg !! w;
  Some (store yg w (window.set_anim_start (tick_count yg)
                      (window.set_anim_mode YUTANI_EFFECT_FADE_OUT win))).

Definition window_remove_from_client (yg : yutani_globals_t) (w : ptr)
    : option yutani_globals_t :=
  win ← heap yg !! w;
  match clients_to_windows yg !! window.owner win with
  | None => Some yg
  | Some client_list =>
      let client_list :=
        match list_h.list_find client_list w with
        | Some n => list_h.list_delete client_list n
        | None => client_list
        end in
      if decide (length client_list = 0%nat) then
        Some (set_clients_to_windows (delete (window.owner win) (clients_to_windows yg)) yg)
      else
        Some (set_clients_to_windows
                (<[window.owner win := client_list]> (clients_to_windows yg)) yg)
  end.

Definition window_actually_close (yg : yutani_globals_t) (w : ptr)
    : option yutani_globals_t :=
  win ← heap yg !! w;
  let yg := set_wids_to_windows (delete (window.wid win) (wids_to_windows yg)) yg in
  let yg := set_windows
              (list_h.list_remove (windows yg) (list_h.list_index_of (windows yg) w)) yg in
  yg ← unorder_window yg w;
  yg ← mark_window yg w;
  let yg := if decide (Some w = focused_window yg)
            then set_focused_window_field None yg else yg in
  let yg := syscall_shm_release yg (window.bufid win) in
  Some (notify_subscribers yg).

Definition ad_flags (yg : yutani_globals_t) (win : ptr) (w : window.t) : Z :=
  if decide (Some win = focused_window yg)
  then Z.lor (window.client_flags w) 1 else window.client_flags w.

Definition yutani_query_result (yg : yutani_globals_t) (dest : Z) (win : option ptr)
    : option yutani_globals_t :=
  match win with
  | None => Some yg
  | Some p =>
      w ← heap yg !! p;
      if decide (window.client_length w ≠ 0) then
        Some (pex_send yg dest
                (YUTANI_MSG_WINDOW_ADVERTISE (window.wid w) (ad_flags yg p w)
                   (window.client_offsets w) (window.client_length w)
                   (window.client_strings w)))
      else Some yg
  end.

Definition window_tile (yg : yutani_globals_t) (window : ptr)
    (width_div height_div x y : Z) : option yutani_globals_t :=
  panel_h ← match top_z yg with
             | Some panel => pw ← heap yg !! panel; Some (window.height pw)
             | None => Some 0
             end;
  (* the display size is unsigned: both quotients are unsigned divisions,
     and a division by zero traps *)
  if decide (uint32 width_div = 0) then None else
  let w := int32 (uint32 (width yg) `quot` uint32 width_div) in
  if decide (uint32 height_div = 0) then None else
  let h := int32 (uint32 (height yg - panel_h) `quot` uint32 height_div) in
  yg ← mark_window yg window;
  win ← heap yg !! window;
  let win := window.set_y (int32 (panel_h + int32 (h * y)))
               (window.set_x (int32 (w * x)) win) in
  yg ← mark_window (store yg window win) window;
  Some (pex_send yg (window.owner win) (YUTANI_MSG_RESIZE_OFFER (window.wid win) w h 0)).

(** *** Keyboard *)

(* [focused->z != YUTANI_ZORDER_BOTTOM && focused->z != YUTANI_ZORDER_TOP] *)
Definition is_middle (w : window.t) : bool :=
  bool_decide (window.z w ≠ YUTANI_ZORDER_BOTTOM ∧ window.z w ≠ YUTANI_ZORDER_TOP).

Definition rotate_focused (yg : yutani_globals_t) (focused : ptr) (f : Z -> Z)
    : option yutani_globals_t :=
  yg ← mark_window yg focused;
  fw ← heap yg !! focused;
  mark_window (store yg focused (window.set_rotation (f (window.rotation fw)) fw)) focused.

(* the tail of [handle_key_event]: key bindings, then the focused window *)
Definition deliver_key_event (yg : yutani_globals_t) (focused : option ptr)
    (event : key_event_t) (state : key_event_state_t) : option yutani_globals_t :=
  let to_focused (yg : yutani_globals_t) :=
    match focused with
    | Some f =>
        fw ← heap yg !! f;
        Some (pex_send yg (window.owner fw) (YUTANI_MSG_KEY_EVENT (window.wid fw) event state))
    | None => Some yg
    end in
  let key_code := uint32 (Z.lor (Z.shiftl (modifiers event) 24) (keycode event)) in
  match key_binds yg !! key_code with
  | Some bind =>
      wid ← match focused with
             | Some f => fw ← heap yg !! f; Some (window.wid fw)
             | None => Some (-1)
             end;
      let yg := pex_send yg (bind_owner bind) (YUTANI_MSG_KEY_EVENT wid event state) in
      if decide (bind_response bind = YUTANI_BIND_STEAL) then Some yg else to_focused yg
  | None => to_focused yg
  end.

(** Every chord of the source is an [if (...) { ...; return; }]; the tests
    have no effect on the state, so the sequence of guarded returns is the
    chain of conditionals below, in the order of the source. *)
Definition handle_key_event (yg : yutani_globals_t) (event : key_event_t)
    (state : key_event_state_t) : option yutani_globals_t :=
  let focused := get_focused yg in
  let yg := set_kbd_state state yg in
  let down := bool_decide (action event = KEY_ACTION_DOWN) in
  let md (m : Z) := bool_decide (Z.land (modifiers event) m ≠ 0) in
  let key (k : Z) := bool_decide (keycode event = k) in
  match focused with
  | None => deliver_key_event yg focused event state
  | Some f =>
      fw ← heap yg !! f;
      if down && md KEY_MOD_LEFT_CTRL && md KEY_MOD_LEFT_SHIFT && key 122 (* 'z' *) then
        rotate_focused yg f (fun r => r - 5)
      else if down && md KEY_MOD_LEFT_CTRL && md KEY_MOD_LEFT_SHIFT && key 120 (* 'x' *) then
        rotate_focused yg f (fun r => r + 5)
      else if down && md KEY_MOD_LEFT_CTRL && md KEY_MOD_LEFT_SHIFT && key 99 (* 'c' *) then
        rotate_focused yg f (fun _ => 0)
      else if down && md KEY_MOD_LEFT_ALT && key KEY_F10 && is_middle fw then
        window_tile yg f 1 1 0 0
      else if down && md KEY_MOD_LEFT_CTRL && md KEY_MOD_LEFT_SHIFT && key 118 (* 'v' *) then
        Some (set_debug_shapes (1 - debug_shapes yg) yg)
      else if down && md KEY_MOD_LEFT_CTRL && md KEY_MOD_LEFT_SHIFT && key 98 (* 'b' *) then
        Some (set_debug_bounds (1 - debug_bounds yg) yg)
      else if down && md KEY_MOD_LEFT_SUPER && md KEY_MOD_LEFT_SHIFT
              && key KEY_ARROW_LEFT && is_middle fw then
        window_tile yg f 2 2 0 0
      else if down && md KEY_MOD_LEFT_SUPER && md KEY_MOD_LEFT_SHIFT
              && key KEY_ARROW_RIGHT && is_middle fw then
        window_tile yg f 2 2 1 0
      else if down && md KEY_MOD_LEFT_SUPER && md KEY_MOD_LEFT_CTRL
              && key KEY_ARROW_LEFT && is_middle fw then
        window_tile yg f 2 2 0 1
      else if down && md KEY_MOD_LEFT_SUPER && md KEY_MOD_LEFT_CTRL
              && key KEY_ARROW_RIGHT && is_middle fw then
        window_tile yg f 2 2 1 1
      else if down && md KEY_MOD_LEFT_SUPER && key KEY_ARROW_LEFT && is_middle fw then
        window_tile yg f 2 1 0 0
      else if down && md KEY_MOD_LEFT_SUPER && key KEY_ARROW_RIGHT && is_middle fw then
        window_tile yg f 2 1 1 0
      else if down && md KEY_MOD_LEFT_SUPER && key KEY_ARROW_UP && is_middle fw then
        window_tile yg f 1 2 0 0
      else if down && md KEY_MOD_LEFT_SUPER && key KEY_ARROW_DOWN && is_middle fw then
        window_tile yg f 1 2 0 1
      else deliver_key_event yg focused event state
  end.

Definition add_key_bind (yg : yutani_globals_t) (key modifiers response owner : Z)
    : yutani_globals_t :=
  let key_code := Z.lor (Z.shiftl (modifiers mod 256) 24) (Z.land (uint32 key) 16777215) in
  set_key_binds
    (<[key_code := {| bind_owner := owner; bind_response := response |}]> (key_binds yg)) yg.

(** *** Mouse *)

Definition mouse_start_drag (yg : yutani_globals_t) : option yutani_globals_t :=
  yg ← set_focused_at yg (mouse_x yg `quot` MOUSE_SCALE) (mouse_y yg `quot` MOUSE_SCALE);
  let yg := set_mouse_window (get_focused yg) yg in
  match mouse_window yg with
  | None => Some yg
  | Some mw =>
      w ← heap yg !! mw;
      if decide (window.z w = YUTANI_ZORDER_BOTTOM ∨ window.z w = YUTANI_ZORDER_TOP) then
        Some (set_mouse_window None (set_mouse_state YUTANI_MOUSE_STATE_NORMAL yg))
      else
        let yg := set_mouse_state YUTANI_MOUSE_STATE_MOVING yg in
        let yg := set_mouse_init_y (mouse_y yg) (set_mouse_init_x (mouse_x yg) yg) in
        let yg := set_mouse_win_y (window.y w) (set_mouse_win_x (window.x w) yg) in
        make_top yg mw
  end.

Definition mouse_start_resize (yg : yutani_globals_t) : option yutani_globals_t :=
  yg ← set_focused_at yg (mouse_x yg `quot` MOUSE_SCALE) (mouse_y yg `quot` MOUSE_SCALE);
  let yg := set_mouse_window (get_focused yg) yg in
  match mouse_window yg with
  | None => Some yg
  | Some mw =>
      w ← heap yg !! mw;
      if decide (window.z w = YUTANI_ZORDER_BOTTOM ∨ window.z w = YUTANI_ZORDER_TOP) then
        Some (set_mouse_window None (set_mouse_state YUTANI_MOUSE_STATE_NORMAL yg))
      else
        let yg := set_mouse_state YUTANI_MOUSE_STATE_RESIZING yg in
        let yg := set_mouse_init_y (mouse_y yg) (set_mouse_init_x (mouse_x yg) yg) in
        let yg := set_mouse_win_y (window.y w) (set_mouse_win_x (window.x w) yg) in
        let yg := set_resizing_window (Some mw) yg in
        let yg := set_resizing_h (window.height w) (set_resizing_w (window.width w) yg) in
        make_top yg mw
  end.

(* lines 1288-1299 of [handle_mouse_event]: the pointer position *)
Definition mouse_update_position (yg : yutani_globals_t) (event : mouse_device_packet_t)
    (type : yutani_mouse_event_type) : yutani_globals_t :=
  let yg :=
    match type with
    | YUTANI_MOUSE_EVENT_TYPE_RELATIVE =>
        set_mouse_y (int32 (mouse_y yg - int32 (y_difference event * 3)))
          (set_mouse_x (int32 (mouse_x yg + int32 (x_difference event * 3))) yg)
    | YUTANI_MOUSE_EVENT_TYPE_ABSOLUTE =>
        set_mouse_y (int32 (y_difference event * 3))
          (set_mouse_x (int32 (x_difference event * 3)) yg)
    | YUTANI_MOUSE_EVENT_TYPE_OTHER => yg
    end in
  let yg := if decide (mouse_x yg < 0) then set_mouse_x 0 yg else yg in
  let yg := if decide (mouse_y yg < 0) then set_mouse_y 0 yg else yg in
  (* the display size is unsigned: the comparison and the product are *)
  let yg := if decide (uint32 (mouse_x yg) > uint32 (width yg * MOUSE_SCALE))
            then set_mouse_x (int32 (uint32 (width yg * MOUSE_SCALE))) yg else yg in
  let yg := if decide (uint32 (mouse_y yg) > uint32 (height yg * MOUSE_SCALE))
            then set_mouse_y (int32 (uint32 (height yg * MOUSE_SCALE))) yg else yg in
  yg.

(* [yutani_msg_build_window_mouse_event] followed by [pex_send] to the owner *)
Definition send_mouse_event (yg : yutani_globals_t) (w : ptr) (x y old_x old_y buttons : Z)
    (kind : yutani_mouse_event_kind) : option yutani_globals_t :=
  win ← heap yg !! w;
  Some (pex_send yg (window.owner win)
          (YUTANI_MSG_WINDOW_MOUSE_EVENT (window.wid win) x y old_x old_y buttons kind)).

Definition mouse_pointer (yg : yutani_globals_t) : Z * Z :=
  (mouse_x yg `quot` MOUSE_SCALE, mouse_y yg `quot` MOUSE_SCALE).

Definition handle_mouse_normal (yg : yutani_globals_t) (event : mouse_device_packet_t)
    : option yutani_globals_t :=
  let left := bool_decide (Z.land (buttons event) YUTANI_MOUSE_BUTTON_LEFT ≠ 0) in
  let middle := bool_decide (Z.land (buttons event) YUTANI_MOUSE_BUTTON_MIDDLE ≠ 0) in
  let alt := bool_decide (k_alt (kbd_state yg) ≠ 0) in
  if left && alt then mouse_start_drag yg
  else if middle && alt then mouse_start_resize yg
  else if left && negb alt then
    let yg := set_mouse_state YUTANI_MOUSE_STATE_DRAGGING yg in
    yg ← set_focused_at yg (mouse_pointer yg).1 (mouse_pointer yg).2;
    let yg := set_mouse_window (get_focused yg) yg in
    let yg := set_mouse_moved 0 yg in
    let yg := set_mouse_drag_button YUTANI_MOUSE_BUTTON_LEFT yg in
    c ← device_to_window yg (mouse_window yg) (mouse_pointer yg).1 (mouse_pointer yg).2
          (mouse_click_x yg, mouse_click_y yg);
    let yg := set_mouse_click_y c.2 (set_mouse_click_x c.1 yg) in
    mw ← mouse_window yg;
    send_mouse_event yg mw (mouse_click_x yg) (mouse_click_y yg) (-1) (-1)
      (buttons event) YUTANI_MOUSE_EVENT_DOWN
  else
    let yg := set_mouse_window (get_focused yg) yg in
    tmp_window ← top_at yg (mouse_pointer yg).1 (mouse_pointer yg).2;
    yg ← match mouse_window yg with
          | Some mw =>
              c ← device_to_window yg (Some mw) (mouse_pointer yg).1 (mouse_pointer yg).2 (0, 0);
              send_mouse_event yg mw c.1 c.2 (-1) (-1) (buttons event) YUTANI_MOUSE_EVENT_MOVE
          | None => Some yg
          end;
    match tmp_window with
    | None => Some yg
    | Some tmp =>
        yg ← (if decide (Some tmp ≠ old_hover_window yg) then
                 c ← device_to_window yg (Some tmp) (mouse_pointer yg).1 (mouse_pointer yg).2 (0, 0);
                 yg ← send_mouse_event yg tmp c.1 c.2 (-1) (-1) (buttons event)
                        YUTANI_MOUSE_EVENT_ENTER;
                 yg ← match old_hover_window yg with
                       | Some old =>
                           c ← device_to_window yg (Some old) (mouse_pointer yg).1
                                 (mouse_pointer yg).2 c;
                           send_mouse_event yg old c.1 c.2 (-1) (-1) (buttons event)
                             YUTANI_MOUSE_EVENT_LEAVE
                       | None => Some yg
                       end;
                 Some (set_old_hover_window (Some tmp) yg)
               else Some yg);
        if decide (Some tmp ≠ mouse_window yg) then
          c ← device_to_window yg (Some tmp) (mouse_pointer yg).1 (mouse_pointer yg).2 (0, 0);
          send_mouse_event yg tmp c.1 c.2 (-1) (-1) (buttons event) YUTANI_MOUSE_EVENT_MOVE
        else Some yg
    end.

Definition handle_mouse_moving (yg : yutani_globals_t) (event : mouse_device_packet_t)
    : option yutani_globals_t :=
  if bool_decide (Z.land (buttons event) YUTANI_MOUSE_BUTTON_LEFT = 0) then
    Some (set_mouse_state YUTANI_MOUSE_STATE_NORMAL (set_mouse_window None yg))
  else
    mw ← mouse_window yg;
    yg ← mark_window yg mw;
    w ← heap yg !! mw;
    let w := window.set_x (mouse_win_x yg + (mouse_x yg - mouse_init_x yg) `quot` MOUSE_SCALE) w in
    let w := window.set_y (mouse_win_y yg + (mouse_y yg - mouse_init_y yg) `quot` MOUSE_SCALE) w in
    mark_window (store yg mw w) mw.

Definition handle_mouse_dragging (yg : yutani_globals_t) (event : mouse_device_packet_t)
    : option yutani_globals_t :=
  if bool_decide (Z.land (buttons event) (mouse_drag_button yg) = 0) then
    let yg := set_mouse_state YUTANI_MOUSE_STATE_NORMAL yg in
    let old_x := mouse_click_x yg in
    let old_y := mouse_click_y yg in
    c ← device_to_window yg (mouse_window yg) (mouse_pointer yg).1 (mouse_pointer yg).2
          (mouse_click_x yg, mouse_click_y yg);
    let yg := set_mouse_click_y c.2 (set_mouse_click_x c.1 yg) in
    mw ← mouse_window yg;
    if decide (mouse_moved yg = 0) then
      send_mouse_event yg mw (mouse_click_x yg) (mouse_click_y yg) (-1) (-1)
        (buttons event) YUTANI_MOUSE_EVENT_CLICK
    else
      send_mouse_event yg mw (mouse_click_x yg) (mouse_click_y yg) old_x old_y
        (buttons event) YUTANI_MOUSE_EVENT_RAISE
  else
    let yg := set_mouse_state YUTANI_MOUSE_STATE_DRAGGING yg in
    let yg := set_mouse_moved 1 yg in
    let old_x := mouse_click_x yg in
    let old_y := mouse_click_y yg in
    c ← device_to_window yg (mouse_window yg) (mouse_pointer yg).1 (mouse_pointer yg).2
          (mouse_click_x yg, mouse_click_y yg);
    let yg := set_mouse_click_y c.2 (set_mouse_click_x c.1 yg) in
    if decide (old_x ≠ mouse_click_x yg ∨ old_y ≠ mouse_click_y yg) then
      mw ← mouse_window yg;
      send_mouse_event yg mw (mouse_click_x yg) (mouse_click_y yg) old_x old_y
        (buttons event) YUTANI_MOUSE_EVENT_DRAG
    else Some yg.

Definition handle_mouse_resizing (yg : yutani_globals_t) (event : mouse_device_packet_t)
    : option yutani_globals_t :=
  let width_diff := (mouse_x yg - mouse_init_x yg) `quot` MOUSE_SCALE in
  let height_diff := (mouse_y yg - mouse_init_y yg) `quot` MOUSE_SCALE in
  mw ← mouse_window yg;
  yg ← mark_window_relative yg mw (-2) (-2) (resizing_w yg + 10) (resizing_h yg + 10);
  rp ← resizing_window yg;
  rw ← heap yg !! rp;
  let yg := set_resizing_w (window.width rw + width_diff) yg in
  let yg := set_resizing_h (window.height rw + height_diff) yg in
  yg ← mark_window_relative yg mw (-2) (-2) (resizing_w yg + 10) (resizing_h yg + 10);
  if bool_decide (Z.land (buttons event) YUTANI_MOUSE_BUTTON_MIDDLE = 0) then
    let yg := pex_send yg (window.owner rw)
                (YUTANI_MSG_RESIZE_OFFER (window.wid rw) (resizing_w yg) (resizing_h yg) 0) in
    Some (set_mouse_state YUTANI_MOUSE_STATE_NORMAL
            (set_mouse_window None (set_resizing_window None yg)))
  else Some yg.

Definition handle_mouse_event (yg : yutani_globals_t) (event : mouse_device_packet_t)
    (type : yutani_mouse_event_type) : option yutani_globals_t :=
  let yg := mouse_update_position yg event type in
  match mouse_state yg with
  | YUTANI_MOUSE_STATE_NORMAL => handle_mouse_normal yg event
  | YUTANI_MOUSE_STATE_MOVING => handle_mouse_moving yg event
  | YUTANI_MOUSE_STATE_DRAGGING => handle_mouse_dragging yg event
  | YUTANI_MOUSE_STATE_RESIZING => handle_mouse_resizing yg event
  end.

(** *** Render tick: what [redraw_windows] does to the state *)

(* a [foreach] loop whose body may crash *)
Fixpoint foreach {A} (l : list A) (body : yutani_globals_t -> A -> option yutani_globals_t)
    (yg : yutani_globals_t) : option yutani_globals_t :=
  match l with
  | [] => Some yg
  | v :: rest => yg ← body yg v; foreach rest body yg
  end.

(* The surface that [yutani_blit_window] makes of a window is the window's
   buffer taken as width x height pixels of 4 bytes; the renderer that
   paints it is outside the source and may read each of them.  Painting has
   a result when the region behind the buffer holds them all. *)
Definition surface_backed (yg : yutani_globals_t) (w : window.t) : bool :=
  match window.buffer w ≫= (shm yg !!.) with
  | Some region =>
      bool_decide (4 * (window.width w * window.height w) <= region_size region)
  | None => false
  end.

Definition cairo_paint (yg : yutani_globals_t) (w : window.t) : option unit :=
  if surface_backed yg w then Some () else None.

(* the animation bookkeeping of [yutani_blit_window] and the painting of the
   window; a window whose fade-out is over is not painted.
   [windows_to_remove] lives for one frame only and is threaded as a value. *)
Definition yutani_blit_window (st : yutani_globals_t * list ptr) (window : ptr)
    : option (yutani_globals_t * list ptr) :=
  let '(yg, windows_to_remove) := st in
  w ← heap yg !! window;
  if decide (window.anim_mode w = YUTANI_EFFECT_NONE) then
    _ ← cairo_paint yg w; Some st
  else
  let frame := tick_count yg - window.anim_start w in
  if decide (frame >= yutani_animation_lengths (window.anim_mode w)) then
    if decide (window.anim_mode w = YUTANI_EFFECT_FADE_OUT) then
      Some (yg, list_h.list_insert windows_to_remove window)
    else
      let w := window.set_anim_start 0 (window.set_anim_mode YUTANI_EFFECT_NONE w) in
      _ ← cairo_paint yg w;
      Some (store yg window w, windows_to_remove)
  else _ ← cairo_paint yg w; Some st.

Fixpoint blit_all (l : list ptr) (st : yutani_globals_t * list ptr)
    : option (yutani_globals_t * list ptr) :=
  match l with
  | [] => Some st
  | w :: rest => st ← yutani_blit_window st w; blit_all rest st
  end.

Definition mark_if_animated (yg : yutani_globals_t) (w : ptr) : option yutani_globals_t :=
  win ← heap yg !! w;
  if decide (window.anim_mode win = YUTANI_EFFECT_NONE) then Some yg else mark_window yg w.

(* [draw_resizing_box]: the corners of the box, read off the window that is
   being resized *)
Definition draw_resizing_box (yg : yutani_globals_t) : option (list (Z * Z)) :=
  match resizing_window yg with
  | None => Some []
  | Some rw =>
      w ← heap yg !! rw;
      Some [window_to_device w 0 0;
            window_to_device w (resizing_w yg) (resizing_h yg);
            window_to_device w 0 (resizing_h yg);
            window_to_device w (resizing_w yg) 0]
  end.

(* the shape viewer of [redraw_windows]: the hit test at every point of a
   square of side 40 around the pointer, clipped to the display; the result
   is the list of the pixels it colours *)
Definition debug_shapes_scan (yg : yutani_globals_t) (tmp_mouse_x tmp_mouse_y : Z)
    : option (list (Z * Z * Z)) :=
  let _ly := max 0 (tmp_mouse_y `quot` MOUSE_SCALE - 20) in
  let _hy := min (int32 (height yg)) (tmp_mouse_y `quot` MOUSE_SCALE + 20) in
  let _lx := max 0 (tmp_mouse_x `quot` MOUSE_SCALE - 20) in
  let _hx := min (int32 (width yg)) (tmp_mouse_x `quot` MOUSE_SCALE + 20) in
  rows ← mapM (fun y =>
            mapM (fun x =>
                    w ← top_at yg x y;
                    match w with
                    | Some p =>
                        win ← heap yg !! p;
                        c ← color_for_wid (window.wid win);
                        Some [(x, y, c)]
                    | None => Some []
                    end)
                 (seqZ _lx (_hx - _lx)))
          (seqZ _ly (_hy - _ly));
  Some (concat (concat rows)).

Definition redraw_windows (yg : yutani_globals_t) : option yutani_globals_t :=
  let tmp_mouse_x := mouse_x yg in
  let tmp_mouse_y := mouse_y yg in
  let has_updates :=
    if decide (last_mouse_x yg ≠ tmp_mouse_x ∨ last_mouse_y yg ≠ tmp_mouse_y) then 2 else 0 in
  let yg := set_last_mouse_y tmp_mouse_y (set_last_mouse_x tmp_mouse_x yg) in
  let yg := set_tick_count (tick_count yg + 10) yg in
  yg ← foreach (option_list (bottom_z yg)) mark_if_animated yg;
  yg ← foreach (option_list (top_z yg)) mark_if_animated yg;
  yg ← foreach (mid_zs yg) mark_if_animated yg;
  let has_updates := if decide (update_list yg = []) then has_updates else 1 in
  let yg := set_update_list [] yg in
  if decide (has_updates = 0) then Some yg else
  st ← blit_all (option_list (bottom_z yg)) (yg, []);
  st ← blit_all (mid_zs st.1) st;
  st ← blit_all (option_list (top_z st.1)) st;
  _ ← draw_resizing_box st.1;
  _ ← (if decide (debug_shapes st.1 ≠ 0)
       then debug_shapes_scan st.1 tmp_mouse_x tmp_mouse_y else Some []);
  foreach (reverse st.2) window_actually_close st.1.

(** *** Protocol loop: one iteration of the [while (1)] of [main] *)

Definition handle_message (yg : yutani_globals_t) (source : Z) (m : yutani_msg)
    : option yutani_globals_t :=
  let lookup (wid : Z) := wids_to_windows yg !! wid in
  match m with
  | YUTANI_MSG_HELLO =>
      Some (pex_send yg source (YUTANI_MSG_WELCOME (width yg) (height yg)))
  | YUTANI_MSG_WINDOW_NEW width height =>
      let '(w, yg) := server_window_create yg width height source in
      win ← heap yg !! w;
      let yg := pex_send yg source
                  (YUTANI_MSG_WINDOW_INIT (window.wid win) (window.width win)
                     (window.height win) (window.bufid win)) in
      Some (notify_subscribers yg)
  | YUTANI_MSG_FLIP wid =>
      match lookup wid with Some w => mark_window yg w | None => Some yg end
  | YUTANI_MSG_FLIP_REGION wid x y width height =>
      match lookup wid with
      | Some w => mark_window_relative yg w x y width height
      | None => Some yg
      end
  | YUTANI_MSG_KEY_EVENT _ event state => handle_key_event yg event state
  | YUTANI_MSG_MOUSE_EVENT _ event type => handle_mouse_event yg event type
  | YUTANI_MSG_WINDOW_MOVE wid x y =>
      match lookup wid with
      | Some win =>
          yg ← mark_window yg win;
          w ← heap yg !! win;
          mark_window (store yg win (window.set_y y (window.set_x x w))) win
      | None => Some yg
      end
  | YUTANI_MSG_WINDOW_CLOSE wid =>
      match lookup wid with
      | Some w => yg ← window_mark_for_close yg w; window_remove_from_client yg w
      | None => Some yg
      end
  | YUTANI_MSG_WINDOW_STACK wid z =>
      match lookup wid with
      | Some w => reorder_window yg (Some w) z
      | None => Some yg
      end
  | YUTANI_MSG_RESIZE_REQUEST wid width height _
  | YUTANI_MSG_RESIZE_OFFER wid width height _ =>
      match lookup wid with
      | Some w =>
          win ← heap yg !! w;
          Some (pex_send yg source (YUTANI_MSG_RESIZE_OFFER (window.wid win) width height 0))
      | None => Some yg
      end
  | YUTANI_MSG_RESIZE_ACCEPT wid width height _ =>
      match lookup wid with
      | Some w =>
          r ← server_window_resize yg w width height;
          let '(newbufid, yg) := r in
          win ← heap yg !! w;
          Some (pex_send yg source
                  (YUTANI_MSG_RESIZE_BUFID (window.wid win) width height newbufid))
      | None => Some yg
      end
  | YUTANI_MSG_RESIZE_DONE wid width height _ =>
      match lookup wid with
      | Some w => server_window_resize_finish yg w width height
      | None => Some yg
      end
  | YUTANI_MSG_QUERY_WINDOWS =>
      yg ← yutani_query_result yg source (bottom_z yg);
      yg ← foreach (mid_zs yg) (fun yg w => yutani_query_result yg source (Some w)) yg;
      yg ← yutani_query_result yg source (top_z yg);
      Some (pex_send yg source (YUTANI_MSG_WINDOW_ADVERTISE 0 0 [] 0 None))
  | YUTANI_MSG_SUBSCRIBE =>
      (* the [foreach] before the insertion only breaks out of itself *)
      Some (set_window_subscribers (list_h.list_insert (window_subscribers yg) source) yg)
  | YUTANI_MSG_UNSUBSCRIBE =>
      match list_h.list_find (window_subscribers yg) source with
      | Some node =>
          Some (set_window_subscribers (list_h.list_delete (window_subscribers yg) node) yg)
      | None => Some yg
      end
  | YUTANI_MSG_WINDOW_ADVERTISE wid flags offsets size strings =>
      match lookup wid with
      | Some w =>
          win ← heap yg !! w;
          let win := window.set_client_offsets (take 5 offsets) win in
          let win := window.set_client_flags flags win in
          let win := window.set_client_length size win in
          let win := window.set_client_strings strings win in
          Some (notify_subscribers (store yg w win))
      | None => Some yg
      end
  | YUTANI_MSG_SESSION_END => Some (pex_broadcast yg YUTANI_MSG_SESSION_END)
  | YUTANI_MSG_WINDOW_FOCUS wid =>
      match lookup wid with
      | Some w => set_focused_window yg (Some w)
      | None => Some yg
      end
  | YUTANI_MSG_KEY_BIND key modifiers response =>
      Some (add_key_bind yg key modifiers response source)
  | YUTANI_MSG_WINDOW_DRAG_START wid =>
      match lookup wid with
      | Some w => mouse_start_drag yg
      | None => Some yg
      end
  | YUTANI_MSG_WINDOW_UPDATE_SHAPE wid set_shape =>
      match lookup wid with
      | Some w => server_window_update_shape yg w set_shape
      | None => Some yg
      end
  | _ => Some yg
  end.

Definition handle_packet (yg : yutani_globals_t) (p : pex_packet_t)
    : option yutani_globals_t :=
  if decide (size p = 0) then
    match clients_to_windows yg !! source p with
    | Some client_list =>
        yg ← foreach client_list window_mark_for_close yg;
        Some (set_clients_to_windows (delete (source p) (clients_to_windows yg)) yg)
    | None => Some yg
    end
  else if decide (magic p ≠ YUTANI_MSG__MAGIC) then Some yg
  else handle_message yg (source p) (data p).

(** The state [main] builds before it enters the loop, for a display of
    the given size. *)
Definition yutani_init (display_width display_height : Z) : yutani_globals_t :=
  {| heap := []; width := display_width; height := display_height;
     windows := []; wids_to_windows := ∅; clients_to_windows := ∅; key_binds := ∅;
     mid_zs := []; bottom_z := None; top_z := None;
     update_list := []; window_subscribers := [];
     mouse_x := (display_width * MOUSE_SCALE) `quot` 2;
     mouse_y := (display_height * MOUSE_SCALE) `quot` 2;
     last_mouse_x := 0; last_mouse_y := 0;
     mouse_state := YUTANI_MOUSE_STATE_NORMAL; mouse_window := None;
     mouse_init_x := 0; mouse_init_y := 0; mouse_win_x := 0; mouse_win_y := 0;
     mouse_click_x := 0; mouse_click_y := 0; mouse_drag_button := 0; mouse_moved := 0;
     resizing_window := None; resizing_w := 0; resizing_h := 0;
     focused_window := None; old_hover_window := None;
     tick_count := 0; kbd_state := {| k_alt := 0 |};
     debug_shapes := 0; debug_bounds := 0;
     next_buf_id_static := 1; next_wid_static := 1;
     shm := ∅; outbox := [] |}.

(** One atomic step of the compositor or of its environment: a packet is
    handled, a frame is rendered, or a client writes pixels into a region
    it shares with the compositor. *)
Inductive step : yutani_globals_t -> yutani_globals_t -> Prop :=
| step_packet yg p yg' :
    handle_packet yg p = Some yg' -> step yg yg'
| step_redraw yg yg' :
    redraw_windows yg = Some yg' -> step yg yg'
| step_client_draw yg key region pixels :
    shm yg !! key = Some region ->
    step yg (set_shm (<[key := {| region_size := region_size region;
                                  region_pixels := pixels |}]> (shm yg)) yg).

Definition reachable (yg : yutani_globals_t) : Prop :=
  ∃ display_width display_height, rtc step (yutani_init display_width display_height) yg.

End Model.

(* conversion unfolds the protocol loop before the window constructor *)
Strategy 10 [server_window_create].

(** ** A concrete set of constants, and scenarios

    The reserved z values are the ones the specification lists; the other
    numbers are sample values (distinct bits for the modifiers and buttons).
    Every window of the scenarios below is unrotated, so the rotation
    function is never called on them. *)

#[local] Obligation Tactic := try (cbv; intuition congruence).

Program Definition sample_consts : YutaniConsts := {|
  YUTANI_ZORDER_TOP := 65534;
  YUTANI_ZORDER_BOTTOM := 65535;
  MOUSE_SCALE := 3;
  YUTANI_MOUSE_BUTTON_LEFT := 1;
  YUTANI_MOUSE_BUTTON_MIDDLE := 4;
  KEY_ACTION_DOWN := 1;
  KEY_MOD_LEFT_CTRL := 1;
  KEY_MOD_LEFT_SHIFT := 2;
  KEY_MOD_LEFT_ALT := 4;
  KEY_MOD_LEFT_SUPER := 8;
  KEY_F10 := 2020;
  KEY_ARROW_LEFT := 260;
  KEY_ARROW_RIGHT := 259;
  KEY_ARROW_UP := 257;
  KEY_ARROW_DOWN := 258;
  YUTANI_BIND_STEAL := 1;
  YUTANI_MSG__MAGIC := 2880249322;
  yutani_animation_lengths := fun e => match e with YUTANI_EFFECT_NONE => 0 | _ => 256 end;
  fp_rotate := fun _ t_x t_y => (t_x, t_y);
  shm_fresh_pixels := fun _ _ => 0
|}.

(* run a list of packets through the protocol loop *)
Fixpoint run `{YutaniConsts} (yg : yutani_globals_t) (ps : list pex_packet_t)
    : option yutani_globals_t :=
  match ps with
  | [] => Some yg
  | p :: rest => yg ← handle_packet yg p; run yg rest
  end.

Definition packet `{YutaniConsts} (source : Z) (m : yutani_msg) : pex_packet_t :=
  {| source := source; size := 1; magic := YUTANI_MSG__MAGIC; data := m |}.

(** ** Stacking tiers and well-formedness *)

Section Invariants.
Context `{YutaniConsts}.

(** In how many of the three tiers a window sits (a position of [mid_zs]
    counts once per occurrence). *)
Definition tier_count (yg : yutani_globals_t) (p : ptr) : nat :=
  ((if decide (bottom_z yg = Some p) then 1 else 0)
   + count_occ Nat.eq_dec (mid_zs yg) p
   + (if decide (top_z yg = Some p) then 1 else 0))%nat.

Definition registered (yg : yutani_globals_t) (p : ptr) : Prop :=
  ∃ wid, wids_to_windows yg !! wid = Some p.

(** The z field of a window agrees with the tier that holds it. *)
Record zorder_wf (yg : yutani_globals_t) : Prop := {
  wf_mid_nodup : NoDup (mid_zs yg);
  wf_mid : ∀ p, p ∈ mid_zs yg →
    ∃ w, heap yg !! p = Some w
         ∧ window.z w ≠ YUTANI_ZORDER_TOP ∧ window.z w ≠ YUTANI_ZORDER_BOTTOM;
  wf_top : ∀ p, top_z yg = Some p →
    ∃ w, heap yg !! p = Some w ∧ window.z w = YUTANI_ZORDER_TOP;
  wf_bottom : ∀ p, bottom_z yg = Some p →
    ∃ w, heap yg !! p = Some w ∧ window.z w = YUTANI_ZORDER_BOTTOM;
  wf_z : ∀ p w, heap yg !! p = Some w → 0 <= window.z w < 65536;
  wf_wids : ∀ k p, wids_to_windows yg !! k = Some p →
    ∃ w, heap yg !! p = Some w ∧ window.wid w = k
}.

(** Identifiers are handed out once, and a window that has not been closed
    keeps its buffers mapped. *)
Record registry_wf (yg : yutani_globals_t) : Prop := {
  rwf_zorder : zorder_wf yg;
  rwf_next_buf : 1 <= next_buf_id_static yg;
  rwf_wid : ∀ p w, heap yg !! p = Some w → window.wid w < next_wid_static yg;
  rwf_wid_inj : ∀ p q w v, heap yg !! p = Some w → heap yg !! q = Some v →
    window.wid w = window.wid v → p = q;
  rwf_tier_live : ∀ p, (0 < tier_count yg p)%nat →
    ∃ w, heap yg !! p = Some w ∧ wids_to_windows yg !! window.wid w = Some p;
  rwf_buf_range : ∀ p w, heap yg !! p = Some w →
    1 <= window.bufid w < next_buf_id_static yg
    ∧ 0 <= window.newbufid w < next_buf_id_static yg
    ∧ window.newbufid w ≠ window.bufid w;
  rwf_buf_inj : ∀ p q w v, heap yg !! p = Some w → heap yg !! q = Some v → p ≠ q →
    window.bufid w ≠ window.bufid v ∧ window.bufid w ≠ window.newbufid v
    ∧ (window.newbufid w ≠ 0 → window.newbufid w ≠ window.newbufid v);
  rwf_mapped : ∀ p w, heap yg !! p = Some w →
    wids_to_windows yg !! window.wid w = Some p →
    window.buffer w = Some (window.bufid w) ∧ is_Some (shm yg !! window.bufid w)
    ∧ (window.newbufid w ≠ 0 →
       window.newbuffer w = Some (window.newbufid w)
       ∧ is_Some (shm yg !! window.newbufid w))
}.

(** What the invariants read of a window, and of the state. *)
Definition wcore (w : window.t) : Z * Z * Z * option Z * Z * option Z :=
  (window.wid w, window.z w, window.bufid w, window.buffer w,
   window.newbufid w, window.newbuffer w).

(** Two states that the invariants cannot tell apart: the same windows as
    far as [wcore] goes, the same tiers up to the order of the middle one. *)
Definition same_core (yg yg' : yutani_globals_t) : Prop :=
  wcore <$> heap yg = wcore <$> heap yg'
  ∧ mid_zs yg ≡ₚ mid_zs yg'
  ∧ top_z yg = top_z yg'
  ∧ bottom_z yg = bottom_z yg'
  ∧ wids_to_windows yg = wids_to_windows yg'
  ∧ dom (shm yg) = dom (shm yg')
  ∧ next_buf_id_static yg = next_buf_id_static yg'
  ∧ next_wid_static yg = next_wid_static yg'.

Definition in_tier (yg : yutani_globals_t) (p : ptr) : Prop :=
  bottom_z yg = Some p ∨ p ∈ mid_zs yg ∨ top_z yg = Some p.

(* every tier of [yg'] is contained in the same tier of [yg] *)
Definition tiers_sub (yg' yg : yutani_globals_t) : Prop :=
  (∀ p, p ∈ mid_zs yg' → p ∈ mid_zs yg)
  ∧ (∀ p, top_z yg' = Some p → top_z yg = Some p)
  ∧ (∀ p, bottom_z yg' = Some p → bottom_z yg = Some p).

(** What the registry invariants read of a window besides its z. *)
Definition wids_core (w : window.t) : Z * Z * option Z * Z * option Z :=
  (window.wid w, window.bufid w, window.buffer w, window.newbufid w, window.newbuffer w).

Definition ids_same (yg yg' : yutani_globals_t) : Prop :=
  wids_core <$> heap yg' = wids_core <$> heap yg
  ∧ wids_to_windows yg' = wids_to_windows yg
  ∧ dom (shm yg') = dom (shm yg)
  ∧ next_buf_id_static yg' = next_buf_id_static yg
  ∧ next_wid_static yg' = next_wid_static yg.

(** From [yg] to [yg'] windows were only closed: nothing is registered,
    mapped, stacked or focused that was not before, and the window records
    keep their ids. *)
Definition closed_le (yg yg' : yutani_globals_t) : Prop :=
  (∀ k, wids_to_windows yg !! k = None → wids_to_windows yg' !! k = None)
  ∧ (∀ k, shm yg !! k = None → shm yg' !! k = None)
  ∧ (∀ q, in_tier yg' q → in_tier yg q)
  ∧ (∀ q, focused_window yg' = Some q → focused_window yg = Some q)
  ∧ (∀ q w, heap yg !! q = Some w →
       ∃ w', heap yg' !! q = Some w' ∧ window.wid w' = window.wid w
             ∧ window.bufid w' = window.bufid w)
  ∧ tick_count yg' = tick_count yg.

(** The middle of [server_window_resize_finish], between its two calls of
    [mark_window]. *)
Definition resize_promote (yg : yutani_globals_t) (p : ptr) (w : window.t)
    (width height : Z) : yutani_globals_t :=
  let w1 := window.set_height height (window.set_width width w) in
  let w2 := window.set_newbufid 0 (window.set_bufid (window.newbufid w1) w1) in
  let yg := syscall_shm_release (store yg p w2) (window.bufid w) in
  store yg p (window.set_newbuffer None (window.set_buffer (window.newbuffer w2) w2)).

(* the stacking order from back to front, as [redraw_windows] draws it *)
Definition back_to_front (yg : yutani_globals_t) : list ptr :=
  option_list (bottom_z yg) ++ mid_zs yg ++ option_list (top_z yg).

(** The buffer of every window of the stacking order holds the window's
    geometry: it is mapped, and its region has room for width x height
    pixels of 4 bytes.  (RESIZE_DONE takes the new size from the message,
    not from the RESIZE_ACCEPT the buffer was made for, so a reachable
    state need not have the property.) *)
Definition buffers_fit (yg : yutani_globals_t) : Prop :=
  forallb (fun p => from_option (surface_backed yg) false (heap yg !! p))
          (back_to_front yg) = true.

(* a window record whose buffer holds its pixels *)
Definition backed (yg : yutani_globals_t) (p : ptr) : Prop :=
  ∃ w, heap yg !! p = Some w ∧ surface_backed yg w = true.

(* the window that is being resized by the mouse, if any, is a window record *)
Definition resizing_valid (yg : yutani_globals_t) : Prop :=
  ∀ rw, resizing_window yg = Some rw → is_Some (heap yg !! rw).

(** Every window record is in the stacking order or carries the z that
    [unorder_window] writes. *)
Definition tier_or_unordered (yg : yutani_globals_t) : Prop :=
  ∀ p w, heap yg !! p = Some w → in_tier yg p ∨ window.z w = uint16 (-1).

(* the 32-bit [int] holds [v] exactly *)
Definition fits_int32 (v : Z) : Prop := -2147483648 <= v < 2147483648.

(* the window record is there and its buffer is a mapped region *)
Definition buffer_mapped (yg : yutani_globals_t) (p : ptr) : Prop :=
  ∃ w b r, heap yg !! p = Some w ∧ window.buffer w = Some b ∧ shm yg !! b = Some r.

(* the pointer position and the display size are the same in both states *)
Definition same_pointer (yg yg' : yutani_globals_t) : Prop :=
  mouse_x yg' = mouse_x yg ∧ mouse_y yg' = mouse_y yg
  ∧ width yg' = width yg ∧ height yg' = height yg.

(** The focus pointer, when set, points at a window record. *)
Definition focus_valid (yg : yutani_globals_t) : Prop :=
  ∀ f, focused_window yg = Some f → is_Some (heap yg !! f).

(* the bottom window, when set, is a window record *)
Definition bottom_valid (yg : yutani_globals_t) : Prop :=
  ∀ b, bottom_z yg = Some b → is_Some (heap yg !! b).

(** From [yg] to [yg'] the store of windows did not shrink, and the focus
    and bottom pointers of [yg'] are those of [yg] or point into the store. *)
Definition focus_le (yg yg' : yutani_globals_t) : Prop :=
  (length (heap yg) ≤ length (heap yg'))%nat
  ∧ (∀ f, focused_window yg' = Some f →
       focused_window yg = Some f ∨ bottom_z yg = Some f ∨ (f < length (heap yg'))%nat)
  ∧ (∀ b, bottom_z yg' = Some b →
       bottom_z yg = Some b ∨ (b < length (heap yg'))%nat).

(* the panel height read by [window_tile] *)
Definition panel_height (yg : yutani_globals_t) : option Z :=
  match top_z yg with
  | Some panel => pw ← heap yg !! panel; Some (window.height pw)
  | None => Some 0
  end.

End Invariants.

(** ** The specification's own formulations, to compare the code with *)

Section SpecSide.
Context `{YutaniConsts}.

(** The z-order from front to back: the top window, the middle sequence
    from its end to its start, the bottom window. *)
Definition z_order_candidates (yg : yutani_globals_t) : list ptr :=
  option_list (top_z yg) ++ reverse (mid_zs yg) ++ option_list (bottom_z yg).

(* the alpha of the pixel at window coordinates (wx, wy) *)
Definition pixel_alpha (yg : yutani_globals_t) (w : window.t) (wx wy : Z) : Z :=
  default 0 (_ALP <$> read_pixel yg w (window.width w * wy + wx)).

(** A candidate passes iff the point, mapped to window coordinates, lies
    inside the window's rectangle and the alpha of the pixel there is at
    least the window's threshold. *)
Definition hit_test (yg : yutani_globals_t) (x y : Z) (p : ptr) : bool :=
  match heap yg !! p, device_to_window yg (Some p) x y (-1, -1) with
  | Some w, Some c =>
      bool_decide (0 <= c.1 < window.width w ∧ 0 <= c.2 < window.height w)
      && bool_decide (window.alpha_threshold w <= pixel_alpha yg w c.1 c.2)
  | _, _ => false
  end.

Definition top_at_spec (yg : yutani_globals_t) (x y : Z) : option ptr :=
  List.find (hit_test yg x y) (z_order_candidates yg).

(* the pointer in display coordinates, as every call of the hit test takes it *)
Definition pointer_hit (yg : yutani_globals_t) : option ptr :=
  top_at_spec yg (uint16 (mouse_x yg `quot` MOUSE_SCALE))
                 (uint16 (mouse_y yg `quot` MOUSE_SCALE)).

(** How many NOTIFY messages for client [c] a call of [notify_subscribers]
    puts on the transport. *)
Definition is_notify_to (c : Z) (o : pex_output) : bool :=
  match o with
  | Pex_send dest YUTANI_MSG_NOTIFY => bool_decide (dest = c)
  | _ => false
  end.

Definition notify_delivered (yg : yutani_globals_t) (c : Z) : nat :=
  length (List.filter (is_notify_to c)
            (drop (length (outbox yg)) (outbox (notify_subscribers yg)))).

(* the message a window gets when it loses the focus *)
Definition unfocus_messages (yg : yutani_globals_t) : list pex_output :=
  match focused_window yg ≫= (heap yg !!.) with
  | Some fw =>
      [Pex_send (window.owner fw) (YUTANI_MSG_WINDOW_FOCUS_CHANGE (window.wid fw) 0)]
  | None => []
  end.

(* what QUERY_WINDOWS sends [dest] for the window [p]: its advertisement, if
   it has advertised itself *)
Definition advertisement (yg : yutani_globals_t) (dest : Z) (p : ptr) : list pex_output :=
  match heap yg !! p with
  | Some w =>
      if decide (window.client_length w ≠ 0) then
        [Pex_send dest
           (YUTANI_MSG_WINDOW_ADVERTISE (window.wid w) (ad_flags yg p w)
              (window.client_offsets w) (window.client_length w)
              (window.client_strings w))]
      else []
  | None => []
  end.

(* the record of a window that [window_mark_for_close] has marked at tick [t] *)
Definition marked_for_close (t : Z) (w : window.t) : window.t :=
  window.set_anim_start t (window.set_anim_mode YUTANI_EFFECT_FADE_OUT w).

(* the record [yutani_blit_window] leaves of a window at tick [t]: an
   animation other than the fade-out that has run its length is reset *)
Definition blit_record (t : Z) (w : window.t) : window.t :=
  if decide (window.anim_mode w ≠ YUTANI_EFFECT_NONE
             ∧ window.anim_mode w ≠ YUTANI_EFFECT_FADE_OUT
             ∧ t - window.anim_start w >= yutani_animation_lengths (window.anim_mode w))
  then window.set_anim_start 0 (window.set_anim_mode YUTANI_EFFECT_NONE w)
  else w.

(* the fade-out of the window has run its length at tick [t] *)
Definition fade_out_done (t : Z) (w : window.t) : bool :=
  bool_decide (window.anim_mode w = YUTANI_EFFECT_FADE_OUT
               ∧ t - window.anim_start w >= yutani_animation_lengths YUTANI_EFFECT_FADE_OUT).

(* the state a frame starts drawing from *)
Definition frame_start (yg : yutani_globals_t) : yutani_globals_t :=
  set_update_list []
    (set_tick_count (tick_count yg + 10)
       (set_last_mouse_y (mouse_y yg) (set_last_mouse_x (mouse_x yg) yg))).

(** The wid by which the protocol loop looks a window up before it acts on
    a message: the messages of the [switch] whose case starts with a
    [hashmap_get] on [wids_to_windows]. *)
Definition msg_window (m : yutani_msg) : option Z :=
  match m with
  | YUTANI_MSG_FLIP wid
  | YUTANI_MSG_FLIP_REGION wid _ _ _ _
  | YUTANI_MSG_WINDOW_MOVE wid _ _
  | YUTANI_MSG_WINDOW_CLOSE wid
  | YUTANI_MSG_WINDOW_STACK wid _
  | YUTANI_MSG_RESIZE_REQUEST wid _ _ _
  | YUTANI_MSG_RESIZE_OFFER wid _ _ _
  | YUTANI_MSG_RESIZE_ACCEPT wid _ _ _
  | YUTANI_MSG_RESIZE_DONE wid _ _ _
  | YUTANI_MSG_WINDOW_ADVERTISE wid _ _ _ _
  | YUTANI_MSG_WINDOW_FOCUS wid
  | YUTANI_MSG_WINDOW_DRAG_START wid
  | YUTANI_MSG_WINDOW_UPDATE_SHAPE wid _ => Some wid
  | _ => None
  end.

(* the state after the packets [ps], from the initial state; the initial
   state itself if the loop crashes on the way *)
Definition replay (display_width display_height : Z) (ps : list pex_packet_t)
    : yutani_globals_t :=
  default (yutani_init display_width display_height)
          (run (yutani_init display_width display_height) ps).

(* [n] frames of the render thread *)
Fixpoint redraw_n (n : nat) (yg : yutani_globals_t) : option yutani_globals_t :=
  match n with
  | O => Some yg
  | S n => yg ← redraw_windows yg; redraw_n n yg
  end.

(* the state after [n] frames; the state itself if a frame crashes *)
Definition frames (n : nat) (yg : yutani_globals_t) : yutani_globals_t :=
  default yg (redraw_n n yg).

End SpecSide.

(** ** Scenes: the protocol replayed on a concrete display *)

Section Scenes.
#[local] Existing Instance sample_consts.

(* two clients, a window each *)
Definition two_windows : yutani_globals_t :=
  replay 1024 768
    [packet 7 (YUTANI_MSG_WINDOW_NEW 100 100); packet 8 (YUTANI_MSG_WINDOW_NEW 100 100)].

(* window 1 stacked on top *)
Definition one_on_top : yutani_globals_t :=
  replay 1024 768
    [packet 7 (YUTANI_MSG_WINDOW_NEW 100 100); packet 8 (YUTANI_MSG_WINDOW_NEW 100 100);
     packet 7 (YUTANI_MSG_WINDOW_STACK 1 YUTANI_ZORDER_TOP)].

(* window 1 stacked on top, then window 2 *)
Definition stacked_twice : yutani_globals_t :=
  replay 1024 768
    [packet 7 (YUTANI_MSG_WINDOW_NEW 100 100); packet 8 (YUTANI_MSG_WINDOW_NEW 100 100);
     packet 7 (YUTANI_MSG_WINDOW_STACK 1 YUTANI_ZORDER_TOP);
     packet 8 (YUTANI_MSG_WINDOW_STACK 2 YUTANI_ZORDER_TOP)].

(* a panel of height 24 on top and a focused window in the middle *)
Definition tiling_scene : yutani_globals_t :=
  replay 1024 768
    [packet 7 (YUTANI_MSG_WINDOW_NEW 1024 24); packet 8 (YUTANI_MSG_WINDOW_NEW 300 200);
     packet 7 (YUTANI_MSG_WINDOW_STACK 1 YUTANI_ZORDER_TOP);
     packet 8 (YUTANI_MSG_WINDOW_FOCUS 2)].

Definition super_left : key_event_t :=
  {| action := KEY_ACTION_DOWN; modifiers := KEY_MOD_LEFT_SUPER; keycode := KEY_ARROW_LEFT |}.

(* the pointer, at (50, 50), is over window 1 and not over window 2 *)
Definition drag_scene : yutani_globals_t :=
  replay 100 100
    [packet 7 (YUTANI_MSG_WINDOW_NEW 200 200); packet 8 (YUTANI_MSG_WINDOW_NEW 10 10)].

(* window 1 in the middle of a resize handshake *)
Definition resizing_scene : yutani_globals_t :=
  replay 1024 768
    [packet 7 (YUTANI_MSG_WINDOW_NEW 100 100); packet 7 (YUTANI_MSG_RESIZE_ACCEPT 1 50 50 0)].

Definition one_step_up : mouse_device_packet_t :=
  {| x_difference := 0; y_difference := 1; buttons := 0 |}.

(* window 1 is being moved: DRAG_START came with the pointer over it *)
Definition moving_scene : yutani_globals_t :=
  replay 100 100
    [packet 7 (YUTANI_MSG_WINDOW_NEW 200 200); packet 8 (YUTANI_MSG_WINDOW_NEW 10 10);
     packet 8 (YUTANI_MSG_WINDOW_DRAG_START 2)].

(* Alt is held and the middle button went down over window 1 *)
Definition mouse_resizing_scene : yutani_globals_t :=
  replay 100 100
    [packet 7 (YUTANI_MSG_WINDOW_NEW 200 200);
     packet 0 (YUTANI_MSG_KEY_EVENT 0 {| action := 0; modifiers := 0; keycode := 0 |}
                 {| k_alt := 1 |});
     packet 0 (YUTANI_MSG_MOUSE_EVENT 0
                 {| x_difference := 0; y_difference := 0;
                    buttons := YUTANI_MOUSE_BUTTON_MIDDLE |}
                 YUTANI_MOUSE_EVENT_TYPE_RELATIVE)].

(* window 1, focused, rotated by 5 degrees with Ctrl+Shift+x *)
Definition rotated_scene : yutani_globals_t :=
  replay 1024 768
    [packet 7 (YUTANI_MSG_WINDOW_NEW 100 100); packet 7 (YUTANI_MSG_WINDOW_FOCUS 1);
     packet 0 (YUTANI_MSG_KEY_EVENT 0
                 {| action := KEY_ACTION_DOWN;
                    modifiers := Z.lor KEY_MOD_LEFT_CTRL KEY_MOD_LEFT_SHIFT;
                    keycode := 120 |}
                 {| k_alt := 0 |})].

(* window 1 was closed by its client, 25 frames ago *)
Definition closing_scene : yutani_globals_t :=
  frames 25
    (replay 1024 768
       [packet 7 (YUTANI_MSG_WINDOW_NEW 100 100); packet 7 (YUTANI_MSG_WINDOW_CLOSE 1)]).

(* two windows whose fade-in is over *)
Definition settled_scene : yutani_globals_t := frames 26 two_windows.

(* window 1 after a resize handshake that accepted 10 x 10 and finished
   with 2000 x 2000: the buffer holds 100 pixels *)
Definition oversized_scene : yutani_globals_t :=
  replay 1024 768
    [packet 7 (YUTANI_MSG_WINDOW_NEW 100 100);
     packet 7 (YUTANI_MSG_RESIZE_ACCEPT 1 10 10 0);
     packet 7 (YUTANI_MSG_RESIZE_DONE 1 2000 2000 0)].

(* an absolute mouse event far to the right: 3 times its x does not fit an int *)
Definition far_right : mouse_device_packet_t :=
  {| x_difference := 1000000000; y_difference := 0; buttons := 0 |}.

(* a mouse event with the left button held, the pointer one step to the right *)
Definition left_held : mouse_device_packet_t :=
  {| x_difference := 1; y_difference := 0; buttons := YUTANI_MOUSE_BUTTON_LEFT |}.

End Scenes.

Set Warnings "-clear-no-such-hyp".

(** * Properties *)

(** ** The list library *)

Section ListH.
Context {A : Type} `{EqDecision A}.
Implicit Types l : list A.

Lemma list_h_find_lookup l v i : list_h.list_find l v = Some i → l !! i = Some v.
Proof.
  revert i; induction l as [|a l IH]; intros i; simpl; [done|].
  case_decide as Hd.
  - intros [= <-]. by subst.
  - destruct (list_h.list_find l v) as [j|] eqn:E; simpl; [|done].
    intros [= <-]. by apply IH.
Qed.

Lemma list_h_find_None l v : list_h.list_find l v = None ↔ v ∉ l.
Proof.
  induction l as [|a l IH]; simpl.
  - split; [intros _; apply not_elem_of_nil | done].
  - case_decide as Hd.
    + subst. split; [done|]. intros Hn. destruct Hn. left.
    + destruct (list_h.list_find l v) as [j|] eqn:E; simpl.
      * split; [done|]. intros Hn. exfalso.
        assert (v ∉ l) as Hl by (intros ?; apply Hn; by right).
        apply IH in Hl. done.
      * split; [|done]. intros _ [?|?]%elem_of_cons; [congruence|].
        by apply (proj1 IH).
Qed.

Lemma list_h_find_is_Some l v : v ∈ l → is_Some (list_h.list_find l v).
Proof.
  intros Hin. destruct (list_h.list_find l v) eqn:E; [eauto|].
  by apply list_h_find_None in E.
Qed.

Lemma list_h_delete_NoDup l n : NoDup l → NoDup (list_h.list_delete l n).
Proof. intros Hnd. exact (sublist_NoDup _ _ Hnd (sublist_delete l n)). Qed.

Lemma list_h_delete_elem_of_inv l n v : v ∈ list_h.list_delete l n → v ∈ l.
Proof. apply list_elem_of_delete_inv. Qed.

Lemma list_h_delete_not_elem l n v : NoDup l → l !! n = Some v → v ∉ list_h.list_delete l n.
Proof.
  unfold list_h.list_delete. intros Hnd Hl.
  rewrite delete_take_drop.
  rewrite <- (take_drop_middle l n v Hl) in Hnd.
  apply NoDup_app in Hnd as (_ & Hdisj & Hnd2).
  apply NoDup_cons in Hnd2 as [Hn2 _].
  intros [Hi|Hi]%elem_of_app; [|done].
  apply (Hdisj _ Hi). left.
Qed.

Lemma list_h_delete_elem_of_ne l n v u :
  l !! n = Some v → u ≠ v → u ∈ l → u ∈ list_h.list_delete l n.
Proof.
  unfold list_h.list_delete. intros Hl Hne Hin.
  rewrite delete_take_drop.
  rewrite <- (take_drop_middle l n v Hl) in Hin.
  apply elem_of_app in Hin as [Hi|Hi]; apply elem_of_app; [by left|].
  apply elem_of_cons in Hi as [->|Hi]; [done|by right].
Qed.

End ListH.

Lemma count_occ_elem_of (l : list ptr) (p : ptr) :
  (0 < count_occ Nat.eq_dec l p)%nat ↔ p ∈ l.
Proof.
  rewrite list_elem_of_In, (count_occ_In Nat.eq_dec). unfold gt. done.
Qed.

Lemma count_occ_not_elem_of (l : list ptr) (p : ptr) :
  p ∉ l → count_occ Nat.eq_dec l p = 0%nat.
Proof.
  intros Hn. destruct (count_occ Nat.eq_dec l p) eqn:E; [done|].
  exfalso. apply Hn, count_occ_elem_of. lia.
Qed.

Lemma count_occ_NoDup_elem_of (l : list ptr) (p : ptr) :
  NoDup l → p ∈ l → count_occ Nat.eq_dec l p = 1%nat.
Proof.
  intros Hnd Hin.
  apply NoDup_ListNoDup in Hnd.
  pose proof (proj1 (NoDup_count_occ Nat.eq_dec l) Hnd p).
  apply count_occ_elem_of in Hin. lia.
Qed.

(** ** States the invariants cannot tell apart *)

Lemma same_core_refl : Reflexive same_core.
Proof. intros yg. by repeat split. Qed.
#[local] Existing Instance same_core_refl.

Lemma same_core_trans : Transitive same_core.
Proof.
  intros a b c (?&?&?&?&?&?&?&?) (?&?&?&?&?&?&?&?).
  repeat split; try congruence. by etrans.
Qed.
#[local] Existing Instance same_core_trans.

Ltac wcore_eq H :=
  unfold wcore in H; injection H as ??????.

Section Frame.
Context `{YutaniConsts}.
Implicit Types yg : yutani_globals_t.

Lemma same_core_lookup yg yg' p w' :
  same_core yg yg' → heap yg' !! p = Some w' →
  ∃ w, heap yg !! p = Some w ∧ wcore w = wcore w'.
Proof.
  intros (Hh & _) Hl.
  assert ((wcore <$> heap yg) !! p = Some (wcore w')) as Hl'.
  { rewrite Hh, list_lookup_fmap, Hl. done. }
  rewrite list_lookup_fmap in Hl'.
  destruct (heap yg !! p) as [w|]; simpl in Hl'; [|done].
  exists w. split; [done|]. congruence.
Qed.

Lemma same_core_sym_lookup yg yg' p w :
  same_core yg yg' → heap yg !! p = Some w →
  ∃ w', heap yg' !! p = Some w' ∧ wcore w = wcore w'.
Proof.
  intros (Hh & _) Hl.
  assert ((wcore <$> heap yg') !! p = Some (wcore w)) as Hl'.
  { rewrite <- Hh, list_lookup_fmap, Hl. done. }
  rewrite list_lookup_fmap in Hl'.
  destruct (heap yg' !! p) as [w'|]; simpl in Hl'; [|done].
  exists w'. split; [done|]. congruence.
Qed.

Lemma same_core_tier_count yg yg' p :
  same_core yg yg' → tier_count yg' p = tier_count yg p.
Proof.
  intros (_ & Hm & Ht & Hb & _). unfold tier_count.
  rewrite Ht, Hb. f_equal. f_equal.
  apply Permutation_count_occ. by symmetry.
Qed.

Lemma same_core_mapped yg yg' k :
  same_core yg yg' → is_Some (shm yg !! k) → is_Some (shm yg' !! k).
Proof.
  intros (_&_&_&_&_&Hd&_) Hs. apply elem_of_dom. rewrite <- Hd. by apply elem_of_dom.
Qed.

Lemma same_core_zorder_wf yg yg' : same_core yg yg' → zorder_wf yg → zorder_wf yg'.
Proof.
  intros Hs [Hnd Hmid Htop Hbot Hz Hw].
  pose proof Hs as (Hh & Hm & Ht & Hb & Hwd & _).
  split.
  - by rewrite <- Hm.
  - intros p Hp. rewrite <- Hm in Hp.
    destruct (Hmid p Hp) as (w & Hl & ? & ?).
    destruct (same_core_sym_lookup _ _ _ _ Hs Hl) as (w' & Hl' & Hc). wcore_eq Hc.
    exists w'. split_and!; [done|congruence..].
  - intros p Hp. rewrite <- Ht in Hp.
    destruct (Htop p Hp) as (w & Hl & ?).
    destruct (same_core_sym_lookup _ _ _ _ Hs Hl) as (w' & Hl' & Hc). wcore_eq Hc.
    exists w'. split; [done|congruence].
  - intros p Hp. rewrite <- Hb in Hp.
    destruct (Hbot p Hp) as (w & Hl & ?).
    destruct (same_core_sym_lookup _ _ _ _ Hs Hl) as (w' & Hl' & Hc). wcore_eq Hc.
    exists w'. split; [done|congruence].
  - intros p w' Hl'.
    destruct (same_core_lookup _ _ _ _ Hs Hl') as (w & Hl & Hc). wcore_eq Hc.
    pose proof (Hz p w Hl). by replace (window.z w') with (window.z w).
  - intros k p Hk. rewrite <- Hwd in Hk.
    destruct (Hw k p Hk) as (w & Hl & ?).
    destruct (same_core_sym_lookup _ _ _ _ Hs Hl) as (w' & Hl' & Hc). wcore_eq Hc.
    exists w'. split; [done|congruence].
Qed.

Lemma same_core_registry_wf yg yg' : same_core yg yg' → registry_wf yg → registry_wf yg'.
Proof.
  intros Hs [Hzo Hnb Hwid Hinj Hlive Hrange Hbinj Hmap].
  pose proof Hs as (Hh & Hm & Ht & Hb & Hwd & Hdom & Hnbe & Hnwe).
  split.
  - by eapply same_core_zorder_wf.
  - by rewrite <- Hnbe.
  - intros p w' Hl'.
    destruct (same_core_lookup _ _ _ _ Hs Hl') as (w & Hl & Hc). wcore_eq Hc.
    rewrite <- Hnwe. replace (window.wid w') with (window.wid w). eauto.
  - intros p q w' v' Hp Hq Heq.
    destruct (same_core_lookup _ _ _ _ Hs Hp) as (w & Hl & Hc). wcore_eq Hc.
    destruct (same_core_lookup _ _ _ _ Hs Hq) as (v & Hlv & Hc). wcore_eq Hc.
    apply (Hinj p q w v); congruence.
  - intros p Hp. rewrite (same_core_tier_count _ _ _ Hs) in Hp.
    destruct (Hlive p Hp) as (w & Hl & Hk).
    destruct (same_core_sym_lookup _ _ _ _ Hs Hl) as (w' & Hl' & Hc). wcore_eq Hc.
    exists w'. split; [done|]. rewrite <- Hwd. congruence.
  - intros p w' Hl'.
    destruct (same_core_lookup _ _ _ _ Hs Hl') as (w & Hl & Hc). wcore_eq Hc.
    rewrite <- Hnbe.
    replace (window.bufid w') with (window.bufid w).
    replace (window.newbufid w') with (window.newbufid w). eauto.
  - intros p q w' v' Hp Hq Hne.
    destruct (same_core_lookup _ _ _ _ Hs Hp) as (w & Hl & Hc). wcore_eq Hc.
    destruct (same_core_lookup _ _ _ _ Hs Hq) as (v & Hlv & Hc). wcore_eq Hc.
    replace (window.bufid w') with (window.bufid w).
    replace (window.newbufid w') with (window.newbufid w).
    replace (window.bufid v') with (window.bufid v).
    replace (window.newbufid v') with (window.newbufid v). eauto.
  - intros p w' Hl' Hk.
    destruct (same_core_lookup _ _ _ _ Hs Hl') as (w & Hl & Hc). wcore_eq Hc.
    rewrite <- Hwd in Hk.
    replace (window.wid w') with (window.wid w) in Hk.
    destruct (Hmap p w Hl Hk) as (Hbuf & Hshm & Hnew).
    replace (window.bufid w') with (window.bufid w).
    replace (window.newbufid w') with (window.newbufid w).
    replace (window.buffer w') with (window.buffer w).
    replace (window.newbuffer w') with (window.newbuffer w).
    split_and!; [done|by eapply same_core_mapped|].
    intros Hn. destruct (Hnew Hn). split; [done|by eapply same_core_mapped].
Qed.

(** The operations that leave the core alone. *)

Lemma same_core_store yg p w w' :
  heap yg !! p = Some w → wcore w' = wcore w → same_core yg (store yg p w').
Proof.
  intros Hl Hc. unfold store. repeat split; simpl; try done.
  rewrite list_fmap_insert, Hc. symmetry. apply list_insert_id.
  by rewrite list_lookup_fmap, Hl.
Qed.

Lemma same_core_pex_send yg dest m : same_core yg (pex_send yg dest m).
Proof. by repeat split. Qed.

Lemma same_core_notify_subscribers yg : same_core yg (notify_subscribers yg).
Proof.
  unfold notify_subscribers. generalize (window_subscribers yg). intros l.
  revert yg. induction l as [|c l IH]; intros yg; simpl; [done|].
  etrans; [|apply IH]. apply same_core_pex_send.
Qed.

Lemma same_core_mark_window yg w yg' : mark_window yg w = Some yg' → same_core yg yg'.
Proof.
  unfold mark_window. intros Hm. apply bind_Some in Hm as (w0 & _ & [= <-]).
  by repeat split.
Qed.

Lemma mark_window_heap yg w yg' : mark_window yg w = Some yg' → heap yg' = heap yg.
Proof.
  unfold mark_window. intros Hm. by apply bind_Some in Hm as (w0 & _ & [= <-]).
Qed.

Lemma same_core_mark_window_relative yg w x y wd ht yg' :
  mark_window_relative yg w x y wd ht = Some yg' → same_core yg yg'.
Proof.
  unfold mark_window_relative. intros Hm. apply bind_Some in Hm as (w0 & _ & [= <-]).
  by repeat split.
Qed.

Lemma delete_snoc_Permutation (l : list ptr) n v :
  l !! n = Some v → list_h.list_append (list_h.list_delete l n) v ≡ₚ l.
Proof.
  intros Hl. unfold list_h.list_append, list_h.list_delete.
  rewrite delete_take_drop.
  rewrite <- (take_drop_middle l n v Hl) at 3.
  rewrite <- (assoc_L (++)). apply Permutation_app_head.
  symmetry. apply Permutation_cons_append.
Qed.

Lemma same_core_make_top yg w yg' : make_top yg w = Some yg' → same_core yg yg'.
Proof.
  unfold make_top. intros Hm; simplify_option_eq; try done.
  destruct (list_h.list_find (mid_zs yg) w) as [n|] eqn:E; simplify_eq; [|done].
  repeat split; simpl; try done.
  symmetry. apply delete_snoc_Permutation. by apply list_h_find_lookup.
Qed.

Lemma same_core_set_focused_window yg w yg' :
  set_focused_window yg w = Some yg' → same_core yg yg'.
Proof.
  unfold set_focused_window. intros Hm.
  case_decide; simplify_eq; [done|].
  apply bind_Some in Hm as (yg1 & H1 & Hm).
  apply bind_Some in Hm as (yg2 & H2 & Hm). simplify_eq.
  etrans; [|apply same_core_notify_subscribers].
  assert (same_core yg yg1) as S1.
  { destruct (focused_window yg); simplify_option_eq; [apply same_core_pex_send|done]. }
  etrans; [exact S1|].
  destruct w as [p|]; simplify_option_eq.
  - etrans; [|by eapply same_core_make_top]. by repeat split.
  - by repeat split.
Qed.

Lemma same_core_set_focused_at yg x y yg' :
  set_focused_at yg x y = Some yg' → same_core yg yg'.
Proof.
  unfold set_focused_at. intros Hm. apply bind_Some in Hm as (n & _ & Hm).
  by eapply same_core_set_focused_window.
Qed.

Lemma same_core_send_mouse_event yg w x y ox oy b k yg' :
  send_mouse_event yg w x y ox oy b k = Some yg' → same_core yg yg'.
Proof.
  unfold send_mouse_event. intros Hm. apply bind_Some in Hm as (w0 & _ & [= <-]).
  apply same_core_pex_send.
Qed.

End Frame.

(* break the hypotheses [m = Some r] of the error monad into their steps *)
Ltac break_all :=
  repeat match goal with
  | H : mbind _ _ = Some _ |- _ => apply bind_Some in H as (? & ? & H)
  | H : (if ?c then _ else _) = Some _ |- _ => destruct c eqn:?
  | H : (match ?x with _ => _ end) = Some _ |- _ => destruct x eqn:?
  | H : None = Some _ |- _ => discriminate H
  | H : Some _ = Some _ |- _ => injection H as H; try subst
  end.

(* close [same_core a c] by walking back from [c] through the steps *)
Ltac sc_op H :=
  first
    [ eapply same_core_mark_window, H
    | eapply same_core_mark_window_relative, H
    | eapply same_core_make_top, H
    | eapply same_core_set_focused_window, H
    | eapply same_core_set_focused_at, H
    | eapply same_core_send_mouse_event, H ].

Ltac sc :=
  repeat first
    [ reflexivity
    | eassumption
    | match goal with
      | |- same_core _ (pex_send _ _ _) => etrans; [|apply same_core_pex_send]
      | |- same_core _ (pex_broadcast _ _) => etrans; [|by repeat split]
      | |- same_core _ (notify_subscribers _) =>
          etrans; [|apply same_core_notify_subscribers]
      | |- same_core _ (store _ _ _) =>
          etrans; [|eapply same_core_store; [eassumption|reflexivity]]
      | H : _ = Some ?c |- same_core _ ?c => etrans; [|sc_op H]
      | |- same_core _ (?f _ ?b) => transitivity b; [|by repeat split]
      end ].

Section Frame2.
Context `{YutaniConsts}.
Implicit Types yg : yutani_globals_t.

Lemma same_core_foreach {A} (body : yutani_globals_t → A → option yutani_globals_t) l :
  (∀ yg v yg', body yg v = Some yg' → same_core yg yg') →
  ∀ yg yg', foreach l body yg = Some yg' → same_core yg yg'.
Proof.
  intros Hb. induction l as [|v l IH]; intros yg yg' Hf; simpl in Hf.
  - by simplify_eq.
  - apply bind_Some in Hf as (yg1 & H1 & Hf).
    etrans; [by eapply Hb|by eapply IH].
Qed.

Lemma same_core_window_tile yg w wd hd x y yg' :
  window_tile yg w wd hd x y = Some yg' → same_core yg yg'.
Proof. unfold window_tile. intros Hm. break_all. all: sc. Qed.

Lemma same_core_rotate_focused yg f g yg' :
  rotate_focused yg f g = Some yg' → same_core yg yg'.
Proof. unfold rotate_focused. intros Hm. break_all. all: sc. Qed.

Lemma same_core_deliver_key_event yg focused event state yg' :
  deliver_key_event yg focused event state = Some yg' → same_core yg yg'.
Proof. unfold deliver_key_event. intros Hm. break_all. all: sc. Qed.

Lemma same_core_handle_key_event yg event state yg' :
  handle_key_event yg event state = Some yg' → same_core yg yg'.
Proof.
  unfold handle_key_event. intros Hm.
  destruct (get_focused yg) as [f|] eqn:Ef.
  - apply bind_Some in Hm as (fw & Hfw & Hm).
    transitivity (set_kbd_state state yg); [by repeat split|].
    repeat match type of Hm with
    | (if ?c then _ else _) = Some _ => destruct c eqn:?
    end;
    first [ by eapply same_core_rotate_focused
          | by eapply same_core_window_tile
          | by eapply same_core_deliver_key_event
          | simplify_eq; by repeat split ].
  - transitivity (set_kbd_state state yg); [by repeat split|].
    by eapply same_core_deliver_key_event.
Qed.

Lemma same_core_add_key_bind yg key modifiers response owner :
  same_core yg (add_key_bind yg key modifiers response owner).
Proof. by repeat split. Qed.

Lemma same_core_mouse_update_position yg event type :
  same_core yg (mouse_update_position yg event type).
Proof.
  unfold mouse_update_position.
  destruct type; repeat case_decide; by repeat split.
Qed.

Lemma same_core_mouse_start_drag yg yg' :
  mouse_start_drag yg = Some yg' → same_core yg yg'.
Proof. unfold mouse_start_drag. intros Hm. break_all. all: sc. Qed.

Lemma same_core_mouse_start_resize yg yg' :
  mouse_start_resize yg = Some yg' → same_core yg yg'.
Proof. unfold mouse_start_resize. intros Hm. break_all. all: sc. Qed.

Lemma same_core_handle_mouse_normal yg event yg' :
  handle_mouse_normal yg event = Some yg' → same_core yg yg'.
Proof.
  unfold handle_mouse_normal. intros Hm.
  repeat match type of Hm with
  | (if ?c then _ else _) = Some _ => destruct c eqn:?
  end.
  - by eapply same_core_mouse_start_drag.
  - by eapply same_core_mouse_start_resize.
  - break_all. all: sc.
  - break_all. all: sc.
Qed.

Lemma same_core_handle_mouse_moving yg event yg' :
  handle_mouse_moving yg event = Some yg' → same_core yg yg'.
Proof. unfold handle_mouse_moving. intros Hm. break_all. all: sc. Qed.

Lemma same_core_handle_mouse_dragging yg event yg' :
  handle_mouse_dragging yg event = Some yg' → same_core yg yg'.
Proof. unfold handle_mouse_dragging. intros Hm. break_all. all: sc. Qed.

Lemma same_core_handle_mouse_resizing yg event yg' :
  handle_mouse_resizing yg event = Some yg' → same_core yg yg'.
Proof. unfold handle_mouse_resizing. intros Hm. break_all. all: sc. Qed.

Lemma same_core_handle_mouse_event yg event type yg' :
  handle_mouse_event yg event type = Some yg' → same_core yg yg'.
Proof.
  unfold handle_mouse_event. intros Hm.
  etrans; [apply (same_core_mouse_update_position yg event type)|].
  destruct (mouse_state _);
    eauto using same_core_handle_mouse_normal, same_core_handle_mouse_moving,
      same_core_handle_mouse_dragging, same_core_handle_mouse_resizing.
Qed.

Lemma same_core_window_mark_for_close yg w yg' :
  window_mark_for_close yg w = Some yg' → same_core yg yg'.
Proof. unfold window_mark_for_close. intros Hm. break_all. all: sc. Qed.

Lemma same_core_window_remove_from_client yg w yg' :
  window_remove_from_client yg w = Some yg' → same_core yg yg'.
Proof. unfold window_remove_from_client. intros Hm. break_all. all: by repeat split. Qed.

Lemma same_core_server_window_update_shape yg w set yg' :
  server_window_update_shape yg w set = Some yg' → same_core yg yg'.
Proof. unfold server_window_update_shape. intros Hm. break_all. all: sc. Qed.

Lemma same_core_yutani_query_result yg dest w yg' :
  yutani_query_result yg dest w = Some yg' → same_core yg yg'.
Proof. unfold yutani_query_result. intros Hm. break_all. all: sc. Qed.

Lemma same_core_client_draw yg key region pixels :
  shm yg !! key = Some region →
  same_core yg (set_shm (<[key := {| region_size := region_size region;
                                     region_pixels := pixels |}]> (shm yg)) yg).
Proof.
  intros Hk. repeat split; simpl; try done.
  rewrite dom_insert_L.
  assert (key ∈ dom (shm yg)) by (apply elem_of_dom; eauto). set_solver.
Qed.

End Frame2.

(** ** The z-order operations *)

Section ZOrder.
Context `{YutaniConsts}.
Implicit Types yg : yutani_globals_t.

Lemma tiers_sub_in_tier yg' yg p : tiers_sub yg' yg → in_tier yg' p → in_tier yg p.
Proof. intros (Hm & Ht & Hb) [?|[?|?]]; unfold in_tier; eauto. Qed.

Lemma tier_count_pos yg p : (0 < tier_count yg p)%nat ↔ in_tier yg p.
Proof.
  unfold tier_count, in_tier.
  pose proof (count_occ_elem_of (mid_zs yg) p) as Hc.
  repeat case_decide; split; intros Hx; try lia; try tauto.
  - right; left. apply Hc. lia.
  - destruct Hx as [?|[?|?]]; try done. apply Hc in H2. lia.
Qed.

Lemma tier_count_0 yg p : tier_count yg p = 0%nat ↔ ¬ in_tier yg p.
Proof. rewrite <- tier_count_pos. lia. Qed.

Lemma zorder_wf_tier_count_le yg p : zorder_wf yg → (tier_count yg p ≤ 1)%nat.
Proof.
  intros [Hnd Hmid Htop Hbot _ _]. unfold tier_count.
  pose proof zorder_top_bottom as Htb.
  destruct (decide (p ∈ mid_zs yg)) as [Hin|Hin].
  - rewrite (count_occ_NoDup_elem_of _ _ Hnd Hin).
    destruct (Hmid p Hin) as (w & Hl & Hzt & Hzb).
    repeat case_decide; try lia.
    + destruct (Hbot p) as (w' & ? & ?); [done|]. simplify_eq.
    + destruct (Hbot p) as (w' & ? & ?); [done|]. simplify_eq.
    + destruct (Htop p) as (w' & ? & ?); [done|]. simplify_eq.
  - rewrite (count_occ_not_elem_of _ _ Hin).
    repeat case_decide; try lia.
    destruct (Hbot p) as (w' & ? & ?); [done|].
    destruct (Htop p) as (w'' & ? & ?); [done|]. simplify_eq. congruence.
Qed.

Lemma uint16_id v : 0 <= v < 65536 → uint16 v = v.
Proof. intros. unfold uint16. by apply Z.mod_small. Qed.

Lemma uint16_range v : 0 <= uint16 v < 65536.
Proof. unfold uint16. apply Z.mod_pos_bound. lia. Qed.

(** What [unorder_window] does, case by case. *)
Lemma unorder_window_inv yg w yg' :
  unorder_window yg w = Some yg' →
  ∃ win, heap yg !! w = Some win
    ∧ heap yg' = <[w := window.set_z (uint16 (-1)) win]> (heap yg)
    ∧ wids_to_windows yg' = wids_to_windows yg
    ∧ shm yg' = shm yg
    ∧ next_buf_id_static yg' = next_buf_id_static yg
    ∧ next_wid_static yg' = next_wid_static yg
    ∧ outbox yg' = outbox yg
    ∧ ((uint16 (window.z win) = YUTANI_ZORDER_BOTTOM
        ∧ bottom_z yg' = None ∧ mid_zs yg' = mid_zs yg ∧ top_z yg' = top_z yg)
       ∨ (uint16 (window.z win) ≠ YUTANI_ZORDER_BOTTOM
          ∧ uint16 (window.z win) = YUTANI_ZORDER_TOP
          ∧ top_z yg' = None ∧ mid_zs yg' = mid_zs yg ∧ bottom_z yg' = bottom_z yg)
       ∨ (uint16 (window.z win) ≠ YUTANI_ZORDER_BOTTOM
          ∧ uint16 (window.z win) ≠ YUTANI_ZORDER_TOP
          ∧ top_z yg' = top_z yg ∧ bottom_z yg' = bottom_z yg
          ∧ mid_zs yg' = match list_h.list_find (mid_zs yg) w with
                         | Some n => list_h.list_delete (mid_zs yg) n
                         | None => mid_zs yg
                         end)).
Proof.
  unfold unorder_window. intros Hm.
  apply bind_Some in Hm as (win & Hl & Hm). exists win. split; [done|].
  repeat case_decide; simplify_eq.
  - split_and!; try done. left. done.
  - split_and!; try done. right; left. done.
  - simpl in Hm.
    destruct (list_h.list_find (mid_zs yg) w) as [n|] eqn:E; simplify_eq.
    + split_and!; try done. right; right. done.
    + split_and!; try done. right; right. done.
Qed.

(** Changing the z of one window while the tiers lose members, none of the
    remaining members being that window. *)
Lemma zorder_wf_shrink yg yg' w win z' :
  zorder_wf yg →
  heap yg !! w = Some win →
  heap yg' = <[w := window.set_z z' win]> (heap yg) →
  0 <= z' < 65536 →
  wids_to_windows yg' = wids_to_windows yg →
  NoDup (mid_zs yg') →
  (∀ p, p ∈ mid_zs yg' → p ∈ mid_zs yg ∧ p ≠ w) →
  (∀ p, top_z yg' = Some p → top_z yg = Some p ∧ p ≠ w) →
  (∀ p, bottom_z yg' = Some p → bottom_z yg = Some p ∧ p ≠ w) →
  zorder_wf yg'.
Proof.
  intros [Hnd Hmid Htop Hbot Hz Hw] Hl Hh Hz' Hwd Hnd' Hm' Ht' Hb'.
  split; try done.
  - intros p Hp. destruct (Hm' p Hp) as [Hp0 Hne].
    rewrite Hh, list_lookup_insert_ne by done. eauto.
  - intros p Hp. destruct (Ht' p Hp) as [Hp0 Hne].
    rewrite Hh, list_lookup_insert_ne by done. eauto.
  - intros p Hp. destruct (Hb' p Hp) as [Hp0 Hne].
    rewrite Hh, list_lookup_insert_ne by done. eauto.
  - intros p wp. rewrite Hh. destruct (decide (p = w)) as [->|Hne].
    + rewrite list_lookup_insert_eq by (by eapply lookup_lt_Some).
      intros [= <-]. done.
    + rewrite list_lookup_insert_ne by done. apply Hz.
  - intros k p Hk. rewrite Hwd in Hk. destruct (Hw k p Hk) as (wp & Hlp & Hwid).
    rewrite Hh. destruct (decide (p = w)) as [->|Hne].
    + rewrite list_lookup_insert_eq by (by eapply lookup_lt_Some).
      simplify_eq. eexists; split; [done|]. done.
    + rewrite list_lookup_insert_ne by done. eauto.
Qed.

Lemma unorder_window_zorder_wf yg w yg' :
  zorder_wf yg → unorder_window yg w = Some yg' →
  zorder_wf yg' ∧ ¬ in_tier yg' w ∧ tiers_sub yg' yg.
Proof.
  intros Hwf Hu.
  destruct (unorder_window_inv _ _ _ Hu)
    as (win & Hl & Hh & Hwd & _ & _ & _ & _ & Hcase).
  pose proof Hwf as [Hnd Hmid Htop Hbot Hz _].
  pose proof (Hz w win Hl) as Hzw. rewrite (uint16_id _ Hzw) in Hcase.
  pose proof zorder_top_bottom as Htb.
  assert (Hnotmid : window.z win = YUTANI_ZORDER_BOTTOM ∨ window.z win = YUTANI_ZORDER_TOP
                    → w ∉ mid_zs yg).
  { intros Hor Hin. destruct (Hmid w Hin) as (w' & ? & ? & ?). simplify_eq. tauto. }
  assert (Hnottop : window.z win ≠ YUTANI_ZORDER_TOP → top_z yg ≠ Some w).
  { intros Hne Ht. destruct (Htop w Ht) as (w' & ? & ?). simplify_eq. }
  assert (Hnotbot : window.z win ≠ YUTANI_ZORDER_BOTTOM → bottom_z yg ≠ Some w).
  { intros Hne Ht. destruct (Hbot w Ht) as (w' & ? & ?). simplify_eq. }
  destruct Hcase as [(Hzb & Hb' & Hm' & Ht')|[(Hnb & Hzt & Ht' & Hm' & Hb')
                    |(Hnb & Hnt & Ht' & Hb' & Hm')]].
  - split_and!.
    + eapply (zorder_wf_shrink yg yg' w win); eauto using uint16_range.
      * by rewrite Hm'.
      * intros p. rewrite Hm'. intros Hp. split; [done|]. intros ->. naive_solver.
      * intros p. rewrite Ht'. intros Hp. split; [done|]. intros ->.
        apply Hnottop; [congruence|done].
      * intros p. rewrite Hb'. done.
    + unfold in_tier. rewrite Hb', Hm', Ht'. intros [?|[?|?]]; [done|naive_solver|].
      apply Hnottop; [congruence|done].
    + unfold tiers_sub. rewrite Hb', Hm', Ht'. naive_solver.
  - split_and!.
    + eapply (zorder_wf_shrink yg yg' w win); eauto using uint16_range.
      * by rewrite Hm'.
      * intros p. rewrite Hm'. intros Hp. split; [done|]. intros ->. naive_solver.
      * intros p. rewrite Ht'. done.
      * intros p. rewrite Hb'. intros Hp. split; [done|]. intros ->.
        apply Hnotbot; [congruence|done].
    + unfold in_tier. rewrite Hb', Hm', Ht'. intros [?|[?|?]]; [|naive_solver|done].
      apply Hnotbot; [congruence|done].
    + unfold tiers_sub. rewrite Hb', Hm', Ht'. naive_solver.
  - assert (Hsub : ∀ p, p ∈ mid_zs yg' → p ∈ mid_zs yg ∧ p ≠ w).
    { intros p. rewrite Hm'.
      destruct (list_h.list_find (mid_zs yg) w) as [n|] eqn:E.
      - intros Hp. split; [by eapply list_h_delete_elem_of_inv|]. intros ->.
        eapply list_h_delete_not_elem; [exact Hnd|by apply list_h_find_lookup|done].
      - intros Hp. split; [done|]. intros ->. by apply list_h_find_None in E. }
    split_and!.
    + eapply (zorder_wf_shrink yg yg' w win); eauto using uint16_range.
      * rewrite Hm'. destruct (list_h.list_find (mid_zs yg) w); [|done].
        by apply list_h_delete_NoDup.
      * intros p. rewrite Ht'. intros Hp. split; [done|]. intros ->. by apply Hnottop.
      * intros p. rewrite Hb'. intros Hp. split; [done|]. intros ->. by apply Hnotbot.
    + unfold in_tier. rewrite Hb', Ht'. intros [?|[Hp|?]].
      * by apply Hnotbot.
      * by destruct (Hsub w Hp).
      * by apply Hnottop.
    + unfold tiers_sub. rewrite Hb', Ht'. split_and!; [|done..].
      intros p Hp. by destruct (Hsub p Hp).
Qed.

End ZOrder.

Section Reorder.
Context `{YutaniConsts}.
Implicit Types yg : yutani_globals_t.

Lemma ids_same_refl yg : ids_same yg yg.
Proof. by repeat split. Qed.

Lemma ids_same_trans yg1 yg2 yg3 : ids_same yg1 yg2 → ids_same yg2 yg3 → ids_same yg1 yg3.
Proof.
  intros (?&?&?&?&?) (?&?&?&?&?). repeat split; congruence.
Qed.

Lemma ids_same_lookup yg yg' p w' :
  ids_same yg yg' → heap yg' !! p = Some w' →
  ∃ w, heap yg !! p = Some w ∧ wids_core w = wids_core w'.
Proof.
  intros (Hh & _) Hl.
  assert ((wids_core <$> heap yg) !! p = Some (wids_core w')) as Hl'.
  { rewrite <- Hh, list_lookup_fmap, Hl. done. }
  rewrite list_lookup_fmap in Hl'.
  destruct (heap yg !! p) as [w|]; simpl in Hl'; [|done].
  exists w. split; [done|]. congruence.
Qed.

Lemma ids_same_store_z yg p w z' :
  heap yg !! p = Some w → ids_same yg (store yg p (window.set_z z' w)).
Proof.
  intros Hl. repeat split; simpl.
  rewrite list_fmap_insert. apply list_insert_id.
  by rewrite list_lookup_fmap, Hl.
Qed.

Lemma registry_wf_rebuild yg yg' :
  registry_wf yg → ids_same yg yg' → zorder_wf yg' →
  (∀ p, in_tier yg' p →
        ∃ w, heap yg !! p = Some w ∧ wids_to_windows yg !! window.wid w = Some p) →
  registry_wf yg'.
Proof.
  intros [Hzo Hnb Hwid Hinj Hlive Hrange Hbinj Hmap] Hs Hzo' Hlive'.
  pose proof Hs as (Hh & Hwd & Hdom & Hnbe & Hnwe).
  split; try done.
  - by rewrite Hnbe.
  - intros p w' Hl'.
    destruct (ids_same_lookup _ _ _ _ Hs Hl') as (w & Hl & [= ? ? ? ? ?]).
    rewrite Hnwe. replace (window.wid w') with (window.wid w). eauto.
  - intros p q w' v' Hp Hq Heq.
    destruct (ids_same_lookup _ _ _ _ Hs Hp) as (w & Hl & [= ? ? ? ? ?]).
    destruct (ids_same_lookup _ _ _ _ Hs Hq) as (v & Hlv & [= ? ? ? ? ?]).
    apply (Hinj p q w v); congruence.
  - intros p Hp%tier_count_pos.
    destruct (Hlive' p Hp) as (w & Hl & Hk).
    assert ((wids_core <$> heap yg') !! p = Some (wids_core w)) as Hl'.
    { rewrite Hh, list_lookup_fmap, Hl. done. }
    rewrite list_lookup_fmap in Hl'.
    destruct (heap yg' !! p) as [w'|]; simpl in Hl'; [|done].
    injection Hl' as ? ? ? ? ?.
    exists w'. split; [done|]. rewrite Hwd. congruence.
  - intros p w' Hl'.
    destruct (ids_same_lookup _ _ _ _ Hs Hl') as (w & Hl & [= ? ? ? ? ?]).
    rewrite Hnbe.
    replace (window.bufid w') with (window.bufid w).
    replace (window.newbufid w') with (window.newbufid w). eauto.
  - intros p q w' v' Hp Hq Hne.
    destruct (ids_same_lookup _ _ _ _ Hs Hp) as (w & Hl & [= ? ? ? ? ?]).
    destruct (ids_same_lookup _ _ _ _ Hs Hq) as (v & Hlv & [= ? ? ? ? ?]).
    replace (window.bufid w') with (window.bufid w).
    replace (window.newbufid w') with (window.newbufid w).
    replace (window.bufid v') with (window.bufid v).
    replace (window.newbufid v') with (window.newbufid v). eauto.
  - intros p w' Hl' Hk.
    destruct (ids_same_lookup _ _ _ _ Hs Hl') as (w & Hl & [= ? ? ? ? ?]).
    rewrite Hwd in Hk.
    replace (window.wid w') with (window.wid w) in Hk.
    destruct (Hmap p w Hl Hk) as (Hbuf & Hshm & Hnew).
    replace (window.bufid w') with (window.bufid w).
    replace (window.newbufid w') with (window.newbufid w).
    replace (window.buffer w') with (window.buffer w).
    replace (window.newbuffer w') with (window.newbuffer w).
    assert (∀ k, is_Some (shm yg !! k) → is_Some (shm yg' !! k)) as Hsome.
    { intros k Hs'. apply elem_of_dom. rewrite Hdom. by apply elem_of_dom. }
    split_and!; [done|by apply Hsome|].
    intros Hn. destruct (Hnew Hn). split; [done|by apply Hsome].
Qed.

Lemma unorder_window_is_Some yg w win :
  heap yg !! w = Some win → is_Some (unorder_window yg w).
Proof.
  intros Hl. unfold unorder_window. rewrite Hl. simpl.
  repeat case_decide; eauto.
  destruct (list_h.list_find _ _); eauto.
Qed.

Lemma unorder_window_ids_same yg w yg' :
  unorder_window yg w = Some yg' → ids_same yg yg'.
Proof.
  intros Hu.
  destruct (unorder_window_inv _ _ _ Hu) as (win & Hl & Hh & Hwd & Hs & Hb & Hw & _).
  repeat split; try congruence.
  rewrite Hh, list_fmap_insert. apply list_insert_id.
  by rewrite list_lookup_fmap, Hl.
Qed.

Lemma unorder_window_heap_ne yg w yg' p :
  unorder_window yg w = Some yg' → p ≠ w → heap yg' !! p = heap yg !! p.
Proof.
  intros Hu Hne.
  destruct (unorder_window_inv _ _ _ Hu) as (win & Hl & Hh & _).
  rewrite Hh. by apply list_lookup_insert_ne.
Qed.

Lemma unorder_window_heap_eq yg w yg' win :
  unorder_window yg w = Some yg' → heap yg !! w = Some win →
  heap yg' !! w = Some (window.set_z (uint16 (-1)) win).
Proof.
  intros Hu Hw.
  destruct (unorder_window_inv _ _ _ Hu) as (win' & Hl & Hh & _). simplify_eq.
  rewrite Hh. apply list_lookup_insert_eq. by eapply lookup_lt_Some.
Qed.

Lemma zorder_wf_store_z yg w win z' :
  zorder_wf yg → heap yg !! w = Some win → ¬ in_tier yg w → 0 <= z' < 65536 →
  zorder_wf (store yg w (window.set_z z' win)).
Proof.
  intros Hwf Hl Hn Hz.
  eapply (zorder_wf_shrink yg _ w win z'); eauto; simpl.
  - by destruct Hwf.
  - intros p Hp. split; [done|]. intros ->. apply Hn. right; by left.
  - intros p Hp. split; [done|]. intros ->. apply Hn. right; by right.
  - intros p Hp. split; [done|]. intros ->. apply Hn. by left.
Qed.

Lemma zorder_wf_insert_mid yg w win :
  zorder_wf yg → heap yg !! w = Some win →
  window.z win ≠ YUTANI_ZORDER_TOP → window.z win ≠ YUTANI_ZORDER_BOTTOM →
  w ∉ mid_zs yg →
  zorder_wf (set_mid_zs (list_h.list_insert (mid_zs yg) w) yg).
Proof.
  intros [Hnd Hmid Htop Hbot Hz Hw] Hl Hzt Hzb Hn. split; simpl; try done.
  - unfold list_h.list_insert. apply NoDup_app. split_and!; [done| |apply NoDup_singleton].
    intros x Hx Hx'%list_elem_of_singleton. by subst.
  - intros p [Hp|Hp%list_elem_of_singleton]%elem_of_app; [eauto|]. subst. eauto.
Qed.

Lemma zorder_wf_set_top yg w win :
  zorder_wf yg → heap yg !! w = Some win → window.z win = YUTANI_ZORDER_TOP →
  zorder_wf (set_top_z (Some w) yg).
Proof.
  intros [Hnd Hmid Htop Hbot Hz Hw] Hl Hzt. split; simpl; try done.
  intros p [= <-]. eauto.
Qed.

Lemma zorder_wf_set_bottom yg w win :
  zorder_wf yg → heap yg !! w = Some win → window.z win = YUTANI_ZORDER_BOTTOM →
  zorder_wf (set_bottom_z (Some w) yg).
Proof.
  intros [Hnd Hmid Htop Hbot Hz Hw] Hl Hzt. split; simpl; try done.
  intros p [= <-]. eauto.
Qed.

End Reorder.

Section ReorderSpec.
Context `{YutaniConsts}.
Implicit Types yg : yutani_globals_t.

Lemma in_tier_tier_count_1 yg p : zorder_wf yg → in_tier yg p → tier_count yg p = 1%nat.
Proof.
  intros Hwf Hin. apply tier_count_pos in Hin.
  pose proof (zorder_wf_tier_count_le yg p Hwf). lia.
Qed.

(* the optional [unorder_window] of the slot's holder in [reorder_window] *)
Lemma unorder_slot_zorder_wf yg (slot : option ptr) :
  zorder_wf yg → (∀ t, slot = Some t → is_Some (heap yg !! t)) →
  ∃ yg', match slot with Some t => unorder_window yg t | None => Some yg end = Some yg'
         ∧ zorder_wf yg' ∧ tiers_sub yg' yg ∧ ids_same yg yg'
         ∧ (∀ p, slot ≠ Some p → heap yg' !! p = heap yg !! p).
Proof.
  intros Hwf Hv. destruct slot as [t|].
  - destruct (Hv t eq_refl) as [tw Hlt].
    destruct (unorder_window_is_Some yg t tw Hlt) as [yg' Hu].
    destruct (unorder_window_zorder_wf _ _ _ Hwf Hu) as (Hwf' & _ & Hsub).
    exists yg'. refine (conj Hu (conj Hwf' (conj Hsub (conj _ _)))).
    + by eapply unorder_window_ids_same.
    + intros p Hne. eapply unorder_window_heap_ne; [done|congruence].
  - exists yg. refine (conj eq_refl (conj Hwf (conj _ (conj (ids_same_refl yg) _)))); [|done].
    by repeat split.
Qed.

(** [reorder_window] on a window of the heap: it succeeds, the window gets
    the new z and sits in the tier of that z and in no other; no other
    window enters a tier; a different window that held the TOP or BOTTOM
    slot asked for is left in no tier. *)
Lemma reorder_window_spec yg w win new_zed :
  zorder_wf yg → heap yg !! w = Some win →
  ∃ yg' win',
    reorder_window yg (Some w) new_zed = Some yg'
    ∧ zorder_wf yg'
    ∧ ids_same yg yg'
    ∧ heap yg' !! w = Some win' ∧ window.z win' = uint16 new_zed
    ∧ tier_count yg' w = 1%nat
    ∧ (if decide (uint16 new_zed = YUTANI_ZORDER_TOP) then top_z yg' = Some w
       else if decide (uint16 new_zed = YUTANI_ZORDER_BOTTOM) then bottom_z yg' = Some w
       else last (mid_zs yg') = Some w)
    ∧ (∀ p, p ≠ w →
         (p ∈ mid_zs yg' → p ∈ mid_zs yg)
         ∧ (top_z yg' = Some p → top_z yg = Some p)
         ∧ (bottom_z yg' = Some p → bottom_z yg = Some p))
    ∧ (∀ t, t ≠ w →
         (uint16 new_zed = YUTANI_ZORDER_TOP ∧ top_z yg = Some t)
         ∨ (uint16 new_zed = YUTANI_ZORDER_BOTTOM ∧ bottom_z yg = Some t) →
         tier_count yg' t = 0%nat).
Proof.
  intros Hwf Hl.
  pose proof zorder_top_bottom as Htb.
  destruct (unorder_window_is_Some yg w win Hl) as [yg1 Hu1].
  destruct (unorder_window_zorder_wf _ _ _ Hwf Hu1) as (Hwf1 & Hnt1 & Hsub1).
  pose proof (unorder_window_heap_eq _ _ _ _ Hu1 Hl) as Hl1.
  pose proof (unorder_window_ids_same _ _ _ Hu1) as Hid1.
  remember (window.set_z (uint16 new_zed) (window.set_z (uint16 (-1)) win)) as win2 eqn:Ew2.
  remember (store yg1 w win2) as yg2 eqn:Ey2.
  assert (Hz2 : window.z win2 = uint16 new_zed) by (by subst win2).
  assert (Hwf2 : zorder_wf yg2).
  { subst yg2 win2. apply zorder_wf_store_z; auto using uint16_range. }
  assert (Hl2 : heap yg2 !! w = Some win2).
  { subst yg2. unfold store; simpl. apply list_lookup_insert_eq. by eapply lookup_lt_Some. }
  assert (Hid2 : ids_same yg yg2).
  { eapply ids_same_trans; [exact Hid1|]. subst yg2 win2. by apply ids_same_store_z. }
  assert (Hnt2 : ¬ in_tier yg2 w) by (by subst yg2).
  assert (Hsub2 : tiers_sub yg2 yg) by (by subst yg2).
  (* the three conclusions that only need the shape of the final tiers *)
  assert (Hfin : ∀ yg' win',
    zorder_wf yg' → heap yg' !! w = Some win' → in_tier yg' w →
    (∀ p, p ≠ w → (p ∈ mid_zs yg' → p ∈ mid_zs yg)
                  ∧ (top_z yg' = Some p → top_z yg = Some p)
                  ∧ (bottom_z yg' = Some p → bottom_z yg = Some p)) →
    (uint16 new_zed = YUTANI_ZORDER_TOP → top_z yg' = Some w) →
    (uint16 new_zed = YUTANI_ZORDER_BOTTOM → bottom_z yg' = Some w) →
    tier_count yg' w = 1%nat ∧
    ∀ t, t ≠ w →
      (uint16 new_zed = YUTANI_ZORDER_TOP ∧ top_z yg = Some t)
      ∨ (uint16 new_zed = YUTANI_ZORDER_BOTTOM ∧ bottom_z yg = Some t) →
      tier_count yg' t = 0%nat).
  { intros yg' win' Hwf' Hl' Hin' Hsub' Htop' Hbot'. split.
    - by apply in_tier_tier_count_1.
    - intros t Hne Hslot. apply tier_count_0.
      destruct (Hsub' t Hne) as (Hm & Ht & Hb).
      intros [Hp|[Hp|Hp]].
      + destruct (wf_bottom _ Hwf t (Hb Hp)) as (tw & ? & ?).
        destruct Hslot as [[Hz Hx]|[Hz Hx]].
        * destruct (wf_top _ Hwf t Hx) as (tw' & ? & ?). simplify_eq. congruence.
        * specialize (Hbot' Hz). congruence.
      + apply Hm in Hp. destruct (wf_mid _ Hwf t Hp) as (tw & ? & ? & ?).
        destruct Hslot as [[Hz Hx]|[Hz Hx]].
        * destruct (wf_top _ Hwf t Hx) as (tw' & ? & ?). simplify_eq.
        * destruct (wf_bottom _ Hwf t Hx) as (tw' & ? & ?). simplify_eq.
      + destruct (wf_top _ Hwf t (Ht Hp)) as (tw & ? & ?).
        destruct Hslot as [[Hz Hx]|[Hz Hx]].
        * specialize (Htop' Hz). congruence.
        * destruct (wf_bottom _ Hwf t Hx) as (tw' & ? & ?). simplify_eq. congruence. }
  assert (Em2 : mid_zs yg1 = mid_zs yg2) by (by subst yg2).
  assert (Et2 : top_z yg1 = top_z yg2) by (by subst yg2).
  assert (Eb2 : bottom_z yg1 = bottom_z yg2) by (by subst yg2).
  unfold reorder_window. rewrite Hu1. simpl. rewrite Hl1. simpl.
  rewrite <- Ew2, <- Ey2, Em2, Et2, Eb2.
  destruct (decide (uint16 new_zed ≠ YUTANI_ZORDER_TOP
                    ∧ uint16 new_zed ≠ YUTANI_ZORDER_BOTTOM)) as [[Hnt Hnb]|Hn].
  - (* middle *)
    assert (w ∉ mid_zs yg2) as Hnm by (intros ?; apply Hnt2; right; by left).
    assert (Hwf' : zorder_wf (set_mid_zs (list_h.list_insert (mid_zs yg2) w) yg2)).
    { eapply zorder_wf_insert_mid; eauto; congruence. }
    assert (Hsub' : ∀ p, p ≠ w →
      (p ∈ mid_zs (set_mid_zs (list_h.list_insert (mid_zs yg2) w) yg2) → p ∈ mid_zs yg)
      ∧ (top_z yg2 = Some p → top_z yg = Some p)
      ∧ (bottom_z yg2 = Some p → bottom_z yg = Some p)).
    { destruct Hsub2 as (Hm & Ht & Hb). intros p Hne. split_and!; [|apply Ht|apply Hb].
      simpl. intros [Hp|Hp%list_elem_of_singleton]%elem_of_app; [by apply Hm|done]. }
    destruct (Hfin _ win2 Hwf' Hl2) as [Hc1 Hc0]; try done.
    { right; left. simpl. apply elem_of_app. right. by apply list_elem_of_singleton. }
    eexists _, win2. split; [done|]. split_and!; try done.
    rewrite !decide_False by done. simpl. apply last_snoc.
  - destruct (decide (uint16 new_zed = YUTANI_ZORDER_TOP)) as [Ht|Hnt'].
    + (* top *)
      destruct (unorder_slot_zorder_wf yg2 (top_z yg2) Hwf2)
        as (yg3 & Hu3 & Hwf3 & Hsub3 & Hid3 & Hh3).
      { intros t Et. destruct (wf_top _ Hwf2 t Et) as (? & ? & _). eauto. }
      rewrite Hu3. simpl.
      assert (Hl3 : heap yg3 !! w = Some win2).
      { rewrite Hh3; [done|]. intros Et. apply Hnt2. right; by right. }
      assert (Hwf' : zorder_wf (set_top_z (Some w) yg3)).
      { eapply zorder_wf_set_top; eauto. congruence. }
      destruct (Hfin (set_top_z (Some w) yg3) win2 Hwf' Hl3) as [Hc1 Hc0]; try done.
      { right; by right. }
      { destruct Hsub2 as (Hm & Ht2 & Hb), Hsub3 as (Hm3 & Ht3 & Hb3).
        intros p Hne. simpl. split_and!; [naive_solver|congruence|naive_solver]. }
      { congruence. }
      eexists _, win2. split; [done|]. split_and!; try done.
      * eapply ids_same_trans; [exact Hid2|].
        eapply ids_same_trans; [exact Hid3|]. by repeat split.
      * destruct Hsub2 as (Hm & Ht2 & Hb), Hsub3 as (Hm3 & Ht3 & Hb3).
        intros p Hne. simpl. split_and!; [naive_solver|congruence|naive_solver].
    + (* bottom *)
      assert (Hb : uint16 new_zed = YUTANI_ZORDER_BOTTOM).
      { destruct (decide (uint16 new_zed = YUTANI_ZORDER_BOTTOM)); [done|]. tauto. }
      rewrite (decide_True _ _ Hb).
      destruct (unorder_slot_zorder_wf yg2 (bottom_z yg2) Hwf2)
        as (yg3 & Hu3 & Hwf3 & Hsub3 & Hid3 & Hh3).
      { intros t Et. destruct (wf_bottom _ Hwf2 t Et) as (? & ? & _). eauto. }
      rewrite Hu3. simpl.
      assert (Hl3 : heap yg3 !! w = Some win2).
      { rewrite Hh3; [done|]. intros Et. apply Hnt2. by left. }
      assert (Hwf' : zorder_wf (set_bottom_z (Some w) yg3)).
      { eapply zorder_wf_set_bottom; eauto. congruence. }
      destruct (Hfin (set_bottom_z (Some w) yg3) win2 Hwf' Hl3) as [Hc1 Hc0]; try done.
      { by left. }
      { destruct Hsub2 as (Hm & Ht2 & Hb2), Hsub3 as (Hm3 & Ht3 & Hb3).
        intros p Hne. simpl. split_and!; [naive_solver|naive_solver|congruence]. }
      eexists _, win2. split; [done|]. split_and!; try done.
      * eapply ids_same_trans; [exact Hid2|].
        eapply ids_same_trans; [exact Hid3|]. by repeat split.
      * by rewrite decide_True.
      * destruct Hsub2 as (Hm & Ht2 & Hb2), Hsub3 as (Hm3 & Ht3 & Hb3).
        intros p Hne. simpl. split_and!; [naive_solver|naive_solver|congruence].
Qed.

End ReorderSpec.

(** ** The registry operations keep the invariants *)

Section Registry.
Context `{YutaniConsts}.
Implicit Types yg : yutani_globals_t.

Lemma reorder_window_registry_wf yg w win new_zed yg' :
  registry_wf yg → heap yg !! w = Some win →
  wids_to_windows yg !! window.wid win = Some w →
  reorder_window yg (Some w) new_zed = Some yg' →
  registry_wf yg'.
Proof.
  intros Hwf Hl Hlive Hr.
  destruct (reorder_window_spec yg w win new_zed (rwf_zorder _ Hwf) Hl)
    as (yg'' & win' & Hr' & Hzo & Hid & _ & _ & _ & _ & Hsub & _).
  simplify_eq.
  apply (registry_wf_rebuild yg _ Hwf Hid Hzo).
  intros p Hp. destruct (decide (p = w)) as [->|Hne]; [eauto|].
  apply (rwf_tier_live _ Hwf), tier_count_pos.
  destruct (Hsub p Hne) as (Hm & Ht & Hb).
  destruct Hp as [?|[?|?]]; unfold in_tier; eauto.
Qed.

Lemma lookup_snoc_inv {A} (l : list A) (x y : A) p :
  (l ++ [x]) !! p = Some y → l !! p = Some y ∨ (p = length l ∧ y = x).
Proof.
  intros Hl. destruct (decide (p < length l)%nat) as [Hlt|Hge].
  - left. by rewrite lookup_app_l in Hl.
  - right. rewrite lookup_app_r in Hl by lia.
    destruct (p - length l)%nat as [|n] eqn:E; simpl in Hl; [|done].
    split; [lia|congruence].
Qed.

(** What [server_window_create] builds. *)
Lemma server_window_create_inv yg width height owner :
  let r := server_window_create yg width height owner in
  ∃ w, r.1 = length (heap yg)
    ∧ heap r.2 = heap yg ++ [w]
    ∧ window.wid w = next_wid_static yg
    ∧ window.z w = 1
    ∧ window.bufid w = next_buf_id_static yg
    ∧ window.buffer w = Some (next_buf_id_static yg)
    ∧ window.newbufid w = 0
    ∧ window.width w = width ∧ window.height w = height
    ∧ wids_to_windows r.2 = <[next_wid_static yg := length (heap yg)]> (wids_to_windows yg)
    ∧ mid_zs r.2 = mid_zs yg ++ [length (heap yg)]
    ∧ top_z r.2 = top_z yg ∧ bottom_z r.2 = bottom_z yg
    ∧ next_buf_id_static r.2 = next_buf_id_static yg + 1
    ∧ next_wid_static r.2 = next_wid_static yg + 1
    ∧ is_Some (shm r.2 !! next_buf_id_static yg)
    ∧ (∀ k, is_Some (shm yg !! k) → is_Some (shm r.2 !! k))
    ∧ outbox r.2 = outbox yg
    ∧ window_subscribers r.2 = window_subscribers yg.
Proof.
  simpl. eexists. unfold server_window_create. simpl.
  split_and!; try done.
  - unfold memset_zero; simpl. rewrite lookup_insert_eq. eauto.
  - intros k Hk. unfold memset_zero; simpl.
    destruct (decide (next_buf_id_static yg = k)) as [->|Hne].
    + rewrite lookup_insert_eq. eauto.
    + rewrite lookup_insert_ne by done.
      destruct (shm yg !! next_buf_id_static yg); simpl; [done|].
      by rewrite lookup_insert_ne.
Qed.

Lemma server_window_create_registry_wf yg width height owner :
  registry_wf yg → registry_wf (server_window_create yg width height owner).2.
Proof.
  intros Hwf.
  destruct (server_window_create_inv yg width height owner)
    as (w & _ & Hh & Hwid & Hz & Hbuf & Hbuffer & Hnew & _ & _ & Hwids & Hmid & Htop & Hbot
        & Hnb & Hnw & Hshm & Hshm' & _).
  set (yg' := (server_window_create yg width height owner).2) in *.
  pose proof Hwf as [Hzo Hnbuf Hwidlt Hinj Hlive Hrange Hbinj Hmap].
  pose proof Hzo as [Hnd Hm Ht Hb Hzr Hw].
  assert (Hold : ∀ p v, heap yg !! p = Some v → heap yg' !! p = Some v).
  { intros p v Hp. rewrite Hh. rewrite lookup_app_l; [done|by eapply lookup_lt_Some]. }
  assert (Hnewl : heap yg' !! length (heap yg) = Some w).
  { rewrite Hh. rewrite lookup_app_r by lia. by rewrite Nat.sub_diag. }
  assert (Hcases : ∀ p v, heap yg' !! p = Some v →
            heap yg !! p = Some v ∨ (p = length (heap yg) ∧ v = w)).
  { intros p v. rewrite Hh. apply lookup_snoc_inv. }
  assert (Hfresh : length (heap yg) ∉ mid_zs yg).
  { intros Hin. destruct (Hm _ Hin) as (v & Hv & _). apply lookup_lt_Some in Hv. lia. }
  assert (Hzo' : zorder_wf yg').
  { split.
    - rewrite Hmid. apply NoDup_app. split_and!; [done| |apply NoDup_singleton].
      intros x Hx Hx'%list_elem_of_singleton. by subst.
    - intros p. rewrite Hmid.
      intros [Hp|Hp%list_elem_of_singleton]%elem_of_app.
      + destruct (Hm p Hp) as (v & ? & ?). eauto.
      + subst p. exists w. split; [done|]. rewrite Hz.
        split; [apply not_eq_sym, zorder_top_1|apply not_eq_sym, zorder_bottom_1].
    - intros p. rewrite Htop. intros Hp. destruct (Ht p Hp) as (v & ? & ?). eauto.
    - intros p. rewrite Hbot. intros Hp. destruct (Hb p Hp) as (v & ? & ?). eauto.
    - intros p v Hp. destruct (Hcases p v Hp) as [Hp'|[-> ->]]; [eauto|]. rewrite Hz. lia.
    - intros k p. rewrite Hwids. intros [[<- <-]|[Hne Hk]]%lookup_insert_Some.
      + eauto.
      + destruct (Hw k p Hk) as (v & ? & ?). eauto. }
  split; try done.
  - lia.
  - intros p v Hp. rewrite Hnw.
    destruct (Hcases p v Hp) as [Hp'|[-> ->]]; [|lia].
    specialize (Hwidlt p v Hp'). lia.
  - intros p q v u Hp Hq Heq.
    destruct (Hcases p v Hp) as [Hp'|[-> ->]], (Hcases q u Hq) as [Hq'|[-> ->]].
    + eauto.
    + specialize (Hwidlt p v Hp'). lia.
    + specialize (Hwidlt q u Hq'). lia.
    + done.
  - intros p Hp%tier_count_pos.
    assert (p = length (heap yg) ∨ in_tier yg p) as [->|Hin].
    { unfold in_tier in *. rewrite Hmid, Htop, Hbot in Hp.
      destruct Hp as [?|[[?|?%list_elem_of_singleton]%elem_of_app|?]]; eauto. }
    + exists w. split; [done|]. rewrite Hwids, Hwid. apply lookup_insert_eq.
    + apply tier_count_pos in Hin. destruct (Hlive p Hin) as (v & Hv & Hk).
      exists v. split; [eauto|]. rewrite Hwids, lookup_insert_ne; [done|].
      specialize (Hwidlt p v Hv). lia.
  - intros p v Hp. rewrite Hnb.
    destruct (Hcases p v Hp) as [Hp'|[-> ->]]; [|lia].
    specialize (Hrange p v Hp'). lia.
  - intros p q v u Hp Hq Hne.
    destruct (Hcases p v Hp) as [Hp'|[-> ->]], (Hcases q u Hq) as [Hq'|[-> ->]].
    + eauto.
    + specialize (Hrange p v Hp'). lia.
    + specialize (Hrange q u Hq'). lia.
    + done.
  - intros p v Hp Hk.
    destruct (Hcases p v Hp) as [Hp'|[-> ->]].
    + rewrite Hwids in Hk. apply lookup_insert_Some in Hk as [[Hk _]|[_ Hk]].
      { specialize (Hwidlt p v Hp'). lia. }
      destruct (Hmap p v Hp' Hk) as (? & ? & Hn).
      split_and!; [done|by apply Hshm'|].
      intros Hnz. destruct (Hn Hnz). split; [done|by apply Hshm'].
    + rewrite Hbuf, Hbuffer, Hnew. split_and!; done.
Qed.

End Registry.

Section Resize.
Context `{YutaniConsts}.
Implicit Types yg : yutani_globals_t.

(** Rewriting one window record without touching its wid or z, the tiers
    or the wid table keeps everything but the buffer bookkeeping. *)
Lemma registry_wf_update yg yg' p w w' :
  registry_wf yg → heap yg !! p = Some w →
  heap yg' = <[p := w']> (heap yg) →
  window.wid w' = window.wid w → window.z w' = window.z w →
  mid_zs yg' = mid_zs yg → top_z yg' = top_z yg → bottom_z yg' = bottom_z yg →
  wids_to_windows yg' = wids_to_windows yg →
  next_wid_static yg' = next_wid_static yg →
  1 <= next_buf_id_static yg' →
  (∀ q v, heap yg' !! q = Some v →
     1 <= window.bufid v < next_buf_id_static yg'
     ∧ 0 <= window.newbufid v < next_buf_id_static yg'
     ∧ window.newbufid v ≠ window.bufid v) →
  (∀ q r v u, heap yg' !! q = Some v → heap yg' !! r = Some u → q ≠ r →
     window.bufid v ≠ window.bufid u ∧ window.bufid v ≠ window.newbufid u
     ∧ (window.newbufid v ≠ 0 → window.newbufid v ≠ window.newbufid u)) →
  (∀ q v, heap yg' !! q = Some v → wids_to_windows yg' !! window.wid v = Some q →
     window.buffer v = Some (window.bufid v) ∧ is_Some (shm yg' !! window.bufid v)
     ∧ (window.newbufid v ≠ 0 →
        window.newbuffer v = Some (window.newbufid v)
        ∧ is_Some (shm yg' !! window.newbufid v))) →
  registry_wf yg'.
Proof.
  intros Hwf Hl Hh Hwid Hz Hmid Htop Hbot Hwids Hnw Hnb Hrange' Hinj' Hmap'.
  pose proof Hwf as [Hzo _ Hwidlt Hinj Hlive _ _ _].
  pose proof Hzo as [Hnd Hm Ht Hb Hzr Hw].
  assert (Hlen : (p < length (heap yg))%nat) by (by eapply lookup_lt_Some).
  assert (Hfwd : ∀ q v, heap yg !! q = Some v →
            ∃ v', heap yg' !! q = Some v'
                  ∧ window.wid v' = window.wid v ∧ window.z v' = window.z v).
  { intros q v Hq. rewrite Hh. destruct (decide (q = p)) as [->|Hne].
    - rewrite list_lookup_insert_eq by done. simplify_eq. eauto.
    - rewrite list_lookup_insert_ne by done. eauto. }
  assert (Hbwd : ∀ q v', heap yg' !! q = Some v' →
            ∃ v, heap yg !! q = Some v
                 ∧ window.wid v' = window.wid v ∧ window.z v' = window.z v).
  { intros q v'. rewrite Hh. destruct (decide (q = p)) as [->|Hne].
    - rewrite list_lookup_insert_eq by done. intros [= <-]. eauto.
    - rewrite list_lookup_insert_ne by done. eauto. }
  split; try done.
  - split.
    + by rewrite Hmid.
    + intros q. rewrite Hmid. intros Hq. destruct (Hm q Hq) as (v & Hv & ? & ?).
      destruct (Hfwd q v Hv) as (v' & ? & ? & ?). exists v'. split_and!; [done|congruence..].
    + intros q. rewrite Htop. intros Hq. destruct (Ht q Hq) as (v & Hv & ?).
      destruct (Hfwd q v Hv) as (v' & ? & ? & ?). exists v'. split; [done|congruence].
    + intros q. rewrite Hbot. intros Hq. destruct (Hb q Hq) as (v & Hv & ?).
      destruct (Hfwd q v Hv) as (v' & ? & ? & ?). exists v'. split; [done|congruence].
    + intros q v' Hq. destruct (Hbwd q v' Hq) as (v & Hv & _ & Hzv).
      rewrite Hzv. eauto.
    + intros k q. rewrite Hwids. intros Hk. destruct (Hw k q Hk) as (v & Hv & ?).
      destruct (Hfwd q v Hv) as (v' & ? & ? & ?). exists v'. split; [done|congruence].
  - intros q v' Hq. destruct (Hbwd q v' Hq) as (v & Hv & Hwv & _).
    rewrite Hnw, Hwv. eauto.
  - intros q r v' u' Hq Hr Heq.
    destruct (Hbwd q v' Hq) as (v & Hv & Hwv & _).
    destruct (Hbwd r u' Hr) as (u & Hu & Hwu & _).
    apply (Hinj q r v u); congruence.
  - intros q Hq.
    assert (in_tier yg q) as Hin.
    { apply tier_count_pos in Hq. unfold in_tier in *. by rewrite <- Hmid, <- Htop, <- Hbot. }
    apply tier_count_pos in Hin. destruct (Hlive q Hin) as (v & Hv & Hk).
    destruct (Hfwd q v Hv) as (v' & ? & Hwv & ?). exists v'. split; [done|].
    rewrite Hwids. congruence.
Qed.

Lemma server_window_resize_inv yg p width height id yg' :
  server_window_resize yg p width height = Some (id, yg') →
  ∃ w, heap yg !! p = Some w ∧
    ((window.newbufid w ≠ 0 ∧ id = window.newbufid w ∧ yg' = yg)
     ∨ (window.newbufid w = 0 ∧ id = next_buf_id_static yg
        ∧ heap yg' = <[p := window.set_newbuffer (Some id) (window.set_newbufid id w)]> (heap yg)
        ∧ mid_zs yg' = mid_zs yg ∧ top_z yg' = top_z yg ∧ bottom_z yg' = bottom_z yg
        ∧ wids_to_windows yg' = wids_to_windows yg
        ∧ next_wid_static yg' = next_wid_static yg
        ∧ next_buf_id_static yg' = next_buf_id_static yg + 1
        ∧ is_Some (shm yg' !! id)
        ∧ (∀ k, is_Some (shm yg !! k) → is_Some (shm yg' !! k))
        ∧ (∀ k, k ≠ id → shm yg' !! k = shm yg !! k)
        ∧ outbox yg' = outbox yg)).
Proof.
  unfold server_window_resize. intros Hm.
  apply bind_Some in Hm as (w & Hl & Hm). exists w. split; [done|].
  case_decide as Hn; unfold next_buf_id in Hm; simpl in Hm; simplify_eq.
  - left. done.
  - right. assert (window.newbufid w = 0) as Hz by (destruct (decide (window.newbufid w = 0)); tauto).
    simpl. split_and!; try done.
    + destruct (shm yg !! next_buf_id_static yg) eqn:E; simpl; [by rewrite E|].
      rewrite lookup_insert_eq. eauto.
    + intros k Hk. destruct (shm yg !! next_buf_id_static yg) eqn:E; simpl; [done|].
      destruct (decide (next_buf_id_static yg = k)) as [->|Hne].
      * rewrite lookup_insert_eq. eauto.
      * by rewrite lookup_insert_ne.
    + intros k Hk. destruct (shm yg !! next_buf_id_static yg) eqn:E; simpl; [done|].
      by rewrite lookup_insert_ne.
Qed.

Lemma server_window_resize_registry_wf yg p width height id yg' :
  registry_wf yg → server_window_resize yg p width height = Some (id, yg') →
  registry_wf yg'.
Proof.
  intros Hwf Hr.
  destruct (server_window_resize_inv _ _ _ _ _ _ Hr)
    as (w & Hl & [(_ & _ & ->)|(Hz & -> & Hh & Hmid & Htop & Hbot & Hwids & Hnw & Hnb
                                 & Hshm & Hshm' & _)]); [done|].
  pose proof Hwf as [_ Hnbuf _ _ _ Hrange Hinj Hmap].
  assert (Hlen : (p < length (heap yg))%nat) by (by eapply lookup_lt_Some).
  set (id := next_buf_id_static yg) in *.
  set (w' := window.set_newbuffer (Some id) (window.set_newbufid id w)) in *.
  assert (Hcases : ∀ q v, heap yg' !! q = Some v →
            (q = p ∧ v = w') ∨ (q ≠ p ∧ heap yg !! q = Some v)).
  { intros q v. rewrite Hh. intros Hq%list_lookup_insert_Some. naive_solver. }
  eapply (registry_wf_update yg yg' p w w'); try done.
  - lia.
  - intros q v Hq. rewrite Hnb.
    destruct (Hcases q v Hq) as [[-> ->]|[Hne Hq']].
    + specialize (Hrange p w Hl). simpl. lia.
    + specialize (Hrange q v Hq'). lia.
  - intros q r v u Hq Hr' Hne.
    destruct (Hcases q v Hq) as [[-> ->]|[Hneq Hq']],
             (Hcases r u Hr') as [[-> ->]|[Hner Hr'']]; try done.
    + pose proof (Hinj p r w u Hl Hr'' Hne) as (? & ? & ?).
      specialize (Hrange r u Hr''). simpl. split_and!; [done|done|]. intros _. lia.
    + pose proof (Hinj q p v w Hq' Hl Hne) as (? & ? & ?).
      specialize (Hrange q v Hq'). simpl. split_and!; [done|lia|]. intros _. lia.
    + eauto.
  - intros q v Hq Hk. rewrite Hwids in Hk.
    destruct (Hcases q v Hq) as [[-> ->]|[Hneq Hq']].
    + destruct (Hmap p w Hl Hk) as (? & ? & _). simpl.
      split_and!; [done|by apply Hshm'|]. intros _. done.
    + destruct (Hmap q v Hq' Hk) as (? & ? & Hn).
      split_and!; [done|by apply Hshm'|].
      intros Hnz. destruct (Hn Hnz). split; [done|by apply Hshm'].
Qed.

Lemma server_window_resize_finish_inv yg p width height yg' :
  server_window_resize_finish yg p width height = Some yg' →
  ∃ w, heap yg !! p = Some w ∧
    ((window.newbufid w = 0 ∧ yg' = yg)
     ∨ (window.newbufid w ≠ 0 ∧
        ∃ yg1, mark_window yg p = Some yg1
               ∧ mark_window (resize_promote yg1 p w width height) p = Some yg')).
Proof.
  unfold server_window_resize_finish. intros Hm.
  apply bind_Some in Hm as (w & Hl & Hm). exists w. split; [done|].
  case_decide as Hn; simplify_eq; [by left|]. right. split; [done|].
  apply bind_Some in Hm as (yg1 & Hmk & Hm). exists yg1. split; [done|]. exact Hm.
Qed.

Lemma resize_promote_registry_wf yg p w width height :
  registry_wf yg → heap yg !! p = Some w → window.newbufid w ≠ 0 →
  registry_wf (resize_promote yg p w width height).
Proof.
  intros Hwf Hl Hnz.
  pose proof Hwf as [_ Hnbuf _ _ _ Hrange Hinj Hmap].
  assert (Hlen : (p < length (heap yg))%nat) by (by eapply lookup_lt_Some).
  set (yg' := resize_promote yg p w width height).
  set (w' := window.set_newbuffer None
               (window.set_buffer (window.newbuffer w)
                  (window.set_newbufid 0
                     (window.set_bufid (window.newbufid w)
                        (window.set_height height (window.set_width width w)))))).
  assert (Hh : heap yg' = <[p := w']> (heap yg)).
  { unfold yg', resize_promote, store; simpl. by rewrite list_insert_insert_eq. }
  assert (Hshm : shm yg' = delete (window.bufid w) (shm yg)) by done.
  assert (Hcases : ∀ q v, heap yg' !! q = Some v →
            (q = p ∧ v = w') ∨ (q ≠ p ∧ heap yg !! q = Some v)).
  { intros q v. rewrite Hh. intros Hq%list_lookup_insert_Some. naive_solver. }
  eapply (registry_wf_update yg yg' p w w'); try done.
  - intros q v Hq.
    destruct (Hcases q v Hq) as [[-> ->]|[Hne Hq']].
    + specialize (Hrange p w Hl). simpl. change (next_buf_id_static yg') with (next_buf_id_static yg). lia.
    + specialize (Hrange q v Hq'). done.
  - intros q r v u Hq Hr' Hne.
    destruct (Hcases q v Hq) as [[-> ->]|[Hneq Hq']],
             (Hcases r u Hr') as [[-> ->]|[Hner Hr'']]; try done.
    + pose proof (Hinj p r w u Hl Hr'' Hne) as (? & ? & Hn3).
      pose proof (Hinj r p u w Hr'' Hl (not_eq_sym Hne)) as (? & ? & ?).
      simpl. split_and!; [congruence|by apply Hn3|done].
    + pose proof (Hinj q p v w Hq' Hl Hne) as (? & ? & ?).
      specialize (Hrange q v Hq'). simpl. split_and!; [done|lia|done].
    + eauto.
  - intros q v Hq Hk. change (wids_to_windows yg') with (wids_to_windows yg) in Hk.
    rewrite Hshm.
    destruct (Hcases q v Hq) as [[-> ->]|[Hneq Hq']].
    + destruct (Hmap p w Hl Hk) as (? & ? & Hn). destruct (Hn Hnz) as [Hnb Hns].
      specialize (Hrange p w Hl). simpl.
      split_and!; [done| |done]. rewrite lookup_delete_ne by lia. done.
    + destruct (Hmap q v Hq' Hk) as (? & ? & Hn).
      pose proof (Hinj q p v w Hq' Hl Hneq) as (? & ? & ?).
      pose proof (Hinj p q w v Hl Hq' (not_eq_sym Hneq)) as (? & ? & ?).
      split_and!; [done|by rewrite lookup_delete_ne|].
      intros Hnz'. destruct (Hn Hnz'). split; [done|by rewrite lookup_delete_ne].
Qed.

Lemma server_window_resize_finish_registry_wf yg p width height yg' :
  registry_wf yg → server_window_resize_finish yg p width height = Some yg' →
  registry_wf yg'.
Proof.
  intros Hwf Hr.
  destruct (server_window_resize_finish_inv _ _ _ _ _ Hr)
    as (w & Hl & [[_ ->]|(Hnz & yg1 & Hm1 & Hm2)]); [done|].
  eapply same_core_registry_wf; [by eapply same_core_mark_window|].
  apply resize_promote_registry_wf; [|by rewrite (mark_window_heap _ _ _ Hm1)|done].
  eapply same_core_registry_wf; [by eapply same_core_mark_window|done].
Qed.

End Resize.

Section Close.
Context `{YutaniConsts}.
Implicit Types yg : yutani_globals_t.

Lemma same_core_release yg1 yg2 k :
  same_core yg1 yg2 → same_core (syscall_shm_release yg1 k) (syscall_shm_release yg2 k).
Proof.
  intros (?&?&?&?&?&Hd&?&?). repeat split; simpl; try done.
  by rewrite !dom_delete_L, Hd.
Qed.

Lemma zorder_wf_forget_wid yg k :
  zorder_wf yg → zorder_wf (set_wids_to_windows (delete k (wids_to_windows yg)) yg).
Proof.
  intros [Hnd Hm Ht Hb Hz Hw]. split; simpl; try done.
  intros k' p [_ Hk]%lookup_delete_Some. eauto.
Qed.

(* closing: the wid is forgotten, the window unordered, its buffer released *)
Lemma close_core_registry_wf yg w win windows' yg1 :
  registry_wf yg → heap yg !! w = Some win →
  unorder_window
    (set_windows windows'
       (set_wids_to_windows (delete (window.wid win) (wids_to_windows yg)) yg)) w
    = Some yg1 →
  registry_wf (syscall_shm_release yg1 (window.bufid win)).
Proof.
  intros Hwf Hl Hu.
  pose proof Hwf as [Hzo Hnbuf Hwidlt Hinj Hlive Hrange Hbinj Hmap].
  set (yga := set_windows windows'
       (set_wids_to_windows (delete (window.wid win) (wids_to_windows yg)) yg)) in *.
  assert (Hzoa : zorder_wf yga).
  { destruct (zorder_wf_forget_wid yg (window.wid win) Hzo). by split. }
  destruct (unorder_window_zorder_wf _ _ _ Hzoa Hu) as (Hzo1 & Hnt1 & Hsub1).
  pose proof (unorder_window_ids_same _ _ _ Hu) as (Hh1 & Hwd1 & Hdom1 & Hnb1 & Hnw1).
  destruct (unorder_window_inv _ _ _ Hu) as (win0 & Hl0 & Hheap & _ & Hshm1 & _).
  assert (win0 = win) as -> by (unfold yga in Hl0; simpl in Hl0; congruence).
  simpl in Hheap.
  assert (Hcases : ∀ q v, heap yg1 !! q = Some v →
            (q = w ∧ window.wid v = window.wid win ∧ window.bufid v = window.bufid win
             ∧ window.newbufid v = window.newbufid win)
            ∨ (q ≠ w ∧ heap yg !! q = Some v)).
  { intros q v. rewrite Hheap. intros Hq%list_lookup_insert_Some.
    destruct Hq as [(<- & <- & _)|[? ?]]; [left|right]; done. }
  assert (Hback : ∀ q v, heap yg1 !! q = Some v →
            ∃ v0, heap yg !! q = Some v0 ∧ window.wid v = window.wid v0
                  ∧ window.bufid v = window.bufid v0
                  ∧ window.newbufid v = window.newbufid v0).
  { intros q v Hq. destruct (Hcases q v Hq) as [(-> & ? & ? & ?)|[_ ?]]; eauto 10. }
  split; simpl.
  - destruct Hzo1. by split.
  - by rewrite Hnb1.
  - intros q v Hq. destruct (Hback q v Hq) as (v0 & Hv0 & -> & _).
    rewrite Hnw1. simpl. eauto.
  - intros q r v u Hq Hr Heq.
    destruct (Hback q v Hq) as (v0 & Hv0 & Hwv & _).
    destruct (Hback r u Hr) as (u0 & Hu0 & Hwu & _).
    apply (Hinj q r v0 u0); congruence.
  - intros q Hq%tier_count_pos.
    assert (in_tier yg1 q) as Hq1 by exact Hq.
    assert (q ≠ w) as Hne by (intros ->; done).
    assert (in_tier yg q) as Hq0 by (exact (tiers_sub_in_tier _ _ _ Hsub1 Hq1)).
    apply tier_count_pos in Hq0. destruct (Hlive q Hq0) as (v & Hv & Hk).
    exists v. split.
    + rewrite Hheap. by rewrite list_lookup_insert_ne.
    + rewrite Hwd1. simpl. rewrite lookup_delete_ne; [done|].
      intros Heq. apply Hne. symmetry. by apply (Hinj w q win v).
  - intros q v Hq. destruct (Hback q v Hq) as (v0 & Hv0 & _ & -> & ->).
    rewrite Hnb1. simpl. eauto.
  - intros q r v u Hq Hr Hne.
    destruct (Hback q v Hq) as (v0 & Hv0 & _ & -> & ->).
    destruct (Hback r u Hr) as (u0 & Hu0 & _ & -> & ->). eauto.
  - intros q v Hq Hk. rewrite Hwd1 in Hk. simpl in Hk.
    apply lookup_delete_Some in Hk as [Hkne Hk].
    destruct (Hcases q v Hq) as [(-> & ? & _)|[Hne Hq0]]; [congruence|].
    destruct (Hmap q v Hq0 Hk) as (? & ? & Hn).
    pose proof (Hbinj q w v win Hq0 Hl Hne) as (? & ? & ?).
    pose proof (Hbinj w q win v Hl Hq0 (not_eq_sym Hne)) as (? & ? & ?).
    rewrite Hshm1. simpl.
    split_and!; [done|by rewrite lookup_delete_ne|].
    intros Hnz. destruct (Hn Hnz). split; [done|by rewrite lookup_delete_ne].
Qed.

Lemma window_actually_close_registry_wf yg w yg' :
  registry_wf yg → window_actually_close yg w = Some yg' → registry_wf yg'.
Proof.
  intros Hwf. unfold window_actually_close. intros Hm.
  apply bind_Some in Hm as (win & Hl & Hm).
  apply bind_Some in Hm as (yg1 & Hu & Hm).
  apply bind_Some in Hm as (yg2 & Hmk & Hm). simplify_eq.
  eapply same_core_registry_wf; [apply same_core_notify_subscribers|].
  eapply same_core_registry_wf;
    [|exact (close_core_registry_wf _ _ _ _ _ Hwf Hl Hu)].
  apply same_core_release.
  etrans; [by eapply same_core_mark_window|].
  case_decide; [by repeat split|done].
Qed.

Lemma foreach_preserves {A} (P : yutani_globals_t → Prop)
    (body : yutani_globals_t → A → option yutani_globals_t) l :
  (∀ yg v yg', P yg → body yg v = Some yg' → P yg') →
  ∀ yg yg', P yg → foreach l body yg = Some yg' → P yg'.
Proof.
  intros Hb. induction l as [|v l IH]; intros yg yg' HP Hf; simpl in Hf.
  - by simplify_eq.
  - apply bind_Some in Hf as (yg1 & H1 & Hf). eauto.
Qed.

Lemma same_core_mark_if_animated yg w yg' :
  mark_if_animated yg w = Some yg' → same_core yg yg'.
Proof.
  unfold mark_if_animated. intros Hm. apply bind_Some in Hm as (win & _ & Hm).
  case_decide; simplify_eq; [done|]. by eapply same_core_mark_window.
Qed.

(* what a call of [yutani_blit_window] that returns has done *)
Lemma yutani_blit_window_inv yg l w st' :
  yutani_blit_window (yg, l) w = Some st' →
  ∃ win, heap yg !! w = Some win
    ∧ (st' = (yg, l) ∨ st' = (yg, list_h.list_insert l w)
       ∨ st' = (store yg w (window.set_anim_start 0
                              (window.set_anim_mode YUTANI_EFFECT_NONE win)), l)).
Proof.
  unfold yutani_blit_window. intros Hm.
  apply bind_Some in Hm as (win & Hl & Hm). exists win. split; [done|].
  repeat case_decide.
  - apply bind_Some in Hm as (? & _ & [= <-]). by left.
  - injection Hm as <-. right; by left.
  - apply bind_Some in Hm as (? & _ & [= <-]). right; by right.
  - apply bind_Some in Hm as (? & _ & [= <-]). by left.
Qed.

Lemma same_core_yutani_blit_window st w st' :
  yutani_blit_window st w = Some st' → same_core st.1 st'.1.
Proof.
  destruct st as [yg l]. intros Hm.
  apply yutani_blit_window_inv in Hm as (win & Hl & [-> | [-> | ->]]); cbn [fst]; try done.
  by eapply same_core_store.
Qed.

Lemma same_core_blit_all l st st' : blit_all l st = Some st' → same_core st.1 st'.1.
Proof.
  revert st. induction l as [|w l IH]; intros st Hb; simpl in Hb.
  - by simplify_eq.
  - apply bind_Some in Hb as (st1 & H1 & Hb).
    etrans; [by eapply same_core_yutani_blit_window|by apply IH].
Qed.

Lemma redraw_windows_registry_wf yg yg' :
  registry_wf yg → redraw_windows yg = Some yg' → registry_wf yg'.
Proof.
  intros Hwf. unfold redraw_windows. intros Hm.
  apply bind_Some in Hm as (yg1 & H1 & Hm).
  apply bind_Some in Hm as (yg2 & H2 & Hm).
  apply bind_Some in Hm as (yg3 & H3 & Hm).
  apply (same_core_foreach _ _ same_core_mark_if_animated) in H1, H2, H3.
  assert (registry_wf yg3) as Hwf3.
  { eapply same_core_registry_wf; [|exact Hwf].
    etrans; [|exact H3]. etrans; [|exact H2]. etrans; [|exact H1]. by repeat split. }
  case_decide; simplify_eq.
  { eapply same_core_registry_wf; [|exact Hwf3]. by repeat split. }
  apply bind_Some in Hm as (st1 & Hb1 & Hm).
  apply bind_Some in Hm as (st2 & Hb2 & Hm).
  apply bind_Some in Hm as (st3 & Hb3 & Hm).
  apply bind_Some in Hm as (box & _ & Hm).
  apply bind_Some in Hm as (shapes & _ & Hm).
  apply same_core_blit_all in Hb1, Hb2, Hb3. simpl in Hb1.
  eapply (foreach_preserves registry_wf); [|  |exact Hm].
  - intros ????. by apply window_actually_close_registry_wf.
  - eapply same_core_registry_wf; [|exact Hwf3].
    etrans; [|exact Hb3]. etrans; [|exact Hb2]. etrans; [|exact Hb1]. by repeat split.
Qed.

End Close.

(** ** Every step keeps the invariants *)

Section Steps.
Context `{YutaniConsts}.
Implicit Types yg : yutani_globals_t.

Lemma registry_wf_init display_width display_height :
  registry_wf (yutani_init display_width display_height).
Proof.
  split; simpl; try done.
  - split; simpl; try done.
    + apply NoDup_nil_2.
    + intros p Hp. by apply elem_of_nil in Hp.
  - intros p Hp. exfalso. apply tier_count_pos in Hp.
    destruct Hp as [?|[Hp|?]]; try done. by apply elem_of_nil in Hp.
Qed.

Lemma handle_message_registry_wf yg source m yg' :
  registry_wf yg → handle_message yg source m = Some yg' → registry_wf yg'.
Proof.
  intros Hwf Hm.
  assert (Hsc : ∀ yg1, same_core yg yg1 → registry_wf yg1)
    by (intros yg1 Hs; by eapply same_core_registry_wf).
  destruct m; unfold handle_message in Hm;
    try (injection Hm as <-; exact Hwf).
  - (* HELLO *) simplify_eq. apply Hsc, same_core_pex_send.
  - (* WINDOW_NEW *)
    match type of Hm with context [server_window_create yg ?wd ?ht source] =>
      pose proof (server_window_create_registry_wf yg wd ht source Hwf) as Hc;
      destruct (server_window_create yg wd ht source) as [w yg1]
    end.
    apply bind_Some in Hm as (win & _ & [= <-]).
    eapply same_core_registry_wf; [apply same_core_notify_subscribers|].
    eapply same_core_registry_wf; [apply same_core_pex_send|].
    exact Hc.
  - (* FLIP *)
    destruct (wids_to_windows yg !! wid); simplify_eq; [|done].
    by eapply Hsc, same_core_mark_window.
  - (* FLIP_REGION *)
    destruct (wids_to_windows yg !! wid); simplify_eq; [|done].
    by eapply Hsc, same_core_mark_window_relative.
  - (* KEY_EVENT *) by eapply Hsc, same_core_handle_key_event.
  - (* MOUSE_EVENT *) by eapply Hsc, same_core_handle_mouse_event.
  - (* WINDOW_MOVE *)
    destruct (wids_to_windows yg !! wid); simplify_eq; [|done].
    apply Hsc. break_all. sc.
  - (* WINDOW_CLOSE *)
    destruct (wids_to_windows yg !! wid); simplify_eq; [|done].
    apply bind_Some in Hm as (yg1 & H1 & Hm). apply Hsc.
    etrans; [by eapply same_core_window_mark_for_close
            |by eapply same_core_window_remove_from_client].
  - (* WINDOW_STACK *)
    destruct (wids_to_windows yg !! wid) as [w|] eqn:Ew; simplify_eq; [|done].
    destruct (wf_wids _ (rwf_zorder _ Hwf) _ _ Ew) as (win & Hl & Hwid).
    eapply reorder_window_registry_wf; eauto. by rewrite Hwid.
  - (* RESIZE_REQUEST *)
    destruct (wids_to_windows yg !! wid); simplify_eq; [|done].
    apply bind_Some in Hm as (win & _ & [= <-]). apply Hsc, same_core_pex_send.
  - (* RESIZE_OFFER *)
    destruct (wids_to_windows yg !! wid); simplify_eq; [|done].
    apply bind_Some in Hm as (win & _ & [= <-]). apply Hsc, same_core_pex_send.
  - (* RESIZE_ACCEPT *)
    destruct (wids_to_windows yg !! wid); simplify_eq; [|done].
    apply bind_Some in Hm as ([id yg1] & Hr & Hm).
    apply bind_Some in Hm as (win & _ & [= <-]).
    eapply same_core_registry_wf; [apply same_core_pex_send|].
    by eapply server_window_resize_registry_wf.
  - (* RESIZE_DONE *)
    destruct (wids_to_windows yg !! wid); simplify_eq; [|done].
    by eapply server_window_resize_finish_registry_wf.
  - (* QUERY_WINDOWS *)
    apply bind_Some in Hm as (yg1 & H1 & Hm).
    apply bind_Some in Hm as (yg2 & H2 & Hm).
    apply bind_Some in Hm as (yg3 & H3 & [= <-]).
    apply Hsc. etrans; [|apply same_core_pex_send].
    etrans; [exact (same_core_yutani_query_result _ _ _ _ H1)|].
    etrans; [|exact (same_core_yutani_query_result _ _ _ _ H3)].
    eapply same_core_foreach; [|exact H2].
    intros ? ? ? Hq. exact (same_core_yutani_query_result _ _ _ _ Hq).
  - (* WINDOW_ADVERTISE *)
    destruct (wids_to_windows yg !! wid); simplify_eq; [|done].
    apply bind_Some in Hm as (win & Hl & [= <-]). apply Hsc.
    etrans; [|apply same_core_notify_subscribers]. by eapply same_core_store.
  - (* SUBSCRIBE *) simplify_eq. apply Hsc. by repeat split.
  - (* UNSUBSCRIBE *)
    destruct (list_h.list_find _ _); simplify_eq; [|done]. apply Hsc. by repeat split.
  - (* SESSION_END *) simplify_eq. apply Hsc. by repeat split.
  - (* WINDOW_FOCUS *)
    destruct (wids_to_windows yg !! wid); simplify_eq; [|done].
    by eapply Hsc, same_core_set_focused_window.
  - (* KEY_BIND *) simplify_eq. apply Hsc, same_core_add_key_bind.
  - (* WINDOW_DRAG_START *)
    destruct (wids_to_windows yg !! wid); simplify_eq; [|done].
    by eapply Hsc, same_core_mouse_start_drag.
  - (* WINDOW_UPDATE_SHAPE *)
    destruct (wids_to_windows yg !! wid); simplify_eq; [|done].
    by eapply Hsc, same_core_server_window_update_shape.
Qed.

Lemma handle_packet_registry_wf yg p yg' :
  registry_wf yg → handle_packet yg p = Some yg' → registry_wf yg'.
Proof.
  intros Hwf. unfold handle_packet. intros Hm.
  repeat case_decide.
  - destruct (clients_to_windows yg !! source p) as [cl|]; simplify_eq; [|done].
    apply bind_Some in Hm as (yg1 & H1 & Hm). injection Hm as <-.
    eapply same_core_registry_wf; [|exact Hwf].
    transitivity yg1; [|by repeat split].
    eapply same_core_foreach; [|exact H1].
    intros ? ? ? Hc. exact (same_core_window_mark_for_close _ _ _ Hc).
  - by simplify_eq.
  - by eapply handle_message_registry_wf.
Qed.

Lemma step_registry_wf yg yg' : registry_wf yg → step yg yg' → registry_wf yg'.
Proof.
  intros Hwf Hs. destruct Hs as [yg p yg' Hp|yg yg' Hr|yg key region pixels Hk].
  - exact (handle_packet_registry_wf _ _ _ Hwf Hp).
  - exact (redraw_windows_registry_wf _ _ Hwf Hr).
  - eapply same_core_registry_wf; [|exact Hwf]. by apply same_core_client_draw.
Qed.

Lemma reachable_registry_wf yg : reachable yg → registry_wf yg.
Proof.
  intros (dw & dh & Hr).
  refine (rtc_ind_r registry_wf _ _ _ _ Hr).
  - apply registry_wf_init.
  - intros y z _ Hs Hy. exact (step_registry_wf _ _ Hy Hs).
Qed.

End Steps.

(** ** Reachable states *)

Section Reachable.
Context `{YutaniConsts}.
Implicit Types yg : yutani_globals_t.

Lemma reachable_init display_width display_height :
  reachable (yutani_init display_width display_height).
Proof. exists display_width, display_height. apply rtc_refl. Qed.

Lemma reachable_step yg yg' : reachable yg → step yg yg' → reachable yg'.
Proof. intros (dw & dh & Hr) Hs. exists dw, dh. by eapply rtc_r. Qed.

Lemma run_reachable ps : ∀ yg yg', reachable yg → run yg ps = Some yg' → reachable yg'.
Proof.
  induction ps as [|p ps IH]; intros yg yg' Hr Hrun; simpl in Hrun.
  - by simplify_eq.
  - apply bind_Some in Hrun as (yg1 & Hp & Hrun).
    eapply IH; [|exact Hrun]. eapply reachable_step; [exact Hr|]. by eapply step_packet.
Qed.

Lemma replay_reachable display_width display_height ps :
  reachable (replay display_width display_height ps).
Proof.
  unfold replay.
  destruct (run (yutani_init display_width display_height) ps) as [yg|] eqn:E; simpl.
  - eapply run_reachable; [apply reachable_init|exact E].
  - apply reachable_init.
Qed.

Lemma redraw_n_reachable n : ∀ yg yg', reachable yg → redraw_n n yg = Some yg' → reachable yg'.
Proof.
  induction n as [|n IH]; intros yg yg' Hr Hrun; simpl in Hrun.
  - by simplify_eq.
  - apply bind_Some in Hrun as (yg1 & Hp & Hrun).
    eapply IH; [|exact Hrun]. eapply reachable_step; [exact Hr|]. by eapply step_redraw.
Qed.

Lemma handle_packet_message yg source m :
  handle_packet yg (packet source m) = handle_message yg source m.
Proof.
  unfold handle_packet, packet; simpl.
  repeat case_decide; try done; lia.
Qed.

Lemma notify_subscribers_outbox yg :
  outbox (notify_subscribers yg)
  = outbox yg ++ ((λ c, Pex_send c YUTANI_MSG_NOTIFY) <$> window_subscribers yg).
Proof.
  unfold notify_subscribers. generalize (window_subscribers yg). intros l.
  revert yg. induction l as [|c l IH]; intros yg; simpl.
  - by rewrite app_nil_r.
  - rewrite IH. simpl. by rewrite <- app_assoc.
Qed.

Lemma notify_filter_count (l : list Z) c :
  length (List.filter (is_notify_to c) ((λ s, Pex_send s YUTANI_MSG_NOTIFY) <$> l))
  = length (List.filter (λ s, bool_decide (s = c)) l).
Proof.
  induction l as [|s l IH]; [done|].
  rewrite fmap_cons. cbn [List.filter is_notify_to].
  destruct (bool_decide (s = c)); cbn [length]; by rewrite IH.
Qed.

Lemma notify_delivered_count yg c :
  notify_delivered yg c
  = length (List.filter (λ s, bool_decide (s = c)) (window_subscribers yg)).
Proof.
  unfold notify_delivered. rewrite notify_subscribers_outbox.
  rewrite drop_app_length. apply notify_filter_count.
Qed.

Lemma filter_eq_not_elem_of (l : list Z) (c : Z) :
  c ∉ l → List.filter (λ s, bool_decide (s = c)) l = [].
Proof.
  induction l as [|s l IH]; simpl; [done|].
  intros Hn. apply not_elem_of_cons in Hn as [Hne Hn].
  rewrite bool_decide_false by congruence. by apply IH.
Qed.

Lemma list_h_find_snoc_fresh (l : list Z) (c : Z) (r : list Z) :
  c ∉ l → list_h.list_find (l ++ c :: r) c = Some (length l).
Proof.
  induction l as [|s l IH]; simpl; intros Hn.
  - by rewrite decide_True.
  - apply not_elem_of_cons in Hn as [Hne Hn].
    rewrite decide_False by congruence. by rewrite IH.
Qed.

End Reachable.

(** ** The claims *)

Section Claims.
Context `{YutaniConsts}.
Implicit Types yg : yutani_globals_t.

(** C2 (as amended): in a reachable state, reorder(w, z) on a registered
    window succeeds, assigns z (as an unsigned 16-bit value), leaves w in
    exactly one tier, the tier of z (TOP slot, BOTTOM slot, or the end of the
    middle sequence); and a different window that occupied the requested TOP
    or BOTTOM slot is unordered: afterwards it is in no tier at all, in
    particular not in the middle sequence. *)
Theorem C2_reorder_window yg wid w new_zed :
  reachable yg → wids_to_windows yg !! wid = Some w →
  ∃ yg' win',
    reorder_window yg (Some w) new_zed = Some yg'
    ∧ heap yg' !! w = Some win' ∧ window.z win' = uint16 new_zed
    ∧ tier_count yg' w = 1%nat
    ∧ (if decide (uint16 new_zed = YUTANI_ZORDER_TOP) then top_z yg' = Some w
       else if decide (uint16 new_zed = YUTANI_ZORDER_BOTTOM) then bottom_z yg' = Some w
       else last (mid_zs yg') = Some w)
    ∧ (∀ t, t ≠ w →
         (uint16 new_zed = YUTANI_ZORDER_TOP ∧ top_z yg = Some t)
         ∨ (uint16 new_zed = YUTANI_ZORDER_BOTTOM ∧ bottom_z yg = Some t) →
         tier_count yg' t = 0%nat ∧ t ∉ mid_zs yg').
Proof.
  intros Hr Hw. pose proof (reachable_registry_wf _ Hr) as Hwf.
  destruct (wf_wids _ (rwf_zorder _ Hwf) _ _ Hw) as (win & Hl & _).
  destruct (reorder_window_spec yg w win new_zed (rwf_zorder _ Hwf) Hl)
    as (yg' & win' & Hre & _ & _ & Hl' & Hz' & Hc1 & Htier & _ & Hocc).
  exists yg', win'. split_and!; try done.
  intros t Hne Hslot. pose proof (Hocc t Hne Hslot) as H0. split; [done|].
  apply tier_count_0 in H0. intros Hin. apply H0. right; by left.
Qed.

(** C3 (the code at the failing input): from a state in which client c is
    not subscribed, SUBSCRIBE, SUBSCRIBE, UNSUBSCRIBE from c are all handled,
    and a following notify_subscribers delivers exactly one NOTIFY to c, not
    zero: the second SUBSCRIBE inserted c again. *)
Theorem C3_subscribe_twice_unsubscribe_notifies_once yg c :
  c ∉ window_subscribers yg →
  ∃ yg', run yg [packet c YUTANI_MSG_SUBSCRIBE; packet c YUTANI_MSG_SUBSCRIBE;
                 packet c YUTANI_MSG_UNSUBSCRIBE] = Some yg'
         ∧ window_subscribers yg' = window_subscribers yg ++ [c]
         ∧ notify_delivered yg' c = 1%nat.
Proof.
  intros Hn. eexists. split; [|split].
  - simpl. rewrite !handle_packet_message. simpl.
    rewrite handle_packet_message. simpl. rewrite handle_packet_message. simpl.
    unfold list_h.list_insert. rewrite <- app_assoc. simpl.
    rewrite (list_h_find_snoc_fresh _ _ _ Hn). simpl. reflexivity.
  - simpl. unfold list_h.list_delete.
    rewrite delete_take_drop.
    rewrite take_app_length. rewrite drop_app_ge by lia.
    replace (S (length (window_subscribers yg)) - length (window_subscribers yg))%nat
      with 1%nat by lia. done.
  - rewrite notify_delivered_count. simpl. unfold list_h.list_delete.
    rewrite delete_take_drop.
    rewrite take_app_length. rewrite drop_app_ge by lia.
    replace (S (length (window_subscribers yg)) - length (window_subscribers yg))%nat
      with 1%nat by lia. simpl.
    rewrite List.filter_app. rewrite (filter_eq_not_elem_of _ _ Hn). simpl.
    by rewrite bool_decide_true.
Qed.

(* the first half of the same sentence of the specification holds *)
Lemma subscribe_then_notify_delivers_one yg c :
  c ∉ window_subscribers yg →
  ∃ yg', handle_packet yg (packet c YUTANI_MSG_SUBSCRIBE) = Some yg'
         ∧ notify_delivered yg' c = 1%nat.
Proof.
  intros Hn. eexists. split.
  - rewrite handle_packet_message. simpl. reflexivity.
  - rewrite notify_delivered_count. simpl. unfold list_h.list_insert.
    rewrite List.filter_app. rewrite (filter_eq_not_elem_of _ _ Hn). simpl.
    by rewrite bool_decide_true.
Qed.

End Claims.

(** ** Windows out of the stacking order *)

Section Unordered.
Context `{YutaniConsts}.
Implicit Types yg : yutani_globals_t.

Lemma same_core_in_tier yg yg' p : same_core yg yg' → in_tier yg' p ↔ in_tier yg p.
Proof. intros Hs. by rewrite <- !tier_count_pos, (same_core_tier_count _ _ _ Hs). Qed.

Lemma tier_or_unordered_same_core yg yg' :
  same_core yg yg' → tier_or_unordered yg → tier_or_unordered yg'.
Proof.
  intros Hs Ht p w' Hl'. destruct (same_core_lookup _ _ _ _ Hs Hl') as (w & Hl & Hc).
  destruct (Ht p w Hl) as [Hin|Hz]; [left; by apply (same_core_in_tier _ _ _ Hs)|right].
  wcore_eq Hc. congruence.
Qed.

(* a step that keeps the z of the records and takes no window out of the order *)
Lemma tier_or_unordered_frame yg yg' :
  tier_or_unordered yg →
  (∀ p w', heap yg' !! p = Some w' →
     in_tier yg' p ∨ ∃ w, heap yg !! p = Some w ∧ window.z w' = window.z w) →
  (∀ p, in_tier yg p → in_tier yg' p) →
  tier_or_unordered yg'.
Proof.
  intros Ht Hh Hin p w' Hl'. destruct (Hh p w' Hl') as [?|(w & Hl & Hz)]; [by left|].
  destruct (Ht p w Hl) as [?|?]; [left; by apply Hin|right; congruence].
Qed.

(** [unorder_window] keeps the property, also when the windows of a set [X]
    are exempt from it: a window that loses its slot to the unordering of
    another one had the z the unordered window carried, which was 0xFFFF. *)
Lemma unorder_window_tier_or_unordered (X : ptr → Prop) yg a yg' :
  zorder_wf yg →
  (∀ wa, heap yg !! a = Some wa → in_tier yg a ∨ window.z wa = uint16 (-1)) →
  (∀ p w, ¬ X p → heap yg !! p = Some w → in_tier yg p ∨ window.z w = uint16 (-1)) →
  unorder_window yg a = Some yg' →
  ∀ p w, ¬ X p → heap yg' !! p = Some w → in_tier yg' p ∨ window.z w = uint16 (-1).
Proof.
  intros Hwf Ha Ht Hu p w HX Hl'.
  pose proof zorder_top_bottom as Htb.
  destruct (unorder_window_inv _ _ _ Hu)
    as (win & Hl & Hh & _ & _ & _ & _ & _ & Hcase).
  rewrite (uint16_id (window.z win) (wf_z _ Hwf a win Hl)) in Hcase.
  rewrite Hh in Hl'. apply list_lookup_insert_Some in Hl' as [(-> & <- & _)|[Hne Hl']].
  { by right. }
  destruct (Ht p w HX Hl') as [Hin|Hz]; [|by right].
  assert (Hza : in_tier yg a → window.z win = YUTANI_ZORDER_BOTTOM → bottom_z yg = Some a).
  { intros [Hb|[Hm|Htp]] Hz; [done| |].
    - destruct (wf_mid _ Hwf a Hm) as (w0 & Hl0 & _ & Hnb). congruence.
    - destruct (wf_top _ Hwf a Htp) as (w0 & Hl0 & Hzt). congruence. }
  assert (Hzt : in_tier yg a → window.z win = YUTANI_ZORDER_TOP → top_z yg = Some a).
  { intros [Hb|[Hm|Htp]] Hz; [| |done].
    - destruct (wf_bottom _ Hwf a Hb) as (w0 & Hl0 & Hzb). congruence.
    - destruct (wf_mid _ Hwf a Hm) as (w0 & Hl0 & Hnt & _). congruence. }
  unfold in_tier in Hin |- *.
  destruct Hcase as [(Hz & -> & -> & ->)|[(_ & Hz & -> & -> & ->)|(Hnb & Hnt & -> & -> & ->)]].
  - destruct Hin as [Hb|[Hm|Htp]]; [|by left; right; left|by left; right; right].
    right. destruct (wf_bottom _ Hwf p Hb) as (w0 & Hl0 & Hzb).
    assert (w0 = w) as -> by congruence.
    destruct (Ha win Hl) as [Hina|Hza']; [|congruence].
    pose proof (Hza Hina Hz). congruence.
  - destruct Hin as [Hb|[Hm|Htp]]; [by left; left|by left; right; left|].
    right. destruct (wf_top _ Hwf p Htp) as (w0 & Hl0 & Hzt').
    assert (w0 = w) as -> by congruence.
    destruct (Ha win Hl) as [Hina|Hza']; [|congruence].
    pose proof (Hzt Hina Hz). congruence.
  - left. destruct Hin as [Hb|[Hm|Htp]]; [by left| |by right; right].
    right; left. destruct (list_h.list_find (mid_zs yg) a) as [n|] eqn:En; [|done].
    eapply list_h_delete_elem_of_ne; [by apply list_h_find_lookup|done|done].
Qed.

Lemma unorder_window_keeps_unordered yg a yg' :
  zorder_wf yg → tier_or_unordered yg → unorder_window yg a = Some yg' →
  tier_or_unordered yg'.
Proof.
  intros Hwf Ht Hu p w Hl.
  eapply (unorder_window_tier_or_unordered (λ _, False)); eauto.
Qed.

Lemma reorder_window_tier_or_unordered yg w new_zed yg' :
  zorder_wf yg → tier_or_unordered yg →
  reorder_window yg (Some w) new_zed = Some yg' → tier_or_unordered yg'.
Proof.
  intros Hwf Ht Hr. pose proof zorder_top_bottom as Htb.
  unfold reorder_window in Hr.
  apply bind_Some in Hr as (yg1 & Hu1 & Hr).
  apply bind_Some in Hr as (win1 & Hl1 & Hr).
  destruct (unorder_window_zorder_wf _ _ _ Hwf Hu1) as (Hwf1 & Hnt1 & _).
  pose proof (unorder_window_keeps_unordered _ _ _ Hwf Ht Hu1) as Ht1.
  set (yg2 := store yg1 w (window.set_z (uint16 new_zed) win1)) in Hr.
  assert (Hwf2 : zorder_wf yg2)
    by (apply zorder_wf_store_z; [done..|apply uint16_range]).
  assert (Hl2 : heap yg2 !! w
                = Some (window.set_z (uint16 new_zed) win1)).
  { unfold yg2, store. cbn [heap set_heap]. apply list_lookup_insert_eq.
    by eapply lookup_lt_Some. }
  assert (Ht2 : ∀ p v, ¬ (p = w) → heap yg2 !! p = Some v →
                  in_tier yg2 p ∨ window.z v = uint16 (-1)).
  { intros p v Hne Hl. unfold yg2, store in Hl. cbn [heap set_heap] in Hl.
    rewrite list_lookup_insert_ne in Hl by done. exact (Ht1 p v Hl). }
  assert (Hnt2 : ¬ in_tier yg2 w) by exact Hnt1.
  (* the slot that [w] takes is free once its holder is unordered *)
  assert (Hslot : ∀ (slot : option ptr) yg3,
            (slot = top_z yg2 ∨ slot = bottom_z yg2) →
            match slot with Some t => unorder_window yg2 t | None => Some yg2 end
            = Some yg3 →
            (∀ p v, p ≠ w → heap yg3 !! p = Some v →
               in_tier yg3 p ∨ window.z v = uint16 (-1))
            ∧ (slot = top_z yg2 → top_z yg3 = None)
            ∧ (slot = bottom_z yg2 → bottom_z yg3 = None)).
  { intros slot yg3 Hs Hu3. destruct slot as [t|].
    - assert (in_tier yg2 t) as Hint
        by (destruct Hs as [Hs|Hs]; [right; right|left]; by rewrite <- Hs).
      split.
      { intros p v Hne. eapply (unorder_window_tier_or_unordered (λ q, q = w)); eauto. }
      destruct (unorder_window_inv _ _ _ Hu3)
        as (tw & Hlt & _ & _ & _ & _ & _ & _ & Hcase).
      rewrite (uint16_id (window.z tw) (wf_z _ Hwf2 t tw Hlt)) in Hcase.
      split; intros Hs'; symmetry in Hs'.
      + destruct (wf_top _ Hwf2 t Hs') as (tw' & Hlt' & Hz).
        assert (tw' = tw) as -> by congruence.
        destruct Hcase as [(Hzb & _)|[(_ & _ & Htop & _)|(_ & Hnt & _)]];
          [congruence|done|congruence].
      + destruct (wf_bottom _ Hwf2 t Hs') as (tw' & Hlt' & Hz).
        assert (tw' = tw) as -> by congruence.
        destruct Hcase as [(_ & Hbot & _)|[(Hnb & _)|(Hnb & _)]];
          [done|congruence|congruence].
    - injection Hu3 as <-. split; [exact Ht2|]. split; intros <-; done. }
  repeat case_decide.
  - (* the middle sequence *)
    injection Hr as <-. intros p v Hl.
    change (heap (set_mid_zs (list_h.list_insert (mid_zs yg2) w) yg2)) with (heap yg2) in Hl.
    destruct (decide (p = w)) as [->|Hne].
    + left. right; left. cbn. unfold list_h.list_insert. apply elem_of_app. right.
      by apply list_elem_of_singleton.
    + destruct (Ht2 p v Hne Hl) as [[?|[?|?]]|?]; [left; by left| |left; by right; right|by right].
      left. right; left. cbn. unfold list_h.list_insert. apply elem_of_app. by left.
  - (* the TOP slot *)
    apply bind_Some in Hr as (yg3 & Hu3 & [= <-]).
    destruct (Hslot (top_z yg2) yg3 (or_introl eq_refl) Hu3) as (Ht3 & Htop & _).
    specialize (Htop eq_refl).
    intros p v Hl. change (heap (set_top_z (Some w) yg3)) with (heap yg3) in Hl.
    destruct (decide (p = w)) as [->|Hne]; [left; by right; right|].
    destruct (Ht3 p v Hne Hl) as [[?|[?|?]]|?];
      [left; by left|left; by right; left|congruence|by right].
  - (* the BOTTOM slot *)
    apply bind_Some in Hr as (yg3 & Hu3 & [= <-]).
    destruct (Hslot (bottom_z yg2) yg3 (or_intror eq_refl) Hu3) as (Ht3 & _ & Hbot).
    specialize (Hbot eq_refl).
    intros p v Hl. change (heap (set_bottom_z (Some w) yg3)) with (heap yg3) in Hl.
    destruct (decide (p = w)) as [->|Hne]; [left; by left|].
    destruct (Ht3 p v Hne Hl) as [[?|[?|?]]|?];
      [congruence|left; by right; left|left; by right; right|by right].
  - exfalso. tauto.
Qed.

Lemma server_window_create_tier_or_unordered yg width height owner :
  tier_or_unordered yg →
  tier_or_unordered (server_window_create yg width height owner).2.
Proof.
  intros Ht.
  destruct (server_window_create_inv yg width height owner)
    as (w & Hp & Hh & _ & _ & _ & _ & _ & _ & _ & _ & Hmid & Htop & Hbot & _).
  intros p v Hl. rewrite Hh in Hl. apply lookup_snoc_inv in Hl as [Hl|[-> _]].
  - destruct (Ht p v Hl) as [[?|[?|?]]|?]; [| | |by right]; left; unfold in_tier.
    + left. congruence.
    + right; left. rewrite Hmid. apply elem_of_app. by left.
    + right; right. congruence.
  - left. right; left. rewrite Hmid. apply elem_of_app. right.
    by apply list_elem_of_singleton.
Qed.

Lemma server_window_resize_tier_or_unordered yg p width height id yg' :
  tier_or_unordered yg → server_window_resize yg p width height = Some (id, yg') →
  tier_or_unordered yg'.
Proof.
  intros Ht Hr.
  destruct (server_window_resize_inv _ _ _ _ _ _ Hr)
    as (w & Hl & [(_ & _ & ->)|(_ & _ & Hh & Hmid & Htop & Hbot & _)]); [done|].
  apply (tier_or_unordered_frame yg); [done| |].
  - intros q v Hq. right. rewrite Hh in Hq.
    apply list_lookup_insert_Some in Hq as [(-> & <- & _)|[_ Hq]]; eauto.
  - intros q. unfold in_tier. by rewrite Hmid, Htop, Hbot.
Qed.

Lemma server_window_resize_finish_tier_or_unordered yg p width height yg' :
  tier_or_unordered yg → server_window_resize_finish yg p width height = Some yg' →
  tier_or_unordered yg'.
Proof.
  intros Ht Hr.
  destruct (server_window_resize_finish_inv _ _ _ _ _ Hr)
    as (w & Hl & [(_ & ->)|(_ & yg1 & Hm1 & Hm2)]); [done|].
  pose proof (mark_window_heap _ _ _ Hm1) as Hh1.
  eapply tier_or_unordered_same_core; [by eapply same_core_mark_window|].
  apply (tier_or_unordered_frame yg1).
  - eapply tier_or_unordered_same_core; [by eapply same_core_mark_window|done].
  - intros q v Hq. right. unfold resize_promote, store in Hq.
    cbn [heap set_heap syscall_shm_release set_shm] in Hq.
    rewrite list_insert_insert_eq in Hq.
    apply list_lookup_insert_Some in Hq as [(-> & <- & _)|[_ Hq]]; [|eauto].
    exists w. split; [by rewrite Hh1|done].
  - intros q Hq. exact Hq.
Qed.

Lemma window_actually_close_tier_or_unordered yg a yg' :
  zorder_wf yg → tier_or_unordered yg → window_actually_close yg a = Some yg' →
  tier_or_unordered yg'.
Proof.
  intros Hwf Ht Hc. unfold window_actually_close in Hc.
  apply bind_Some in Hc as (win & Hl & Hc).
  apply bind_Some in Hc as (yg1 & Hu & Hc).
  apply bind_Some in Hc as (yg2 & Hmk & [= <-]).
  eapply tier_or_unordered_same_core; [apply same_core_notify_subscribers|].
  assert (tier_or_unordered yg2) as Ht2.
  { eapply tier_or_unordered_same_core; [by eapply same_core_mark_window|].
    eapply unorder_window_keeps_unordered; [| |exact Hu].
    - destruct (zorder_wf_forget_wid yg (window.wid win) Hwf). by split.
    - exact Ht. }
  case_decide; exact Ht2.
Qed.

Lemma redraw_windows_tier_or_unordered yg yg' :
  registry_wf yg → tier_or_unordered yg → redraw_windows yg = Some yg' →
  tier_or_unordered yg'.
Proof.
  intros Hwf Ht. unfold redraw_windows. intros Hm.
  apply bind_Some in Hm as (yg1 & H1 & Hm).
  apply bind_Some in Hm as (yg2 & H2 & Hm).
  apply bind_Some in Hm as (yg3 & H3 & Hm).
  apply (same_core_foreach _ _ same_core_mark_if_animated) in H1, H2, H3.
  assert (same_core yg yg3) as Hs3.
  { etrans; [|exact H3]. etrans; [|exact H2]. etrans; [|exact H1]. by repeat split. }
  case_decide; simplify_eq.
  { eapply tier_or_unordered_same_core; [|exact Ht]. etrans; [exact Hs3|by repeat split]. }
  apply bind_Some in Hm as (st1 & Hb1 & Hm).
  apply bind_Some in Hm as (st2 & Hb2 & Hm).
  apply bind_Some in Hm as (st3 & Hb3 & Hm).
  apply bind_Some in Hm as (box & _ & Hm).
  apply bind_Some in Hm as (shapes & _ & Hm).
  apply same_core_blit_all in Hb1, Hb2, Hb3. simpl in Hb1.
  assert (same_core yg st3.1) as Hs.
  { etrans; [exact Hs3|]. etrans; [|exact Hb3]. etrans; [|exact Hb2].
    etrans; [|exact Hb1]. by repeat split. }
  refine (proj2 (foreach_preserves (λ s, registry_wf s ∧ tier_or_unordered s) _ _ _
                   st3.1 yg' _ Hm)).
  - intros s v s' [Hw' Ht'] Hc. split; [by eapply window_actually_close_registry_wf|].
    eapply window_actually_close_tier_or_unordered; [apply Hw'|done|done].
  - split; [by eapply same_core_registry_wf|by eapply tier_or_unordered_same_core].
Qed.

Lemma handle_message_tier_or_unordered yg source m yg' :
  registry_wf yg → tier_or_unordered yg → handle_message yg source m = Some yg' →
  tier_or_unordered yg'.
Proof.
  intros Hwf Ht Hm.
  assert (Hsc : ∀ yg1, same_core yg yg1 → tier_or_unordered yg1)
    by (intros yg1 Hs; by eapply tier_or_unordered_same_core).
  destruct m; unfold handle_message in Hm;
    try (injection Hm as Hm; match type of Hm with yg = yg' => subst yg'; exact Ht end).
  - (* HELLO *) simplify_eq. apply Hsc, same_core_pex_send.
  - (* WINDOW_NEW *)
    match type of Hm with context [server_window_create yg ?wd ?ht source] =>
      pose proof (server_window_create_tier_or_unordered yg wd ht source Ht) as Hc;
      destruct (server_window_create yg wd ht source) as [w yg1]
    end.
    apply bind_Some in Hm as (win & _ & [= <-]).
    eapply tier_or_unordered_same_core; [apply same_core_notify_subscribers|].
    eapply tier_or_unordered_same_core; [apply same_core_pex_send|].
    exact Hc.
  - (* FLIP *)
    destruct (wids_to_windows yg !! wid); simplify_eq; [|done].
    by eapply Hsc, same_core_mark_window.
  - (* FLIP_REGION *)
    destruct (wids_to_windows yg !! wid); simplify_eq; [|done].
    by eapply Hsc, same_core_mark_window_relative.
  - (* KEY_EVENT *) by eapply Hsc, same_core_handle_key_event.
  - (* MOUSE_EVENT *) by eapply Hsc, same_core_handle_mouse_event.
  - (* WINDOW_MOVE *)
    destruct (wids_to_windows yg !! wid); simplify_eq; [|done].
    apply Hsc. break_all. sc.
  - (* WINDOW_CLOSE *)
    destruct (wids_to_windows yg !! wid); simplify_eq; [|done].
    apply bind_Some in Hm as (yg1 & H1 & Hm). apply Hsc.
    etrans; [by eapply same_core_window_mark_for_close
            |by eapply same_core_window_remove_from_client].
  - (* WINDOW_STACK *)
    destruct (wids_to_windows yg !! wid) as [w|] eqn:Ew; simplify_eq; [|done].
    eapply reorder_window_tier_or_unordered; [apply Hwf|done|done].
  - (* RESIZE_REQUEST *)
    destruct (wids_to_windows yg !! wid); simplify_eq; [|done].
    apply bind_Some in Hm as (win & _ & [= <-]). apply Hsc, same_core_pex_send.
  - (* RESIZE_OFFER *)
    destruct (wids_to_windows yg !! wid); simplify_eq; [|done].
    apply bind_Some in Hm as (win & _ & [= <-]). apply Hsc, same_core_pex_send.
  - (* RESIZE_ACCEPT *)
    destruct (wids_to_windows yg !! wid); simplify_eq; [|done].
    apply bind_Some in Hm as ([id yg1] & Hr & Hm).
    apply bind_Some in Hm as (win & _ & [= <-]).
    eapply tier_or_unordered_same_core; [apply same_core_pex_send|].
    by eapply server_window_resize_tier_or_unordered.
  - (* RESIZE_DONE *)
    destruct (wids_to_windows yg !! wid); simplify_eq; [|done].
    by eapply server_window_resize_finish_tier_or_unordered.
  - (* QUERY_WINDOWS *)
    apply bind_Some in Hm as (yg1 & H1 & Hm).
    apply bind_Some in Hm as (yg2 & H2 & Hm).
    apply bind_Some in Hm as (yg3 & H3 & [= <-]).
    apply Hsc. etrans; [|apply same_core_pex_send].
    etrans; [exact (same_core_yutani_query_result _ _ _ _ H1)|].
    etrans; [|exact (same_core_yutani_query_result _ _ _ _ H3)].
    eapply same_core_foreach; [|exact H2].
    intros ? ? ? Hq. exact (same_core_yutani_query_result _ _ _ _ Hq).
  - (* WINDOW_ADVERTISE *)
    destruct (wids_to_windows yg !! wid); simplify_eq; [|done].
    apply bind_Some in Hm as (win & Hl & [= <-]). apply Hsc.
    etrans; [|apply same_core_notify_subscribers]. by eapply same_core_store.
  - (* SUBSCRIBE *) simplify_eq. apply Hsc. by repeat split.
  - (* UNSUBSCRIBE *)
    destruct (list_h.list_find _ _); simplify_eq; [|done]. apply Hsc. by repeat split.
  - (* SESSION_END *) simplify_eq. apply Hsc. by repeat split.
  - (* WINDOW_FOCUS *)
    destruct (wids_to_windows yg !! wid); simplify_eq; [|done].
    by eapply Hsc, same_core_set_focused_window.
  - (* KEY_BIND *) simplify_eq. apply Hsc, same_core_add_key_bind.
  - (* WINDOW_DRAG_START *)
    destruct (wids_to_windows yg !! wid); simplify_eq; [|done].
    by eapply Hsc, same_core_mouse_start_drag.
  - (* WINDOW_UPDATE_SHAPE *)
    destruct (wids_to_windows yg !! wid); simplify_eq; [|done].
    by eapply Hsc, same_core_server_window_update_shape.
Qed.

Lemma step_tier_or_unordered yg yg' :
  registry_wf yg → tier_or_unordered yg → step yg yg' → tier_or_unordered yg'.
Proof.
  intros Hwf Ht Hs. destruct Hs as [yg p yg' Hp|yg yg' Hr|yg key region pixels Hk].
  - unfold handle_packet in Hp. repeat case_decide.
    + destruct (clients_to_windows yg !! source p) as [cl|]; simplify_eq; [|done].
      apply bind_Some in Hp as (yg1 & H1 & Hp). injection Hp as <-.
      eapply tier_or_unordered_same_core; [|exact Ht].
      transitivity yg1; [|by repeat split].
      eapply same_core_foreach; [|exact H1].
      intros ? ? ? Hc. exact (same_core_window_mark_for_close _ _ _ Hc).
    + by simplify_eq.
    + by eapply handle_message_tier_or_unordered.
  - by eapply redraw_windows_tier_or_unordered.
  - eapply tier_or_unordered_same_core; [|exact Ht]. by apply same_core_client_draw.
Qed.

Lemma reachable_tier_or_unordered yg : reachable yg → tier_or_unordered yg.
Proof.
  intros (dw & dh & Hr).
  enough (registry_wf yg ∧ tier_or_unordered yg) as [_ ?] by done.
  refine (rtc_ind_r (λ s, registry_wf s ∧ tier_or_unordered s) _ _ _ _ Hr).
  - split; [apply registry_wf_init|]. by intros p w Hl.
  - intros y z _ Hs [Hy Ht]. split; [exact (step_registry_wf _ _ Hy Hs)|].
    exact (step_tier_or_unordered _ _ Hy Ht Hs).
Qed.

(** C1 (as amended): in every state the compositor can reach, a window
    registered in the wid lookup has a record, which carries its wid, and is
    a member of exactly one of the three stacking tiers (bottom_z, the
    mid_zs sequence, top_z), unless its z field holds 0xFFFF, the value
    [unorder_window] writes into a window it takes out of the order: then
    the window may also be in no tier.  No registered window is in two
    tiers. *)
Theorem C1_registered_window_in_one_tier_or_unordered yg wid p :
  reachable yg → wids_to_windows yg !! wid = Some p →
  ∃ w, heap yg !! p = Some w ∧ window.wid w = wid
     ∧ (tier_count yg p = 1%nat
        ∨ (tier_count yg p = 0%nat ∧ window.z w = uint16 (-1))).
Proof.
  intros Hr Hw. pose proof (reachable_registry_wf _ Hr) as Hwf.
  destruct (wf_wids _ (rwf_zorder _ Hwf) _ _ Hw) as (w & Hl & Hwid).
  exists w. split; [done|]. split; [done|].
  destruct (reachable_tier_or_unordered _ Hr p w Hl) as [Hin|Hz].
  - left. by apply in_tier_tier_count_1; [apply Hwf|].
  - pose proof (zorder_wf_tier_count_le yg p (rwf_zorder _ Hwf)).
    destruct (tier_count yg p) as [|[|n]] eqn:E; [right; done|by left|lia].
Qed.

End Unordered.

Section Handshake.
Context `{YutaniConsts}.
Implicit Types yg : yutani_globals_t.

Lemma mark_window_Some yg p w :
  heap yg !! p = Some w →
  ∃ r, mark_window yg p
       = Some (set_update_list (list_h.list_insert (update_list yg) r) yg).
Proof. intros Hl. unfold mark_window. rewrite Hl. simpl. eauto. Qed.

Lemma is_Some_dom (m : gmap Z shm_region) k : is_Some (m !! k) ↔ k ∈ dom m.
Proof. symmetry. apply elem_of_dom. Qed.

Lemma same_core_dom yg yg' : same_core yg yg' → dom (shm yg') = dom (shm yg).
Proof. by intros (_&_&_&_&_&->&_). Qed.

Lemma same_core_wids yg yg' :
  same_core yg yg' → wids_to_windows yg' = wids_to_windows yg.
Proof. by intros (_&_&_&_&->&_). Qed.

(** C4: in a reachable state, for a registered window, RESIZE_ACCEPT for
    size (W, H) is answered by a RESIZE_BUFID carrying a nonzero buffer id
    (a freshly allocated one when no handshake was pending); after the
    following RESIZE_DONE the window has width W and height H, its bufid and
    mapped buffer are the announced ones, newbufid is 0 and newbuffer NULL
    again, and the region of the old buffer is no longer held. *)
Theorem C4_resize_handshake yg source wid W Ht b1 b2 p w :
  reachable yg → wids_to_windows yg !! wid = Some p → heap yg !! p = Some w →
  ∃ id yg1 yg2 w2,
    handle_packet yg (packet source (YUTANI_MSG_RESIZE_ACCEPT wid W Ht b1)) = Some yg1
    ∧ outbox yg1 = outbox yg ++ [Pex_send source (YUTANI_MSG_RESIZE_BUFID wid W Ht id)]
    ∧ id ≠ 0
    ∧ (window.newbufid w = 0 → id = next_buf_id_static yg)
    ∧ handle_packet yg1 (packet source (YUTANI_MSG_RESIZE_DONE wid W Ht b2)) = Some yg2
    ∧ heap yg2 !! p = Some w2
    ∧ window.width w2 = W ∧ window.height w2 = Ht
    ∧ window.bufid w2 = id ∧ window.buffer w2 = Some id ∧ is_Some (shm yg2 !! id)
    ∧ window.newbufid w2 = 0 ∧ window.newbuffer w2 = None
    ∧ id ≠ window.bufid w ∧ shm yg2 !! window.bufid w = None.
Proof.
  intros Hr Hw Hl. pose proof (reachable_registry_wf _ Hr) as Hwf.
  destruct (wf_wids _ (rwf_zorder _ Hwf) _ _ Hw) as (w0 & Hl0 & Hwid).
  assert (w0 = w) as -> by congruence.
  assert (Hlen : (p < length (heap yg))%nat) by (by eapply lookup_lt_Some).
  (* the ACCEPT *)
  assert (∃ id yg_r w_r,
    server_window_resize yg p W Ht = Some (id, yg_r)
    ∧ heap yg_r !! p = Some w_r ∧ window.newbufid w_r = id
    ∧ window.bufid w_r = window.bufid w ∧ window.wid w_r = window.wid w
    ∧ wids_to_windows yg_r = wids_to_windows yg ∧ outbox yg_r = outbox yg
    ∧ (window.newbufid w = 0 → id = next_buf_id_static yg)
    ∧ id ≠ 0) as (id & yg_r & w_r & Hres & Hl_r & Hnew_r & Hbuf_r & Hwid_r & Hwids_r & Hout_r
                  & Hfresh & Hnz).
  { unfold server_window_resize. rewrite Hl. simpl.
    destruct (decide (window.newbufid w ≠ 0)) as [Hp|Hp].
    - exists (window.newbufid w), yg, w. split; [done|]. split_and!; try done.
    - eexists _, _, (window.set_newbuffer (Some (next_buf_id_static yg))
                       (window.set_newbufid (next_buf_id_static yg) w)).
      unfold next_buf_id; simpl. split; [done|].
      split_and!; try done.
      + unfold store; simpl. by apply list_lookup_insert_eq.
      + pose proof (rwf_next_buf _ Hwf). simpl. lia. }
  set (yg1 := pex_send yg_r source (YUTANI_MSG_RESIZE_BUFID wid W Ht id)).
  assert (Hacc : handle_packet yg (packet source (YUTANI_MSG_RESIZE_ACCEPT wid W Ht b1))
                 = Some yg1).
  { rewrite handle_packet_message. unfold handle_message. rewrite Hw, Hres. simpl.
    rewrite Hl_r. simpl. by rewrite Hwid_r, Hwid. }
  assert (Hwf1 : registry_wf yg1) by (by eapply handle_packet_registry_wf).
  assert (Hl1 : heap yg1 !! p = Some w_r) by exact Hl_r.
  assert (Hw1 : wids_to_windows yg1 !! wid = Some p) by (unfold yg1; simpl; by rewrite Hwids_r).
  destruct (rwf_buf_range _ Hwf1 p w_r Hl1) as (_ & _ & Hne_r).
  destruct (rwf_mapped _ Hwf1 p w_r Hl1) as (_ & _ & Hmap_r).
  { by rewrite Hwid_r, Hwid. }
  destruct Hmap_r as [Hnb_r Hshm_r]; [by rewrite Hnew_r|].
  (* the DONE *)
  destruct (mark_window_Some yg1 p w_r Hl1) as (r1 & Hm1).
  set (yga := set_update_list (list_h.list_insert (update_list yg1) r1) yg1) in *.
  set (ygb := resize_promote yga p w_r W Ht).
  set (w2 := window.set_newbuffer None
               (window.set_buffer (window.newbuffer w_r)
                  (window.set_newbufid 0
                     (window.set_bufid (window.newbufid w_r)
                        (window.set_height Ht (window.set_width W w_r)))))).
  assert (Hlb : heap ygb !! p = Some w2).
  { unfold ygb, resize_promote, store; simpl. rewrite list_insert_insert_eq.
    apply list_lookup_insert_eq. by eapply lookup_lt_Some. }
  destruct (mark_window_Some ygb p w2 Hlb) as (r2 & Hm2).
  set (yg2 := set_update_list (list_h.list_insert (update_list ygb) r2) ygb) in *.
  assert (Hdone : handle_packet yg1 (packet source (YUTANI_MSG_RESIZE_DONE wid W Ht b2))
                  = Some yg2).
  { rewrite handle_packet_message. unfold handle_message. rewrite Hw1.
    unfold server_window_resize_finish. rewrite Hl1. simpl.
    rewrite decide_False by (by rewrite Hnew_r).
    rewrite Hm1. simpl. exact Hm2. }
  exists id, yg1, yg2, w2. split_and!; try done.
  - unfold yg1; simpl. by rewrite Hout_r.
  - simpl. by rewrite Hnb_r, Hnew_r.
  - change (shm yg2) with (delete (window.bufid w_r) (shm yg1)).
    rewrite lookup_delete_ne; [by rewrite <- Hnew_r|]. rewrite <- Hnew_r. congruence.
  - rewrite <- Hbuf_r, <- Hnew_r. done.
  - change (shm yg2) with (delete (window.bufid w_r) (shm yg1)).
    rewrite Hbuf_r. apply lookup_delete_eq.
Qed.

(** C5 (the code at the failing input): in a reachable state, closing a
    registered window whose resize handshake is pending (newbufid nonzero)
    succeeds, unregisters the window and releases the region of its active
    buffer, but the region of the new buffer is still held afterwards and
    the window record still points at it. *)
Theorem C5_close_during_resize_keeps_new_buffer yg wid p w :
  reachable yg → wids_to_windows yg !! wid = Some p → heap yg !! p = Some w →
  window.newbufid w ≠ 0 →
  ∃ yg' w',
    window_actually_close yg p = Some yg'
    ∧ wids_to_windows yg' !! wid = None
    ∧ shm yg' !! window.bufid w = None
    ∧ is_Some (shm yg' !! window.newbufid w)
    ∧ heap yg' !! p = Some w'
    ∧ window.newbufid w' = window.newbufid w
    ∧ window.newbuffer w' = Some (window.newbufid w).
Proof.
  intros Hr Hw Hl Hnz. pose proof (reachable_registry_wf _ Hr) as Hwf.
  destruct (wf_wids _ (rwf_zorder _ Hwf) _ _ Hw) as (w0 & Hl0 & Hwid).
  assert (w0 = w) as -> by congruence.
  destruct (rwf_buf_range _ Hwf p w Hl) as (_ & _ & Hne).
  destruct (rwf_mapped _ Hwf p w Hl) as (_ & _ & Hmap); [by rewrite Hwid|].
  destruct (Hmap Hnz) as [Hnb Hshm].
  set (yga := set_windows
                (list_h.list_remove (windows yg) (list_h.list_index_of (windows yg) p))
                (set_wids_to_windows (delete (window.wid w) (wids_to_windows yg)) yg)).
  destruct (unorder_window_is_Some yga p w Hl) as [yg1 Hu].
  pose proof (unorder_window_heap_eq _ _ _ _ Hu Hl) as Hl1.
  destruct (unorder_window_inv _ _ _ Hu) as (_ & _ & _ & Hwids1 & Hshm1 & _).
  destruct (mark_window_Some yg1 p _ Hl1) as (r1 & Hm1).
  eexists _, _. split.
  { unfold window_actually_close. rewrite Hl. simpl. fold yga. rewrite Hu. simpl.
    rewrite Hm1. simpl. reflexivity. }
  assert (Hdom : ∀ yg0, dom (shm (notify_subscribers yg0)) = dom (shm yg0)).
  { intros yg0. apply same_core_dom, same_core_notify_subscribers. }
  assert (Hwd : ∀ yg0, wids_to_windows (notify_subscribers yg0) = wids_to_windows yg0).
  { intros yg0. apply same_core_wids, same_core_notify_subscribers. }
  assert (Hhp : ∀ yg0, heap (notify_subscribers yg0) = heap yg0).
  { intros yg0. unfold notify_subscribers. generalize (window_subscribers yg0).
    intros l. revert yg0. induction l as [|c l IH]; intros yg0; simpl; [done|].
    by rewrite IH. }
  split_and!.
  - rewrite Hwd. case_decide; simpl; rewrite Hwids1; simpl; rewrite Hwid;
      apply lookup_delete_eq.
  - apply not_elem_of_dom. rewrite Hdom. case_decide; simpl; rewrite Hshm1; simpl;
      rewrite dom_delete_L; set_solver.
  - apply is_Some_dom. rewrite Hdom.
    apply is_Some_dom in Hshm.
    case_decide; simpl; rewrite Hshm1; simpl; rewrite dom_delete_L; set_solver.
  - rewrite Hhp. case_decide; simpl; exact Hl1.
  - done.
  - done.
Qed.

End Handshake.

Section HitTest.
Context `{YutaniConsts}.
Implicit Types yg : yutani_globals_t.

Lemma elem_of_option_list_iff {A} (o : option A) (a : A) :
  a ∈ option_list o ↔ o = Some a.
Proof.
  destruct o as [b|]; unfold option_list, option_rect.
  - rewrite list_elem_of_singleton. split; congruence.
  - split; [by intros ?%elem_of_nil|done].
Qed.

Lemma in_tier_buffer_mapped yg p : registry_wf yg → in_tier yg p → buffer_mapped yg p.
Proof.
  intros Hwf Hin%tier_count_pos.
  destruct (rwf_tier_live _ Hwf p Hin) as (w & Hl & Hk).
  destruct (rwf_mapped _ Hwf p w Hl Hk) as (Hb & [r Hr] & _).
  by exists w, (window.bufid w), r.
Qed.

Lemma device_to_window_Some yg p w x y out :
  heap yg !! p = Some w → is_Some (device_to_window yg (Some p) x y out).
Proof.
  intros Hl. unfold device_to_window. rewrite Hl. simpl. case_decide; eauto.
Qed.

(* inside the rectangle of a window whose buffer holds width x height
   pixels, the pixel is inside the buffer *)
Lemma surface_backed_read_pixel yg w wx wy :
  surface_backed yg w = true →
  0 <= wx < window.width w → 0 <= wy < window.height w →
  is_Some (read_pixel yg w (window.width w * wy + wx)).
Proof.
  unfold surface_backed, read_pixel. intros Hs Hx Hy.
  destruct (window.buffer w) as [b|]; cbn [mbind option_bind] in *; [|done].
  destruct (shm yg !! b) as [r|]; cbn [mbind option_bind] in *; [|done].
  apply bool_decide_eq_true in Hs.
  assert (0 <= window.width w * wy) by (apply Z.mul_nonneg_nonneg; lia).
  assert (window.width w * (wy + 1) <= window.width w * window.height w)
    as Hrow by (apply Z.mul_le_mono_nonneg_l; lia).
  rewrite Z.mul_add_distr_l, Z.mul_1_r in Hrow.
  rewrite decide_True; [eauto|]. lia.
Qed.

(** What [check_top_at] answers, when it answers, is the verdict of
    [hit_test]. *)
Lemma check_top_at_sound yg p x y r :
  check_top_at yg (Some p) x y = Some r →
  r = if hit_test yg x y p then Some p else None.
Proof.
  unfold check_top_at, hit_test. intros Hm.
  apply bind_Some in Hm as (w & Hl & Hm). rewrite Hl.
  apply bind_Some in Hm as (c & Hc & Hm). rewrite Hc.
  destruct (decide (c.1 < 0 ∨ c.1 >= window.width w ∨ c.2 < 0 ∨ c.2 >= window.height w))
    as [Hout|Hin].
  - rewrite bool_decide_false by lia. by injection Hm as <-.
  - rewrite bool_decide_true by lia. cbn [andb].
    apply bind_Some in Hm as (px & Hpx & Hm).
    unfold pixel_alpha. rewrite Hpx.
    cbn [fmap option_fmap option_map default]. unfold id.
    destruct (decide (_ALP px >= window.alpha_threshold w)) as [Ha|Ha].
    + rewrite bool_decide_true by lia. by injection Hm as <-.
    + rewrite bool_decide_false by lia. by injection Hm as <-.
Qed.

(** It answers for a window whose buffer holds width x height pixels. *)
Lemma check_top_at_backed yg p w x y :
  heap yg !! p = Some w → surface_backed yg w = true →
  is_Some (check_top_at yg (Some p) x y).
Proof.
  intros Hl Hs. unfold check_top_at. rewrite Hl. cbn [mbind option_bind].
  destruct (device_to_window_Some yg p w x y (-1, -1) Hl) as [c Hc].
  rewrite Hc. cbn [mbind option_bind].
  destruct (decide (c.1 < 0 ∨ c.1 >= window.width w ∨ c.2 < 0 ∨ c.2 >= window.height w))
    as [Hout|Hin]; [eauto|].
  destruct (surface_backed_read_pixel yg w c.1 c.2 Hs) as [px Hpx]; [lia..|].
  rewrite Hpx. cbn [mbind option_bind]. case_decide; eauto.
Qed.

Lemma elem_of_back_to_front yg p : p ∈ back_to_front yg ↔ in_tier yg p.
Proof.
  unfold back_to_front, in_tier. rewrite !elem_of_app, !elem_of_option_list_iff.
  tauto.
Qed.

Lemma buffers_fit_backed yg p : buffers_fit yg → in_tier yg p → backed yg p.
Proof.
  unfold buffers_fit. rewrite forallb_forall. intros Hf Hin.
  specialize (Hf p). rewrite <- list_elem_of_In, elem_of_back_to_front in Hf.
  specialize (Hf Hin). unfold backed. destruct (heap yg !! p) as [w|]; [|done]. by exists w.
Qed.

Lemma check_top_at_hit_test yg p x y :
  backed yg p →
  check_top_at yg (Some p) x y = Some (if hit_test yg x y p then Some p else None).
Proof.
  intros (w & Hl & Hs).
  destruct (check_top_at_backed yg p w x y Hl Hs) as [r Hr].
  by rewrite Hr, (check_top_at_sound _ _ _ _ _ Hr).
Qed.

Lemma top_at_mid_find yg nodes x y :
  (∀ p, p ∈ nodes → backed yg p) →
  top_at_mid yg nodes x y = Some (List.find (hit_test yg x y) nodes).
Proof.
  induction nodes as [|p nodes IH]; intros Hm; cbn [top_at_mid List.find]; [done|].
  rewrite check_top_at_hit_test by (apply Hm; left). cbn [mbind option_bind].
  destruct (hit_test yg x y p); [done|].
  apply IH. intros q Hq. apply Hm. by right.
Qed.

Lemma check_top_at_slot yg (slot : option ptr) x y :
  (∀ p, slot = Some p → backed yg p) →
  check_top_at yg slot x y = Some (List.find (hit_test yg x y) (option_list slot)).
Proof.
  intros Hm. destruct slot as [p|]; [|reflexivity].
  rewrite check_top_at_hit_test by (by apply Hm).
  unfold option_list, option_rect. cbn [List.find].
  destruct (hit_test yg x y p); reflexivity.
Qed.

Lemma find_app_first {A} (f : A → bool) (l1 l2 : list A) :
  List.find f (l1 ++ l2)
  = match List.find f l1 with Some a => Some a | None => List.find f l2 end.
Proof.
  induction l1 as [|a l1 IH]; simpl; [done|]. by destruct (f a).
Qed.

Lemma find_option_list_Some {A} (f : A → bool) (slot : option A) a :
  List.find f (option_list slot) = Some a → slot = Some a.
Proof.
  destruct slot as [b|]; unfold option_list, option_rect; cbn [List.find]; [|done].
  destruct (f b); [|done]. congruence.
Qed.

(** The hit test of [top_at] is the search of [top_at_spec] as soon as the
    buffers of the stacked windows hold their pixels. *)
Lemma top_at_fit yg x y :
  buffers_fit yg →
  top_at yg x y = Some (top_at_spec yg (uint16 x) (uint16 y)).
Proof.
  intros Hf.
  unfold top_at, top_at_spec, z_order_candidates.
  rewrite (check_top_at_slot yg (top_z yg)).
  2:{ intros p Hp. apply buffers_fit_backed; [done|]. right; by right. }
  cbn [mbind option_bind]. rewrite !find_app_first.
  destruct (List.find _ (option_list (top_z yg))) as [t|] eqn:Et.
  { by rewrite (find_option_list_Some _ _ _ Et). }
  rewrite top_at_mid_find.
  2:{ intros p Hp. rewrite elem_of_reverse in Hp.
      apply buffers_fit_backed; [done|]. right; by left. }
  cbn [mbind option_bind].
  destruct (List.find _ (reverse (mid_zs yg))) as [m|] eqn:Em; [done|].
  rewrite (check_top_at_slot yg (bottom_z yg)).
  2:{ intros p Hp. apply buffers_fit_backed; [done|]. by left. }
  cbn [mbind option_bind].
  destruct (List.find _ (option_list (bottom_z yg))) as [b|] eqn:Eb; [|done].
  by rewrite (find_option_list_Some _ _ _ Eb).
Qed.

Lemma top_at_mid_sound yg nodes x y r :
  top_at_mid yg nodes x y = Some r → r = List.find (hit_test yg x y) nodes.
Proof.
  revert r. induction nodes as [|p nodes IH]; intros r Hm;
    cbn [top_at_mid List.find] in *; [congruence|].
  apply bind_Some in Hm as (r1 & Hc & Hm).
  rewrite (check_top_at_sound _ _ _ _ _ Hc) in Hm.
  destruct (hit_test yg x y p); [congruence|]. by apply IH.
Qed.

Lemma check_top_at_slot_sound yg (slot : option ptr) x y r :
  check_top_at yg slot x y = Some r →
  r = List.find (hit_test yg x y) (option_list slot).
Proof.
  destruct slot as [p|]; [|cbn; congruence]. intros Hc.
  rewrite (check_top_at_sound _ _ _ _ _ Hc).
  unfold option_list, option_rect. cbn [List.find].
  by destruct (hit_test yg x y p).
Qed.

(** In any state, what [top_at] returns is the first hit of the search. *)
Lemma top_at_sound yg x y r :
  top_at yg x y = Some r → r = top_at_spec yg (uint16 x) (uint16 y).
Proof.
  unfold top_at, top_at_spec, z_order_candidates. intros Hm.
  rewrite !find_app_first.
  apply bind_Some in Hm as (r1 & H1 & Hm).
  apply check_top_at_slot_sound in H1. rewrite <- H1.
  destruct r1 as [t|].
  { injection Hm as <-. symmetry in H1. by rewrite (find_option_list_Some _ _ _ H1). }
  apply bind_Some in Hm as (r2 & H2 & Hm).
  apply top_at_mid_sound in H2. rewrite <- H2.
  destruct r2 as [m|]; [congruence|].
  apply bind_Some in Hm as (r3 & H3 & Hm).
  apply check_top_at_slot_sound in H3. rewrite <- H3.
  destruct r3 as [b|]; [|congruence].
  injection Hm as <-. symmetry in H3. by rewrite (find_option_list_Some _ _ _ H3).
Qed.

(** C6 (as amended): in a state in which the buffer of every window of the
    stacking order holds at least width x height pixels, top_at(x, y)
    returns, for coordinates taken as unsigned 16-bit values, the first
    window that passes the hit test when the candidates are tried in the
    order top_z, the middle sequence from its end to its start, bottom_z; a
    candidate passes iff the point mapped to window coordinates is inside
    the window's rectangle and the alpha of the pixel there is at least
    alpha_threshold ([hit_test]). *)
Theorem C6_top_at_first_hit_in_z_order yg x y :
  buffers_fit yg →
  top_at yg x y = Some (top_at_spec yg (uint16 x) (uint16 y)).
Proof. apply top_at_fit. Qed.

End HitTest.

(** ** The pointer position through the interaction state machine *)

Lemma same_pointer_refl : Reflexive same_pointer.
Proof. intros yg. by repeat split. Qed.
#[local] Existing Instance same_pointer_refl.

Lemma same_pointer_trans : Transitive same_pointer.
Proof. intros a b c (?&?&?&?) (?&?&?&?). repeat split; congruence. Qed.
#[local] Existing Instance same_pointer_trans.

Section Pointer.
Context `{YutaniConsts}.
Implicit Types yg : yutani_globals_t.

Lemma same_pointer_pex_send yg dest m : same_pointer yg (pex_send yg dest m).
Proof. by repeat split. Qed.

Lemma same_pointer_store yg p w : same_pointer yg (store yg p w).
Proof. by repeat split. Qed.

Lemma same_pointer_notify_subscribers yg : same_pointer yg (notify_subscribers yg).
Proof.
  unfold notify_subscribers. generalize (window_subscribers yg). intros l.
  revert yg. induction l as [|c l IH]; intros yg; simpl; [done|].
  etrans; [|apply IH]. apply same_pointer_pex_send.
Qed.

Lemma same_pointer_mark_window yg w yg' : mark_window yg w = Some yg' → same_pointer yg yg'.
Proof.
  unfold mark_window. intros Hm. apply bind_Some in Hm as (w0 & _ & [= <-]).
  by repeat split.
Qed.

Lemma same_pointer_mark_window_relative yg w x y wd ht yg' :
  mark_window_relative yg w x y wd ht = Some yg' → same_pointer yg yg'.
Proof.
  unfold mark_window_relative. intros Hm. apply bind_Some in Hm as (w0 & _ & [= <-]).
  by repeat split.
Qed.

Lemma same_pointer_make_top yg w yg' : make_top yg w = Some yg' → same_pointer yg yg'.
Proof.
  unfold make_top. intros Hm. apply bind_Some in Hm as (w0 & _ & Hm).
  repeat case_decide; simplify_eq; try done.
  destruct (list_h.list_find (mid_zs yg) w); simplify_eq; [by repeat split|done].
Qed.

Lemma same_pointer_send_mouse_event yg w x y ox oy b k yg' :
  send_mouse_event yg w x y ox oy b k = Some yg' → same_pointer yg yg'.
Proof.
  unfold send_mouse_event. intros Hm. apply bind_Some in Hm as (w0 & _ & [= <-]).
  apply same_pointer_pex_send.
Qed.

Lemma same_pointer_set_focused_window yg w yg' :
  set_focused_window yg w = Some yg' → same_pointer yg yg'.
Proof.
  unfold set_focused_window. intros Hm.
  case_decide; [injection Hm as <-; reflexivity|].
  apply bind_Some in Hm as (yg1 & H1 & Hm).
  apply bind_Some in Hm as (yg2 & H2 & Hm). injection Hm as <-.
  etrans; [|apply same_pointer_notify_subscribers].
  assert (same_pointer yg yg1) as S1.
  { destruct (focused_window yg).
    - apply bind_Some in H1 as (fw & _ & H1). injection H1 as <-.
      apply same_pointer_pex_send.
    - injection H1 as <-. reflexivity. }
  etrans; [exact S1|].
  destruct w as [p|].
  - apply bind_Some in H2 as (pw & _ & H2).
    etrans; [|exact (same_pointer_make_top _ _ _ H2)]. by repeat split.
  - injection H2 as <-. by repeat split.
Qed.

Lemma same_pointer_set_focused_at yg x y yg' :
  set_focused_at yg x y = Some yg' → same_pointer yg yg'.
Proof.
  unfold set_focused_at. intros Hm. apply bind_Some in Hm as (n & _ & Hm).
  by eapply same_pointer_set_focused_window.
Qed.

End Pointer.

Ltac sp_op H :=
  first
    [ eapply same_pointer_mark_window, H
    | eapply same_pointer_mark_window_relative, H
    | eapply same_pointer_make_top, H
    | eapply same_pointer_set_focused_window, H
    | eapply same_pointer_set_focused_at, H
    | eapply same_pointer_send_mouse_event, H ].

Ltac sp_field := unfold same_pointer; cbn; repeat split; reflexivity.

Ltac sp :=
  repeat match goal with
  | |- same_pointer ?a ?a => reflexivity
  | |- same_pointer _ (pex_send _ _ _) => etrans; [|apply same_pointer_pex_send]
  | |- same_pointer _ (notify_subscribers _) =>
      etrans; [|apply same_pointer_notify_subscribers]
  | |- same_pointer _ (store _ _ _) => etrans; [|apply same_pointer_store]
  | H : _ = Some ?c |- same_pointer _ ?c => etrans; [|sp_op H]
  | |- same_pointer _ (?f _ ?b) => transitivity b; [|sp_field]
  | |- same_pointer _ (?f _ _ ?b) => transitivity b; [|sp_field]
  end.

Section Pointer2.
Context `{YutaniConsts}.
Implicit Types yg : yutani_globals_t.

Lemma same_pointer_mouse_start_drag yg yg' :
  mouse_start_drag yg = Some yg' → same_pointer yg yg'.
Proof. unfold mouse_start_drag. intros Hm. break_all. all: sp. Qed.

Lemma same_pointer_mouse_start_resize yg yg' :
  mouse_start_resize yg = Some yg' → same_pointer yg yg'.
Proof. unfold mouse_start_resize. intros Hm. break_all. all: sp. Qed.

Lemma same_pointer_handle_mouse_normal yg event yg' :
  handle_mouse_normal yg event = Some yg' → same_pointer yg yg'.
Proof.
  unfold handle_mouse_normal. intros Hm.
  repeat match type of Hm with
  | (if ?c then _ else _) = Some _ => destruct c eqn:?
  end.
  - by eapply same_pointer_mouse_start_drag.
  - by eapply same_pointer_mouse_start_resize.
  - break_all. all: sp.
  - break_all. all: sp.
Qed.

Lemma same_pointer_handle_mouse_moving yg event yg' :
  handle_mouse_moving yg event = Some yg' → same_pointer yg yg'.
Proof. unfold handle_mouse_moving. intros Hm. break_all. all: sp. Qed.

Lemma same_pointer_handle_mouse_dragging yg event yg' :
  handle_mouse_dragging yg event = Some yg' → same_pointer yg yg'.
Proof. unfold handle_mouse_dragging. intros Hm. break_all. all: sp. Qed.

Lemma same_pointer_handle_mouse_resizing yg event yg' :
  handle_mouse_resizing yg event = Some yg' → same_pointer yg yg'.
Proof. unfold handle_mouse_resizing. intros Hm. break_all. all: sp. Qed.

Lemma int32_id v : fits_int32 v → int32 v = v.
Proof. unfold fits_int32, int32. intros Hv. rewrite Z.mod_small; lia. Qed.

Lemma uint32_id v : 0 <= v < 4294967296 → uint32 v = v.
Proof. unfold uint32. intros Hv. by apply Z.mod_small. Qed.

(* the clamps of the position step, on a pointer [mx], [my] inside the range
   of an int *)
Lemma mouse_clamp_spec yg mx my :
  0 <= width yg * MOUSE_SCALE < 2147483648 →
  0 <= height yg * MOUSE_SCALE < 2147483648 →
  fits_int32 mx → fits_int32 my →
  let yg0 := set_mouse_y my (set_mouse_x mx yg) in
  let yg1 := if decide (mouse_x yg0 < 0) then set_mouse_x 0 yg0 else yg0 in
  let yg2 := if decide (mouse_y yg1 < 0) then set_mouse_y 0 yg1 else yg1 in
  let yg3 := if decide (uint32 (mouse_x yg2) > uint32 (width yg2 * MOUSE_SCALE))
             then set_mouse_x (int32 (uint32 (width yg2 * MOUSE_SCALE))) yg2 else yg2 in
  let yg4 := if decide (uint32 (mouse_y yg3) > uint32 (height yg3 * MOUSE_SCALE))
             then set_mouse_y (int32 (uint32 (height yg3 * MOUSE_SCALE))) yg3 else yg3 in
  mouse_x yg4 = Z.min (width yg * MOUSE_SCALE) (Z.max 0 mx)
  ∧ mouse_y yg4 = Z.min (height yg * MOUSE_SCALE) (Z.max 0 my)
  ∧ width yg4 = width yg ∧ height yg4 = height yg.
Proof.
  intros Hw Hh Hx Hy yg0 yg1 yg2 yg3 yg4. unfold fits_int32 in Hx, Hy.
  assert (mouse_x yg2 = Z.max 0 mx ∧ mouse_y yg2 = Z.max 0 my
          ∧ width yg2 = width yg ∧ height yg2 = height yg) as (Ex & Ey & Ew & Eh).
  { unfold yg2, yg1, yg0. repeat case_decide; simpl in *; split_and!; try done; lia. }
  assert (mouse_x yg3 = Z.min (width yg * MOUSE_SCALE) (Z.max 0 mx)
          ∧ mouse_y yg3 = Z.max 0 my
          ∧ width yg3 = width yg ∧ height yg3 = height yg) as (Ex3 & Ey3 & Ew3 & Eh3).
  { unfold yg3. rewrite Ex, Ew.
    rewrite (uint32_id (Z.max 0 mx)), (uint32_id (width yg * MOUSE_SCALE)) by lia.
    rewrite (int32_id (width yg * MOUSE_SCALE)) by (unfold fits_int32; lia).
    case_decide; simpl; split_and!; try done; lia. }
  unfold yg4. rewrite Ey3, Eh3.
  rewrite (uint32_id (Z.max 0 my)), (uint32_id (height yg * MOUSE_SCALE)) by lia.
  rewrite (int32_id (height yg * MOUSE_SCALE)) by (unfold fits_int32; lia).
  case_decide; simpl; split_and!; try done; lia.
Qed.

(* the position step alone, when its arithmetic stays inside an int *)
Lemma mouse_update_position_spec yg event type :
  0 <= width yg * MOUSE_SCALE < 2147483648 →
  0 <= height yg * MOUSE_SCALE < 2147483648 →
  fits_int32 (mouse_x yg) → fits_int32 (mouse_y yg) →
  (type ≠ YUTANI_MOUSE_EVENT_TYPE_OTHER →
     fits_int32 (3 * x_difference event) ∧ fits_int32 (3 * y_difference event)) →
  (type = YUTANI_MOUSE_EVENT_TYPE_RELATIVE →
     fits_int32 (mouse_x yg + 3 * x_difference event)
     ∧ fits_int32 (mouse_y yg - 3 * y_difference event)) →
  let pos := mouse_update_position yg event type in
  mouse_x pos
  = Z.min (width yg * MOUSE_SCALE)
      (Z.max 0 match type with
               | YUTANI_MOUSE_EVENT_TYPE_RELATIVE => mouse_x yg + 3 * x_difference event
               | YUTANI_MOUSE_EVENT_TYPE_ABSOLUTE => 3 * x_difference event
               | YUTANI_MOUSE_EVENT_TYPE_OTHER => mouse_x yg
               end)
  ∧ mouse_y pos
    = Z.min (height yg * MOUSE_SCALE)
        (Z.max 0 match type with
                 | YUTANI_MOUSE_EVENT_TYPE_RELATIVE => mouse_y yg - 3 * y_difference event
                 | YUTANI_MOUSE_EVENT_TYPE_ABSOLUTE => 3 * y_difference event
                 | YUTANI_MOUSE_EVENT_TYPE_OTHER => mouse_y yg
                 end)
  ∧ width pos = width yg ∧ height pos = height yg.
Proof.
  intros Hw Hh Hx Hy Hd Hr.
  unfold mouse_update_position.
  destruct type.
  - destruct Hd as [Hdx Hdy]; [done|]. destruct (Hr eq_refl) as [Hrx Hry].
    rewrite (Z.mul_comm (x_difference event)), (Z.mul_comm (y_difference event)).
    rewrite (int32_id (3 * x_difference event)), (int32_id (3 * y_difference event)) by done.
    rewrite (int32_id (mouse_x yg + _)), (int32_id (mouse_y yg - _)) by done.
    exact (mouse_clamp_spec yg _ _ Hw Hh Hrx Hry).
  - destruct Hd as [Hdx Hdy]; [done|].
    rewrite (Z.mul_comm (x_difference event)), (Z.mul_comm (y_difference event)).
    rewrite (int32_id (3 * x_difference event)), (int32_id (3 * y_difference event)) by done.
    exact (mouse_clamp_spec yg _ _ Hw Hh Hdx Hdy).
  - pose proof (mouse_clamp_spec yg _ _ Hw Hh Hx Hy) as Hc.
    assert (set_mouse_y (mouse_y yg) (set_mouse_x (mouse_x yg) yg) = yg) as Hid
      by (by destruct yg).
    rewrite Hid in Hc. exact Hc.
Qed.

(** Whatever the interaction state, handling a mouse event leaves the
    pointer where the position step put it. *)
Lemma handle_mouse_event_pointer yg event type yg' :
  handle_mouse_event yg event type = Some yg' →
  same_pointer (mouse_update_position yg event type) yg'.
Proof.
  unfold handle_mouse_event. intros Hm.
  destruct (mouse_state (mouse_update_position yg event type)).
  - by eapply same_pointer_handle_mouse_normal.
  - by eapply same_pointer_handle_mouse_moving.
  - by eapply same_pointer_handle_mouse_dragging.
  - by eapply same_pointer_handle_mouse_resizing.
Qed.

End Pointer2.

(** ** Pointer motion and tiling *)

Section Claims2.
Context `{YutaniConsts}.
Implicit Types yg : yutani_globals_t.

(** C8 (as amended): for every mouse event whose arithmetic stays inside a
    32-bit int (the pointer, 3 times the reported values, for a relative
    event the sums, and the scaled display size width * MOUSE_SCALE and
    height * MOUSE_SCALE, which are not negative), the position step of
    [handle_mouse_event] puts the pointer at the clamped value of: for a
    relative event, mouse_x plus 3 times the reported x difference and
    mouse_y MINUS 3 times the reported y difference; for an absolute event,
    3 times the reported values; the result satisfies
    0 <= mouse_x <= width * MOUSE_SCALE and
    0 <= mouse_y <= height * MOUSE_SCALE, and whenever the handler
    completes the pointer of the final state is the one of the position
    step. *)
Theorem C8_mouse_event_position yg event type :
  0 <= width yg * MOUSE_SCALE → fits_int32 (width yg * MOUSE_SCALE) →
  0 <= height yg * MOUSE_SCALE → fits_int32 (height yg * MOUSE_SCALE) →
  fits_int32 (mouse_x yg) → fits_int32 (mouse_y yg) →
  (type ≠ YUTANI_MOUSE_EVENT_TYPE_OTHER →
     fits_int32 (3 * x_difference event) ∧ fits_int32 (3 * y_difference event)) →
  (type = YUTANI_MOUSE_EVENT_TYPE_RELATIVE →
     fits_int32 (mouse_x yg + 3 * x_difference event)
     ∧ fits_int32 (mouse_y yg - 3 * y_difference event)) →
  let pos := mouse_update_position yg event type in
  let clamp (hi v : Z) := Z.min hi (Z.max 0 v) in
  (mouse_x pos
   = clamp (width yg * MOUSE_SCALE)
       match type with
       | YUTANI_MOUSE_EVENT_TYPE_RELATIVE => mouse_x yg + 3 * x_difference event
       | YUTANI_MOUSE_EVENT_TYPE_ABSOLUTE => 3 * x_difference event
       | YUTANI_MOUSE_EVENT_TYPE_OTHER => mouse_x yg
       end
   ∧ mouse_y pos
     = clamp (height yg * MOUSE_SCALE)
         match type with
         | YUTANI_MOUSE_EVENT_TYPE_RELATIVE => mouse_y yg - 3 * y_difference event
         | YUTANI_MOUSE_EVENT_TYPE_ABSOLUTE => 3 * y_difference event
         | YUTANI_MOUSE_EVENT_TYPE_OTHER => mouse_y yg
         end
   ∧ 0 <= mouse_x pos <= width yg * MOUSE_SCALE
   ∧ 0 <= mouse_y pos <= height yg * MOUSE_SCALE)
  ∧ ∀ yg', handle_mouse_event yg event type = Some yg' →
      mouse_x yg' = mouse_x pos ∧ mouse_y yg' = mouse_y pos
      ∧ 0 <= mouse_x yg' <= width yg' * MOUSE_SCALE
      ∧ 0 <= mouse_y yg' <= height yg' * MOUSE_SCALE.
Proof.
  intros Hws Hwf Hhs Hhf Hmx Hmy Hd Hrel pos clamp.
  assert (0 <= width yg * MOUSE_SCALE < 2147483648) as Hw
    by (unfold fits_int32 in Hwf; lia).
  assert (0 <= height yg * MOUSE_SCALE < 2147483648) as Hh
    by (unfold fits_int32 in Hhf; lia).
  destruct (mouse_update_position_spec yg event type Hw Hh Hmx Hmy Hd Hrel)
    as (Hx & Hy & Hpw & Hph).
  fold pos in Hx, Hy, Hpw, Hph.
  assert (0 <= mouse_x pos <= width yg * MOUSE_SCALE
          ∧ 0 <= mouse_y pos <= height yg * MOUSE_SCALE) as [Hbx Hby].
  { rewrite Hx, Hy. lia. }
  split.
  - unfold clamp. by rewrite <- Hx, <- Hy.
  - intros yg' Hm. apply handle_mouse_event_pointer in Hm as (Ex & Ey & Ew & Eh).
    fold pos in Ex, Ey, Ew, Eh. rewrite Ex, Ey, Ew, Eh, Hpw, Hph. done.
Qed.

Lemma quot_fits a b :
  0 <= a < 2147483648 → 0 < b → 0 <= a `quot` b < 2147483648.
Proof.
  intros Ha Hb. rewrite Z.quot_div_nonneg by lia.
  split; [apply Z.div_pos; lia|]. apply Z.div_lt_upper_bound; nia.
Qed.

(* [window_tile] when its divisions and products stay inside an int *)
Lemma window_tile_spec yg f fw wd hd cx cy panel_h :
  heap yg !! f = Some fw → panel_height yg = Some panel_h →
  0 <= width yg < 2147483648 → 0 < wd < 2147483648 → 0 < hd < 2147483648 →
  0 <= height yg - panel_h < 2147483648 →
  fits_int32 (width yg `quot` wd * cx) →
  fits_int32 ((height yg - panel_h) `quot` hd * cy) →
  fits_int32 (panel_h + (height yg - panel_h) `quot` hd * cy) →
  ∃ yg' fw',
    window_tile yg f wd hd cx cy = Some yg'
    ∧ heap yg' !! f = Some fw'
    ∧ window.x fw' = width yg `quot` wd * cx
    ∧ window.y fw' = panel_h + (height yg - panel_h) `quot` hd * cy
    ∧ window.width fw' = window.width fw ∧ window.height fw' = window.height fw
    ∧ outbox yg'
      = outbox yg ++ [Pex_send (window.owner fw)
                        (YUTANI_MSG_RESIZE_OFFER (window.wid fw) (width yg `quot` wd)
                           ((height yg - panel_h) `quot` hd) 0)].
Proof.
  intros Hl Hp Hw Hwd Hhd Hh Fx Fy Fpy. unfold window_tile. fold (panel_height yg). rewrite Hp.
  cbn [mbind option_bind].
  rewrite (uint32_id wd), (uint32_id hd), (uint32_id (width yg)),
    (uint32_id (height yg - panel_h)) by lia.
  rewrite !decide_False by lia.
  rewrite (int32_id (width yg `quot` wd))
    by (pose proof (quot_fits (width yg) wd); unfold fits_int32; lia).
  rewrite (int32_id ((height yg - panel_h) `quot` hd))
    by (pose proof (quot_fits (height yg - panel_h) hd); unfold fits_int32; lia).
  rewrite (int32_id (width yg `quot` wd * cx)) by done.
  rewrite (int32_id ((height yg - panel_h) `quot` hd * cy)) by done.
  rewrite (int32_id (panel_h + _)) by done.
  destruct (mark_window_Some yg f fw Hl) as (r1 & ->). cbn [mbind option_bind].
  set (yga := set_update_list _ yg).
  assert (heap yga !! f = Some fw) as -> by exact Hl. cbn [mbind option_bind].
  set (fw' := window.set_y _ (window.set_x _ fw)).
  assert (heap (store yga f fw') !! f = Some fw') as Hl'.
  { unfold store. simpl. apply list_lookup_insert_eq. by eapply lookup_lt_Some. }
  destruct (mark_window_Some _ f fw' Hl') as (r2 & ->). cbn [mbind option_bind].
  eexists _, fw'. split; [reflexivity|]. split; [exact Hl'|]. by split_and!.
Qed.

(** C7 (amended): with a display of 1024 x 768 and a TOP window of height
    24, when the focused window is in the middle tier and the key event is
    a key press of the left arrow with Super held (and none of Ctrl, Shift,
    Alt), the handler completes, the origin of the focused window becomes
    (0, 24) and the message the handler sends is RESIZE_OFFER with size
    (512, 744), addressed to the window's owner. *)
Theorem C7_super_left_tiles_left_half yg event state t tw f fw :
  width yg = 1024 → height yg = 768 →
  top_z yg = Some t → heap yg !! t = Some tw → window.height tw = 24 →
  get_focused yg = Some f → heap yg !! f = Some fw → is_middle fw = true →
  action event = KEY_ACTION_DOWN →
  keycode event = KEY_ARROW_LEFT →
  Z.land (modifiers event) KEY_MOD_LEFT_SUPER ≠ 0 →
  Z.land (modifiers event) KEY_MOD_LEFT_CTRL = 0 →
  Z.land (modifiers event) KEY_MOD_LEFT_SHIFT = 0 →
  Z.land (modifiers event) KEY_MOD_LEFT_ALT = 0 →
  ∃ yg' fw',
    handle_key_event yg event state = Some yg'
    ∧ heap yg' !! f = Some fw'
    ∧ window.x fw' = 0 ∧ window.y fw' = 24
    ∧ outbox yg'
      = outbox yg ++ [Pex_send (window.owner fw)
                        (YUTANI_MSG_RESIZE_OFFER (window.wid fw) 512 744 0)].
Proof.
  intros Hw Hh Ht Htw Hth Hf Hfw Hmid Hact Hkey Hsuper Hctrl Hshift Halt.
  assert (panel_height (set_kbd_state state yg) = Some 24) as Hp.
  { unfold panel_height. simpl. rewrite Ht. simpl. rewrite Htw. simpl. by rewrite Hth. }
  assert (width (set_kbd_state state yg) = 1024) as Hw' by exact Hw.
  assert (height (set_kbd_state state yg) = 768) as Hh' by exact Hh.
  destruct (window_tile_spec (set_kbd_state state yg) f fw 2 1 0 0 24 Hfw Hp)
    as (yg' & fw' & Htile & Hl' & Hx & Hy & _ & _ & Hout);
    [rewrite ?Hw', ?Hh'; unfold fits_int32; lia..|].
  exists yg', fw'.
  rewrite Hw' in Hx, Hout. rewrite Hh' in Hy, Hout.
  change (1024 `quot` 2 * 0) with 0 in Hx.
  change (24 + (768 - 24) `quot` 1 * 0) with 24 in Hy.
  change (1024 `quot` 2) with 512 in Hout. change ((768 - 24) `quot` 1) with 744 in Hout.
  split; [|split_and!; [exact Hl'|exact Hx|exact Hy|exact Hout]].
  unfold handle_key_event. rewrite Hf.
  assert (heap (set_kbd_state state yg) !! f = Some fw) as -> by exact Hfw.
  cbn [mbind option_bind]. rewrite Hmid.
  rewrite (bool_decide_eq_true_2 _ Hact), (bool_decide_eq_true_2 _ Hkey).
  rewrite (bool_decide_eq_true_2 _ Hsuper).
  rewrite (bool_decide_eq_false_2 (Z.land (modifiers event) KEY_MOD_LEFT_CTRL ≠ 0))
    by (intros Hn; by apply Hn).
  rewrite (bool_decide_eq_false_2 (Z.land (modifiers event) KEY_MOD_LEFT_SHIFT ≠ 0))
    by (intros Hn; by apply Hn).
  rewrite (bool_decide_eq_false_2 (Z.land (modifiers event) KEY_MOD_LEFT_ALT ≠ 0))
    by (intros Hn; by apply Hn).
  cbn [andb]. exact Htile.
Qed.

End Claims2.

(** ** Focus and the start of a drag *)

Section Focus.
Context `{YutaniConsts}.
Implicit Types yg : yutani_globals_t.

Lemma notify_subscribers_set_outbox yg :
  ∃ o, notify_subscribers yg = set_outbox o yg.
Proof.
  unfold notify_subscribers. generalize (window_subscribers yg). intros l.
  revert yg. induction l as [|c l IH]; intros yg; simpl.
  - exists (outbox yg). by destruct yg.
  - destruct (IH (pex_send yg c YUTANI_MSG_NOTIFY)) as [o ->]. by exists o.
Qed.

Lemma make_top_cases yg w yg' :
  make_top yg w = Some yg' → yg' = yg ∨ ∃ l, yg' = set_mid_zs l yg.
Proof.
  unfold make_top. intros Hm. apply bind_Some in Hm as (w0 & _ & Hm).
  repeat case_decide; simplify_eq; try (by left).
  destruct (list_h.list_find (mid_zs yg) w); simplify_eq; [right; by eexists|by left].
Qed.

Lemma make_top_is_Some yg w : is_Some (heap yg !! w) → is_Some (make_top yg w).
Proof.
  intros [w0 Hl]. unfold make_top. rewrite Hl. cbn [mbind option_bind].
  repeat case_decide; try done. by destruct (list_h.list_find (mid_zs yg) w).
Qed.

(* what [make_top] leaves alone *)
Lemma make_top_frame yg w yg' :
  make_top yg w = Some yg' →
  focused_window yg' = focused_window yg ∧ mouse_window yg' = mouse_window yg
  ∧ mouse_state yg' = mouse_state yg ∧ heap yg' = heap yg.
Proof. intros [->|[l ->]]%make_top_cases; done. Qed.

Lemma set_focused_window_is_Some yg w :
  focus_valid yg → (∀ p, w = Some p → is_Some (heap yg !! p)) →
  is_Some (set_focused_window yg w).
Proof.
  intros Hf Hw. unfold set_focused_window. case_decide; [done|].
  assert (∃ yg1, match focused_window yg with
                 | Some f =>
                     fw ← heap yg !! f;
                     Some (pex_send yg (window.owner fw)
                             (YUTANI_MSG_WINDOW_FOCUS_CHANGE (window.wid fw) 0))
                 | None => Some yg
                 end = Some yg1 ∧ heap yg1 = heap yg) as (yg1 & -> & Hh).
  { destruct (focused_window yg) as [f|] eqn:Ef; [|by eexists].
    destruct (Hf f Ef) as [fw ->]. by eexists. }
  cbn [mbind option_bind].
  destruct w as [p|]; [|done].
  destruct (Hw p eq_refl) as [pw Hp].
  assert (heap (set_focused_window_field (Some p) yg1) !! p = Some pw) as ->
    by (simpl; by rewrite Hh).
  cbn [mbind option_bind].
  destruct (make_top_is_Some
              (pex_send (set_focused_window_field (Some p) yg1) (window.owner pw)
                 (YUTANI_MSG_WINDOW_FOCUS_CHANGE (window.wid pw) 1)) p) as [yg2 ->];
    [|done].
  simpl. rewrite Hh. by eexists.
Qed.

(** After [set_focused_window yg w] the focused window is [w] when [w] is a
    window; with no window to focus, [get_focused] falls back on the bottom
    window. *)
Lemma set_focused_window_focus yg w yg' :
  set_focused_window yg w = Some yg' →
  get_focused yg' = match w with Some p => Some p | None => bottom_z yg end
  ∧ (∀ p, w = Some p → focused_window yg' = Some p).
Proof.
  intros Hm. pose proof (same_core_set_focused_window _ _ _ Hm) as (_&_&_&Hb&_).
  revert Hm. unfold set_focused_window. intros Hm.
  case_decide as Hd.
  { injection Hm as <-. unfold get_focused. rewrite <- Hd. split; [|done].
    by destruct w. }
  apply bind_Some in Hm as (yg1 & H1 & Hm).
  apply bind_Some in Hm as (yg2 & H2 & Hm). injection Hm as <-.
  destruct (notify_subscribers_set_outbox yg2) as [o ->].
  unfold get_focused. cbn [focused_window bottom_z set_outbox].
  assert (bottom_z yg1 = bottom_z yg) as Hb1.
  { destruct (focused_window yg).
    - apply bind_Some in H1 as (fw & _ & H1). by injection H1 as <-.
    - by injection H1 as <-. }
  destruct w as [p|].
  - apply bind_Some in H2 as (pw & _ & H2).
    apply make_top_frame in H2 as (-> & _). simpl. split; [done|]. by intros ? [= <-].
  - injection H2 as <-. simpl. rewrite Hb1. split; [|done]. by destruct (bottom_z yg).
Qed.

Lemma top_at_spec_in_tier yg x y h : top_at_spec yg x y = Some h → in_tier yg h.
Proof.
  unfold top_at_spec, z_order_candidates. intros Hf.
  apply find_some in Hf as [Hin _]. apply list_elem_of_In in Hin.
  rewrite !elem_of_app, elem_of_reverse in Hin.
  destruct Hin as [Hin|[Hin|Hin]].
  - right; right. destruct (top_z yg); unfold option_list, option_rect in Hin;
      [apply list_elem_of_singleton in Hin; by subst|by apply elem_of_nil in Hin].
  - right; by left.
  - left. destruct (bottom_z yg); unfold option_list, option_rect in Hin;
      [apply list_elem_of_singleton in Hin; by subst|by apply elem_of_nil in Hin].
Qed.

Lemma mouse_start_drag_spec yg :
  registry_wf yg → focus_valid yg →
  top_at yg (mouse_x yg `quot` MOUSE_SCALE) (mouse_y yg `quot` MOUSE_SCALE)
  = Some (pointer_hit yg) →
  ∃ yg',
    mouse_start_drag yg = Some yg'
    ∧ (∀ h, pointer_hit yg = Some h → focused_window yg' = Some h)
    ∧ (∀ m, mouse_window yg' = Some m →
         pointer_hit yg = Some m ∧ mouse_state yg' = YUTANI_MOUSE_STATE_MOVING)
    ∧ (∀ h hw, pointer_hit yg = Some h → heap yg !! h = Some hw →
         is_middle hw = true →
         mouse_window yg' = Some h ∧ mouse_state yg' = YUTANI_MOUSE_STATE_MOVING).
Proof.
  intros Hwf Hfv Htop.
  assert (∀ p, pointer_hit yg = Some p → is_Some (heap yg !! p)) as Hhit.
  { intros p Hp%top_at_spec_in_tier%tier_count_pos.
    destruct (rwf_tier_live _ Hwf p Hp) as (w & Hl & _). by eexists. }
  destruct (set_focused_window_is_Some yg (pointer_hit yg) Hfv Hhit) as [yg2 Hsfw].
  assert (set_focused_at yg (mouse_x yg `quot` MOUSE_SCALE) (mouse_y yg `quot` MOUSE_SCALE)
          = Some yg2) as Hsfa.
  { unfold set_focused_at. rewrite Htop. exact Hsfw. }
  pose proof (same_core_set_focused_window _ _ _ Hsfw) as Hsc.
  pose proof (same_core_registry_wf _ _ Hsc Hwf) as Hwf2.
  destruct (set_focused_window_focus _ _ _ Hsfw) as [Hget Hfoc].
  unfold mouse_start_drag. rewrite Hsfa. cbn [mbind option_bind].
  cbn [mouse_window set_mouse_window]. rewrite Hget.
  (* the window the drag is about *)
  destruct (pointer_hit yg) as [h|] eqn:Eh.
  - destruct (Hhit h eq_refl) as [hw Hl].
    destruct (same_core_sym_lookup _ _ _ _ Hsc Hl) as (hw2 & Hl2 & Hcore).
    assert (window.z hw2 = window.z hw) as Hz by (unfold wcore in Hcore; congruence).
    assert (heap (set_mouse_window (Some h) yg2) !! h = Some hw2) as -> by exact Hl2.
    cbn [mbind option_bind].
    destruct (decide (window.z hw2 = YUTANI_ZORDER_BOTTOM
                      ∨ window.z hw2 = YUTANI_ZORDER_TOP)) as [Hbt|Hmid].
    + eexists. split; [reflexivity|]. split_and!.
      * intros ? [= <-]. simpl. by apply Hfoc.
      * intros m Hm. by simpl in Hm.
      * intros ? hw' [= <-] Hl' Hmd. assert (hw' = hw) as -> by congruence.
        unfold is_middle in Hmd. apply bool_decide_eq_true in Hmd. rewrite Hz in Hbt.
        exfalso. destruct Hmd, Hbt; done.
    + match goal with |- ∃ _, make_top ?a ?b = _ ∧ _ =>
        destruct (make_top_is_Some a b) as [yg' Hmt]; [by eexists|] end.
      exists yg'. split; [exact Hmt|].
      apply make_top_frame in Hmt as (Ef & Emw & Ems & _).
      rewrite Ef, Emw, Ems. simpl. split_and!.
      * intros ? [= <-]. by apply Hfoc.
      * intros m [= <-]. done.
      * intros ? ? [= <-] _ _. done.
  - destruct (bottom_z yg) as [b|] eqn:Eb.
    + destruct (wf_bottom _ (rwf_zorder _ Hwf) b Eb) as (bw & Hl & Hz).
      destruct (same_core_sym_lookup _ _ _ _ Hsc Hl) as (bw2 & Hl2 & Hcore).
      assert (window.z bw2 = window.z bw) as Hz2 by (unfold wcore in Hcore; congruence).
      assert (heap (set_mouse_window (Some b) yg2) !! b = Some bw2) as -> by exact Hl2.
      cbn [mbind option_bind]. rewrite decide_True by (left; congruence).
      eexists. split; [reflexivity|]. split_and!; [done| |done].
      intros m Hm. by simpl in Hm.
    + eexists. split; [reflexivity|]. split_and!; [done| |done].
      intros m Hm. by simpl in Hm.
Qed.

End Focus.

(** ** The focus pointer stays inside the window store *)

Lemma focus_le_refl : Reflexive focus_le.
Proof. intros yg. split_and!; [done|intros ? ?; by left..]. Qed.
#[local] Existing Instance focus_le_refl.

Lemma focus_le_trans : Transitive focus_le.
Proof.
  intros a b c (Hl1 & Hf1 & Hb1) (Hl2 & Hf2 & Hb2). split_and!.
  - lia.
  - intros f Hf. destruct (Hf2 f Hf) as [Hx|[Hx|Hx]].
    + destruct (Hf1 f Hx) as [?|[?|?]]; [by left|right; by left|right; right; lia].
    + destruct (Hb1 f Hx) as [?|?]; [right; by left|right; right; lia].
    + right; by right.
  - intros p Hp. destruct (Hb2 p Hp) as [Hx|Hx]; [|by right].
    destruct (Hb1 p Hx) as [?|?]; [by left|right; lia].
Qed.
#[local] Existing Instance focus_le_trans.

Ltac fl_field :=
  unfold focus_le; cbn; split_and!;
  [ lia | intros ? ?; first [discriminate | by left] .. ].

Section FocusFrame.
Context `{YutaniConsts}.
Implicit Types yg : yutani_globals_t.

Lemma focus_le_valid yg yg' :
  focus_le yg yg' → focus_valid yg → bottom_valid yg →
  focus_valid yg' ∧ bottom_valid yg'.
Proof.
  intros (Hl & Hf & Hb) Hfv Hbv. split.
  - intros f Ef. apply lookup_lt_is_Some.
    destruct (Hf f Ef) as [Hx|[Hx|Hx]]; [| |done].
    + apply Hfv, lookup_lt_is_Some in Hx. lia.
    + apply Hbv, lookup_lt_is_Some in Hx. lia.
  - intros b Eb. apply lookup_lt_is_Some.
    destruct (Hb b Eb) as [Hx|Hx]; [|done].
    apply Hbv, lookup_lt_is_Some in Hx. lia.
Qed.

Lemma focus_le_same yg yg' :
  heap yg' = heap yg → focused_window yg' = focused_window yg →
  bottom_z yg' = bottom_z yg → focus_le yg yg'.
Proof.
  intros Hh Hf Hb. unfold focus_le. rewrite Hh, Hf, Hb.
  split_and!; [done|intros ? ?; by left..].
Qed.

Lemma focus_le_pex_send yg dest m : focus_le yg (pex_send yg dest m).
Proof. by apply focus_le_same. Qed.

Lemma focus_le_store yg p w : focus_le yg (store yg p w).
Proof.
  unfold focus_le, store. cbn. rewrite length_insert.
  split_and!; [done|intros ? ?; by left..].
Qed.

Lemma focus_le_notify_subscribers yg : focus_le yg (notify_subscribers yg).
Proof. destruct (notify_subscribers_set_outbox yg) as [o ->]. by apply focus_le_same. Qed.

Lemma focus_le_mark_window yg w yg' : mark_window yg w = Some yg' → focus_le yg yg'.
Proof.
  unfold mark_window. intros Hm. apply bind_Some in Hm as (w0 & _ & [= <-]).
  by apply focus_le_same.
Qed.

Lemma focus_le_mark_window_relative yg w x y wd ht yg' :
  mark_window_relative yg w x y wd ht = Some yg' → focus_le yg yg'.
Proof.
  unfold mark_window_relative. intros Hm. apply bind_Some in Hm as (w0 & _ & [= <-]).
  by apply focus_le_same.
Qed.

Lemma focus_le_make_top yg w yg' : make_top yg w = Some yg' → focus_le yg yg'.
Proof. intros [->|[l ->]]%make_top_cases; by apply focus_le_same. Qed.

Lemma focus_le_send_mouse_event yg w x y ox oy b k yg' :
  send_mouse_event yg w x y ox oy b k = Some yg' → focus_le yg yg'.
Proof.
  unfold send_mouse_event. intros Hm. apply bind_Some in Hm as (w0 & _ & [= <-]).
  apply focus_le_pex_send.
Qed.

Lemma focus_le_unorder_window yg w yg' : unorder_window yg w = Some yg' → focus_le yg yg'.
Proof.
  unfold unorder_window. intros Hm. apply bind_Some in Hm as (win & _ & Hm).
  set (yg1 := store yg w (window.set_z (uint16 (-1)) win)) in Hm.
  transitivity yg1; [apply focus_le_store|].
  repeat case_decide.
  - injection Hm as <-. fl_field.
  - injection Hm as <-. fl_field.
  - destruct (list_h.list_find (mid_zs yg1) w); injection Hm as <-; [fl_field|reflexivity].
Qed.

Lemma focus_le_reorder_window yg w new_zed yg' :
  reorder_window yg w new_zed = Some yg' → focus_le yg yg'.
Proof.
  destruct w as [w|]; [|intros [= <-]; reflexivity].
  unfold reorder_window. intros Hm.
  apply bind_Some in Hm as (yg1 & Hu & Hm).
  apply bind_Some in Hm as (win & Hl & Hm).
  set (yg2 := store yg1 w (window.set_z (uint16 new_zed) win)) in Hm.
  assert (focus_le yg yg2) as L2.
  { etrans; [exact (focus_le_unorder_window _ _ _ Hu)|apply focus_le_store]. }
  assert (w < length (heap yg2))%nat as Hlt.
  { unfold yg2, store. cbn. rewrite length_insert. by eapply lookup_lt_Some. }
  etrans; [exact L2|].
  repeat case_decide.
  - injection Hm as <-. fl_field.
  - apply bind_Some in Hm as (yg3 & H3 & [= <-]).
    transitivity yg3; [|fl_field].
    destruct (top_z yg2); [exact (focus_le_unorder_window _ _ _ H3)|].
    injection H3 as <-. reflexivity.
  - apply bind_Some in Hm as (yg3 & H3 & [= <-]).
    assert (focus_le yg2 yg3) as L3.
    { destruct (bottom_z yg2); [exact (focus_le_unorder_window _ _ _ H3)|].
      injection H3 as <-. reflexivity. }
    etrans; [exact L3|]. destruct L3 as (Hlen & _).
    unfold focus_le. cbn. split_and!; [done|intros ? ?; by left|].
    intros b [= <-]. right. lia.
  - injection Hm as <-. reflexivity.
Qed.

Lemma focus_le_set_focused_window yg w yg' :
  set_focused_window yg w = Some yg' → focus_le yg yg'.
Proof.
  unfold set_focused_window. intros Hm.
  case_decide; [injection Hm as <-; reflexivity|].
  apply bind_Some in Hm as (yg1 & H1 & Hm).
  apply bind_Some in Hm as (yg2 & H2 & Hm). injection Hm as <-.
  etrans; [|apply focus_le_notify_subscribers].
  assert (focus_le yg yg1) as S1.
  { destruct (focused_window yg).
    - apply bind_Some in H1 as (fw & _ & H1). injection H1 as <-.
      apply focus_le_pex_send.
    - injection H1 as <-. reflexivity. }
  etrans; [exact S1|].
  destruct w as [p|].
  - apply bind_Some in H2 as (pw & Hp & H2).
    etrans; [|exact (focus_le_make_top _ _ _ H2)].
    etrans; [|apply focus_le_pex_send].
    apply lookup_lt_Some in Hp.
    unfold focus_le. cbn in *. split_and!; [done| |intros ? ?; by left].
    intros f [= <-]. right; by right.
  - injection H2 as <-.
    unfold focus_le. cbn. split_and!; [done| |intros ? ?; by left].
    intros f Hf. right; by left.
Qed.

Lemma focus_le_set_focused_at yg x y yg' :
  set_focused_at yg x y = Some yg' → focus_le yg yg'.
Proof.
  unfold set_focused_at. intros Hm. apply bind_Some in Hm as (n & _ & Hm).
  exact (focus_le_set_focused_window _ _ _ Hm).
Qed.

End FocusFrame.

Ltac fl_op H :=
  first
    [ eapply focus_le_mark_window, H
    | eapply focus_le_mark_window_relative, H
    | eapply focus_le_make_top, H
    | eapply focus_le_set_focused_window, H
    | eapply focus_le_set_focused_at, H
    | eapply focus_le_send_mouse_event, H
    | eapply focus_le_unorder_window, H
    | eapply focus_le_reorder_window, H ].

Ltac fl :=
  repeat match goal with
  | |- focus_le ?a ?a => reflexivity
  | |- focus_le _ (pex_send _ _ _) => etrans; [|apply focus_le_pex_send]
  | |- focus_le _ (pex_broadcast _ _) => etrans; [|by apply focus_le_same]
  | |- focus_le _ (notify_subscribers _) =>
      etrans; [|apply focus_le_notify_subscribers]
  | |- focus_le _ (store _ _ _) => etrans; [|apply focus_le_store]
  | H : _ = Some ?c |- focus_le _ ?c => etrans; [|fl_op H]
  | |- focus_le _ (?f _ ?b) => transitivity b; [|fl_field]
  | |- focus_le _ (?f _ _ ?b) => transitivity b; [|fl_field]
  end.

Section FocusFrame2.
Context `{YutaniConsts}.
Implicit Types yg : yutani_globals_t.

Lemma focus_le_foreach {A} (body : yutani_globals_t → A → option yutani_globals_t) l :
  (∀ yg v yg', body yg v = Some yg' → focus_le yg yg') →
  ∀ yg yg', foreach l body yg = Some yg' → focus_le yg yg'.
Proof.
  intros Hb. induction l as [|v l IH]; intros yg yg' Hf; simpl in Hf.
  - injection Hf as <-. reflexivity.
  - apply bind_Some in Hf as (yg1 & H1 & Hf).
    etrans; [exact (Hb _ _ _ H1)|exact (IH _ _ Hf)].
Qed.

Lemma focus_le_window_tile yg w wd hd x y yg' :
  window_tile yg w wd hd x y = Some yg' → focus_le yg yg'.
Proof. unfold window_tile. intros Hm. break_all. all: fl. Qed.

Lemma focus_le_rotate_focused yg f g yg' :
  rotate_focused yg f g = Some yg' → focus_le yg yg'.
Proof. unfold rotate_focused. intros Hm. break_all. all: fl. Qed.

Lemma focus_le_deliver_key_event yg focused event state yg' :
  deliver_key_event yg focused event state = Some yg' → focus_le yg yg'.
Proof. unfold deliver_key_event. intros Hm. break_all. all: fl. Qed.

Lemma focus_le_handle_key_event yg event state yg' :
  handle_key_event yg event state = Some yg' → focus_le yg yg'.
Proof.
  unfold handle_key_event. intros Hm.
  transitivity (set_kbd_state state yg); [by apply focus_le_same|].
  destruct (get_focused yg) as [f|] eqn:Ef.
  - apply bind_Some in Hm as (fw & Hfw & Hm).
    repeat match type of Hm with
    | (if ?c then _ else _) = Some _ => destruct c eqn:?
    end;
    first [ exact (focus_le_rotate_focused _ _ _ _ Hm)
          | exact (focus_le_window_tile _ _ _ _ _ _ _ Hm)
          | exact (focus_le_deliver_key_event _ _ _ _ _ Hm)
          | injection Hm as <-; by apply focus_le_same ].
  - exact (focus_le_deliver_key_event _ _ _ _ _ Hm).
Qed.

Lemma focus_le_mouse_update_position yg event type :
  focus_le yg (mouse_update_position yg event type).
Proof.
  unfold mouse_update_position.
  destruct type; repeat case_decide; by apply focus_le_same.
Qed.

Lemma focus_le_mouse_start_drag yg yg' :
  mouse_start_drag yg = Some yg' → focus_le yg yg'.
Proof. unfold mouse_start_drag. intros Hm. break_all. all: fl. Qed.

Lemma focus_le_mouse_start_resize yg yg' :
  mouse_start_resize yg = Some yg' → focus_le yg yg'.
Proof. unfold mouse_start_resize. intros Hm. break_all. all: fl. Qed.

Lemma focus_le_handle_mouse_normal yg event yg' :
  handle_mouse_normal yg event = Some yg' → focus_le yg yg'.
Proof.
  unfold handle_mouse_normal. intros Hm.
  repeat match type of Hm with
  | (if ?c then _ else _) = Some _ => destruct c eqn:?
  end.
  - exact (focus_le_mouse_start_drag _ _ Hm).
  - exact (focus_le_mouse_start_resize _ _ Hm).
  - break_all. all: fl.
  - break_all. all: fl.
Qed.

Lemma focus_le_handle_mouse_moving yg event yg' :
  handle_mouse_moving yg event = Some yg' → focus_le yg yg'.
Proof. unfold handle_mouse_moving. intros Hm. break_all. all: fl. Qed.

Lemma focus_le_handle_mouse_dragging yg event yg' :
  handle_mouse_dragging yg event = Some yg' → focus_le yg yg'.
Proof. unfold handle_mouse_dragging. intros Hm. break_all. all: fl. Qed.

Lemma focus_le_handle_mouse_resizing yg event yg' :
  handle_mouse_resizing yg event = Some yg' → focus_le yg yg'.
Proof. unfold handle_mouse_resizing. intros Hm. break_all. all: fl. Qed.

Lemma focus_le_handle_mouse_event yg event type yg' :
  handle_mouse_event yg event type = Some yg' → focus_le yg yg'.
Proof.
  unfold handle_mouse_event. intros Hm.
  etrans; [apply (focus_le_mouse_update_position yg event type)|].
  destruct (mouse_state (mouse_update_position yg event type)).
  - exact (focus_le_handle_mouse_normal _ _ _ Hm).
  - exact (focus_le_handle_mouse_moving _ _ _ Hm).
  - exact (focus_le_handle_mouse_dragging _ _ _ Hm).
  - exact (focus_le_handle_mouse_resizing _ _ _ Hm).
Qed.

Lemma focus_le_window_mark_for_close yg w yg' :
  window_mark_for_close yg w = Some yg' → focus_le yg yg'.
Proof. unfold window_mark_for_close. intros Hm. break_all. all: fl. Qed.

Lemma focus_le_window_remove_from_client yg w yg' :
  window_remove_from_client yg w = Some yg' → focus_le yg yg'.
Proof.
  unfold window_remove_from_client. intros Hm. break_all.
  all: first [reflexivity | by apply focus_le_same].
Qed.

Lemma focus_le_server_window_update_shape yg w set yg' :
  server_window_update_shape yg w set = Some yg' → focus_le yg yg'.
Proof. unfold server_window_update_shape. intros Hm. break_all. all: fl. Qed.

Lemma focus_le_yutani_query_result yg dest w yg' :
  yutani_query_result yg dest w = Some yg' → focus_le yg yg'.
Proof. unfold yutani_query_result. intros Hm. break_all. all: fl. Qed.

Lemma focus_le_server_window_create yg width height owner :
  focus_le yg (server_window_create yg width height owner).2.
Proof.
  unfold focus_le, server_window_create. cbn. rewrite length_app.
  split_and!; [lia|intros ? ?; by left..].
Qed.

Lemma focus_le_server_window_resize yg p width height id yg' :
  server_window_resize yg p width height = Some (id, yg') → focus_le yg yg'.
Proof.
  unfold server_window_resize. intros Hm. apply bind_Some in Hm as (w & _ & Hm).
  case_decide; [injection Hm as _ <-; reflexivity|].
  injection Hm as _ <-. etrans; [|apply focus_le_store].
  unfold syscall_shm_obtain, next_buf_id. by apply focus_le_same.
Qed.

Lemma focus_le_server_window_resize_finish yg p width height yg' :
  server_window_resize_finish yg p width height = Some yg' → focus_le yg yg'.
Proof.
  intros Hm. apply server_window_resize_finish_inv in Hm as (w & _ & [[_ ->]|(_ & Hm)]);
    [reflexivity|].
  destruct Hm as (yg1 & H1 & H2).
  etrans; [exact (focus_le_mark_window _ _ _ H1)|].
  etrans; [|exact (focus_le_mark_window _ _ _ H2)].
  unfold resize_promote. etrans; [|apply focus_le_store].
  transitivity (store yg1 p
    (window.set_newbufid 0
       (window.set_bufid (window.newbufid (window.set_height height (window.set_width width w)))
          (window.set_height height (window.set_width width w)))));
    [apply focus_le_store|].
  by apply focus_le_same.
Qed.

Lemma focus_le_window_actually_close yg w yg' :
  window_actually_close yg w = Some yg' → focus_le yg yg'.
Proof.
  unfold window_actually_close. intros Hm.
  apply bind_Some in Hm as (win & _ & Hm).
  apply bind_Some in Hm as (yg1 & H1 & Hm).
  apply bind_Some in Hm as (yg2 & H2 & Hm). injection Hm as <-.
  etrans; [|apply focus_le_notify_subscribers].
  assert (focus_le yg yg2) as L2.
  { etrans; [|exact (focus_le_mark_window _ _ _ H2)].
    etrans; [|exact (focus_le_unorder_window _ _ _ H1)].
    by apply focus_le_same. }
  etrans; [exact L2|].
  case_decide.
  - unfold syscall_shm_release, focus_le. cbn.
    split_and!; [done|intros ? ?; discriminate|intros ? ?; by left].
  - by apply focus_le_same.
Qed.

Lemma focus_le_mark_if_animated yg w yg' :
  mark_if_animated yg w = Some yg' → focus_le yg yg'.
Proof.
  unfold mark_if_animated. intros Hm. apply bind_Some in Hm as (win & _ & Hm).
  case_decide; [injection Hm as <-; reflexivity|].
  exact (focus_le_mark_window _ _ _ Hm).
Qed.

Lemma focus_le_yutani_blit_window st w st' :
  yutani_blit_window st w = Some st' → focus_le st.1 st'.1.
Proof.
  destruct st as [yg l]. intros Hm.
  apply yutani_blit_window_inv in Hm as (win & Hl & [-> | [-> | ->]]);
    simpl; try reflexivity.
  apply focus_le_store.
Qed.

Lemma focus_le_blit_all l st st' : blit_all l st = Some st' → focus_le st.1 st'.1.
Proof.
  revert st. induction l as [|w l IH]; intros st Hb; simpl in Hb.
  - injection Hb as <-. reflexivity.
  - apply bind_Some in Hb as (st1 & H1 & Hb).
    etrans; [exact (focus_le_yutani_blit_window _ _ _ H1)|exact (IH _ Hb)].
Qed.

Lemma focus_le_redraw_windows yg yg' : redraw_windows yg = Some yg' → focus_le yg yg'.
Proof.
  unfold redraw_windows. intros Hm.
  apply bind_Some in Hm as (yg1 & H1 & Hm).
  apply bind_Some in Hm as (yg2 & H2 & Hm).
  apply bind_Some in Hm as (yg3 & H3 & Hm).
  apply (focus_le_foreach _ _ focus_le_mark_if_animated) in H1, H2, H3.
  assert (focus_le yg yg3) as L3.
  { etrans; [|exact H3]. etrans; [|exact H2]. etrans; [|exact H1]. by apply focus_le_same. }
  etrans; [exact L3|].
  case_decide; [injection Hm as <-; by apply focus_le_same|].
  apply bind_Some in Hm as (st1 & Hb1 & Hm).
  apply bind_Some in Hm as (st2 & Hb2 & Hm).
  apply bind_Some in Hm as (st3 & Hb3 & Hm).
  apply bind_Some in Hm as (box & _ & Hm).
  apply bind_Some in Hm as (shapes & _ & Hm).
  apply focus_le_blit_all in Hb1, Hb2, Hb3. simpl in Hb1.
  etrans; [|exact (focus_le_foreach _ _ focus_le_window_actually_close _ _ Hm)].
  etrans; [|exact Hb3]. etrans; [|exact Hb2]. etrans; [|exact Hb1].
  by apply focus_le_same.
Qed.

Lemma focus_le_handle_message yg source m yg' :
  handle_message yg source m = Some yg' → focus_le yg yg'.
Proof.
  intros Hm.
  destruct m; unfold handle_message in Hm;
    try (injection Hm as <-; reflexivity).
  - (* HELLO *) injection Hm as <-. apply focus_le_pex_send.
  - (* WINDOW_NEW *)
    match type of Hm with context [server_window_create yg ?wd ?ht source] =>
      pose proof (focus_le_server_window_create yg wd ht source) as Hc;
      destruct (server_window_create yg wd ht source) as [w yg1]
    end.
    apply bind_Some in Hm as (win & _ & [= <-]).
    etrans; [|apply focus_le_notify_subscribers].
    etrans; [|apply focus_le_pex_send]. exact Hc.
  - (* FLIP *)
    destruct (wids_to_windows yg !! wid); [|injection Hm as <-; reflexivity].
    exact (focus_le_mark_window _ _ _ Hm).
  - (* FLIP_REGION *)
    destruct (wids_to_windows yg !! wid); [|injection Hm as <-; reflexivity].
    exact (focus_le_mark_window_relative _ _ _ _ _ _ _ Hm).
  - (* KEY_EVENT *) exact (focus_le_handle_key_event _ _ _ _ Hm).
  - (* MOUSE_EVENT *) exact (focus_le_handle_mouse_event _ _ _ _ Hm).
  - (* WINDOW_MOVE *)
    destruct (wids_to_windows yg !! wid); [|injection Hm as <-; reflexivity].
    break_all. fl.
  - (* WINDOW_CLOSE *)
    destruct (wids_to_windows yg !! wid); [|injection Hm as <-; reflexivity].
    apply bind_Some in Hm as (yg1 & H1 & Hm).
    etrans; [exact (focus_le_window_mark_for_close _ _ _ H1)
            |exact (focus_le_window_remove_from_client _ _ _ Hm)].
  - (* WINDOW_STACK *)
    destruct (wids_to_windows yg !! wid); [|injection Hm as <-; reflexivity].
    exact (focus_le_reorder_window _ _ _ _ Hm).
  - (* RESIZE_REQUEST *)
    destruct (wids_to_windows yg !! wid); [|injection Hm as <-; reflexivity].
    apply bind_Some in Hm as (win & _ & [= <-]). apply focus_le_pex_send.
  - (* RESIZE_OFFER *)
    destruct (wids_to_windows yg !! wid); [|injection Hm as <-; reflexivity].
    apply bind_Some in Hm as (win & _ & [= <-]). apply focus_le_pex_send.
  - (* RESIZE_ACCEPT *)
    destruct (wids_to_windows yg !! wid); [|injection Hm as <-; reflexivity].
    apply bind_Some in Hm as ([id yg1] & Hr & Hm).
    apply bind_Some in Hm as (win & _ & [= <-]).
    etrans; [|apply focus_le_pex_send].
    exact (focus_le_server_window_resize _ _ _ _ _ _ Hr).
  - (* RESIZE_DONE *)
    destruct (wids_to_windows yg !! wid); [|injection Hm as <-; reflexivity].
    exact (focus_le_server_window_resize_finish _ _ _ _ _ Hm).
  - (* QUERY_WINDOWS *)
    apply bind_Some in Hm as (yg1 & H1 & Hm).
    apply bind_Some in Hm as (yg2 & H2 & Hm).
    apply bind_Some in Hm as (yg3 & H3 & [= <-]).
    etrans; [|apply focus_le_pex_send].
    etrans; [exact (focus_le_yutani_query_result _ _ _ _ H1)|].
    etrans; [|exact (focus_le_yutani_query_result _ _ _ _ H3)].
    eapply focus_le_foreach; [|exact H2].
    intros ? ? ? Hq. exact (focus_le_yutani_query_result _ _ _ _ Hq).
  - (* WINDOW_ADVERTISE *)
    destruct (wids_to_windows yg !! wid); [|injection Hm as <-; reflexivity].
    apply bind_Some in Hm as (win & Hl & [= <-]).
    etrans; [|apply focus_le_notify_subscribers]. apply focus_le_store.
  - (* SUBSCRIBE *) injection Hm as <-. by apply focus_le_same.
  - (* UNSUBSCRIBE *)
    destruct (list_h.list_find _ _); injection Hm as <-; [|reflexivity].
    by apply focus_le_same.
  - (* SESSION_END *) injection Hm as <-. by apply focus_le_same.
  - (* WINDOW_FOCUS *)
    destruct (wids_to_windows yg !! wid); [|injection Hm as <-; reflexivity].
    exact (focus_le_set_focused_window _ _ _ Hm).
  - (* KEY_BIND *) injection Hm as <-. by apply focus_le_same.
  - (* WINDOW_DRAG_START *)
    destruct (wids_to_windows yg !! wid); [|injection Hm as <-; reflexivity].
    exact (focus_le_mouse_start_drag _ _ Hm).
  - (* WINDOW_UPDATE_SHAPE *)
    destruct (wids_to_windows yg !! wid); [|injection Hm as <-; reflexivity].
    exact (focus_le_server_window_update_shape _ _ _ _ Hm).
Qed.

Lemma focus_le_handle_packet yg p yg' : handle_packet yg p = Some yg' → focus_le yg yg'.
Proof.
  unfold handle_packet. intros Hm.
  repeat case_decide.
  - destruct (clients_to_windows yg !! source p) as [cl|];
      [|injection Hm as <-; reflexivity].
    apply bind_Some in Hm as (yg1 & H1 & Hm). injection Hm as <-.
    transitivity yg1; [|by apply focus_le_same].
    eapply focus_le_foreach; [|exact H1].
    intros ? ? ? Hc. exact (focus_le_window_mark_for_close _ _ _ Hc).
  - injection Hm as <-. reflexivity.
  - exact (focus_le_handle_message _ _ _ _ Hm).
Qed.

Lemma focus_le_step yg yg' : step yg yg' → focus_le yg yg'.
Proof.
  intros Hs. destruct Hs as [yg p yg' Hp|yg yg' Hr|yg key region pixels Hk].
  - exact (focus_le_handle_packet _ _ _ Hp).
  - exact (focus_le_redraw_windows _ _ Hr).
  - by apply focus_le_same.
Qed.

(** In every reachable state the focus pointer, when set, points at a
    window record. *)
Lemma reachable_focus_valid yg : reachable yg → focus_valid yg.
Proof.
  intros (dw & dh & Hr).
  enough (focus_valid yg ∧ bottom_valid yg) as [? _] by done.
  refine (rtc_ind_r (λ yg, focus_valid yg ∧ bottom_valid yg) _ _ _ _ Hr).
  - split; intros ? ?; discriminate.
  - intros y z _ Hs [Hf Hb]. exact (focus_le_valid _ _ (focus_le_step _ _ Hs) Hf Hb).
Qed.

(** C10: in a reachable state, a WINDOW_DRAG_START whose wid names a
    registered window is handled by [mouse_start_drag], whatever the wid,
    and the handler completes when the buffers of the stacked windows hold
    their pixels.  Whenever it completes: the window found by the hit test
    at the pointer position becomes the focused window; a window that is
    being moved afterwards is that window (not the one the wid names), then
    in state MOVING; and when the window under the pointer is in the middle
    tier it is the window that moves. *)
Theorem C10_drag_start_moves_window_under_pointer yg source wid w :
  reachable yg → wids_to_windows yg !! wid = Some w →
  handle_packet yg (packet source (YUTANI_MSG_WINDOW_DRAG_START wid))
  = mouse_start_drag yg
  ∧ (buffers_fit yg → is_Some (mouse_start_drag yg))
  ∧ ∀ yg', mouse_start_drag yg = Some yg' →
      (∀ h, pointer_hit yg = Some h → focused_window yg' = Some h)
      ∧ (∀ m, mouse_window yg' = Some m →
           pointer_hit yg = Some m ∧ mouse_state yg' = YUTANI_MOUSE_STATE_MOVING)
      ∧ (∀ h hw, pointer_hit yg = Some h → heap yg !! h = Some hw →
           is_middle hw = true →
           mouse_window yg' = Some h ∧ mouse_state yg' = YUTANI_MOUSE_STATE_MOVING).
Proof.
  intros Hr Hw.
  pose proof (mouse_start_drag_spec yg (reachable_registry_wf _ Hr)
                (reachable_focus_valid _ Hr)) as Hspec.
  split; [|split].
  - rewrite handle_packet_message. unfold handle_message. by rewrite Hw.
  - intros Hf. destruct Hspec as (yg' & Hd & _); [by apply top_at_fit|]. by eexists.
  - intros yg' Hd.
    assert (top_at yg (mouse_x yg `quot` MOUSE_SCALE) (mouse_y yg `quot` MOUSE_SCALE)
            = Some (pointer_hit yg)) as Htop.
    { pose proof Hd as Hd'. unfold mouse_start_drag, set_focused_at in Hd'.
      apply bind_Some in Hd' as (yg1 & H1 & _).
      apply bind_Some in H1 as (r & Ht & _).
      by rewrite Ht, (top_at_sound _ _ _ _ Ht). }
    destruct (Hspec Htop) as (yg2 & Hd2 & Hprops).
    assert (yg2 = yg') as <- by congruence. exact Hprops.
Qed.

End FocusFrame2.

(** ** The claims on the scenes *)

Section Examples.
#[local] Existing Instance sample_consts.

(** C1, the sentence as written fails: once window 2 has taken the TOP slot
    from window 1, window 1 is still registered and is in none of the three
    tiers; its z field holds 0xFFFF. *)
Lemma C1_counterexample_displaced_window_in_no_tier :
  reachable stacked_twice
  ∧ wids_to_windows stacked_twice !! 1 = Some 0%nat
  ∧ tier_count stacked_twice 0%nat = 0%nat
  ∧ ¬ in_tier stacked_twice 0%nat
  ∧ window.z <$> heap stacked_twice !! 0%nat = Some 65535.
Proof.
  split; [apply replay_reachable|].
  split; [vm_compute; reflexivity|].
  assert (tier_count stacked_twice 0%nat = 0%nat) as Hc by (vm_compute; reflexivity).
  split; [exact Hc|]. split; [by apply tier_count_0|vm_compute; reflexivity].
Qed.

Lemma C1_witness :
  ∃ w, heap two_windows !! 0%nat = Some w ∧ window.wid w = 1
     ∧ (tier_count two_windows 0%nat = 1%nat
        ∨ (tier_count two_windows 0%nat = 0%nat ∧ window.z w = uint16 (-1))).
Proof.
  apply (C1_registered_window_in_one_tier_or_unordered two_windows 1 0%nat).
  - apply replay_reachable.
  - vm_compute. reflexivity.
Defined.

(** C2, the sentence as written fails: window 0 held the TOP slot; after
    window 1 is reordered to TOP the middle sequence is empty, so window 0
    was not moved into it. *)
Lemma C2_counterexample_occupant_not_in_middle :
  top_z one_on_top = Some 0%nat
  ∧ ∃ yg', reorder_window one_on_top (Some 1%nat) YUTANI_ZORDER_TOP = Some yg'
           ∧ top_z yg' = Some 1%nat
           ∧ mid_zs yg' = []
           ∧ bottom_z yg' = None.
Proof.
  split; [vm_compute; reflexivity|].
  eexists. split; [vm_compute; reflexivity|].
  split_and!; vm_compute; reflexivity.
Qed.

Lemma C2_witness :
  ∃ yg' win',
    reorder_window one_on_top (Some 1%nat) YUTANI_ZORDER_TOP = Some yg'
    ∧ heap yg' !! 1%nat = Some win' ∧ window.z win' = uint16 YUTANI_ZORDER_TOP
    ∧ tier_count yg' 1%nat = 1%nat
    ∧ (if decide (uint16 YUTANI_ZORDER_TOP = YUTANI_ZORDER_TOP) then top_z yg' = Some 1%nat
       else if decide (uint16 YUTANI_ZORDER_TOP = YUTANI_ZORDER_BOTTOM)
            then bottom_z yg' = Some 1%nat
       else last (mid_zs yg') = Some 1%nat)
    ∧ (∀ t, t ≠ 1%nat →
         (uint16 YUTANI_ZORDER_TOP = YUTANI_ZORDER_TOP ∧ top_z one_on_top = Some t)
         ∨ (uint16 YUTANI_ZORDER_TOP = YUTANI_ZORDER_BOTTOM ∧ bottom_z one_on_top = Some t) →
         tier_count yg' t = 0%nat ∧ t ∉ mid_zs yg').
Proof.
  apply (C2_reorder_window one_on_top 2 1%nat YUTANI_ZORDER_TOP).
  - apply replay_reachable.
  - vm_compute. reflexivity.
Defined.

Lemma C3_witness :
  ∃ yg', run (yutani_init 1024 768)
           [packet 7 YUTANI_MSG_SUBSCRIBE; packet 7 YUTANI_MSG_SUBSCRIBE;
            packet 7 YUTANI_MSG_UNSUBSCRIBE] = Some yg'
         ∧ window_subscribers yg' = window_subscribers (yutani_init 1024 768) ++ [7]
         ∧ notify_delivered yg' 7 = 1%nat.
Proof.
  apply (C3_subscribe_twice_unsubscribe_notifies_once (yutani_init 1024 768) 7).
  simpl. apply not_elem_of_nil.
Defined.

Lemma C4_witness :
  ∃ w, heap two_windows !! 0%nat = Some w ∧
  ∃ id yg1 yg2 w2,
    handle_packet two_windows (packet 7 (YUTANI_MSG_RESIZE_ACCEPT 1 50 60 0)) = Some yg1
    ∧ outbox yg1 = outbox two_windows ++ [Pex_send 7 (YUTANI_MSG_RESIZE_BUFID 1 50 60 id)]
    ∧ id ≠ 0
    ∧ (window.newbufid w = 0 → id = next_buf_id_static two_windows)
    ∧ handle_packet yg1 (packet 7 (YUTANI_MSG_RESIZE_DONE 1 50 60 0)) = Some yg2
    ∧ heap yg2 !! 0%nat = Some w2
    ∧ window.width w2 = 50 ∧ window.height w2 = 60
    ∧ window.bufid w2 = id ∧ window.buffer w2 = Some id ∧ is_Some (shm yg2 !! id)
    ∧ window.newbufid w2 = 0 ∧ window.newbuffer w2 = None
    ∧ id ≠ window.bufid w ∧ shm yg2 !! window.bufid w = None.
Proof.
  eexists. split; [vm_compute; reflexivity|].
  apply (C4_resize_handshake two_windows 7 1 50 60 0 0 0%nat).
  - apply replay_reachable.
  - vm_compute. reflexivity.
  - vm_compute. reflexivity.
Defined.

Lemma C5_witness :
  ∃ w, heap resizing_scene !! 0%nat = Some w ∧ window.newbufid w = 2 ∧
  ∃ yg' w',
    window_actually_close resizing_scene 0%nat = Some yg'
    ∧ wids_to_windows yg' !! 1 = None
    ∧ shm yg' !! window.bufid w = None
    ∧ is_Some (shm yg' !! window.newbufid w)
    ∧ heap yg' !! 0%nat = Some w'
    ∧ window.newbufid w' = window.newbufid w
    ∧ window.newbuffer w' = Some (window.newbufid w).
Proof.
  eexists. split; [vm_compute; reflexivity|]. split; [vm_compute; reflexivity|].
  apply (C5_close_during_resize_keeps_new_buffer resizing_scene 1 0%nat).
  - apply replay_reachable.
  - vm_compute. reflexivity.
  - vm_compute. reflexivity.
  - vm_compute. discriminate.
Defined.

(** C6, the sentence as written fails: a client accepted a resize to
    10 x 10 and finished it with 2000 x 2000; the window is 2000 x 2000 and
    its buffer holds 100 pixels.  At (1000, 700), inside the window's
    rectangle, the pixel is outside the buffer: top_at returns nothing. *)
Lemma C6_counterexample_pixel_outside_the_buffer :
  reachable oversized_scene
  ∧ top_z oversized_scene = None ∧ mid_zs oversized_scene = [0%nat]
  ∧ (∃ w b r, heap oversized_scene !! 0%nat = Some w
              ∧ window.width w = 2000 ∧ window.height w = 2000
              ∧ window.buffer w = Some b ∧ shm oversized_scene !! b = Some r
              ∧ region_size r = 400)
  ∧ top_at oversized_scene 1000 700 = None
  ∧ top_at oversized_scene 1000 700
    ≠ Some (top_at_spec oversized_scene (uint16 1000) (uint16 700)).
Proof.
  split; [apply replay_reachable|].
  split_and!; try (vm_compute; reflexivity).
  { eexists _, _, _. split_and!; vm_compute; reflexivity. }
  assert (top_at oversized_scene 1000 700 = None) as -> by (vm_compute; reflexivity).
  discriminate.
Qed.

Lemma C6_witness :
  top_at drag_scene 50 50 = Some (top_at_spec drag_scene (uint16 50) (uint16 50)).
Proof.
  apply (C6_top_at_first_hit_in_z_order drag_scene 50 50). vm_compute. reflexivity.
Defined.

(* in that scene the search passes over window 2, which is in front, and
   finds window 1 *)
Lemma top_at_drag_scene :
  z_order_candidates drag_scene = [1%nat; 0%nat]
  ∧ top_at drag_scene 50 50 = Some (Some 0%nat).
Proof. split; vm_compute; reflexivity. Qed.

(** C7, the sentence as written fails: in the scene of the specification
    the chord is answered by RESIZE_OFFER(512, 744); no offer of
    (512, 372) is sent. *)
Lemma C7_counterexample_offer_is_full_height :
  width tiling_scene = 1024 ∧ height tiling_scene = 768
  ∧ top_z tiling_scene = Some 0%nat
  ∧ window.height <$> heap tiling_scene !! 0%nat = Some 24
  ∧ get_focused tiling_scene = Some 1%nat
  ∧ is_middle <$> heap tiling_scene !! 1%nat = Some true
  ∧ ∃ yg', handle_key_event tiling_scene super_left {| k_alt := 0 |} = Some yg'
           ∧ outbox yg'
             = outbox tiling_scene ++ [Pex_send 8 (YUTANI_MSG_RESIZE_OFFER 2 512 744 0)]
           ∧ ∀ dest wid flags,
               Pex_send dest (YUTANI_MSG_RESIZE_OFFER wid 512 372 flags) ∉ outbox yg'.
Proof.
  split_and!; try (vm_compute; reflexivity).
  eexists. split; [vm_compute; reflexivity|].
  split; [vm_compute; reflexivity|].
  intros dest wid flags Hin. apply list_elem_of_In in Hin. vm_compute in Hin.
  repeat destruct Hin as [Hin|Hin]; try discriminate Hin. exact Hin.
Qed.

Lemma C7_witness :
  ∃ fw, heap tiling_scene !! 1%nat = Some fw ∧
  ∃ yg' fw',
    handle_key_event tiling_scene super_left {| k_alt := 0 |} = Some yg'
    ∧ heap yg' !! 1%nat = Some fw'
    ∧ window.x fw' = 0 ∧ window.y fw' = 24
    ∧ outbox yg'
      = outbox tiling_scene ++ [Pex_send (window.owner fw)
                                  (YUTANI_MSG_RESIZE_OFFER (window.wid fw) 512 744 0)].
Proof.
  eexists. split; [vm_compute; reflexivity|].
  eapply (C7_super_left_tiles_left_half tiling_scene super_left {| k_alt := 0 |}
            0%nat _ 1%nat).
  all: try (vm_compute; reflexivity).
  vm_compute. discriminate.
Defined.

(** C8, the sentence as written fails: a relative event reporting a y
    difference of 1 moves the pointer from 150 to 147; adding 3 times the
    difference would give 153, which is inside the display.  And an absolute
    event reporting x = 1000000000 puts the pointer at 0, not at the right
    edge: 3 times the value does not fit the 32-bit int it is computed
    in. *)
Lemma C8_counterexample_relative_y_is_subtracted :
  mouse_y (yutani_init 100 100) = 150
  ∧ (∃ yg', handle_mouse_event (yutani_init 100 100) one_step_up
              YUTANI_MOUSE_EVENT_TYPE_RELATIVE = Some yg'
            ∧ mouse_y yg' = 147
            ∧ mouse_y yg'
              ≠ Z.min (height (yutani_init 100 100) * MOUSE_SCALE)
                  (Z.max 0 (mouse_y (yutani_init 100 100) + 3 * y_difference one_step_up)))
  ∧ (∃ yg', handle_mouse_event (yutani_init 100 100) far_right
              YUTANI_MOUSE_EVENT_TYPE_ABSOLUTE = Some yg'
            ∧ mouse_x yg' = 0
            ∧ mouse_x yg'
              ≠ Z.min (width (yutani_init 100 100) * MOUSE_SCALE)
                  (Z.max 0 (3 * x_difference far_right))).
Proof.
  split; [vm_compute; reflexivity|]. split.
  - eexists. split; [vm_compute; reflexivity|].
    split; [vm_compute; reflexivity|]. vm_compute. discriminate.
  - eexists. split; [vm_compute; reflexivity|].
    split; [vm_compute; reflexivity|]. vm_compute. discriminate.
Qed.

Lemma C8_witness :
  let yg := yutani_init 100 100 in
  let event := one_step_up in
  let type := YUTANI_MOUSE_EVENT_TYPE_RELATIVE in
  let pos := mouse_update_position yg event type in
  let clamp (hi v : Z) := Z.min hi (Z.max 0 v) in
  (mouse_x pos
   = clamp (width yg * MOUSE_SCALE)
       match type with
       | YUTANI_MOUSE_EVENT_TYPE_RELATIVE => mouse_x yg + 3 * x_difference event
       | YUTANI_MOUSE_EVENT_TYPE_ABSOLUTE => 3 * x_difference event
       | YUTANI_MOUSE_EVENT_TYPE_OTHER => mouse_x yg
       end
   ∧ mouse_y pos
     = clamp (height yg * MOUSE_SCALE)
         match type with
         | YUTANI_MOUSE_EVENT_TYPE_RELATIVE => mouse_y yg - 3 * y_difference event
         | YUTANI_MOUSE_EVENT_TYPE_ABSOLUTE => 3 * y_difference event
         | YUTANI_MOUSE_EVENT_TYPE_OTHER => mouse_y yg
         end
   ∧ 0 <= mouse_x pos <= width yg * MOUSE_SCALE
   ∧ 0 <= mouse_y pos <= height yg * MOUSE_SCALE)
  ∧ ∀ yg', handle_mouse_event yg event type = Some yg' →
      mouse_x yg' = mouse_x pos ∧ mouse_y yg' = mouse_y pos
      ∧ 0 <= mouse_x yg' <= width yg' * MOUSE_SCALE
      ∧ 0 <= mouse_y yg' <= height yg' * MOUSE_SCALE.
Proof.
  apply (C8_mouse_event_position (yutani_init 100 100) one_step_up
           YUTANI_MOUSE_EVENT_TYPE_RELATIVE).
  all: lazymatch goal with |- _ ≠ _ → _ => intros _ | |- _ = _ → _ => intros _
                             | |- _ => idtac end.
  all: unfold fits_int32; vm_compute; intuition congruence.
Defined.

(** C10 at work: DRAG_START names window 2, the pointer is over window 1,
    and it is window 1 that moves. *)
Lemma C10_witness :
  wids_to_windows drag_scene !! 2 = Some 1%nat
  ∧ pointer_hit drag_scene = Some 0%nat
  ∧ ∃ yg', handle_packet drag_scene (packet 8 (YUTANI_MSG_WINDOW_DRAG_START 2)) = Some yg'
           ∧ focused_window yg' = Some 0%nat
           ∧ mouse_window yg' = Some 0%nat
           ∧ mouse_state yg' = YUTANI_MOUSE_STATE_MOVING.
Proof.
  assert (wids_to_windows drag_scene !! 2 = Some 1%nat) as Hw by (vm_compute; reflexivity).
  assert (pointer_hit drag_scene = Some 0%nat) as Hp by (vm_compute; reflexivity).
  assert (buffers_fit drag_scene) as Hfit by (vm_compute; reflexivity).
  split; [exact Hw|]. split; [exact Hp|].
  destruct (C10_drag_start_moves_window_under_pointer drag_scene 8 2 1%nat
              (replay_reachable _ _ _) Hw) as (Hh & Htot & Hprops).
  destruct (Htot Hfit) as [yg' Hd].
  destruct (Hprops yg' Hd) as (Hf & _ & Hm).
  exists yg'. split; [by rewrite Hh|]. split; [exact (Hf _ Hp)|].
  eapply (Hm 0%nat _ Hp); vm_compute; reflexivity.
Defined.

End Examples.

(** * Further properties of the compositor *)

(** ** What the invariants say about a reachable state *)

Section ReachableFacts.
Context `{YutaniConsts}.
Implicit Types yg : yutani_globals_t.

Lemma zorder_wf_slot_of_z yg p w :
  zorder_wf yg → in_tier yg p → heap yg !! p = Some w →
  (window.z w = YUTANI_ZORDER_TOP ↔ top_z yg = Some p)
  ∧ (window.z w = YUTANI_ZORDER_BOTTOM ↔ bottom_z yg = Some p)
  ∧ (window.z w ≠ YUTANI_ZORDER_TOP ∧ window.z w ≠ YUTANI_ZORDER_BOTTOM ↔ p ∈ mid_zs yg).
Proof.
  intros Hwf Hin Hl. pose proof zorder_top_bottom as Htb.
  assert (Ht : top_z yg = Some p → window.z w = YUTANI_ZORDER_TOP).
  { intros Hp. destruct (wf_top _ Hwf p Hp) as (w' & Hl' & Hz). congruence. }
  assert (Hb : bottom_z yg = Some p → window.z w = YUTANI_ZORDER_BOTTOM).
  { intros Hp. destruct (wf_bottom _ Hwf p Hp) as (w' & Hl' & Hz). congruence. }
  assert (Hm : p ∈ mid_zs yg →
               window.z w ≠ YUTANI_ZORDER_TOP ∧ window.z w ≠ YUTANI_ZORDER_BOTTOM).
  { intros Hp. destruct (wf_mid _ Hwf p Hp) as (w' & Hl' & Hz). by simplify_eq. }
  assert (Hx : ¬ (window.z w = YUTANI_ZORDER_TOP ∧ window.z w = YUTANI_ZORDER_BOTTOM))
    by (intros [? ?]; congruence).
  unfold in_tier in Hin. tauto.
Qed.

(** X1: for a window of the stacking order of a reachable state, the tests
    [window_is_top] and [window_is_bottom] on its z field say which slot
    holds it: the test is true exactly for the window in top_z (bottom_z),
    and both are false exactly for the windows of the middle sequence,
    which has no window twice. *)
Theorem X1_z_tests_agree_with_slots yg p w :
  reachable yg → in_tier yg p → heap yg !! p = Some w →
  (window_is_top w = true ↔ top_z yg = Some p)
  ∧ (window_is_bottom w = true ↔ bottom_z yg = Some p)
  ∧ (window_is_top w = false ∧ window_is_bottom w = false ↔ p ∈ mid_zs yg)
  ∧ NoDup (mid_zs yg).
Proof.
  intros Hr Hin Hl. pose proof (rwf_zorder _ (reachable_registry_wf _ Hr)) as Hwf.
  destruct (zorder_wf_slot_of_z yg p w Hwf Hin Hl) as (Ht & Hb & Hm).
  unfold window_is_top, window_is_bottom.
  rewrite !bool_decide_eq_true, !bool_decide_eq_false.
  split_and!; [exact Ht|exact Hb|exact Hm|apply Hwf].
Qed.

(** X2: in a reachable state two different window records never share a
    wid or a buffer id; every wid is below the next wid to hand out, every
    buffer id is at least 1 and below the next buffer id, and the id of a
    buffer announced for a resize differs from the id of the buffer in
    use. *)
Theorem X2_window_ids_are_unique yg p q w v :
  reachable yg → heap yg !! p = Some w → heap yg !! q = Some v → p ≠ q →
  window.wid w ≠ window.wid v
  ∧ window.bufid w ≠ window.bufid v
  ∧ window.bufid w ≠ window.newbufid v
  ∧ window.newbufid w ≠ window.bufid w
  ∧ window.wid w < next_wid_static yg
  ∧ 1 <= window.bufid w < next_buf_id_static yg.
Proof.
  intros Hr Hp Hq Hne. pose proof (reachable_registry_wf _ Hr) as Hwf.
  destruct (rwf_buf_inj _ Hwf p q w v Hp Hq Hne) as (Hb & Hbn & _).
  destruct (rwf_buf_range _ Hwf p w Hp) as (Hrange & _ & Hnb).
  pose proof (rwf_wid _ Hwf p w Hp) as Hlt.
  assert (window.wid w ≠ window.wid v) as Hwid.
  { intros Heq. apply Hne. exact (rwf_wid_inj _ Hwf p q w v Hp Hq Heq). }
  repeat split; first [assumption | lia].
Qed.

(** X3: in a reachable state the wid lookup returns, for a wid it holds, a
    window record that carries this wid, whose buffer is mapped to a
    shared-memory region under its buffer id; no two wids name the same
    window. *)
Theorem X3_wid_lookup_names_a_mapped_window yg k p :
  reachable yg → wids_to_windows yg !! k = Some p →
  (∃ w r, heap yg !! p = Some w ∧ window.wid w = k
          ∧ window.buffer w = Some (window.bufid w)
          ∧ shm yg !! window.bufid w = Some r)
  ∧ (∀ k', wids_to_windows yg !! k' = Some p → k' = k).
Proof.
  intros Hr Hk. pose proof (reachable_registry_wf _ Hr) as Hwf.
  destruct (wf_wids _ (rwf_zorder _ Hwf) k p Hk) as (w & Hl & Hwid).
  split.
  - destruct (rwf_mapped _ Hwf p w Hl) as (Hb & [r Hr'] & _); [by rewrite Hwid|].
    by exists w, r.
  - intros k' Hk'. destruct (wf_wids _ (rwf_zorder _ Hwf) k' p Hk') as (w' & Hl' & Hwid').
    congruence.
Qed.

(** X4: the stacking order of a reachable state holds no stale entry: a
    window in top_z, bottom_z or the middle sequence is registered in the
    wid lookup under its own wid. *)
Theorem X4_stacked_windows_are_registered yg p :
  reachable yg → in_tier yg p →
  ∃ w, heap yg !! p = Some w ∧ wids_to_windows yg !! window.wid w = Some p.
Proof.
  intros Hr Hin. apply (rwf_tier_live _ (reachable_registry_wf _ Hr)).
  by apply tier_count_pos.
Qed.

End ReachableFacts.

(** ** Geometry and damage *)

Section Geometry.
Context `{YutaniConsts}.
Implicit Types yg : yutani_globals_t.

(** X5: for a window that is not rotated, [device_to_window] and
    [window_to_device] are exact inverses of each other, in both
    orders. *)
Theorem X5_unrotated_coordinates_round_trip yg p w x y out :
  heap yg !! p = Some w → window.rotation w = 0 →
  device_to_window yg (Some p) (window_to_device w x y).1 (window_to_device w x y).2 out
  = Some (x, y)
  ∧ ∃ c, device_to_window yg (Some p) x y out = Some c
         ∧ window_to_device w c.1 c.2 = (x, y).
Proof.
  intros Hl Hz. unfold device_to_window, window_to_device. rewrite Hl.
  cbn [mbind option_bind]. rewrite !decide_True by done. cbn [fst snd]. split.
  - do 2 f_equal; lia.
  - eexists. split; [reflexivity|]. rewrite decide_True by done.
    cbn [fst snd]. f_equal; lia.
Qed.

(** X6: marking a whole window is marking, relative to it, the region at
    (0, 0) of the window's width and height, rotated or not: a FLIP is the
    FLIP_REGION of the full window. *)
Theorem X6_mark_window_is_mark_window_relative yg p w :
  heap yg !! p = Some w →
  mark_window yg p = mark_window_relative yg p 0 0 (window.width w) (window.height w).
Proof.
  intros Hl. unfold mark_window, mark_window_relative. rewrite Hl.
  cbn [mbind option_bind]. rewrite !Z.add_0_l, !Z.add_0_r. reflexivity.
Qed.

Lemma min_le a b : min a b <= a ∧ min a b <= b.
Proof. unfold min. case_decide; lia. Qed.

Lemma max_ge a b : a <= max a b ∧ b <= max a b.
Proof. unfold max. case_decide; lia. Qed.

(** X7: for a rotated window the rectangle that [mark_window_relative]
    appends to the damage list is the bounding box of the device images of
    the four corners of the region: each corner lies inside it. *)
Theorem X7_damage_of_rotated_region_bounds_its_corners yg p w x y width height yg' :
  heap yg !! p = Some w → window.rotation w ≠ 0 →
  mark_window_relative yg p x y width height = Some yg' →
  ∃ r, update_list yg' = update_list yg ++ [r]
       ∧ ∀ cx cy, (cx = x ∨ cx = x + width) → (cy = y ∨ cy = y + height) →
           rect.x r <= (window_to_device w cx cy).1 <= rect.x r + rect.width r
           ∧ rect.y r <= (window_to_device w cx cy).2 <= rect.y r + rect.height r.
Proof.
  intros Hl Hrot. unfold mark_window_relative. rewrite Hl. cbn [mbind option_bind].
  rewrite decide_False by done. intros [= <-].
  eexists. split; [reflexivity|]. cbn [rect.x rect.y rect.width rect.height].
  set (ul := window_to_device w x y).
  set (ll := window_to_device w x (y + height)).
  set (ur := window_to_device w (x + width) y).
  set (lr := window_to_device w (x + width) (y + height)).
  pose proof (min_le (min ul.1 ll.1) (min ur.1 lr.1)).
  pose proof (min_le ul.1 ll.1). pose proof (min_le ur.1 lr.1).
  pose proof (min_le (min ul.2 ll.2) (min ur.2 lr.2)).
  pose proof (min_le ul.2 ll.2). pose proof (min_le ur.2 lr.2).
  pose proof (max_ge (max ul.1 ll.1) (max ur.1 lr.1)).
  pose proof (max_ge ul.1 ll.1). pose proof (max_ge ur.1 lr.1).
  pose proof (max_ge (max ul.2 ll.2) (max ur.2 lr.2)).
  pose proof (max_ge ul.2 ll.2). pose proof (max_ge ur.2 lr.2).
  intros cx cy [->| ->] [->| ->]; fold ul ll ur lr; lia.
Qed.

End Geometry.

(** ** Debug colours *)

Lemma colors_lookup_mod v :
  ∃ c, colors !! Z.to_nat (v `mod` 14) = Some c ∧ c ∈ colors ∧ _ALP c = 255.
Proof.
  pose proof (Z.mod_pos_bound v 14 ltac:(lia)) as Hb.
  assert (∃ n, (n < 14)%nat ∧ Z.to_nat (v `mod` 14) = n) as (n & Hn & ->)
    by (eexists; split; [|reflexivity]; lia).
  do 14 (destruct n as [|n]; [eexists; split; [reflexivity|];
                              split; [set_solver|reflexivity]|]).
  lia.
Qed.

(* the index is inside the table for every wid *)
Lemma color_for_wid_is_Some wid : is_Some (color_for_wid wid).
Proof.
  unfold color_for_wid. cbv zeta.
  destruct (colors_lookup_mod (if decide (wid < 0) then uint32 wid else wid))
    as (c & Hc & _).
  by eexists.
Qed.

(** X8: for a wid that is not negative [color_for_wid] reads inside its
    table of 14 colours, the colour is opaque (alpha 255), and wids that
    differ by 14 get the same colour. *)
Theorem X8_color_for_wid_in_table_and_opaque wid :
  0 <= wid →
  (∃ c, color_for_wid wid = Some c ∧ c ∈ colors ∧ _ALP c = 255)
  ∧ color_for_wid (wid + 14) = color_for_wid wid.
Proof.
  intros Hw. split.
  - unfold color_for_wid. cbv zeta. apply colors_lookup_mod.
  - unfold color_for_wid. cbv zeta.
    rewrite !decide_False by lia.
    replace (wid + 14) with (wid + 1 * 14) by lia. by rewrite Z.mod_add by lia.
Qed.

(** ** What the protocol loop does with a message *)

Section Protocol.
Context `{YutaniConsts}.
Implicit Types yg : yutani_globals_t.

(* the record [server_window_create] builds *)
Lemma server_window_create_window yg width height owner :
  let r := server_window_create yg width height owner in
  ∃ w, heap r.2 = heap yg ++ [w]
    ∧ window.owner w = owner ∧ window.x w = 0 ∧ window.y w = 0
    ∧ window.rotation w = 0 ∧ window.alpha_threshold w = 0
    ∧ window.client_length w = 0 ∧ window.newbuffer w = None
    ∧ window.anim_mode w = YUTANI_EFFECT_FADE_IN
    ∧ window.anim_start w = tick_count yg.
Proof. simpl. eexists. unfold server_window_create. simpl. by split_and!. Qed.

Lemma next_wid_fresh yg :
  registry_wf yg → wids_to_windows yg !! next_wid_static yg = None.
Proof.
  intros Hwf. destruct (wids_to_windows yg !! next_wid_static yg) as [p|] eqn:E; [|done].
  destruct (wf_wids _ (rwf_zorder _ Hwf) _ _ E) as (w & Hl & Hwid).
  pose proof (rwf_wid _ Hwf p w Hl). lia.
Qed.

(** X9: in a reachable state WINDOW_NEW(width, height) from a client is
    always handled; it appends one window record, owned by the sender, of
    the requested size at the origin, fading in, with a wid that was not
    registered and the next buffer id, whose region is mapped afterwards;
    it registers the window under the new wid, puts it at the front (the
    end) of the middle sequence and leaves the TOP and BOTTOM slots alone;
    the sender gets WINDOW_INIT with the wid, the size and the buffer id,
    and then every subscriber gets one NOTIFY. *)
Theorem X9_window_new_registers_a_fresh_window yg source wd ht :
  reachable yg →
  ∃ yg' w,
    handle_packet yg (packet source (YUTANI_MSG_WINDOW_NEW wd ht)) = Some yg'
    ∧ wids_to_windows yg !! next_wid_static yg = None
    ∧ heap yg' = heap yg ++ [w]
    ∧ window.wid w = next_wid_static yg ∧ window.owner w = source
    ∧ window.width w = wd ∧ window.height w = ht
    ∧ window.x w = 0 ∧ window.y w = 0 ∧ window.z w = 1
    ∧ window.bufid w = next_buf_id_static yg
    ∧ window.buffer w = Some (next_buf_id_static yg)
    ∧ is_Some (shm yg' !! next_buf_id_static yg)
    ∧ window.anim_mode w = YUTANI_EFFECT_FADE_IN
    ∧ wids_to_windows yg'
      = <[next_wid_static yg := length (heap yg)]> (wids_to_windows yg)
    ∧ mid_zs yg' = mid_zs yg ++ [length (heap yg)]
    ∧ top_z yg' = top_z yg ∧ bottom_z yg' = bottom_z yg
    ∧ outbox yg'
      = outbox yg
        ++ Pex_send source
             (YUTANI_MSG_WINDOW_INIT (next_wid_static yg) wd ht (next_buf_id_static yg))
           :: ((λ c, Pex_send c YUTANI_MSG_NOTIFY) <$> window_subscribers yg).
Proof.
  intros Hr. pose proof (reachable_registry_wf _ Hr) as Hwf.
  rewrite handle_packet_message. unfold handle_message.
  destruct (server_window_create_inv yg wd ht source)
    as (w & Hp & Hh & Hwid & Hz & Hbuf & Hbuffer & Hnew & Hwd & Hht & Hwids & Hmid & Htop
        & Hbot & Hnb & Hnw & Hshm & Hshm' & Hout & Hsubs).
  destruct (server_window_create_window yg wd ht source)
    as (w' & Hh' & Howner & Hx & Hy & _ & _ & _ & _ & Hanim & _).
  assert (w' = w) as ->.
  { rewrite Hh in Hh'. by apply app_inj_tail in Hh' as [_ ->]. }
  destruct (server_window_create yg wd ht source) as [p yg1].
  cbn [fst snd] in *. subst p.
  assert (heap yg1 !! length (heap yg) = Some w) as Hl.
  { rewrite Hh. by apply list_lookup_middle. }
  rewrite Hl. cbn [mbind option_bind].
  eexists _, w. split; [reflexivity|].
  rewrite Hwid, Hwd, Hht, Hbuf.
  set (yg2 := pex_send yg1 source _).
  pose proof (notify_subscribers_outbox yg2) as Hno.
  destruct (notify_subscribers_set_outbox yg2) as [o Ho]. rewrite Ho in Hno |- *.
  cbn in Hno |- *. rewrite Hno, Hout, Hsubs, <- app_assoc.
  split_and!; try done. by apply next_wid_fresh.
Qed.

(** X10: a message that names a window by a wid the lookup does not hold
    is dropped: whatever its type and its sender, the state after the
    packet is the state before it (no reply, no damage, no change). *)
Theorem X10_unknown_wid_is_ignored yg source m wid :
  msg_window m = Some wid → wids_to_windows yg !! wid = None →
  handle_packet yg (packet source m) = Some yg.
Proof.
  intros Hm Hn. rewrite handle_packet_message.
  destruct m; cbn in Hm; try discriminate Hm; injection Hm as ->;
    unfold handle_message; rewrite Hn; reflexivity.
Qed.

Lemma filter_count_occ (l : list Z) c :
  length (List.filter (λ s, bool_decide (s = c)) l) = count_occ Z.eq_dec l c.
Proof.
  induction l as [|s l IH]; [done|]. cbn [List.filter count_occ].
  destruct (Z.eq_dec s c) as [->|Hne].
  - rewrite bool_decide_true by done. cbn [length]. by rewrite IH.
  - by rewrite bool_decide_false.
Qed.

(** X11: [notify_subscribers] appends to the transport one NOTIFY per
    entry of the subscriber list, in the order of the list, and nothing
    else; a client that is in the list k times gets k of them. *)
Theorem X11_notify_sends_one_per_entry yg c :
  outbox (notify_subscribers yg)
  = outbox yg ++ ((λ s, Pex_send s YUTANI_MSG_NOTIFY) <$> window_subscribers yg)
  ∧ notify_delivered yg c = count_occ Z.eq_dec (window_subscribers yg) c.
Proof.
  split; [apply notify_subscribers_outbox|].
  rewrite notify_delivered_count. apply filter_count_occ.
Qed.

Lemma set_window_subscribers_same yg :
  set_window_subscribers (window_subscribers yg) yg = yg.
Proof. by destruct yg. Qed.

(** X12: for a client that is not subscribed, UNSUBSCRIBE changes nothing,
    and SUBSCRIBE followed by UNSUBSCRIBE gives back the state before the
    two packets. *)
Theorem X12_subscribe_unsubscribe_round_trip yg c :
  c ∉ window_subscribers yg →
  handle_packet yg (packet c YUTANI_MSG_UNSUBSCRIBE) = Some yg
  ∧ run yg [packet c YUTANI_MSG_SUBSCRIBE; packet c YUTANI_MSG_UNSUBSCRIBE] = Some yg.
Proof.
  intros Hn. split.
  - rewrite handle_packet_message. unfold handle_message.
    by rewrite (proj2 (list_h_find_None _ _) Hn).
  - cbn [run]. rewrite handle_packet_message. cbn [handle_message mbind option_bind].
    rewrite handle_packet_message. unfold handle_message, list_h.list_insert.
    cbn [window_subscribers set_window_subscribers].
    rewrite (list_h_find_snoc_fresh _ _ [] Hn). cbn [mbind option_bind].
    unfold list_h.list_delete. rewrite delete_take_drop, take_app_length.
    rewrite drop_app_ge by lia.
    replace (S (length (window_subscribers yg)) - length (window_subscribers yg))%nat
      with 1%nat by lia.
    cbn [drop]. rewrite app_nil_r. f_equal. by destruct yg.
Qed.

(** X13: WINDOW_MOVE(wid, x, y) for a registered window that is not
    rotated, from any client, sets the window's origin to (x, y) and
    appends two rectangles to the damage list, the window's old rectangle
    and then its new one; it sends nothing and keeps the stacking order. *)
Theorem X13_window_move_marks_old_and_new_place yg source wid p w x y :
  wids_to_windows yg !! wid = Some p → heap yg !! p = Some w → window.rotation w = 0 →
  ∃ yg',
    handle_packet yg (packet source (YUTANI_MSG_WINDOW_MOVE wid x y)) = Some yg'
    ∧ heap yg' = <[p := window.set_y y (window.set_x x w)]> (heap yg)
    ∧ update_list yg'
      = update_list yg
        ++ [rect.mk (window.x w) (window.y w) (window.width w) (window.height w);
            rect.mk x y (window.width w) (window.height w)]
    ∧ outbox yg' = outbox yg
    ∧ mid_zs yg' = mid_zs yg ∧ top_z yg' = top_z yg ∧ bottom_z yg' = bottom_z yg.
Proof.
  intros Hw Hl Hrot. rewrite handle_packet_message. unfold handle_message. rewrite Hw.
  unfold mark_window at 2. rewrite Hl. cbn [mbind option_bind].
  rewrite decide_True by done.
  match goal with |- context [heap ?s !! p] =>
    assert (heap s !! p = Some w) as -> by exact Hl end.
  cbn [mbind option_bind]. unfold mark_window, store.
  match goal with |- context [heap ?s !! p] =>
    assert (heap s !! p = Some (window.set_y y (window.set_x x w))) as ->
      by (cbn; apply list_lookup_insert_eq; by eapply lookup_lt_Some) end.
  cbn [mbind option_bind]. rewrite decide_True by done.
  eexists. split; [reflexivity|]. cbn. unfold list_h.list_insert.
  rewrite <- app_assoc. by split_and!.
Qed.

(** X14: the resize handshake out of order.  RESIZE_DONE for a window
    with no announced buffer changes nothing.  RESIZE_ACCEPT for a window
    whose new buffer is already announced allocates nothing: the reply
    carries the pending buffer id with the size of this request, and the
    reply is the only change of the state. *)
Theorem X14_resize_messages_out_of_order yg source wid p w wd ht b :
  reachable yg → wids_to_windows yg !! wid = Some p → heap yg !! p = Some w →
  (window.newbufid w = 0 →
   handle_packet yg (packet source (YUTANI_MSG_RESIZE_DONE wid wd ht b)) = Some yg)
  ∧ (window.newbufid w ≠ 0 →
     handle_packet yg (packet source (YUTANI_MSG_RESIZE_ACCEPT wid wd ht b))
     = Some (pex_send yg source (YUTANI_MSG_RESIZE_BUFID wid wd ht (window.newbufid w)))).
Proof.
  intros Hr Hw Hl. pose proof (reachable_registry_wf _ Hr) as Hwf.
  destruct (wf_wids _ (rwf_zorder _ Hwf) _ _ Hw) as (w0 & Hl0 & Hwid).
  assert (w0 = w) as -> by congruence.
  split; intros Hn; rewrite handle_packet_message; unfold handle_message; rewrite Hw.
  - unfold server_window_resize_finish. rewrite Hl. cbn [mbind option_bind].
    by rewrite decide_True.
  - unfold server_window_resize. rewrite Hl. cbn [mbind option_bind].
    rewrite decide_True by done. cbn [mbind option_bind]. rewrite Hl.
    cbn [mbind option_bind]. by rewrite Hwid.
Qed.

End Protocol.

(** ** Raising, focus, key bindings *)

Section FocusAndKeys.
Context `{YutaniConsts}.
Implicit Types yg : yutani_globals_t.

Lemma filter_ne_not_elem_of (l : list nat) (p : nat) :
  p ∉ l → filter (λ q, q ≠ p) l = l.
Proof.
  induction l as [|a l IH]; [done|]. intros Hn.
  apply not_elem_of_cons in Hn as [Hne Hn].
  rewrite filter_cons_True by done. by rewrite IH.
Qed.

Lemma delete_NoDup_filter (l : list nat) (n p : nat) :
  NoDup l → l !! n = Some p → delete n l = filter (λ q, q ≠ p) l.
Proof.
  revert n. induction l as [|a l IH]; intros n Hnd Hl; [done|].
  apply NoDup_cons in Hnd as [Ha Hnd]. destruct n as [|n]; simpl in Hl.
  - injection Hl as ->. rewrite filter_cons_False by (intros Hx; by apply Hx).
    cbn [delete list_delete]. by rewrite filter_ne_not_elem_of.
  - assert (a ≠ p) as Hne.
    { intros ->. apply Ha. by eapply list_elem_of_lookup_2. }
    rewrite filter_cons_True by done. cbn [delete list_delete]. f_equal. by apply IH.
Qed.

Lemma set_mid_zs_same yg : set_mid_zs (mid_zs yg) yg = yg.
Proof. by destruct yg. Qed.

(** X15: [make_top] in a reachable state.  For a window whose z is TOP or
    BOTTOM, or that is not in the middle sequence, it changes nothing.  A
    window of the middle sequence is taken out of the sequence and appended
    at its end (the front): the other windows keep their order, nothing
    else changes, and raising the window a second time changes nothing. *)
Theorem X15_make_top_raises_within_the_middle yg p w :
  reachable yg → heap yg !! p = Some w →
  (window.z w = YUTANI_ZORDER_TOP ∨ window.z w = YUTANI_ZORDER_BOTTOM ∨ p ∉ mid_zs yg →
   make_top yg p = Some yg)
  ∧ (p ∈ mid_zs yg →
     let yg' := set_mid_zs (filter (λ q, q ≠ p) (mid_zs yg) ++ [p]) yg in
     make_top yg p = Some yg' ∧ make_top yg' p = Some yg').
Proof.
  intros Hr Hl. pose proof (rwf_zorder _ (reachable_registry_wf _ Hr)) as Hwf.
  pose proof (uint16_id _ (wf_z _ Hwf p w Hl)) as Hu.
  split.
  - intros Hc. unfold make_top. rewrite Hl. cbn [mbind option_bind]. rewrite Hu.
    repeat case_decide; try done.
    destruct Hc as [?|[?|Hn]]; try done.
    by rewrite (proj2 (list_h_find_None _ _) Hn).
  - intros Hin yg'.
    destruct (wf_mid _ Hwf p Hin) as (w' & Hl' & Hnt & Hnb).
    assert (w' = w) as -> by congruence.
    assert (∀ (s : yutani_globals_t) l,
              heap s = heap yg → mid_zs s = l → NoDup l → p ∈ l →
              make_top s p = Some (set_mid_zs (filter (λ q, q ≠ p) l ++ [p]) s)) as Hmt.
    { intros s l Hh Hm Hnd Hp. unfold make_top. rewrite Hh, Hl.
      cbn [mbind option_bind]. rewrite Hu, !decide_False by done. rewrite Hm.
      destruct (list_h_find_is_Some _ _ Hp) as [n Hn]. rewrite Hn.
      unfold list_h.list_append, list_h.list_delete.
      by rewrite (delete_NoDup_filter _ _ _ Hnd (list_h_find_lookup _ _ _ Hn)). }
    split; [exact (Hmt yg _ eq_refl eq_refl (wf_mid_nodup _ Hwf) Hin)|].
    set (l' := filter (λ q, q ≠ p) (mid_zs yg)).
    assert (p ∉ l') as Hnp.
    { unfold l'. rewrite list_elem_of_filter. intros [Hx _]. by apply Hx. }
    assert (NoDup (l' ++ [p])) as Hnd'.
    { apply NoDup_app. split_and!.
      - apply NoDup_filter, Hwf.
      - intros x Hx Hx'. apply list_elem_of_singleton in Hx'. by subst.
      - apply NoDup_singleton. }
    rewrite (Hmt yg' (l' ++ [p]) eq_refl eq_refl Hnd') by (apply elem_of_app; right; left).
    f_equal. unfold yg'. fold l'. cbn.
    rewrite filter_app, (filter_ne_not_elem_of _ _ Hnp).
    rewrite filter_cons_False by (intros Hx; by apply Hx). by rewrite filter_nil, app_nil_r.
Qed.

Lemma set_focused_window_outbox yg p w yg' :
  heap yg !! p = Some w → focused_window yg ≠ Some p →
  set_focused_window yg (Some p) = Some yg' →
  outbox yg'
  = outbox yg ++ unfocus_messages yg
    ++ Pex_send (window.owner w) (YUTANI_MSG_WINDOW_FOCUS_CHANGE (window.wid w) 1)
       :: ((λ c, Pex_send c YUTANI_MSG_NOTIFY) <$> window_subscribers yg).
Proof.
  intros Hl Hne. unfold set_focused_window, unfocus_messages.
  rewrite decide_False by congruence. intros Hm.
  apply bind_Some in Hm as (yg1 & H1 & Hm).
  apply bind_Some in Hm as (yg2 & H2 & Hm). injection Hm as <-.
  apply bind_Some in H2 as (pw & Hp & H2).
  assert (heap yg1 = heap yg ∧ window_subscribers yg1 = window_subscribers yg
          ∧ outbox yg1
            = outbox yg
              ++ match focused_window yg ≫= (heap yg !!.) with
                 | Some fw =>
                     [Pex_send (window.owner fw)
                        (YUTANI_MSG_WINDOW_FOCUS_CHANGE (window.wid fw) 0)]
                 | None => []
                 end) as (Hh1 & Hs1 & Ho1).
  { destruct (focused_window yg) as [f|]; cbn [mbind option_bind].
    - apply bind_Some in H1 as (fw & Hf & H1). injection H1 as <-. by rewrite Hf.
    - injection H1 as <-. by rewrite app_nil_r. }
  assert (pw = w) as ->.
  { cbn in Hp. rewrite Hh1 in Hp. congruence. }
  rewrite notify_subscribers_outbox.
  apply make_top_cases in H2 as [->|[l ->]]; cbn; rewrite Ho1, Hs1, <- !app_assoc; done.
Qed.

(** X16: WINDOW_FOCUS(wid) for a registered window, in a reachable state,
    is always handled and leaves that window focused.  When the window had
    the focus already nothing changes; otherwise the window that loses the
    focus is sent FOCUS_CHANGE(its wid, 0), the new one FOCUS_CHANGE(wid,
    1), and every subscriber one NOTIFY, in this order.  Sending the
    message again changes nothing. *)
Theorem X16_window_focus_is_idempotent yg source wid p w :
  reachable yg → wids_to_windows yg !! wid = Some p → heap yg !! p = Some w →
  ∃ yg',
    handle_packet yg (packet source (YUTANI_MSG_WINDOW_FOCUS wid)) = Some yg'
    ∧ focused_window yg' = Some p
    ∧ handle_packet yg' (packet source (YUTANI_MSG_WINDOW_FOCUS wid)) = Some yg'
    ∧ (focused_window yg = Some p → yg' = yg)
    ∧ (focused_window yg ≠ Some p →
       outbox yg'
       = outbox yg ++ unfocus_messages yg
         ++ Pex_send (window.owner w) (YUTANI_MSG_WINDOW_FOCUS_CHANGE wid 1)
            :: ((λ c, Pex_send c YUTANI_MSG_NOTIFY) <$> window_subscribers yg)).
Proof.
  intros Hr Hw Hl. pose proof (reachable_registry_wf _ Hr) as Hwf.
  destruct (wf_wids _ (rwf_zorder _ Hwf) _ _ Hw) as (w0 & Hl0 & Hwid).
  assert (w0 = w) as -> by congruence.
  destruct (set_focused_window_is_Some yg (Some p) (reachable_focus_valid _ Hr))
    as [yg' Hs].
  { intros ? [= <-]. by eexists. }
  exists yg'.
  destruct (set_focused_window_focus _ _ _ Hs) as [_ Hf]. specialize (Hf p eq_refl).
  pose proof (same_core_wids _ _ (same_core_set_focused_window _ _ _ Hs)) as Hwids.
  rewrite !handle_packet_message. unfold handle_message. rewrite Hwids, Hw.
  split_and!; [exact Hs|exact Hf| | |].
  - unfold set_focused_window. by rewrite decide_True.
  - intros Hfp. revert Hs. unfold set_focused_window. rewrite decide_True by done.
    by intros [= <-].
  - intros Hne. rewrite <- Hwid. exact (set_focused_window_outbox yg p w yg' Hl Hne Hs).
Qed.

Lemma key_code_agree k m :
  0 <= k < 16777216 → 0 <= m < 256 →
  uint32 (Z.lor (Z.shiftl m 24) k)
  = Z.lor (Z.shiftl (m mod 256) 24) (Z.land (uint32 k) 16777215).
Proof.
  intros Hk Hm. unfold uint32.
  rewrite (Z.mod_small m 256), (Z.mod_small k 4294967296) by lia.
  change 16777215 with (Z.ones 24). rewrite Z.land_ones by lia.
  rewrite (Z.mod_small k (2 ^ 24)) by lia.
  apply Z.mod_small.
  pose proof (Z.add_lor_land (Z.shiftl m 24) k) as Hadd.
  rewrite Z.shiftl_mul_pow2 in * by lia.
  assert (0 <= Z.land (m * 2 ^ 24) k) by (apply Z.land_nonneg; lia).
  assert (0 <= Z.lor (m * 2 ^ 24) k) by (apply Z.lor_nonneg; lia).
  lia.
Qed.

(** X17: a key binding is found again.  After KEY_BIND(key, modifiers,
    response) from a client, with key below 2^24 and modifiers below 256, a
    key event that is no key press (so that no chord of the compositor can
    take it) with this keycode and these modifiers is sent to the binding
    client, with the wid of the focused window or -1; it is sent to the
    focused window's owner after that unless the response is
    YUTANI_BIND_STEAL.  Nothing else is sent. *)
Theorem X17_key_bind_round_trip yg c source key mods response wid0 event state :
  reachable yg →
  0 <= key < 16777216 → 0 <= mods < 256 →
  keycode event = key → modifiers event = mods → action event ≠ KEY_ACTION_DOWN →
  ∃ yg1 yg2,
    handle_packet yg (packet c (YUTANI_MSG_KEY_BIND key mods response)) = Some yg1
    ∧ handle_packet yg1 (packet source (YUTANI_MSG_KEY_EVENT wid0 event state)) = Some yg2
    ∧ outbox yg2
      = outbox yg
        ++ match get_focused yg ≫= (heap yg !!.) with
           | Some fw =>
               Pex_send c (YUTANI_MSG_KEY_EVENT (window.wid fw) event state)
               :: (if decide (response = YUTANI_BIND_STEAL) then []
                   else [Pex_send (window.owner fw)
                           (YUTANI_MSG_KEY_EVENT (window.wid fw) event state)])
           | None => [Pex_send c (YUTANI_MSG_KEY_EVENT (-1) event state)]
           end.
Proof.
  intros Hr Hk Hm Hkey Hmods Hact.
  pose proof (reachable_registry_wf _ Hr) as Hwf.
  pose proof (reachable_focus_valid _ Hr) as Hfv.
  exists (add_key_bind yg key mods response c).
  rewrite !handle_packet_message. cbn [handle_message].
  enough (∃ yg2,
    handle_key_event (add_key_bind yg key mods response c) event state = Some yg2
    ∧ outbox yg2
      = outbox yg
        ++ match get_focused yg ≫= (heap yg !!.) with
           | Some fw =>
               Pex_send c (YUTANI_MSG_KEY_EVENT (window.wid fw) event state)
               :: (if decide (response = YUTANI_BIND_STEAL) then []
                   else [Pex_send (window.owner fw)
                           (YUTANI_MSG_KEY_EVENT (window.wid fw) event state)])
           | None => [Pex_send c (YUTANI_MSG_KEY_EVENT (-1) event state)]
           end) as (yg2 & H2 & Ho) by (exists yg2; done).
  unfold handle_key_event.
  assert (get_focused (add_key_bind yg key mods response c) = get_focused yg) as -> by done.
  rewrite (bool_decide_eq_false_2 _ Hact). cbn [andb].
  assert (∃ b, key_binds (set_kbd_state state (add_key_bind yg key mods response c))
               !! uint32 (Z.lor (Z.shiftl (modifiers event) 24) (keycode event)) = Some b
               ∧ bind_owner b = c ∧ bind_response b = response) as (b & Hb & Hbo & Hbr).
  { exists {| bind_owner := c; bind_response := response |}.
    split; [|split; reflexivity]. unfold add_key_bind. cbn.
    rewrite Hkey, Hmods, key_code_agree by done. apply lookup_insert_eq. }
  destruct (get_focused yg) as [f|] eqn:Ef; cbn [mbind option_bind].
  - assert (∃ fw, heap yg !! f = Some fw) as [fw Hfw].
    { unfold get_focused in Ef. destruct (focused_window yg) as [f'|] eqn:Ef'.
      - injection Ef as <-. exact (Hfv _ Ef').
      - destruct (wf_bottom _ (rwf_zorder _ Hwf) _ Ef) as (bw & ? & _). by eexists. }
    rewrite Hfw.
    assert (heap (set_kbd_state state (add_key_bind yg key mods response c)) !! f = Some fw)
      as Hfw' by exact Hfw.
    rewrite Hfw'. cbn [mbind option_bind]. unfold deliver_key_event. rewrite Hb, Hfw'.
    cbn [mbind option_bind]. rewrite Hbo, Hbr.
    case_decide.
    + eexists. split; [reflexivity|]. done.
    + match goal with |- context [heap ?s !! f] =>
        assert (heap s !! f = Some fw) as -> by exact Hfw end.
      cbn [mbind option_bind]. eexists. split; [reflexivity|].
      cbn. by rewrite <- app_assoc.
  - unfold deliver_key_event. rewrite Hb. cbn [mbind option_bind]. rewrite Hbo, Hbr.
    case_decide; (eexists; split; [reflexivity|done]).
Qed.

(** X18: input never touches the registry.  Whatever a KEY_EVENT or a
    MOUSE_EVENT does (move, rotate, tile, focus, raise), afterwards the wid
    lookup, the TOP and BOTTOM slots, the set of mapped regions and the id
    counters are the same, the middle sequence holds the same windows, and
    every window record has its wid, z, buffer ids and buffers unchanged. *)
Theorem X18_input_events_keep_the_registry yg source wid0 m yg' :
  (∃ event state, m = YUTANI_MSG_KEY_EVENT wid0 event state)
  ∨ (∃ event type, m = YUTANI_MSG_MOUSE_EVENT wid0 event type) →
  handle_packet yg (packet source m) = Some yg' →
  wids_to_windows yg' = wids_to_windows yg
  ∧ top_z yg' = top_z yg ∧ bottom_z yg' = bottom_z yg
  ∧ mid_zs yg' ≡ₚ mid_zs yg
  ∧ dom (shm yg') = dom (shm yg)
  ∧ next_wid_static yg' = next_wid_static yg
  ∧ next_buf_id_static yg' = next_buf_id_static yg
  ∧ length (heap yg') = length (heap yg)
  ∧ ∀ p w', heap yg' !! p = Some w' →
      ∃ w, heap yg !! p = Some w
           ∧ window.wid w' = window.wid w ∧ window.z w' = window.z w
           ∧ window.bufid w' = window.bufid w ∧ window.buffer w' = window.buffer w
           ∧ window.newbufid w' = window.newbufid w
           ∧ window.newbuffer w' = window.newbuffer w.
Proof.
  intros Hm Hp. rewrite handle_packet_message in Hp.
  assert (same_core yg yg') as Hsc.
  { destruct Hm as [(event & state & ->)|(event & type & ->)]; cbn [handle_message] in Hp.
    - exact (same_core_handle_key_event _ _ _ _ Hp).
    - exact (same_core_handle_mouse_event _ _ _ _ Hp). }
  pose proof Hsc as (Hh & Hmid & Ht & Hb & Hw & Hd & Hnb & Hnw).
  split_and!; try done.
  - assert (length (wcore <$> heap yg') = length (wcore <$> heap yg)) as Hlen
      by (by rewrite Hh).
    by rewrite !length_fmap in Hlen.
  - intros p w' Hl'. destruct (same_core_lookup _ _ _ _ Hsc Hl') as (w & Hl & Hc).
    exists w. split; [done|]. unfold wcore in Hc. by simplify_eq.
Qed.

(** X19: [window_tile] in a reachable state, for divisors that are positive
    ints and a cell for which the arithmetic stays inside 32 bits: the
    display width is below 2^31, the display height minus panel_h is in
    [0, 2^31), and the two products and the sum that give the new origin
    fit an int.  With panel_h the height of the TOP window (0 when there is
    none), the window is moved to (width/wdiv * x, panel_h + (height -
    panel_h)/hdiv * y), its size is not changed, and one RESIZE_OFFER for
    (width/wdiv, (height - panel_h)/hdiv) goes to its owner; nothing else is
    sent. *)
Theorem X19_window_tile_cell yg f fw wdiv hdiv cx cy :
  reachable yg → heap yg !! f = Some fw →
  0 <= width yg < 2147483648 → 0 < wdiv < 2147483648 → 0 < hdiv < 2147483648 →
  (∀ ph, panel_height yg = Some ph →
     0 <= height yg - ph < 2147483648
     ∧ fits_int32 (width yg `quot` wdiv * cx)
     ∧ fits_int32 ((height yg - ph) `quot` hdiv * cy)
     ∧ fits_int32 (ph + (height yg - ph) `quot` hdiv * cy)) →
  ∃ panel_h yg' fw',
    panel_height yg = Some panel_h
    ∧ (top_z yg = None → panel_h = 0)
    ∧ (∀ t tw, top_z yg = Some t → heap yg !! t = Some tw → panel_h = window.height tw)
    ∧ window_tile yg f wdiv hdiv cx cy = Some yg'
    ∧ heap yg' !! f = Some fw'
    ∧ window.x fw' = width yg `quot` wdiv * cx
    ∧ window.y fw' = panel_h + (height yg - panel_h) `quot` hdiv * cy
    ∧ window.width fw' = window.width fw ∧ window.height fw' = window.height fw
    ∧ outbox yg'
      = outbox yg
        ++ [Pex_send (window.owner fw)
              (YUTANI_MSG_RESIZE_OFFER (window.wid fw) (width yg `quot` wdiv)
                 ((height yg - panel_h) `quot` hdiv) 0)].
Proof.
  intros Hr Hl Hw Hwd Hhd Hfit.
  pose proof (rwf_zorder _ (reachable_registry_wf _ Hr)) as Hwf.
  assert (∃ ph, panel_height yg = Some ph
                ∧ (top_z yg = None → ph = 0)
                ∧ (∀ t tw, top_z yg = Some t → heap yg !! t = Some tw →
                     ph = window.height tw)) as (ph & Hph & H0 & Ht).
  { unfold panel_height. destruct (top_z yg) as [t|] eqn:Et.
    - destruct (wf_top _ Hwf t Et) as (tw & Htw & _). rewrite Htw.
      eexists. split; [reflexivity|]. split; [done|]. intros ? ? [= <-] ?. congruence.
    - exists 0. split; [done|]. split; [done|]. intros ? ? [=]. }
  destruct (Hfit ph Hph) as (Hh & Fx & Fy & Fpy).
  destruct (window_tile_spec yg f fw wdiv hdiv cx cy ph Hl Hph Hw Hwd Hhd Hh Fx Fy Fpy)
    as (yg' & fw' & Htile & Hl' & Hx & Hy & Hwi & Hhe & Hout).
  exists ph, yg', fw'. by split_and!.
Qed.

End FocusAndKeys.

(** ** Stacking a window twice *)

Section StackTwice.
Context `{YutaniConsts}.
Implicit Types yg : yutani_globals_t.

Lemma uint16_idemp v : uint16 (uint16 v) = uint16 v.
Proof. apply uint16_id, uint16_range. Qed.

Lemma window_set_z_same (w : window.t) u v :
  window.z w = u → window.set_z u (window.set_z v w) = w.
Proof. destruct w. cbn. by intros ->. Qed.

Lemma heap_store_back (l : list window.t) p (w : window.t) u v :
  l !! p = Some w → window.z w = u →
  <[p := window.set_z u (window.set_z v w)]> (<[p := window.set_z v w]> l) = l.
Proof.
  intros Hl Hz. rewrite list_insert_insert_eq, (window_set_z_same _ _ _ Hz).
  by apply list_insert_id.
Qed.

(* a state is its own update by its heap and tiers *)
Lemma tiers_update_same yg h b t m :
  heap yg = h → bottom_z yg = b → top_z yg = t → mid_zs yg = m →
  set_bottom_z b (set_top_z t (set_mid_zs m (set_heap h yg))) = yg.
Proof. intros <- <- <- <-. by destruct yg. Qed.

Lemma list_h_find_snoc_last (l : list nat) (p : nat) :
  p ∉ l → list_h.list_find (l ++ [p]) p = Some (length l).
Proof.
  induction l as [|s l IH]; simpl; intros Hn.
  - by rewrite decide_True.
  - apply not_elem_of_cons in Hn as [Hne Hn].
    rewrite decide_False by congruence. by rewrite IH.
Qed.

(* reordering a window to the tier it is in, with the z it has *)
Lemma reorder_window_again yg p w new_zed :
  zorder_wf yg → heap yg !! p = Some w → window.z w = uint16 new_zed →
  (uint16 new_zed = YUTANI_ZORDER_TOP → top_z yg = Some p) →
  (uint16 new_zed = YUTANI_ZORDER_BOTTOM → bottom_z yg = Some p) →
  (uint16 new_zed ≠ YUTANI_ZORDER_TOP → uint16 new_zed ≠ YUTANI_ZORDER_BOTTOM →
   last (mid_zs yg) = Some p) →
  reorder_window yg (Some p) new_zed = Some yg.
Proof.
  intros Hwf Hl Hz Htop Hbot Hmid. pose proof zorder_top_bottom as Htb.
  pose proof (lookup_lt_Some _ _ _ Hl) as Hlt.
  unfold reorder_window, unorder_window. rewrite Hl. cbn [mbind option_bind].
  rewrite Hz, uint16_idemp. set (u := uint16 new_zed) in *.
  set (v := uint16 (-1)).
  assert (Hback : <[p := window.set_z u (window.set_z v w)]>
                    (<[p := window.set_z v w]> (heap yg)) = heap yg)
    by (by apply heap_store_back).
  destruct (decide (u = YUTANI_ZORDER_BOTTOM)) as [Eb|Nb].
  - cbn [mbind option_bind]. unfold store. cbn [heap set_heap set_bottom_z].
    rewrite list_lookup_insert_eq by done. cbn [mbind option_bind].
    rewrite (decide_False (P := u ≠ YUTANI_ZORDER_TOP ∧ u ≠ YUTANI_ZORDER_BOTTOM))
      by (intros [_ ?]; done).
    rewrite (decide_False (P := u = YUTANI_ZORDER_TOP)) by congruence.
    cbn [bottom_z set_heap set_bottom_z mbind option_bind]. f_equal.
    etrans; [|exact (tiers_update_same yg _ _ _ _ (eq_sym Hback) (Hbot Eb) eq_refl eq_refl)].
    reflexivity.
  - destruct (decide (u = YUTANI_ZORDER_TOP)) as [Et|Nt].
    + cbn [mbind option_bind]. unfold store. cbn [heap set_heap set_top_z].
      rewrite list_lookup_insert_eq by done. cbn [mbind option_bind].
      rewrite (decide_False (P := u ≠ YUTANI_ZORDER_TOP ∧ u ≠ YUTANI_ZORDER_BOTTOM))
        by (intros [? _]; done).
      cbn [top_z set_heap set_top_z mbind option_bind]. f_equal.
      etrans; [|exact (tiers_update_same yg _ _ _ _ (eq_sym Hback) eq_refl (Htop Et) eq_refl)].
      reflexivity.
    + specialize (Hmid Nt Nb). apply last_Some in Hmid as [l Hm].
      assert (p ∉ l) as Hnp.
      { pose proof (wf_mid_nodup _ Hwf) as Hnd. rewrite Hm in Hnd.
        apply NoDup_app in Hnd as (_ & Hd & _). intros Hp. apply (Hd p Hp). left. }
      unfold store. cbn [mid_zs set_heap]. rewrite Hm, (list_h_find_snoc_last _ _ Hnp).
      cbn [mbind option_bind heap set_heap set_mid_zs].
      rewrite list_lookup_insert_eq by done. cbn [mbind option_bind].
      rewrite (decide_True (P := u ≠ YUTANI_ZORDER_TOP ∧ u ≠ YUTANI_ZORDER_BOTTOM))
        by done.
      f_equal. unfold list_h.list_insert, list_h.list_delete. cbn [mid_zs set_heap set_mid_zs heap].
      assert (delete (length l) (l ++ [p]) ++ [p] = mid_zs yg) as Hmz.
      { rewrite Hm. f_equal. rewrite delete_take_drop, take_app_length.
        rewrite drop_app_ge by lia.
        replace (S (length l) - length l)%nat with 1%nat by lia. cbn. apply app_nil_r. }
      etrans; [|exact (tiers_update_same yg _ _ _ _ (eq_sym Hback) eq_refl eq_refl (eq_sym Hmz))].
      reflexivity.
Qed.

(** X20: in a reachable state WINDOW_STACK(wid, z) for a registered window
    is always handled, and stacking is idempotent: the same message sent
    again leaves the state exactly as the first one left it. *)
Theorem X20_window_stack_is_idempotent yg source wid p z :
  reachable yg → wids_to_windows yg !! wid = Some p →
  ∃ yg',
    handle_packet yg (packet source (YUTANI_MSG_WINDOW_STACK wid z)) = Some yg'
    ∧ handle_packet yg' (packet source (YUTANI_MSG_WINDOW_STACK wid z)) = Some yg'.
Proof.
  intros Hr Hw. pose proof (reachable_registry_wf _ Hr) as Hwf.
  destruct (wf_wids _ (rwf_zorder _ Hwf) _ _ Hw) as (w & Hl & Hwid).
  destruct (reorder_window_spec yg p w z (rwf_zorder _ Hwf) Hl)
    as (yg' & w' & Hre & Hwf' & Hids & Hl' & Hz' & _ & Hslot & _).
  exists yg'. rewrite !handle_packet_message. unfold handle_message.
  destruct Hids as (_ & Hwids & _). rewrite Hwids, Hw. split; [exact Hre|].
  apply (reorder_window_again yg' p w' z Hwf' Hl' Hz').
  - intros E. by rewrite decide_True in Hslot.
  - intros E. pose proof zorder_top_bottom. rewrite decide_False in Hslot by congruence.
    by rewrite decide_True in Hslot.
  - intros Nt Nb. by rewrite !decide_False in Hslot.
Qed.

End StackTwice.

(** ** The pointer and the windows *)

Section PointerAndWindows.
Context `{YutaniConsts}.
Implicit Types yg : yutani_globals_t.




(** X22: a window that is being moved follows the pointer.  In state
    MOVING with the left button held, a mouse event puts the moved window
    (not rotated) at its position at the start of the move plus the
    distance the pointer has gone since, in pixels, marks its old and its
    new rectangle, and stays in state MOVING; with the left button released
    the state goes back to NORMAL, no window is moved and nothing is
    marked or sent. *)
Theorem X22_moving_window_follows_the_pointer yg event type mw w :
  mouse_state yg = YUTANI_MOUSE_STATE_MOVING →
  mouse_window yg = Some mw → heap yg !! mw = Some w → window.rotation w = 0 →
  let pos := mouse_update_position yg event type in
  let nx := mouse_win_x yg + (mouse_x pos - mouse_init_x yg) `quot` MOUSE_SCALE in
  let ny := mouse_win_y yg + (mouse_y pos - mouse_init_y yg) `quot` MOUSE_SCALE in
  (Z.land (buttons event) YUTANI_MOUSE_BUTTON_LEFT ≠ 0 →
   ∃ yg', handle_mouse_event yg event type = Some yg'
     ∧ heap yg' = <[mw := window.set_y ny (window.set_x nx w)]> (heap yg)
     ∧ update_list yg'
       = update_list yg
         ++ [rect.mk (window.x w) (window.y w) (window.width w) (window.height w);
             rect.mk nx ny (window.width w) (window.height w)]
     ∧ mouse_state yg' = YUTANI_MOUSE_STATE_MOVING ∧ mouse_window yg' = Some mw
     ∧ outbox yg' = outbox yg)
  ∧ (Z.land (buttons event) YUTANI_MOUSE_BUTTON_LEFT = 0 →
     handle_mouse_event yg event type
     = Some (set_mouse_state YUTANI_MOUSE_STATE_NORMAL (set_mouse_window None pos))).
Proof.
  intros Hst Hmw Hl Hrot pos nx ny.
  assert (mouse_state pos = YUTANI_MOUSE_STATE_MOVING ∧ mouse_window pos = Some mw
          ∧ heap pos = heap yg ∧ update_list pos = update_list yg
          ∧ outbox pos = outbox yg ∧ mouse_win_x pos = mouse_win_x yg
          ∧ mouse_win_y pos = mouse_win_y yg ∧ mouse_init_x pos = mouse_init_x yg
          ∧ mouse_init_y pos = mouse_init_y yg) as (Es & Em & Eh & Eu & Eo & E1 & E2 & E3 & E4).
  { unfold pos, mouse_update_position. destruct type; repeat case_decide; by cbn. }
  unfold handle_mouse_event. fold pos. rewrite Es. unfold handle_mouse_moving. split.
  - intros Hb. rewrite bool_decide_eq_false_2 by done. rewrite Em.
    cbn [mbind option_bind]. unfold mark_window at 2. rewrite Eh, Hl.
    cbn [mbind option_bind]. rewrite decide_True by done.
    match goal with |- context [heap ?s !! mw] =>
      assert (heap s !! mw = Some w) as -> by (cbn; by rewrite Eh) end.
    cbn [mbind option_bind]. cbn [mouse_win_x mouse_win_y mouse_x mouse_y mouse_init_x
                                   mouse_init_y set_update_list].
    rewrite E1, E2, E3, E4. fold nx ny. unfold mark_window, store.
    match goal with |- context [heap ?s !! mw] =>
      assert (heap s !! mw = Some (window.set_y ny (window.set_x nx w))) as ->
        by (cbn; rewrite Eh; apply list_lookup_insert_eq; by eapply lookup_lt_Some) end.
    cbn [mbind option_bind]. rewrite decide_True by done.
    eexists. split; [reflexivity|]. cbn. unfold list_h.list_insert.
    rewrite Eh, Eu, <- app_assoc. by split_and!.
  - intros Hb. by rewrite bool_decide_eq_true_2.
Qed.

(** X23: a left click on an empty display.  In state NORMAL, with Alt not
    held, no window in any tier and no focused window, a mouse event with
    the left button down does not complete: the handler sets mouse_window
    from [get_focused], which is null, and reads its wid. *)
Theorem X23_left_click_without_windows_fails yg event type :
  mouse_state yg = YUTANI_MOUSE_STATE_NORMAL → k_alt (kbd_state yg) = 0 →
  top_z yg = None → mid_zs yg = [] → bottom_z yg = None → focused_window yg = None →
  Z.land (buttons event) YUTANI_MOUSE_BUTTON_LEFT ≠ 0 →
  handle_mouse_event yg event type = None.
Proof.
  intros Hst Halt Ht Hm Hb Hf Hleft.
  set (pos := mouse_update_position yg event type).
  assert (mouse_state pos = YUTANI_MOUSE_STATE_NORMAL ∧ k_alt (kbd_state pos) = 0
          ∧ top_z pos = None ∧ mid_zs pos = [] ∧ bottom_z pos = None
          ∧ focused_window pos = None) as (Es & Ea & Et & Em & Eb & Ef).
  { unfold pos, mouse_update_position. destruct type; repeat case_decide; by cbn. }
  unfold handle_mouse_event. fold pos. rewrite Es. unfold handle_mouse_normal.
  rewrite (bool_decide_eq_true_2 _ Hleft).
  rewrite (bool_decide_eq_false_2 (k_alt (kbd_state pos) ≠ 0)) by (intros Hx; by apply Hx).
  cbn [andb negb]. rewrite andb_false_r. cbn [andb negb].
  unfold set_focused_at, top_at. cbn [top_z mid_zs bottom_z set_mouse_state].
  rewrite Et, Em, Eb, reverse_nil. cbn [check_top_at top_at_mid mbind option_bind].
  unfold set_focused_window. cbn [focused_window set_mouse_state]. rewrite Ef.
  rewrite decide_True by done. cbn [mbind option_bind].
  unfold get_focused. cbn [focused_window bottom_z set_mouse_state]. rewrite Ef, Eb.
  reflexivity.
Qed.

(** X24: the end of a resize by the mouse.  In state RESIZING, when a
    mouse event comes with the middle button released, the window being
    resized is offered, by one RESIZE_OFFER to its owner, its size plus the
    distance the pointer has gone since the start, in pixels; the window
    record is not changed, and the state goes back to NORMAL with no mouse
    window and no resizing window. *)
Theorem X24_mouse_resize_ends_with_an_offer yg event type mw rp w rw :
  mouse_state yg = YUTANI_MOUSE_STATE_RESIZING →
  mouse_window yg = Some mw → heap yg !! mw = Some w →
  resizing_window yg = Some rp → heap yg !! rp = Some rw →
  Z.land (buttons event) YUTANI_MOUSE_BUTTON_MIDDLE = 0 →
  let pos := mouse_update_position yg event type in
  let nw := window.width rw + (mouse_x pos - mouse_init_x yg) `quot` MOUSE_SCALE in
  let nh := window.height rw + (mouse_y pos - mouse_init_y yg) `quot` MOUSE_SCALE in
  ∃ yg', handle_mouse_event yg event type = Some yg'
    ∧ outbox yg'
      = outbox yg ++ [Pex_send (window.owner rw)
                        (YUTANI_MSG_RESIZE_OFFER (window.wid rw) nw nh 0)]
    ∧ heap yg' = heap yg
    ∧ mouse_state yg' = YUTANI_MOUSE_STATE_NORMAL
    ∧ mouse_window yg' = None ∧ resizing_window yg' = None.
Proof.
  intros Hst Hmw Hl Hrp Hrw Hmid pos nw nh.
  assert (mouse_state pos = YUTANI_MOUSE_STATE_RESIZING ∧ mouse_window pos = Some mw
          ∧ resizing_window pos = Some rp
          ∧ heap pos = heap yg ∧ outbox pos = outbox yg
          ∧ mouse_init_x pos = mouse_init_x yg ∧ mouse_init_y pos = mouse_init_y yg)
    as (Es & Em & Er & Eh & Eo & E3 & E4).
  { unfold pos, mouse_update_position. destruct type; repeat case_decide; by cbn. }
  unfold handle_mouse_event. fold pos. rewrite Es. unfold handle_mouse_resizing.
  rewrite Em. cbn [mbind option_bind].
  unfold mark_window_relative at 2. rewrite Eh, Hl. cbn [mbind option_bind].
  cbn [resizing_window set_update_list]. rewrite Er. cbn [mbind option_bind].
  match goal with |- context [heap ?s !! rp] =>
    assert (heap s !! rp = Some rw) as -> by (cbn; by rewrite Eh) end.
  cbn [mbind option_bind]. unfold mark_window_relative.
  match goal with |- context [heap ?s !! mw] =>
    assert (heap s !! mw = Some w) as -> by (cbn; by rewrite Eh) end.
  cbn [mbind option_bind]. rewrite (bool_decide_eq_true_2 _ Hmid).
  eexists. split; [reflexivity|]. cbn. rewrite Eh, Eo, E3, E4. by split_and!.
Qed.

End PointerAndWindows.

(** ** Window list queries and client disconnects *)

Section QueryAndDisconnect.
Context `{YutaniConsts}.
Implicit Types yg : yutani_globals_t.

Lemma set_outbox_same yg : set_outbox (outbox yg) yg = yg.
Proof. by destruct yg. Qed.

Lemma yutani_query_result_outbox yg o dest p :
  is_Some (heap yg !! p) →
  yutani_query_result (set_outbox o yg) dest (Some p)
  = Some (set_outbox (o ++ advertisement yg dest p) yg).
Proof.
  intros [w Hl]. unfold yutani_query_result, advertisement.
  assert (heap (set_outbox o yg) !! p = Some w) as -> by exact Hl.
  rewrite Hl. cbn [mbind option_bind]. case_decide.
  - reflexivity.
  - by rewrite app_nil_r.
Qed.

Lemma foreach_query_result_outbox yg dest (l : list ptr) : ∀ o,
  (∀ p, p ∈ l → is_Some (heap yg !! p)) →
  foreach l (λ yg w, yutani_query_result yg dest (Some w)) (set_outbox o yg)
  = Some (set_outbox (o ++ concat (advertisement yg dest <$> l)) yg).
Proof.
  induction l as [|p l IH]; intros o Hv.
  - cbn. by rewrite app_nil_r.
  - cbn [foreach]. rewrite yutani_query_result_outbox by (apply Hv; left).
    cbn [mbind option_bind]. rewrite IH by (intros q Hq; apply Hv; by right).
    cbn [fmap list_fmap concat]. by rewrite app_assoc.
Qed.

Lemma query_result_option_outbox yg dest (s : option ptr) o :
  (∀ p, s = Some p → is_Some (heap yg !! p)) →
  yutani_query_result (set_outbox o yg) dest s
  = Some (set_outbox (o ++ concat (advertisement yg dest <$> option_list s)) yg).
Proof.
  intros Hv. destruct s as [p|].
  - rewrite yutani_query_result_outbox by by apply Hv.
    cbn. by rewrite app_nil_r.
  - cbn. by rewrite app_nil_r.
Qed.

(** X25: in a reachable state QUERY_WINDOWS is always handled, and all it
    changes is the transport: the sender gets one advertisement for each
    window of the stacking order that has advertised itself (a non-zero
    client_length), from the back to the front (bottom_z, the middle
    sequence in order, top_z), and then the empty advertisement that ends
    the list. *)
Theorem X25_query_windows_lists_the_stack_back_to_front yg source :
  reachable yg →
  handle_packet yg (packet source YUTANI_MSG_QUERY_WINDOWS)
  = Some (set_outbox
            (outbox yg
             ++ concat (advertisement yg source
                          <$> option_list (bottom_z yg) ++ mid_zs yg ++ option_list (top_z yg))
             ++ [Pex_send source (YUTANI_MSG_WINDOW_ADVERTISE 0 0 [] 0 None)]) yg).
Proof.
  intros Hr. pose proof (rwf_zorder _ (reachable_registry_wf _ Hr)) as Hwf.
  assert (Hb : ∀ p, bottom_z yg = Some p → is_Some (heap yg !! p)).
  { intros p Hp. destruct (wf_bottom _ Hwf p Hp) as (w & Hl & _). by exists w. }
  assert (Ht : ∀ p, top_z yg = Some p → is_Some (heap yg !! p)).
  { intros p Hp. destruct (wf_top _ Hwf p Hp) as (w & Hl & _). by exists w. }
  assert (Hm : ∀ p, p ∈ mid_zs yg → is_Some (heap yg !! p)).
  { intros p Hp. destruct (wf_mid _ Hwf p Hp) as (w & Hl & _). by exists w. }
  rewrite handle_packet_message. unfold handle_message.
  rewrite <- (set_outbox_same yg) at 1.
  change (bottom_z (set_outbox (outbox yg) yg)) with (bottom_z yg).
  rewrite (query_result_option_outbox yg source (bottom_z yg) _ Hb).
  cbn [mbind option_bind].
  match goal with |- context [mid_zs (set_outbox ?o yg)] =>
    change (mid_zs (set_outbox o yg)) with (mid_zs yg) end.
  rewrite (foreach_query_result_outbox yg source (mid_zs yg) _ Hm).
  cbn [mbind option_bind].
  match goal with |- context [top_z (set_outbox ?o yg)] =>
    change (top_z (set_outbox o yg)) with (top_z yg) end.
  rewrite (query_result_option_outbox yg source (top_z yg) _ Ht).
  cbn [mbind option_bind]. unfold pex_send. cbn [outbox set_outbox].
  rewrite !fmap_app, !concat_app, <- !app_assoc. reflexivity.
Qed.

Lemma marked_for_close_idemp t w :
  marked_for_close t (marked_for_close t w) = marked_for_close t w.
Proof. reflexivity. Qed.

Lemma foreach_window_mark_for_close (l : list ptr) : ∀ yg,
  (∀ p, p ∈ l → is_Some (heap yg !! p)) →
  ∃ h, foreach l window_mark_for_close yg = Some (set_heap h yg)
     ∧ ∀ p, h !! p = (if decide (p ∈ l) then marked_for_close (tick_count yg) else id)
                       <$> heap yg !! p.
Proof.
  induction l as [|a l IH]; intros yg Hv.
  - exists (heap yg). split; [cbn; by destruct yg|].
    intros p. rewrite decide_False by set_solver. by destruct (heap yg !! p).
  - destruct (Hv a) as [wa Ha]; [by left|].
    cbn [foreach].
    assert (window_mark_for_close yg a
            = Some (store yg a (marked_for_close (tick_count yg) wa))) as ->
      by (unfold window_mark_for_close; by rewrite Ha).
    cbn [mbind option_bind].
    destruct (IH (store yg a (marked_for_close (tick_count yg) wa))) as (h & Hf & Hh).
    { intros p Hp. unfold store. cbn [heap set_heap].
      apply lookup_lt_is_Some. rewrite length_insert. apply lookup_lt_is_Some.
      apply Hv. by right. }
    exists h. split; [exact Hf|]. intros p. rewrite Hh.
    unfold store. cbn [heap set_heap tick_count].
    change (tick_count (set_heap _ yg)) with (tick_count yg).
    destruct (decide (p = a)) as [->|Hne].
    + rewrite list_lookup_insert_eq by by eapply lookup_lt_Some.
      rewrite Ha, (decide_True (P := a ∈ a :: l)) by by left.
      cbn [fmap option_fmap option_map]. case_decide; [|done].
      by rewrite marked_for_close_idemp.
    + rewrite list_lookup_insert_ne by done.
      destruct (decide (p ∈ l)) as [Hin|Hnin].
      * rewrite (decide_True (P := p ∈ a :: l)) by by right. done.
      * rewrite (decide_False (P := p ∈ a :: l)) by set_solver. done.
Qed.

(** X26: a packet of size 0 from a client (its connection closed) is
    handled whatever it carries otherwise.  If the client has a window
    list whose windows are live records, each of them is marked to fade
    out from the current tick, every other window record is left as it is,
    and the client's entry is removed; the stacking order, the wid lookup
    and the transport are untouched, so the windows stay registered.  A
    client without a window list changes nothing. *)
Theorem X26_disconnect_marks_the_clients_windows yg c mg m l :
  clients_to_windows yg !! c = l →
  (∀ p, p ∈ default [] l → is_Some (heap yg !! p)) →
  ∃ yg',
    handle_packet yg {| source := c; size := 0; magic := mg; data := m |} = Some yg'
    ∧ (l = None → yg' = yg)
    ∧ clients_to_windows yg' = delete c (clients_to_windows yg)
    ∧ (∀ p, heap yg' !! p
            = (if decide (p ∈ default [] l)
               then marked_for_close (tick_count yg) else id) <$> heap yg !! p)
    ∧ wids_to_windows yg' = wids_to_windows yg
    ∧ mid_zs yg' = mid_zs yg ∧ top_z yg' = top_z yg ∧ bottom_z yg' = bottom_z yg
    ∧ outbox yg' = outbox yg ∧ update_list yg' = update_list yg.
Proof.
  intros Hc Hv. unfold handle_packet. cbn [size source].
  rewrite decide_True by done. rewrite Hc. destruct l as [l|]; cbn [default] in *.
  - destruct (foreach_window_mark_for_close l yg Hv) as (h & -> & Hh).
    cbn [mbind option_bind]. eexists. split; [reflexivity|].
    split; [done|]. cbn. by split_and!.
  - exists yg. split; [done|]. split; [done|].
    split; [by rewrite delete_id|].
    split; [|done]. intros p. rewrite decide_False by set_solver.
    by destruct (heap yg !! p).
Qed.

(** X27: [window_remove_from_client] undoes what [server_window_create]
    does to the owner's window list: creating a window for a client and
    removing it from the client again gives back the client lookup as it
    was, with no entry left for a client that had none. *)
Theorem X27_remove_from_client_undoes_create yg width height owner :
  clients_to_windows yg !! owner ≠ Some [] →
  length (heap yg) ∉ default [] (clients_to_windows yg !! owner) →
  let r := server_window_create yg width height owner in
  ∃ yg', window_remove_from_client r.2 r.1 = Some yg'
       ∧ clients_to_windows yg' = clients_to_windows yg.
Proof.
  intros Hne Hfresh. cbv zeta.
  destruct (server_window_create_window yg width height owner)
    as (w & Hh & Howner & _).
  assert ((server_window_create yg width height owner).1 = length (heap yg)) as Hp
    by reflexivity.
  assert (clients_to_windows (server_window_create yg width height owner).2
          = <[owner := default [] (clients_to_windows yg !! owner) ++ [length (heap yg)]]>
              (clients_to_windows yg)) as Hcl by reflexivity.
  unfold window_remove_from_client. rewrite Hp, Hh, list_lookup_middle by done.
  cbn [mbind option_bind]. rewrite Howner, Hcl, lookup_insert_eq.
  unfold list_h.list_insert. rewrite (list_h_find_snoc_last _ _ Hfresh).
  unfold list_h.list_delete.
  rewrite delete_take_drop, take_app_length, drop_app_ge by lia.
  replace (S (length (default [] (clients_to_windows yg !! owner)))
           - length (default [] (clients_to_windows yg !! owner)))%nat with 1%nat by lia.
  cbn [drop]. rewrite app_nil_r.
  destruct (clients_to_windows yg !! owner) as [[|q old]|] eqn:E; [done| |]; cbn [default].
  - rewrite decide_False by done. eexists. split; [reflexivity|].
    cbn [clients_to_windows set_clients_to_windows].
    rewrite insert_insert_eq. by apply insert_id.
  - rewrite decide_True by done. eexists. split; [reflexivity|].
    cbn [clients_to_windows set_clients_to_windows].
    rewrite delete_insert_eq. by apply delete_id.
Qed.

End QueryAndDisconnect.

(** ** What a frame does *)

Section Frame.
Context `{YutaniConsts}.
Implicit Types yg : yutani_globals_t.

Lemma set_heap_same yg : set_heap (heap yg) yg = yg.
Proof. by destruct yg. Qed.

Lemma store_same yg p w : heap yg !! p = Some w → store yg p w = yg.
Proof. intros Hl. unfold store. by rewrite list_insert_id, set_heap_same. Qed.

Lemma set_update_list_same yg : set_update_list (update_list yg) yg = yg.
Proof. by destruct yg. Qed.

Lemma blit_record_idemp t w : blit_record t (blit_record t w) = blit_record t w.
Proof.
  unfold blit_record.
  destruct (decide (window.anim_mode w ≠ YUTANI_EFFECT_NONE
                    ∧ window.anim_mode w ≠ YUTANI_EFFECT_FADE_OUT
                    ∧ t - window.anim_start w
                      >= yutani_animation_lengths (window.anim_mode w))) as [Hc|Hc].
  - rewrite decide_False; [done|]. cbn. intros [Hx _]. by apply Hx.
  - by rewrite decide_False.
Qed.

Lemma fade_out_done_blit_record t w :
  fade_out_done t (blit_record t w) = fade_out_done t w.
Proof.
  unfold blit_record. case_decide as Hc; [|done]. destruct Hc as (_ & Hne & _).
  unfold fade_out_done. apply bool_decide_ext. cbn. split; intros [? ?]; done.
Qed.

Lemma wcore_blit_record t w : wcore (blit_record t w) = wcore w.
Proof. unfold blit_record. by case_decide. Qed.

Lemma blit_record_static t w :
  window.anim_mode w = YUTANI_EFFECT_NONE → blit_record t w = w.
Proof. intros Hn. unfold blit_record. rewrite decide_False; [done|]. by intros [? _]. Qed.

Lemma fade_out_done_static t w :
  window.anim_mode w = YUTANI_EFFECT_NONE → fade_out_done t w = false.
Proof.
  intros Hn. unfold fade_out_done. apply bool_decide_eq_false_2. intros [? _]. congruence.
Qed.

(* a pending fade-out is kept by [blit_record] *)
Lemma blit_record_fade_out t w :
  window.anim_mode w = YUTANI_EFFECT_FADE_OUT → blit_record t w = w.
Proof. intros Hn. unfold blit_record. rewrite decide_False; [done|]. by intros (_ & ? & _). Qed.

Lemma closing_fmap t (q : ptr) (l : list ptr) (o : option window.t) :
  from_option (fade_out_done t) false
    ((if decide (q ∈ l) then blit_record t else id) <$> o)
  = from_option (fade_out_done t) false o.
Proof.
  destruct o as [w|]; [|done]. cbn. case_decide; [|done].
  apply fade_out_done_blit_record.
Qed.

Lemma fmap_is_Some_lookup (f : window.t → window.t) (o : option window.t) :
  is_Some o → is_Some (f <$> o).
Proof. intros [w ->]. by eexists. Qed.

Lemma filter_pointwise {A} (f g : A → bool) (l : list A) :
  (∀ a, a ∈ l → f a = g a) → List.filter f l = List.filter g l.
Proof.
  induction l as [|a l IH]; [done|]. intros Hfg. cbn [List.filter].
  rewrite (Hfg a) by by left. rewrite IH; [done|]. intros b Hb. apply Hfg. by right.
Qed.

Lemma filter_none {A} (f : A → bool) (l : list A) :
  (∀ a, a ∈ l → f a = false) → List.filter f l = [].
Proof.
  induction l as [|a l IH]; [done|]. intros Hf. cbn [List.filter].
  rewrite (Hf a) by by left. apply IH. intros b Hb. apply Hf. by right.
Qed.

Lemma elem_of_List_filter {A} (f : A → bool) (l : list A) a :
  a ∈ List.filter f l ↔ a ∈ l ∧ f a = true.
Proof.
  induction l as [|b l IH]; cbn [List.filter].
  - split; [by intros ?%elem_of_nil|by intros [?%elem_of_nil _]].
  - destruct (f b) eqn:E; rewrite ?elem_of_cons, IH, ?elem_of_cons.
    + split; [intros [->|[? ?]]; eauto|intros [[->|?] ?]; eauto].
    + split; [intros [? ?]; eauto|intros [[->|?] ?]; [congruence|eauto]].
Qed.

Lemma NoDup_List_filter {A} (f : A → bool) (l : list A) :
  NoDup l → NoDup (List.filter f l).
Proof.
  induction 1 as [|a l Hn Hnd IH]; cbn [List.filter]; [constructor|].
  destruct (f a); [|done]. constructor; [|done].
  rewrite elem_of_List_filter. by intros [? _].
Qed.

Lemma surface_backed_fields yg yg' w w' :
  shm yg' = shm yg → window.buffer w' = window.buffer w →
  window.width w' = window.width w → window.height w' = window.height w →
  surface_backed yg' w' = surface_backed yg w.
Proof. unfold surface_backed. by intros -> -> -> ->. Qed.

Lemma blit_record_fields t w :
  window.buffer (blit_record t w) = window.buffer w
  ∧ window.width (blit_record t w) = window.width w
  ∧ window.height (blit_record t w) = window.height w.
Proof. unfold blit_record. by case_decide. Qed.

Lemma surface_backed_blit_record yg t w :
  surface_backed yg (blit_record t w) = surface_backed yg w.
Proof.
  destruct (blit_record_fields t w) as (? & ? & ?). by apply surface_backed_fields.
Qed.

(* the records of [yg'] are those of [yg] up to a change that keeps the
   buffer and the size, over the same regions *)
Lemma backed_map yg yg' (f : window.t → window.t) q :
  shm yg' = shm yg →
  (∀ w, window.buffer (f w) = window.buffer w ∧ window.width (f w) = window.width w
        ∧ window.height (f w) = window.height w) →
  heap yg' !! q = f <$> heap yg !! q →
  backed yg q → backed yg' q.
Proof.
  intros Hs Hf Hl (w & Hw & Hb). exists (f w). rewrite Hl, Hw. split; [done|].
  destruct (Hf w) as (? & ? & ?). rewrite <- Hb. by apply surface_backed_fields.
Qed.

Lemma blit_or_id_fields t (P : Prop) (c : {P} + {¬ P}) w :
  window.buffer ((if c then blit_record t else id) w) = window.buffer w
  ∧ window.width ((if c then blit_record t else id) w) = window.width w
  ∧ window.height ((if c then blit_record t else id) w) = window.height w.
Proof. destruct c; [apply blit_record_fields|done]. Qed.

Lemma buffers_fit_alt yg : buffers_fit yg ↔ ∀ q, in_tier yg q → backed yg q.
Proof.
  split; [intros Hf q; by apply buffers_fit_backed|].
  intros Hb. unfold buffers_fit. apply forallb_forall. intros q Hq.
  apply list_elem_of_In, elem_of_back_to_front in Hq.
  destruct (Hb q Hq) as (w & -> & Hs). exact Hs.
Qed.

(* one window of the pass over the stacking order *)
Lemma yutani_blit_window_spec yg acc p w :
  heap yg !! p = Some w → surface_backed yg w = true →
  yutani_blit_window (yg, acc) p
  = Some (store yg p (blit_record (tick_count yg) w),
          acc ++ (if fade_out_done (tick_count yg) w then [p] else [])).
Proof.
  intros Hl Hs. unfold yutani_blit_window. rewrite Hl. cbn [mbind option_bind].
  assert (cairo_paint yg w = Some ()) as Hp by (unfold cairo_paint; by rewrite Hs).
  destruct (decide (window.anim_mode w = YUTANI_EFFECT_NONE)) as [H0|H0].
  { rewrite Hp. cbn [mbind option_bind].
    rewrite blit_record_static, fade_out_done_static, app_nil_r, store_same by done.
    reflexivity. }
  destruct (decide (tick_count yg - window.anim_start w
                    >= yutani_animation_lengths (window.anim_mode w))) as [Hf|Hf].
  - destruct (decide (window.anim_mode w = YUTANI_EFFECT_FADE_OUT)) as [Ho|Ho].
    + rewrite blit_record_fade_out, store_same by done.
      unfold fade_out_done. rewrite bool_decide_true; [done|].
      split; [done|]. by rewrite <- Ho.
    + assert (cairo_paint yg (window.set_anim_start 0
                                (window.set_anim_mode YUTANI_EFFECT_NONE w)) = Some ())
        as -> by (unfold cairo_paint; rewrite (surface_backed_fields yg yg w) by done;
               by rewrite Hs).
      cbn [mbind option_bind].
      unfold blit_record. rewrite decide_True by done.
      unfold fade_out_done. rewrite bool_decide_false by (by intros [? _]).
      by rewrite app_nil_r.
  - rewrite Hp. cbn [mbind option_bind].
    unfold blit_record. rewrite decide_False by (by intros (_ & _ & ?)).
    unfold fade_out_done. rewrite bool_decide_false.
    + by rewrite app_nil_r, store_same.
    + intros [Ho Hd]. apply Hf. by rewrite Ho.
Qed.

(* the pass over a list of windows: which records it resets and which
   windows it queues for removal *)
Lemma blit_all_spec (l : list ptr) : ∀ yg acc,
  (∀ q, q ∈ l → backed yg q) →
  ∃ h, blit_all l (yg, acc)
       = Some (set_heap h yg,
               acc ++ List.filter
                        (λ q, from_option (fade_out_done (tick_count yg)) false
                                (heap yg !! q)) l)
     ∧ ∀ q, h !! q
            = (if decide (q ∈ l) then blit_record (tick_count yg) else id) <$> heap yg !! q.
Proof.
  induction l as [|a l IH]; intros yg acc Hv.
  - exists (heap yg). cbn [blit_all List.filter]. rewrite app_nil_r, set_heap_same.
    split; [done|]. intros q. rewrite decide_False by (by intros ?%elem_of_nil).
    by destruct (heap yg !! q).
  - destruct (Hv a) as (wa & Ha & Hsa); [by left|].
    cbn [blit_all]. rewrite (yutani_blit_window_spec _ _ _ _ Ha Hsa).
    cbn [mbind option_bind].
    set (s1 := store yg a (blit_record (tick_count yg) wa)).
    assert (Hs1 : ∀ q, heap s1 !! q
                       = if decide (q = a) then Some (blit_record (tick_count yg) wa)
                         else heap yg !! q).
    { intros q. unfold s1, store. cbn [heap set_heap]. case_decide as Hq.
      - subst q. apply list_lookup_insert_eq. by eapply lookup_lt_Some.
      - by apply list_lookup_insert_ne. }
    destruct (IH s1 (acc ++ (if fade_out_done (tick_count yg) wa then [a] else [])))
      as (h & Hb & Hh).
    { intros q Hq. unfold backed. rewrite Hs1. case_decide.
      - eexists. split; [done|].
        change (surface_backed s1 ?v) with (surface_backed yg v).
        by rewrite surface_backed_blit_record.
      - apply Hv. by right. }
    rewrite Hb. exists h. split.
    + change (tick_count s1) with (tick_count yg).
      change (set_heap h s1) with (set_heap h yg).
      do 2 f_equal. cbn [List.filter]. rewrite Ha. cbn [from_option].
      rewrite <- app_assoc. f_equal.
      rewrite (filter_pointwise
                 (λ q, from_option (fade_out_done (tick_count yg)) false (heap s1 !! q))
                 (λ q, from_option (fade_out_done (tick_count yg)) false (heap yg !! q))).
      * by destruct (fade_out_done (tick_count yg) wa).
      * intros q _. rewrite Hs1. case_decide as Hq; [|done]. subst q. rewrite Ha.
        cbn [from_option]. apply fade_out_done_blit_record.
    + intros q. rewrite Hh, Hs1. change (tick_count s1) with (tick_count yg).
      destruct (decide (q = a)) as [->|Hne].
      * rewrite Ha, (decide_True (P := a ∈ a :: l)) by by left.
        cbn [fmap option_fmap option_map]. case_decide; [|done].
        by rewrite blit_record_idemp.
      * destruct (decide (q ∈ l)) as [Hin|Hnin].
        -- by rewrite (decide_True (P := q ∈ a :: l)) by by right.
        -- rewrite (decide_False (P := q ∈ a :: l)); [done|].
           intros [?|?]%elem_of_cons; done.
Qed.

(* the marking of the animated windows of a list *)
Lemma foreach_mark_if_animated (l : list ptr) : ∀ yg,
  (∀ q, q ∈ l → is_Some (heap yg !! q)) →
  ∃ rs, foreach l mark_if_animated yg
        = Some (set_update_list (update_list yg ++ rs) yg)
      ∧ (rs = [] ↔ ∀ q w, q ∈ l → heap yg !! q = Some w →
                     window.anim_mode w = YUTANI_EFFECT_NONE).
Proof.
  induction l as [|a l IH]; intros yg Hv.
  - exists []. cbn [foreach]. rewrite app_nil_r, set_update_list_same.
    split; [done|]. split; [|done]. by intros _ q w ?%elem_of_nil.
  - destruct (Hv a) as [wa Ha]; [by left|].
    cbn [foreach].
    assert (mark_if_animated yg a
            = if decide (window.anim_mode wa = YUTANI_EFFECT_NONE)
              then Some yg else mark_window yg a) as ->
      by (unfold mark_if_animated; by rewrite Ha).
    destruct (decide (window.anim_mode wa = YUTANI_EFFECT_NONE)) as [H0|H0].
    + cbn [mbind option_bind].
      destruct (IH yg) as (rs & Hf & Hrs); [intros q Hq; apply Hv; by right|].
      exists rs. split; [exact Hf|]. rewrite Hrs. split.
      * intros Hall q w [->|Hq]%elem_of_cons Hl; [congruence|by eapply Hall].
      * intros Hall q w Hq Hl. apply (Hall q w); [by right|done].
    + destruct (mark_window_Some yg a wa Ha) as [r ->]. cbn [mbind option_bind].
      unfold list_h.list_insert.
      set (s1 := set_update_list (update_list yg ++ [r]) yg).
      destruct (IH s1) as (rs & Hf & Hrs); [intros q Hq; apply (Hv q); by right|].
      rewrite Hf. exists (r :: rs). split.
      * change (update_list s1) with (update_list yg ++ [r]).
        change (set_update_list ((update_list yg ++ [r]) ++ rs) s1)
          with (set_update_list ((update_list yg ++ [r]) ++ rs) yg).
        by rewrite <- app_assoc.
      * split; [done|]. intros Hall. destruct H0. apply (Hall a wa); [by left|done].
Qed.

Lemma elem_of_option_list (o : option ptr) (q : ptr) : q ∈ option_list o ↔ o = Some q.
Proof.
  destruct o as [p|]; cbn.
  - rewrite list_elem_of_singleton. split; [by intros ->|by intros [= ->]].
  - split; [by intros ?%elem_of_nil|done].
Qed.

Lemma zorder_wf_back_to_front yg :
  zorder_wf yg →
  NoDup (back_to_front yg)
  ∧ (∀ q, q ∈ back_to_front yg ↔ in_tier yg q)
  ∧ (∀ q, in_tier yg q → is_Some (heap yg !! q)).
Proof.
  intros Hwf. pose proof zorder_top_bottom as Htb.
  assert (Hin : ∀ q, q ∈ back_to_front yg ↔ in_tier yg q).
  { intros q. unfold back_to_front, in_tier.
    by rewrite !elem_of_app, !elem_of_option_list. }
  assert (Hv : ∀ q, in_tier yg q → is_Some (heap yg !! q)).
  { intros q [Hq|[Hq|Hq]].
    - destruct (wf_bottom _ Hwf q Hq) as (w & -> & _). by eexists.
    - destruct (wf_mid _ Hwf q Hq) as (w & -> & _). by eexists.
    - destruct (wf_top _ Hwf q Hq) as (w & -> & _). by eexists. }
  split_and!; [|done|done].
  unfold back_to_front. apply NoDup_app. split_and!.
  - destruct (bottom_z yg); cbn; [apply NoDup_singleton|constructor].
  - intros q Hq%elem_of_option_list.
    destruct (wf_bottom _ Hwf q Hq) as (wb & Hlb & Hzb).
    rewrite elem_of_app, elem_of_option_list. intros [Hm|Ht].
    + destruct (wf_mid _ Hwf q Hm) as (w' & Hl' & _ & Hnb). congruence.
    + destruct (wf_top _ Hwf q Ht) as (w' & Hl' & Hzt). congruence.
  - apply NoDup_app. split_and!.
    + apply Hwf.
    + intros q Hm Ht%elem_of_option_list.
      destruct (wf_top _ Hwf q Ht) as (w' & Hl' & Hzt).
      destruct (wf_mid _ Hwf q Hm) as (w'' & Hl'' & Hnt & _). congruence.
    + destruct (top_z yg); cbn; [apply NoDup_singleton|constructor].
Qed.

Lemma draw_resizing_box_is_Some yg : resizing_valid yg → is_Some (draw_resizing_box yg).
Proof.
  intros Hv. unfold draw_resizing_box.
  destruct (resizing_window yg) as [rw|] eqn:E; [|by eexists].
  destruct (Hv rw E) as [w ->]. by eexists.
Qed.

(* the shape viewer completes when the hit test does at every point *)
Lemma debug_shapes_scan_is_Some yg mx my :
  buffers_fit yg → (∀ p, in_tier yg p → is_Some (heap yg !! p)) →
  is_Some (debug_shapes_scan yg mx my).
Proof.
  intros Hf Hv. unfold debug_shapes_scan. cbv zeta.
  match goal with |- is_Some (mapM ?f ?l ≫= _) =>
    assert (is_Some (mapM f l)) as [rows ->] end; [|by eexists].
  apply mapM_is_Some_2, Forall_forall. intros y _. unfold compose.
  apply mapM_is_Some_2, Forall_forall. intros x _. unfold compose.
  rewrite (top_at_fit yg x y Hf). cbn [mbind option_bind].
  destruct (top_at_spec yg (uint16 x) (uint16 y)) as [p|] eqn:E; [|by eexists].
  destruct (Hv p (top_at_spec_in_tier _ _ _ _ E)) as [win ->]. cbn [mbind option_bind].
  destruct (color_for_wid_is_Some (window.wid win)) as [c ->]. by eexists.
Qed.

(** A frame as one pass, when the buffers of the stacked windows hold
    their pixels and the window being resized, if any, is a record: the
    records of the stacked windows are updated by [blit_record], and the
    stacked windows whose fade-out has run its length are closed, the last
    one queued first. *)
Lemma redraw_windows_spec yg :
  zorder_wf yg → buffers_fit yg → resizing_valid yg →
  ∃ h, redraw_windows yg
       = foreach
           (reverse (List.filter
                       (λ q, from_option (fade_out_done (tick_count yg + 10)) false
                               (heap yg !! q))
                       (back_to_front yg)))
           window_actually_close (set_heap h (frame_start yg))
     ∧ ∀ q, h !! q
            = (if decide (q ∈ back_to_front yg)
               then blit_record (tick_count yg + 10) else id) <$> heap yg !! q.
Proof.
  intros Hwf Hfit Hrv. destruct (zorder_wf_back_to_front yg Hwf) as (_ & Hin & Hval).
  pose proof (proj1 (buffers_fit_alt yg) Hfit) as Hbk.
  assert (Hb : ∀ q, q ∈ option_list (bottom_z yg) → is_Some (heap yg !! q)).
  { intros q Hq. apply Hval, Hin. unfold back_to_front. rewrite !elem_of_app. eauto. }
  assert (Hm : ∀ q, q ∈ mid_zs yg → is_Some (heap yg !! q)).
  { intros q Hq. apply Hval, Hin. unfold back_to_front. rewrite !elem_of_app. eauto. }
  assert (Ht : ∀ q, q ∈ option_list (top_z yg) → is_Some (heap yg !! q)).
  { intros q Hq. apply Hval, Hin. unfold back_to_front. rewrite !elem_of_app. eauto. }
  assert (Kb : ∀ q, q ∈ option_list (bottom_z yg) → backed (frame_start yg) q).
  { intros q Hq. apply (Hbk q), Hin. unfold back_to_front. rewrite !elem_of_app. eauto. }
  assert (Km : ∀ q, q ∈ mid_zs yg → backed (frame_start yg) q).
  { intros q Hq. apply (Hbk q), Hin. unfold back_to_front. rewrite !elem_of_app. eauto. }
  assert (Kt : ∀ q, q ∈ option_list (top_z yg) → backed (frame_start yg) q).
  { intros q Hq. apply (Hbk q), Hin. unfold back_to_front. rewrite !elem_of_app. eauto. }
  unfold redraw_windows. cbv zeta.
  set (y0 := set_tick_count (tick_count _ + 10) _).
  destruct (foreach_mark_if_animated (option_list (bottom_z y0)) y0 Hb) as (r1 & E1 & I1).
  rewrite E1. cbn [mbind option_bind].
  set (y1 := set_update_list (update_list y0 ++ r1) y0).
  destruct (foreach_mark_if_animated (option_list (top_z y1)) y1 Ht) as (r2 & E2 & I2).
  rewrite E2. cbn [mbind option_bind].
  set (y2 := set_update_list (update_list y1 ++ r2) y1).
  destruct (foreach_mark_if_animated (mid_zs y2) y2 Hm) as (r3 & E3 & I3).
  rewrite E3. cbn [mbind option_bind].
  set (y3 := set_update_list (update_list y2 ++ r3) y2).
  change (set_update_list [] y3) with (frame_start yg).
  change (update_list y3) with (((update_list yg ++ r1) ++ r2) ++ r3).
  match goal with |- context [decide (?n = 0)] => destruct (decide (n = 0)) as [Hz|Hnz] end.
  - (* nothing to draw: no stacked window is animated *)
    assert (((update_list yg ++ r1) ++ r2) ++ r3 = []) as Hnil.
    { destruct (decide (((update_list yg ++ r1) ++ r2) ++ r3 = [])); [done|].
      exfalso. lia. }
    apply app_eq_nil in Hnil as [Hnil Hr3]. apply app_eq_nil in Hnil as [Hnil Hr2].
    apply app_eq_nil in Hnil as [_ Hr1].
    assert (Hstatic : ∀ q w, q ∈ back_to_front yg → heap yg !! q = Some w →
                        window.anim_mode w = YUTANI_EFFECT_NONE).
    { intros q w Hq Hl. unfold back_to_front in Hq. rewrite !elem_of_app in Hq.
      destruct Hq as [Hq|[Hq|Hq]].
      - by apply (proj1 I1 Hr1 q w).
      - by apply (proj1 I3 Hr3 q w).
      - by apply (proj1 I2 Hr2 q w). }
    exists (heap yg). split.
    + rewrite filter_none.
      * cbn [reverse foreach]. unfold reverse. cbn [rev_append foreach].
        change (heap yg) with (heap (frame_start yg)). by rewrite set_heap_same.
      * intros q Hq. destruct (heap yg !! q) as [w|] eqn:Hl; [|done].
        cbn [from_option]. apply fade_out_done_static. by eapply Hstatic.
    + intros q. destruct (decide (q ∈ back_to_front yg)) as [Hq|Hq];
        destruct (heap yg !! q) as [w|] eqn:Hl; try done.
      cbn. f_equal. symmetry. apply blit_record_static. by eapply Hstatic.
  - destruct (blit_all_spec (option_list (bottom_z (frame_start yg))) (frame_start yg) [] Kb)
      as (h1 & B1 & L1).
    rewrite B1. cbn [mbind option_bind fst snd].
    set (s1 := set_heap h1 (frame_start yg)).
    assert (V1 : ∀ q, is_Some (heap yg !! q) → is_Some (heap s1 !! q)).
    { intros q Hq. change (heap s1 !! q) with (h1 !! q). rewrite L1.
      by apply fmap_is_Some_lookup. }
    assert (K1 : ∀ q, backed (frame_start yg) q → backed s1 q).
    { intros q. refine (backed_map (frame_start yg) s1 _ q eq_refl _ _);
        [|change (heap s1 !! q) with (h1 !! q); rewrite L1; reflexivity].
      apply blit_or_id_fields. }
    destruct (blit_all_spec (mid_zs s1) s1
                ([] ++ List.filter
                         (λ q, from_option (fade_out_done (tick_count (frame_start yg))) false
                                 (heap (frame_start yg) !! q))
                         (option_list (bottom_z (frame_start yg)))))
      as (h2 & B2 & L2); [intros q Hq; by apply K1, Km|].
    rewrite B2. cbn [mbind option_bind fst snd].
    set (s2 := set_heap h2 s1).
    assert (V2 : ∀ q, is_Some (heap yg !! q) → is_Some (heap s2 !! q)).
    { intros q Hq. change (heap s2 !! q) with (h2 !! q). rewrite L2.
      by apply fmap_is_Some_lookup, V1. }
    assert (K2 : ∀ q, backed s1 q → backed s2 q).
    { intros q. refine (backed_map s1 s2 _ q eq_refl _ _);
        [|change (heap s2 !! q) with (h2 !! q); rewrite L2; reflexivity].
      apply blit_or_id_fields. }
    match goal with |- context [blit_all ?l (s2, ?acc)] =>
      destruct (blit_all_spec l s2 acc) as (h3 & B3 & L3);
        [intros q Hq; by apply K2, K1, Kt|] end.
    rewrite B3. cbn [mbind option_bind fst snd].
    set (s3 := set_heap h3 s2).
    assert (V3 : ∀ q, is_Some (heap yg !! q) → is_Some (heap s3 !! q)).
    { intros q Hq. change (heap s3 !! q) with (h3 !! q). rewrite L3.
      by apply fmap_is_Some_lookup, V2. }
    assert (K3 : ∀ q, backed s2 q → backed s3 q).
    { intros q. refine (backed_map s2 s3 _ q eq_refl _ _);
        [|change (heap s3 !! q) with (h3 !! q); rewrite L3; reflexivity].
      apply blit_or_id_fields. }
    destruct (draw_resizing_box_is_Some s3) as [box ->].
    { intros rw Hrw. apply V3, (Hrv rw), Hrw. }
    cbn [mbind option_bind].
    match goal with |- context [if decide (debug_shapes s3 ≠ 0) then ?a else ?b] =>
      assert (is_Some (if decide (debug_shapes s3 ≠ 0) then a else b)) as [shapes ->]
    end.
    { destruct (decide (debug_shapes s3 ≠ 0)); [|by eexists]. apply debug_shapes_scan_is_Some.
      - apply buffers_fit_alt. intros q Hq. apply K3, K2, K1, (Hbk q), Hq.
      - intros q Hq. apply V3, Hval, Hq. }
    cbn [mbind option_bind]. subst s3.
    change (set_heap h3 s2) with (set_heap h3 (frame_start yg)).
    change (tick_count s2) with (tick_count yg + 10).
    change (tick_count s1) with (tick_count yg + 10).
    change (tick_count (frame_start yg)) with (tick_count yg + 10).
    change (heap (frame_start yg)) with (heap yg).
    change (bottom_z (frame_start yg)) with (bottom_z yg).
    change (mid_zs s1) with (mid_zs yg).
    change (top_z s2) with (top_z yg).
    change (heap s1) with h1 in *. change (heap s2) with h2 in *.
    change (tick_count s2) with (tick_count yg + 10) in L3.
    change (tick_count s1) with (tick_count yg + 10) in L2.
    change (tick_count (frame_start yg)) with (tick_count yg + 10) in L1.
    change (heap (frame_start yg)) with (heap yg) in L1.
    change (bottom_z (frame_start yg)) with (bottom_z yg) in L1.
    change (mid_zs s1) with (mid_zs yg) in L2.
    change (top_z s2) with (top_z yg) in L3.
    exists h3. split.
    + f_equal. f_equal. unfold back_to_front. rewrite !List.filter_app.
      rewrite app_nil_l, <- app_assoc. f_equal.
      f_equal; apply filter_pointwise; intros q _; rewrite ?L2, ?L1;
        by rewrite !closing_fmap.
    + intros q. rewrite L3, L2, L1. unfold back_to_front.
      destruct (heap yg !! q) as [w|]; [|done]. cbn [fmap option_fmap option_map].
      f_equal.
      destruct (decide (q ∈ option_list (bottom_z yg))),
               (decide (q ∈ mid_zs yg)),
               (decide (q ∈ option_list (top_z yg)));
        (rewrite decide_True by (rewrite !elem_of_app; eauto))
        || (rewrite decide_False by (rewrite !elem_of_app; naive_solver));
        cbn [id]; by rewrite ?blit_record_idemp.
Qed.

End Frame.

(** ** The end of an animation *)

Section FrameClose.
Context `{YutaniConsts}.
Implicit Types yg : yutani_globals_t.

Lemma unorder_window_focused yg w yg' :
  unorder_window yg w = Some yg' → focused_window yg' = focused_window yg.
Proof.
  unfold unorder_window. intros Hu. apply bind_Some in Hu as (win & _ & Hu).
  repeat case_decide; [by injection Hu as <-..|].
  destruct (list_h.list_find _ _); by injection Hu as <-.
Qed.

Lemma unorder_window_tick_count yg w yg' :
  unorder_window yg w = Some yg' → tick_count yg' = tick_count yg.
Proof.
  unfold unorder_window. intros Hu. apply bind_Some in Hu as (win & _ & Hu).
  repeat case_decide; [by injection Hu as <-..|].
  destruct (list_h.list_find _ _); by injection Hu as <-.
Qed.

(* closing a window of the stacking order *)
Lemma window_actually_close_spec yg a wa :
  zorder_wf yg → in_tier yg a → heap yg !! a = Some wa →
  ∃ yg', window_actually_close yg a = Some yg'
    ∧ heap yg' = <[a := window.set_z (uint16 (-1)) wa]> (heap yg)
    ∧ wids_to_windows yg' = delete (window.wid wa) (wids_to_windows yg)
    ∧ shm yg' = delete (window.bufid wa) (shm yg)
    ∧ ¬ in_tier yg' a
    ∧ (∀ q, q ≠ a → in_tier yg' q ↔ in_tier yg q)
    ∧ focused_window yg'
      = (if decide (Some a = focused_window yg) then None else focused_window yg)
    ∧ tick_count yg' = tick_count yg.
Proof.
  intros Hwf Hin Hl. unfold window_actually_close. rewrite Hl. cbn [mbind option_bind].
  set (ya := set_windows _ (set_wids_to_windows _ yg)).
  assert (Hla : heap ya !! a = Some wa) by exact Hl.
  destruct (unorder_window_is_Some ya a wa Hla) as [y1 Hu].
  rewrite Hu. cbn [mbind option_bind].
  assert (Hzoa : zorder_wf ya).
  { destruct (zorder_wf_forget_wid yg (window.wid wa) Hwf). by split. }
  destruct (unorder_window_zorder_wf _ _ _ Hzoa Hu) as (Hzo1 & Hnt & Hsub).
  destruct (unorder_window_inv _ _ _ Hu)
    as (win & Hl0 & Hh & Hwd & Hshm & _ & _ & _ & Hcase).
  assert (win = wa) as -> by congruence.
  pose proof (unorder_window_focused _ _ _ Hu) as Hfoc.
  pose proof (unorder_window_tick_count _ _ _ Hu) as Htick.
  assert (Hl1 : heap y1 !! a = Some (window.set_z (uint16 (-1)) wa)).
  { rewrite Hh. apply list_lookup_insert_eq. by eapply lookup_lt_Some. }
  destruct (mark_window_Some y1 a _ Hl1) as [r ->]. cbn [mbind option_bind].
  set (y2 := set_update_list _ y1).
  change (focused_window y2) with (focused_window y1). rewrite Hfoc.
  change (focused_window ya) with (focused_window yg).
  eexists. split; [reflexivity|].
  set (y3 := if decide (Some a = focused_window yg)
             then set_focused_window_field None y2 else y2).
  destruct (notify_subscribers_set_outbox (syscall_shm_release y3 (window.bufid wa)))
    as [o ->].
  assert (heap y3 = heap y1 ∧ wids_to_windows y3 = wids_to_windows y1
          ∧ shm y3 = shm y1 ∧ mid_zs y3 = mid_zs y1 ∧ top_z y3 = top_z y1
          ∧ bottom_z y3 = bottom_z y1 ∧ tick_count y3 = tick_count y1
          ∧ focused_window y3
            = if decide (Some a = focused_window yg) then None else focused_window yg)
    as (Hh3 & Hw3 & Hs3 & Hm3 & Ht3 & Hb3 & Htk3 & Hf3).
  { unfold y3. case_decide; cbn; by rewrite ?Hfoc. }
  assert (Htier : ∀ q, in_tier (set_outbox o (syscall_shm_release y3 (window.bufid wa))) q
                       ↔ in_tier y1 q).
  { intros q. unfold in_tier.
    change (bottom_z (set_outbox o (syscall_shm_release y3 (window.bufid wa))))
      with (bottom_z y3).
    change (mid_zs (set_outbox o (syscall_shm_release y3 (window.bufid wa))))
      with (mid_zs y3).
    change (top_z (set_outbox o (syscall_shm_release y3 (window.bufid wa))))
      with (top_z y3).
    by rewrite Hb3, Hm3, Ht3. }
  change (heap (set_outbox o (syscall_shm_release y3 (window.bufid wa)))) with (heap y3).
  change (wids_to_windows (set_outbox o (syscall_shm_release y3 (window.bufid wa))))
    with (wids_to_windows y3).
  change (shm (set_outbox o (syscall_shm_release y3 (window.bufid wa))))
    with (delete (window.bufid wa) (shm y3)).
  change (focused_window (set_outbox o (syscall_shm_release y3 (window.bufid wa))))
    with (focused_window y3).
  change (tick_count (set_outbox o (syscall_shm_release y3 (window.bufid wa))))
    with (tick_count y3).
  rewrite Hh3, Hw3, Hs3, Hf3, Htk3, Hh, Hwd, Hshm, Htick.
  split_and!; try done.
  - by rewrite Htier.
  - intros q Hne. rewrite Htier.
    destruct (zorder_wf_slot_of_z yg a wa Hwf Hin Hl) as (Hzt & Hzb & Hzm).
    rewrite (uint16_id (window.z wa) (wf_z _ Hwf a wa Hl)) in Hcase.
    change (mid_zs ya) with (mid_zs yg) in Hcase.
    change (top_z ya) with (top_z yg) in Hcase.
    change (bottom_z ya) with (bottom_z yg) in Hcase.
    unfold in_tier.
    destruct Hcase as [(Hz & -> & -> & ->)|[(_ & Hz & -> & -> & ->)|(Hnb & Hnt' & -> & -> & ->)]].
    + apply Hzb in Hz. split; [naive_solver|].
      intros [Hq|[Hq|Hq]]; eauto. congruence.
    + apply Hzt in Hz. split; [naive_solver|].
      intros [Hq|[Hq|Hq]]; eauto. congruence.
    + assert (a ∈ mid_zs yg) as Ham by (apply Hzm; done).
      destruct (list_h_find_is_Some _ _ Ham) as [n Hn]. rewrite Hn.
      unfold list_h.list_delete.
      rewrite (delete_NoDup_filter _ n a (wf_mid_nodup _ Hwf) (list_h_find_lookup _ _ _ Hn)).
      rewrite list_elem_of_filter. naive_solver.
Qed.

Lemma closed_le_refl yg : closed_le yg yg.
Proof. unfold closed_le. split_and!; eauto. Qed.

Lemma closed_le_trans yg1 yg2 yg3 :
  closed_le yg1 yg2 → closed_le yg2 yg3 → closed_le yg1 yg3.
Proof.
  intros (Hw1 & Hs1 & Ht1 & Hf1 & Hh1 & Hk1) (Hw2 & Hs2 & Ht2 & Hf2 & Hh2 & Hk2).
  unfold closed_le. split_and!; eauto; [|congruence].
  intros q w Hl. destruct (Hh1 q w Hl) as (w1 & Hl1 & Hw & Hb).
  destruct (Hh2 q w1 Hl1) as (w2 & Hl2 & Hw' & Hb').
  exists w2. split_and!; [done|congruence..].
Qed.

(* closing the queued windows, one after the other *)
Lemma foreach_window_actually_close (acc : list ptr) : ∀ yg,
  registry_wf yg → NoDup acc → (∀ q, q ∈ acc → in_tier yg q) →
  ∃ yg', foreach acc window_actually_close yg = Some yg'
    ∧ registry_wf yg'
    ∧ closed_le yg yg'
    ∧ (∀ q w, q ∈ acc → heap yg !! q = Some w →
         wids_to_windows yg' !! window.wid w = None ∧ ¬ in_tier yg' q
         ∧ shm yg' !! window.bufid w = None ∧ focused_window yg' ≠ Some q)
    ∧ (∀ q, q ∉ acc → heap yg' !! q = heap yg !! q ∧ (in_tier yg' q ↔ in_tier yg q))
    ∧ (∀ q w, q ∉ acc → heap yg !! q = Some w →
         wids_to_windows yg' !! window.wid w = wids_to_windows yg !! window.wid w).
Proof.
  induction acc as [|a acc IH]; intros yg Hwf Hnd Hin.
  - exists yg. cbn [foreach]. split_and!; try done.
    + apply closed_le_refl.
    + by intros q w ?%elem_of_nil.
  - apply NoDup_cons in Hnd as [Ha Hnd].
    destruct (rwf_tier_live _ Hwf a) as (wa & Hla & Hka);
      [apply tier_count_pos, Hin; by left|].
    destruct (window_actually_close_spec yg a wa (rwf_zorder _ Hwf) (Hin a ltac:(by left)) Hla)
      as (y1 & Hc & Hh1 & Hw1 & Hs1 & Hnt1 & Ht1 & Hf1 & Hk1).
    pose proof (window_actually_close_registry_wf _ _ _ Hwf Hc) as Hwf1.
    assert (Hne : ∀ q, q ≠ a → heap y1 !! q = heap yg !! q).
    { intros q Hq. rewrite Hh1. by apply list_lookup_insert_ne. }
    assert (Hcl1 : closed_le yg y1).
    { unfold closed_le. split_and!.
      - intros k Hk. rewrite Hw1. by apply lookup_delete_None; right.
      - intros k Hk. rewrite Hs1. by apply lookup_delete_None; right.
      - intros q Hq. destruct (decide (q = a)) as [->|Hq']; [done|]. by apply Ht1.
      - intros q. rewrite Hf1. by case_decide.
      - intros q w Hl. destruct (decide (q = a)) as [->|Hq'].
        + rewrite Hh1, list_lookup_insert_eq by by eapply lookup_lt_Some.
          assert (w = wa) as -> by congruence. by eexists.
        + rewrite (Hne q Hq'). by exists w.
      - done. }
    destruct (IH y1 Hwf1 Hnd) as (yg' & Hf & Hwf' & Hcl & Hclosed & Hkeep & Hwids).
    { intros q Hq. apply Ht1; [by intros ->|]. apply Hin. by right. }
    exists yg'. cbn [foreach]. rewrite Hc. cbn [mbind option_bind].
    split_and!; [done|done|by eapply closed_le_trans| | |].
    + intros q w [->|Hq]%elem_of_cons Hl.
      * assert (w = wa) as -> by congruence.
        destruct Hcl as (Hcw & Hcs & Hct & Hcf & _).
        split_and!.
        -- apply Hcw. rewrite Hw1. apply lookup_delete_eq.
        -- intros Hx. by apply Hnt1, Hct.
        -- apply Hcs. rewrite Hs1. apply lookup_delete_eq.
        -- intros Hx. apply Hcf in Hx. rewrite Hf1 in Hx. by case_decide.
      * apply Hclosed; [done|]. rewrite Hne; [done|]. by intros ->.
    + intros q [Hqa Hq]%not_elem_of_cons. destruct (Hkeep q Hq) as [Hhq Htq].
      split; [by rewrite Hhq, Hne|]. rewrite Htq. by apply Ht1.
    + intros q w [Hqa Hq]%not_elem_of_cons Hl.
      rewrite (Hwids q w Hq) by by rewrite Hne.
      rewrite Hw1. apply lookup_delete_ne. intros Heq. apply Hqa.
      symmetry. exact (rwf_wid_inj _ Hwf a q wa w Hla Hl Heq).
Qed.

(* the state the windows are closed from has the invariants *)
Lemma frame_blit_registry_wf yg h :
  registry_wf yg →
  (∀ q, h !! q
        = (if decide (q ∈ back_to_front yg)
           then blit_record (tick_count yg + 10) else id) <$> heap yg !! q) →
  registry_wf (set_heap h (frame_start yg))
  ∧ (∀ q, in_tier (set_heap h (frame_start yg)) q ↔ in_tier yg q).
Proof.
  intros Hwf Hh. split; [|done].
  eapply same_core_registry_wf; [|exact Hwf].
  unfold same_core. cbn. split_and!; try done.
  apply list_eq. intros q. rewrite !list_lookup_fmap, Hh.
  destruct (heap yg !! q) as [w|]; [|done]. cbn. f_equal.
  case_decide; [|done]. symmetry. apply wcore_blit_record.
Qed.

(* a frame in a state with the invariants, whose stacked windows have
   buffers that hold their pixels: it completes, and what it closes and what
   it keeps *)
Lemma redraw_windows_outcome yg :
  registry_wf yg → buffers_fit yg → resizing_valid yg →
  ∃ yg', redraw_windows yg = Some yg'
    ∧ (∀ p w, in_tier yg p → heap yg !! p = Some w →
         fade_out_done (tick_count yg + 10) w = true →
         wids_to_windows yg' !! window.wid w = None ∧ ¬ in_tier yg' p
         ∧ shm yg' !! window.bufid w = None ∧ focused_window yg' ≠ Some p)
    ∧ (∀ p w, in_tier yg p → heap yg !! p = Some w →
         fade_out_done (tick_count yg + 10) w = false →
         in_tier yg' p
         ∧ wids_to_windows yg' !! window.wid w = Some p
         ∧ heap yg' !! p = Some (blit_record (tick_count yg + 10) w)).
Proof.
  intros Hwf Hfit Hrv. pose proof (rwf_zorder _ Hwf) as Hzo.
  destruct (redraw_windows_spec yg Hzo Hfit Hrv) as (h & -> & Hh).
  destruct (zorder_wf_back_to_front yg Hzo) as (Hnd & Hin & Hval).
  destruct (frame_blit_registry_wf yg h Hwf Hh) as (Hwf1 & Ht1).
  set (s := set_heap h (frame_start yg)) in *.
  set (acc := List.filter _ (back_to_front yg)).
  assert (Hacc : ∀ q, q ∈ reverse acc
                      ↔ in_tier yg q
                        ∧ from_option (fade_out_done (tick_count yg + 10)) false
                            (heap yg !! q) = true).
  { intros q. unfold acc. by rewrite elem_of_reverse, elem_of_List_filter, Hin. }
  destruct (foreach_window_actually_close (reverse acc) s Hwf1)
    as (yg' & -> & Hwf' & Hcl & Hclosed & Hkeep & Hwids).
  { rewrite reverse_Permutation. by apply NoDup_List_filter. }
  { intros q [Hq _]%Hacc. by apply Ht1. }
  assert (Hs : ∀ p w, in_tier yg p → heap yg !! p = Some w →
                 heap s !! p = Some (blit_record (tick_count yg + 10) w)).
  { intros p w Hp Hl. change (heap s !! p) with (h !! p). rewrite Hh, Hl.
    by rewrite decide_True by by apply Hin. }
  exists yg'. split; [done|]. split.
  - intros p w Hp Hl Hd.
    destruct (Hclosed p (blit_record (tick_count yg + 10) w)) as (Hk & Hnt & Hb & Hf).
    { apply Hacc. by rewrite Hl. }
    { by apply Hs. }
    assert (blit_record (tick_count yg + 10) w = w) as Hbr.
    { apply blit_record_fade_out. unfold fade_out_done in Hd.
      by apply bool_decide_eq_true in Hd as [? _]. }
    rewrite Hbr in Hk, Hb. done.
  - intros p w Hp Hl Hd.
    assert (p ∉ reverse acc) as Hn.
    { rewrite Hacc, Hl. cbn [from_option]. rewrite Hd. by intros [_ ?]. }
    destruct (Hkeep p Hn) as [Hhp Htp].
    split_and!.
    + by apply Htp, Ht1.
    + pose proof (Hwids p (blit_record (tick_count yg + 10) w) Hn (Hs p w Hp Hl)) as Hx.
      assert (window.wid (blit_record (tick_count yg + 10) w) = window.wid w) as He.
      { pose proof (wcore_blit_record (tick_count yg + 10) w) as Hc.
        unfold wcore in Hc. congruence. }
      rewrite He in Hx. rewrite Hx.
      change (wids_to_windows s) with (wids_to_windows yg).
      destruct (rwf_tier_live _ Hwf p) as (w0 & Hl0 & Hk0); [by apply tier_count_pos|].
      by assert (w0 = w) as -> by congruence.
    + rewrite Hhp. by apply Hs.
Qed.

(** X28: in a reachable state in which the buffers of the stacked windows
    hold their pixels (width x height of them) and the window being resized
    by the mouse, if any, is a window record, a frame completes, and a
    window of the stacking order whose fade-out has run its length by the
    new tick (the old tick plus 10) is closed by it: after the frame its
    wid is not registered, it is in no tier of the stacking order, its
    buffer is not mapped, and it is not the focused window. *)
Theorem X28_frame_closes_faded_out_windows yg p w :
  reachable yg → buffers_fit yg → resizing_valid yg →
  in_tier yg p → heap yg !! p = Some w →
  window.anim_mode w = YUTANI_EFFECT_FADE_OUT →
  tick_count yg + 10 - window.anim_start w
    >= yutani_animation_lengths YUTANI_EFFECT_FADE_OUT →
  ∃ yg', redraw_windows yg = Some yg'
    ∧ wids_to_windows yg' !! window.wid w = None
    ∧ ¬ in_tier yg' p
    ∧ shm yg' !! window.bufid w = None
    ∧ focused_window yg' ≠ Some p.
Proof.
  intros Hr Hfit Hrv Hin Hl Ha Hd.
  destruct (redraw_windows_outcome yg (reachable_registry_wf _ Hr) Hfit Hrv)
    as (yg' & Hf & Hc & _).
  exists yg'. split; [done|]. apply (Hc p w Hin Hl).
  unfold fade_out_done. by apply bool_decide_eq_true.
Qed.

(** X29: in a reachable state in which the buffers of the stacked windows
    hold their pixels and the window being resized by the mouse, if any, is
    a window record, a frame completes and keeps every window of the
    stacking order whose fade-out has not run its length by the new tick:
    the window stays in the stacking order and registered under its wid.
    Of its record only the animation can change: a fade-in that has run its
    length is reset to no animation with start 0, and any other record is
    left as it is. *)
Theorem X29_frame_keeps_the_other_windows yg p w :
  reachable yg → buffers_fit yg → resizing_valid yg →
  in_tier yg p → heap yg !! p = Some w →
  ¬ (window.anim_mode w = YUTANI_EFFECT_FADE_OUT
     ∧ tick_count yg + 10 - window.anim_start w
       >= yutani_animation_lengths YUTANI_EFFECT_FADE_OUT) →
  ∃ yg', redraw_windows yg = Some yg'
    ∧ in_tier yg' p
    ∧ wids_to_windows yg' !! window.wid w = Some p
    ∧ heap yg' !! p
      = Some (if decide (window.anim_mode w = YUTANI_EFFECT_FADE_IN
                         ∧ tick_count yg + 10 - window.anim_start w
                           >= yutani_animation_lengths YUTANI_EFFECT_FADE_IN)
              then window.set_anim_start 0 (window.set_anim_mode YUTANI_EFFECT_NONE w)
              else w).
Proof.
  intros Hr Hfit Hrv Hin Hl Hn.
  destruct (redraw_windows_outcome yg (reachable_registry_wf _ Hr) Hfit Hrv)
    as (yg' & Hf & _ & Hk).
  exists yg'. split; [done|].
  destruct (Hk p w Hin Hl) as (Ht & Hw & Hh).
  { unfold fade_out_done. by apply bool_decide_eq_false. }
  split_and!; [done|done|]. rewrite Hh. f_equal. unfold blit_record.
  destruct (window.anim_mode w) eqn:E.
  - rewrite !decide_False; [done|by intros [? _]|by intros [? _]].
  - destruct (decide (tick_count yg + 10 - window.anim_start w
                      >= yutani_animation_lengths YUTANI_EFFECT_FADE_IN)) as [Hc|Hc].
    + by rewrite !decide_True by by split_and!.
    + rewrite !decide_False; [done|by intros [_ ?]|by intros (_ & _ & ?)].
  - rewrite !decide_False; [done|by intros [? _]|by intros (_ & ? & _)].
Qed.

(** X30: in a reachable state whose stacked windows have no animation and
    have buffers that hold their pixels, and in which the window being
    resized by the mouse, if any, is a window record, a frame changes no
    window, no registration, nothing of the stacking order, of the focus or
    of the transport, whatever the damage list holds: it adds 10 to the
    tick, saves the pointer position and empties the damage list. *)
Theorem X30_frame_without_animation_changes_no_window yg :
  reachable yg → buffers_fit yg → resizing_valid yg →
  (∀ p w, in_tier yg p → heap yg !! p = Some w →
     window.anim_mode w = YUTANI_EFFECT_NONE) →
  redraw_windows yg
  = Some (set_update_list []
            (set_tick_count (tick_count yg + 10)
               (set_last_mouse_y (mouse_y yg) (set_last_mouse_x (mouse_x yg) yg)))).
Proof.
  intros Hr Hfit Hrv Hstatic.
  pose proof (rwf_zorder _ (reachable_registry_wf _ Hr)) as Hzo.
  destruct (redraw_windows_spec yg Hzo Hfit Hrv) as (h & -> & Hh).
  destruct (zorder_wf_back_to_front yg Hzo) as (_ & Hin & _).
  rewrite filter_none.
  - unfold reverse. cbn [rev_append foreach]. f_equal.
    assert (h = heap (frame_start yg)) as ->; [|by rewrite set_heap_same].
    apply list_eq. intros q. rewrite Hh. change (heap (frame_start yg)) with (heap yg).
    destruct (decide (q ∈ back_to_front yg)) as [Hq|Hq];
      destruct (heap yg !! q) as [w|] eqn:Hl; try done.
    cbn. f_equal. apply blit_record_static. apply (Hstatic q w); [by apply Hin|done].
  - intros q Hq. destruct (heap yg !! q) as [w|] eqn:Hl; [|done].
    cbn [from_option]. apply fade_out_done_static. apply (Hstatic q w); [by apply Hin|done].
Qed.

End FrameClose.

(** ** The further properties on the scenes *)

Lemma frames_reachable `{YutaniConsts} n yg : reachable yg → reachable (frames n yg).
Proof.
  intros Hr. unfold frames. destruct (redraw_n n yg) as [yg'|] eqn:E; cbn; [|done].
  by eapply redraw_n_reachable.
Qed.

Section MoreExamples.
#[local] Existing Instance sample_consts.

Lemma X1_witness :
  ∃ w, heap two_windows !! 0%nat = Some w
    ∧ (window_is_top w = true ↔ top_z two_windows = Some 0%nat)
    ∧ (window_is_bottom w = true ↔ bottom_z two_windows = Some 0%nat)
    ∧ (window_is_top w = false ∧ window_is_bottom w = false ↔ 0%nat ∈ mid_zs two_windows)
    ∧ NoDup (mid_zs two_windows).
Proof.
  eexists. split; [vm_compute; reflexivity|].
  apply (X1_z_tests_agree_with_slots two_windows 0%nat).
  - apply replay_reachable.
  - apply tier_count_pos. vm_compute. lia.
  - vm_compute. reflexivity.
Defined.

Lemma X2_witness :
  ∃ w v, heap two_windows !! 0%nat = Some w ∧ heap two_windows !! 1%nat = Some v
    ∧ window.wid w ≠ window.wid v
    ∧ window.bufid w ≠ window.bufid v
    ∧ window.bufid w ≠ window.newbufid v
    ∧ window.newbufid w ≠ window.bufid w
    ∧ window.wid w < next_wid_static two_windows
    ∧ 1 <= window.bufid w < next_buf_id_static two_windows.
Proof.
  eexists _, _. split; [vm_compute; reflexivity|]. split; [vm_compute; reflexivity|].
  apply (X2_window_ids_are_unique two_windows 0%nat 1%nat).
  - apply replay_reachable.
  - vm_compute. reflexivity.
  - vm_compute. reflexivity.
  - lia.
Defined.

Lemma X3_witness :
  (∃ w r, heap two_windows !! 0%nat = Some w ∧ window.wid w = 1
          ∧ window.buffer w = Some (window.bufid w)
          ∧ shm two_windows !! window.bufid w = Some r)
  ∧ (∀ k', wids_to_windows two_windows !! k' = Some 0%nat → k' = 1).
Proof.
  apply (X3_wid_lookup_names_a_mapped_window two_windows 1 0%nat).
  - apply replay_reachable.
  - vm_compute. reflexivity.
Defined.

Lemma X4_witness :
  ∃ w, heap two_windows !! 1%nat = Some w
       ∧ wids_to_windows two_windows !! window.wid w = Some 1%nat.
Proof.
  apply (X4_stacked_windows_are_registered two_windows 1%nat).
  - apply replay_reachable.
  - apply tier_count_pos. vm_compute. lia.
Defined.

Lemma X5_witness :
  ∃ w, heap two_windows !! 0%nat = Some w
    ∧ device_to_window two_windows (Some 0%nat)
        (window_to_device w 3 4).1 (window_to_device w 3 4).2 (0, 0) = Some (3, 4)
    ∧ ∃ c, device_to_window two_windows (Some 0%nat) 3 4 (0, 0) = Some c
           ∧ window_to_device w c.1 c.2 = (3, 4).
Proof.
  eexists. split; [vm_compute; reflexivity|].
  apply (X5_unrotated_coordinates_round_trip two_windows 0%nat _ 3 4 (0, 0)).
  - vm_compute. reflexivity.
  - vm_compute. reflexivity.
Defined.

Lemma X6_witness :
  ∃ w, heap two_windows !! 0%nat = Some w
    ∧ mark_window two_windows 0%nat
      = mark_window_relative two_windows 0%nat 0 0 (window.width w) (window.height w).
Proof.
  eexists. split; [vm_compute; reflexivity|].
  apply (X6_mark_window_is_mark_window_relative two_windows 0%nat).
  vm_compute. reflexivity.
Defined.

Lemma X7_witness :
  ∃ w yg', heap rotated_scene !! 0%nat = Some w
    ∧ window.rotation w = 5
    ∧ mark_window_relative rotated_scene 0%nat 10 10 20 20 = Some yg'
    ∧ ∃ r, update_list yg' = update_list rotated_scene ++ [r]
         ∧ ∀ cx cy, (cx = 10 ∨ cx = 10 + 20) → (cy = 10 ∨ cy = 10 + 20) →
             rect.x r <= (window_to_device w cx cy).1 <= rect.x r + rect.width r
             ∧ rect.y r <= (window_to_device w cx cy).2 <= rect.y r + rect.height r.
Proof.
  eexists _, _. split; [vm_compute; reflexivity|]. split; [vm_compute; reflexivity|].
  split; [vm_compute; reflexivity|].
  apply (X7_damage_of_rotated_region_bounds_its_corners rotated_scene 0%nat _ 10 10 20 20).
  - vm_compute. reflexivity.
  - vm_compute. discriminate.
  - vm_compute. reflexivity.
Defined.

Lemma X8_witness :
  (∃ c, color_for_wid 15 = Some c ∧ c ∈ colors ∧ _ALP c = 255)
  ∧ color_for_wid (15 + 14) = color_for_wid 15.
Proof. apply (X8_color_for_wid_in_table_and_opaque 15). lia. Defined.

Lemma X9_witness :
  ∃ yg' w,
    handle_packet two_windows (packet 9 (YUTANI_MSG_WINDOW_NEW 30 40)) = Some yg'
    ∧ wids_to_windows two_windows !! next_wid_static two_windows = None
    ∧ heap yg' = heap two_windows ++ [w]
    ∧ window.wid w = next_wid_static two_windows ∧ window.owner w = 9
    ∧ window.width w = 30 ∧ window.height w = 40
    ∧ window.x w = 0 ∧ window.y w = 0 ∧ window.z w = 1
    ∧ window.bufid w = next_buf_id_static two_windows
    ∧ window.buffer w = Some (next_buf_id_static two_windows)
    ∧ is_Some (shm yg' !! next_buf_id_static two_windows)
    ∧ window.anim_mode w = YUTANI_EFFECT_FADE_IN
    ∧ wids_to_windows yg'
      = <[next_wid_static two_windows := length (heap two_windows)]>
          (wids_to_windows two_windows)
    ∧ mid_zs yg' = mid_zs two_windows ++ [length (heap two_windows)]
    ∧ top_z yg' = top_z two_windows ∧ bottom_z yg' = bottom_z two_windows
    ∧ outbox yg'
      = outbox two_windows
        ++ Pex_send 9
             (YUTANI_MSG_WINDOW_INIT (next_wid_static two_windows) 30 40
                (next_buf_id_static two_windows))
           :: ((λ c, Pex_send c YUTANI_MSG_NOTIFY) <$> window_subscribers two_windows).
Proof.
  apply (X9_window_new_registers_a_fresh_window two_windows 9 30 40).
  apply replay_reachable.
Defined.

Lemma X10_witness :
  handle_packet (yutani_init 1024 768) (packet 7 (YUTANI_MSG_WINDOW_CLOSE 5))
  = Some (yutani_init 1024 768).
Proof.
  apply (X10_unknown_wid_is_ignored (yutani_init 1024 768) 7 (YUTANI_MSG_WINDOW_CLOSE 5) 5).
  - reflexivity.
  - vm_compute. reflexivity.
Defined.

Lemma X12_witness :
  handle_packet (yutani_init 1024 768) (packet 7 YUTANI_MSG_UNSUBSCRIBE)
  = Some (yutani_init 1024 768)
  ∧ run (yutani_init 1024 768)
      [packet 7 YUTANI_MSG_SUBSCRIBE; packet 7 YUTANI_MSG_UNSUBSCRIBE]
    = Some (yutani_init 1024 768).
Proof.
  apply (X12_subscribe_unsubscribe_round_trip (yutani_init 1024 768) 7).
  simpl. apply not_elem_of_nil.
Defined.

Lemma X13_witness :
  ∃ w, heap two_windows !! 0%nat = Some w ∧
  ∃ yg',
    handle_packet two_windows (packet 7 (YUTANI_MSG_WINDOW_MOVE 1 5 6)) = Some yg'
    ∧ heap yg' = <[0%nat := window.set_y 6 (window.set_x 5 w)]> (heap two_windows)
    ∧ update_list yg'
      = update_list two_windows
        ++ [rect.mk (window.x w) (window.y w) (window.width w) (window.height w);
            rect.mk 5 6 (window.width w) (window.height w)]
    ∧ outbox yg' = outbox two_windows
    ∧ mid_zs yg' = mid_zs two_windows ∧ top_z yg' = top_z two_windows
    ∧ bottom_z yg' = bottom_z two_windows.
Proof.
  eexists. split; [vm_compute; reflexivity|].
  apply (X13_window_move_marks_old_and_new_place two_windows 7 1 0%nat _ 5 6).
  - vm_compute. reflexivity.
  - vm_compute. reflexivity.
  - vm_compute. reflexivity.
Defined.

Lemma X14_witness :
  ∃ w, heap resizing_scene !! 0%nat = Some w ∧ window.newbufid w = 2
    ∧ (window.newbufid w = 0 →
       handle_packet resizing_scene (packet 7 (YUTANI_MSG_RESIZE_DONE 1 50 50 0))
       = Some resizing_scene)
    ∧ (window.newbufid w ≠ 0 →
       handle_packet resizing_scene (packet 7 (YUTANI_MSG_RESIZE_ACCEPT 1 50 50 0))
       = Some (pex_send resizing_scene 7
                 (YUTANI_MSG_RESIZE_BUFID 1 50 50 (window.newbufid w)))).
Proof.
  eexists. split; [vm_compute; reflexivity|]. split; [vm_compute; reflexivity|].
  apply (X14_resize_messages_out_of_order resizing_scene 7 1 0%nat _ 50 50 0).
  - apply replay_reachable.
  - vm_compute. reflexivity.
  - vm_compute. reflexivity.
Defined.

Lemma X15_witness :
  ∃ w, heap two_windows !! 0%nat = Some w
    ∧ (window.z w = YUTANI_ZORDER_TOP ∨ window.z w = YUTANI_ZORDER_BOTTOM
       ∨ 0%nat ∉ mid_zs two_windows →
       make_top two_windows 0%nat = Some two_windows)
    ∧ (0%nat ∈ mid_zs two_windows →
       let yg' := set_mid_zs (filter (λ q, q ≠ 0%nat) (mid_zs two_windows) ++ [0%nat])
                    two_windows in
       make_top two_windows 0%nat = Some yg' ∧ make_top yg' 0%nat = Some yg').
Proof.
  eexists. split; [vm_compute; reflexivity|].
  apply (X15_make_top_raises_within_the_middle two_windows 0%nat).
  - apply replay_reachable.
  - vm_compute. reflexivity.
Defined.

Lemma X16_witness :
  ∃ w, heap two_windows !! 0%nat = Some w ∧
  ∃ yg',
    handle_packet two_windows (packet 7 (YUTANI_MSG_WINDOW_FOCUS 1)) = Some yg'
    ∧ focused_window yg' = Some 0%nat
    ∧ handle_packet yg' (packet 7 (YUTANI_MSG_WINDOW_FOCUS 1)) = Some yg'
    ∧ (focused_window two_windows = Some 0%nat → yg' = two_windows)
    ∧ (focused_window two_windows ≠ Some 0%nat →
       outbox yg'
       = outbox two_windows ++ unfocus_messages two_windows
         ++ Pex_send (window.owner w) (YUTANI_MSG_WINDOW_FOCUS_CHANGE 1 1)
            :: ((λ c, Pex_send c YUTANI_MSG_NOTIFY) <$> window_subscribers two_windows)).
Proof.
  eexists. split; [vm_compute; reflexivity|].
  apply (X16_window_focus_is_idempotent two_windows 7 1 0%nat).
  - apply replay_reachable.
  - vm_compute. reflexivity.
  - vm_compute. reflexivity.
Defined.

Lemma X17_witness :
  let yg := yutani_init 1024 768 in
  let event := {| action := 0; modifiers := 0; keycode := 65 |} in
  let state := {| k_alt := 0 |} in
  ∃ yg1 yg2,
    handle_packet yg (packet 7 (YUTANI_MSG_KEY_BIND 65 0 0)) = Some yg1
    ∧ handle_packet yg1 (packet 0 (YUTANI_MSG_KEY_EVENT 0 event state)) = Some yg2
    ∧ outbox yg2
      = outbox yg
        ++ match get_focused yg ≫= (heap yg !!.) with
           | Some fw =>
               Pex_send 7 (YUTANI_MSG_KEY_EVENT (window.wid fw) event state)
               :: (if decide (0 = YUTANI_BIND_STEAL) then []
                   else [Pex_send (window.owner fw)
                           (YUTANI_MSG_KEY_EVENT (window.wid fw) event state)])
           | None => [Pex_send 7 (YUTANI_MSG_KEY_EVENT (-1) event state)]
           end.
Proof.
  apply (X17_key_bind_round_trip (yutani_init 1024 768) 7 0 65 0 0 0
           {| action := 0; modifiers := 0; keycode := 65 |} {| k_alt := 0 |}).
  - apply reachable_init.
  - lia.
  - lia.
  - reflexivity.
  - reflexivity.
  - vm_compute. discriminate.
Defined.

Lemma X18_witness :
  ∃ yg',
    handle_packet two_windows
      (packet 0 (YUTANI_MSG_MOUSE_EVENT 0 one_step_up YUTANI_MOUSE_EVENT_TYPE_RELATIVE))
    = Some yg'
    ∧ wids_to_windows yg' = wids_to_windows two_windows
    ∧ top_z yg' = top_z two_windows ∧ bottom_z yg' = bottom_z two_windows
    ∧ mid_zs yg' ≡ₚ mid_zs two_windows
    ∧ dom (shm yg') = dom (shm two_windows)
    ∧ next_wid_static yg' = next_wid_static two_windows
    ∧ next_buf_id_static yg' = next_buf_id_static two_windows
    ∧ length (heap yg') = length (heap two_windows)
    ∧ ∀ p w', heap yg' !! p = Some w' →
        ∃ w, heap two_windows !! p = Some w
             ∧ window.wid w' = window.wid w ∧ window.z w' = window.z w
             ∧ window.bufid w' = window.bufid w ∧ window.buffer w' = window.buffer w
             ∧ window.newbufid w' = window.newbufid w
             ∧ window.newbuffer w' = window.newbuffer w.
Proof.
  eexists. split; [vm_compute; reflexivity|].
  apply (X18_input_events_keep_the_registry two_windows 0 0
           (YUTANI_MSG_MOUSE_EVENT 0 one_step_up YUTANI_MOUSE_EVENT_TYPE_RELATIVE)).
  - right. by eexists _, _.
  - vm_compute. reflexivity.
Defined.

Lemma X19_witness :
  ∃ fw, heap tiling_scene !! 1%nat = Some fw ∧
  ∃ panel_h yg' fw',
    panel_height tiling_scene = Some panel_h
    ∧ (top_z tiling_scene = None → panel_h = 0)
    ∧ (∀ t tw, top_z tiling_scene = Some t → heap tiling_scene !! t = Some tw →
         panel_h = window.height tw)
    ∧ window_tile tiling_scene 1%nat 2 2 1 1 = Some yg'
    ∧ heap yg' !! 1%nat = Some fw'
    ∧ window.x fw' = width tiling_scene `quot` 2 * 1
    ∧ window.y fw' = panel_h + (height tiling_scene - panel_h) `quot` 2 * 1
    ∧ window.width fw' = window.width fw ∧ window.height fw' = window.height fw
    ∧ outbox yg'
      = outbox tiling_scene
        ++ [Pex_send (window.owner fw)
              (YUTANI_MSG_RESIZE_OFFER (window.wid fw) (width tiling_scene `quot` 2)
                 ((height tiling_scene - panel_h) `quot` 2) 0)].
Proof.
  eexists. split; [vm_compute; reflexivity|].
  apply (X19_window_tile_cell tiling_scene 1%nat _ 2 2 1 1).
  - apply replay_reachable.
  - vm_compute. reflexivity.
  - vm_compute. intuition congruence.
  - lia.
  - lia.
  - intros ph Hph. vm_compute in Hph. injection Hph as <-.
    unfold fits_int32. vm_compute. intuition congruence.
Defined.

Lemma X20_witness :
  ∃ yg',
    handle_packet two_windows (packet 7 (YUTANI_MSG_WINDOW_STACK 1 YUTANI_ZORDER_TOP))
    = Some yg'
    ∧ handle_packet yg' (packet 7 (YUTANI_MSG_WINDOW_STACK 1 YUTANI_ZORDER_TOP))
      = Some yg'.
Proof.
  apply (X20_window_stack_is_idempotent two_windows 7 1 0%nat YUTANI_ZORDER_TOP).
  - apply replay_reachable.
  - vm_compute. reflexivity.
Defined.


Lemma X22_witness :
  ∃ w, heap moving_scene !! 0%nat = Some w ∧
  let pos := mouse_update_position moving_scene left_held YUTANI_MOUSE_EVENT_TYPE_RELATIVE in
  let nx := mouse_win_x moving_scene
            + (mouse_x pos - mouse_init_x moving_scene) `quot` MOUSE_SCALE in
  let ny := mouse_win_y moving_scene
            + (mouse_y pos - mouse_init_y moving_scene) `quot` MOUSE_SCALE in
  (Z.land (buttons left_held) YUTANI_MOUSE_BUTTON_LEFT ≠ 0 →
   ∃ yg', handle_mouse_event moving_scene left_held YUTANI_MOUSE_EVENT_TYPE_RELATIVE
          = Some yg'
     ∧ heap yg' = <[0%nat := window.set_y ny (window.set_x nx w)]> (heap moving_scene)
     ∧ update_list yg'
       = update_list moving_scene
         ++ [rect.mk (window.x w) (window.y w) (window.width w) (window.height w);
             rect.mk nx ny (window.width w) (window.height w)]
     ∧ mouse_state yg' = YUTANI_MOUSE_STATE_MOVING ∧ mouse_window yg' = Some 0%nat
     ∧ outbox yg' = outbox moving_scene)
  ∧ (Z.land (buttons left_held) YUTANI_MOUSE_BUTTON_LEFT = 0 →
     handle_mouse_event moving_scene left_held YUTANI_MOUSE_EVENT_TYPE_RELATIVE
     = Some (set_mouse_state YUTANI_MOUSE_STATE_NORMAL (set_mouse_window None pos))).
Proof.
  eexists. split; [vm_compute; reflexivity|].
  apply (X22_moving_window_follows_the_pointer moving_scene left_held
           YUTANI_MOUSE_EVENT_TYPE_RELATIVE 0%nat).
  - vm_compute. reflexivity.
  - vm_compute. reflexivity.
  - vm_compute. reflexivity.
  - vm_compute. reflexivity.
Defined.

Lemma X23_witness :
  handle_mouse_event (yutani_init 100 100) left_held YUTANI_MOUSE_EVENT_TYPE_RELATIVE = None.
Proof.
  apply (X23_left_click_without_windows_fails (yutani_init 100 100) left_held
           YUTANI_MOUSE_EVENT_TYPE_RELATIVE).
  - reflexivity.
  - reflexivity.
  - reflexivity.
  - reflexivity.
  - reflexivity.
  - reflexivity.
  - vm_compute. discriminate.
Defined.

Lemma X24_witness :
  ∃ rw, heap mouse_resizing_scene !! 0%nat = Some rw ∧
  let pos := mouse_update_position mouse_resizing_scene one_step_up
               YUTANI_MOUSE_EVENT_TYPE_RELATIVE in
  let nw := window.width rw
            + (mouse_x pos - mouse_init_x mouse_resizing_scene) `quot` MOUSE_SCALE in
  let nh := window.height rw
            + (mouse_y pos - mouse_init_y mouse_resizing_scene) `quot` MOUSE_SCALE in
  ∃ yg', handle_mouse_event mouse_resizing_scene one_step_up
           YUTANI_MOUSE_EVENT_TYPE_RELATIVE = Some yg'
    ∧ outbox yg'
      = outbox mouse_resizing_scene
        ++ [Pex_send (window.owner rw)
              (YUTANI_MSG_RESIZE_OFFER (window.wid rw) nw nh 0)]
    ∧ heap yg' = heap mouse_resizing_scene
    ∧ mouse_state yg' = YUTANI_MOUSE_STATE_NORMAL
    ∧ mouse_window yg' = None ∧ resizing_window yg' = None.
Proof.
  eexists. split; [vm_compute; reflexivity|].
  eapply (X24_mouse_resize_ends_with_an_offer mouse_resizing_scene one_step_up
            YUTANI_MOUSE_EVENT_TYPE_RELATIVE 0%nat 0%nat).
  - vm_compute. reflexivity.
  - vm_compute. reflexivity.
  - vm_compute. reflexivity.
  - vm_compute. reflexivity.
  - vm_compute. reflexivity.
  - vm_compute. reflexivity.
Defined.

Lemma X25_witness :
  handle_packet two_windows (packet 9 YUTANI_MSG_QUERY_WINDOWS)
  = Some (set_outbox
            (outbox two_windows
             ++ concat (advertisement two_windows 9
                          <$> option_list (bottom_z two_windows) ++ mid_zs two_windows
                              ++ option_list (top_z two_windows))
             ++ [Pex_send 9 (YUTANI_MSG_WINDOW_ADVERTISE 0 0 [] 0 None)]) two_windows).
Proof.
  apply (X25_query_windows_lists_the_stack_back_to_front two_windows 9).
  apply replay_reachable.
Defined.

Lemma X26_witness :
  ∃ yg',
    handle_packet two_windows
      {| source := 7; size := 0; magic := 0; data := YUTANI_MSG_HELLO |} = Some yg'
    ∧ (Some [0%nat] = None → yg' = two_windows)
    ∧ clients_to_windows yg' = delete 7 (clients_to_windows two_windows)
    ∧ (∀ p, heap yg' !! p
            = (if decide (p ∈ default [] (Some [0%nat]))
               then marked_for_close (tick_count two_windows) else id)
                <$> heap two_windows !! p)
    ∧ wids_to_windows yg' = wids_to_windows two_windows
    ∧ mid_zs yg' = mid_zs two_windows ∧ top_z yg' = top_z two_windows
    ∧ bottom_z yg' = bottom_z two_windows
    ∧ outbox yg' = outbox two_windows ∧ update_list yg' = update_list two_windows.
Proof.
  apply (X26_disconnect_marks_the_clients_windows two_windows 7 0 YUTANI_MSG_HELLO
           (Some [0%nat])).
  - vm_compute. reflexivity.
  - intros p Hp. apply list_elem_of_singleton in Hp. subst p. vm_compute. eexists. reflexivity.
Defined.

Lemma X27_witness :
  let r := server_window_create (yutani_init 1024 768) 10 10 7 in
  ∃ yg', window_remove_from_client r.2 r.1 = Some yg'
       ∧ clients_to_windows yg' = clients_to_windows (yutani_init 1024 768).
Proof.
  apply (X27_remove_from_client_undoes_create (yutani_init 1024 768) 10 10 7).
  - vm_compute. discriminate.
  - vm_compute. apply not_elem_of_nil.
Defined.

Lemma X28_witness :
  ∃ w, heap closing_scene !! 0%nat = Some w
    ∧ tick_count closing_scene = 250
    ∧ window.anim_mode w = YUTANI_EFFECT_FADE_OUT ∧ window.anim_start w = 0
    ∧ ∃ yg', redraw_windows closing_scene = Some yg'
        ∧ wids_to_windows yg' !! window.wid w = None
        ∧ ¬ in_tier yg' 0%nat
        ∧ shm yg' !! window.bufid w = None
        ∧ focused_window yg' ≠ Some 0%nat.
Proof.
  eexists. split; [vm_compute; reflexivity|]. split; [vm_compute; reflexivity|].
  split; [vm_compute; reflexivity|]. split; [vm_compute; reflexivity|].
  apply (X28_frame_closes_faded_out_windows closing_scene 0%nat).
  - unfold closing_scene. apply frames_reachable, replay_reachable.
  - vm_compute. reflexivity.
  - intros rw Hrw. vm_compute in Hrw. discriminate Hrw.
  - apply tier_count_pos. vm_compute. lia.
  - vm_compute. reflexivity.
  - vm_compute. reflexivity.
  - vm_compute. discriminate.
Defined.

Lemma X29_witness :
  ∃ w, heap two_windows !! 0%nat = Some w
    ∧ ∃ yg', redraw_windows two_windows = Some yg'
        ∧ in_tier yg' 0%nat
        ∧ wids_to_windows yg' !! window.wid w = Some 0%nat
        ∧ heap yg' !! 0%nat
          = Some (if decide (window.anim_mode w = YUTANI_EFFECT_FADE_IN
                             ∧ tick_count two_windows + 10 - window.anim_start w
                               >= yutani_animation_lengths YUTANI_EFFECT_FADE_IN)
                  then window.set_anim_start 0
                         (window.set_anim_mode YUTANI_EFFECT_NONE w)
                  else w).
Proof.
  eexists. split; [vm_compute; reflexivity|].
  apply (X29_frame_keeps_the_other_windows two_windows 0%nat).
  - apply replay_reachable.
  - vm_compute. reflexivity.
  - intros rw Hrw. vm_compute in Hrw. discriminate Hrw.
  - apply tier_count_pos. vm_compute. lia.
  - vm_compute. reflexivity.
  - intros [Hx _]. vm_compute in Hx. discriminate Hx.
Defined.

Lemma X30_witness :
  mid_zs settled_scene = [0%nat; 1%nat]
  ∧ redraw_windows settled_scene
    = Some (set_update_list []
              (set_tick_count (tick_count settled_scene + 10)
                 (set_last_mouse_y (mouse_y settled_scene)
                    (set_last_mouse_x (mouse_x settled_scene) settled_scene)))).
Proof.
  split; [vm_compute; reflexivity|].
  apply (X30_frame_without_animation_changes_no_window settled_scene).
  - unfold settled_scene, two_windows. apply frames_reachable, replay_reachable.
  - vm_compute. reflexivity.
  - intros rw Hrw. vm_compute in Hrw. discriminate Hrw.
  - intros p w Hin Hl. apply tier_count_pos in Hin.
    destruct p as [|[|p]].
    + vm_compute in Hl. injection Hl as <-. reflexivity.
    + vm_compute in Hl. injection Hl as <-. reflexivity.
    + vm_compute in Hl. discriminate Hl.
Defined.

End MoreExamples.

